(* ===== verification/_CoqProject ===== *)
-Q . S2P
Prelude.v
JsNumber.v
Values.v
Shifts.v
Rounding.v
Nearest.v
SFArith.v
JsArith.v
JsString.v
NumberToString.v
Base64.v
Labels.v
Geometry.v
Describe.v
Exact.v
Configuration.v
Collaborators.v
Cycle.v
Thrown.v
Lifecycle.v
Console.v
Protocol.v
Async.v
Screen.v
Scheduler.v
Monitors.v
Teardown.v
