(* ===== verification/Prelude.v ===== *)
(** * SeeWithYou: a verification development for [src/app/(tabs)/index.tsx]

    ** The program

    SeeWithYou is a single-screen React Native application.  A tap on the
    capture button runs one cycle ([takePicture]): a photo is taken by the
    native camera module, uploaded to object storage, analysed by a cloud
    vision service that returns labels with bounding boxes, and the labels
    are turned into one English sentence that is displayed and spoken.  When
    the device has a depth sensor, one measured distance replaces the
    per-object distance estimates.  All of it lives in the component
    [HomeScreen] of [index.tsx].

    ** The files, in dependency order

    - [Prelude] (this file): the scope [js_scope], the class [ToBoolean]
      (JavaScript truthiness) with the operator [js_or] for [x || d], the
      tactics and hint databases of the development, and the lemmas on
      lists and strings that several components share.
    - [JsNumber]: JavaScript numbers as the kernel's binary64 floats
      ([PrimFloat.float]), so that the literals and the operators of the
      source are the literals and operators of the model; truthiness of
      numbers; [Math_round]; the order lemmas on [<?] that the threshold
      arguments need, proved through the [SpecFloat] specification of the
      primitive operators.
    - [Values], [Shifts], [Rounding], [Nearest], [SFArith], [JsArith]:
      the arithmetic of the language on exact values.  [Values] gives a
      number its value as a rational ([value]) and shows that the
      comparisons compare values.  [Shifts] and [Rounding] prove what
      the rounding of the format computes ([holds]: the two bits that a
      shift keeps say where the exact value lies between two mantissas;
      [rounds]: the mantissa is shifted to 53 bits and the nearer
      neighbour taken, the even one on a tie); the exact value is a
      rational, so that the same statement serves the product and the
      sum, which start from an integer, and the quotient, which starts
      from its integer part and the place of the rest.  [Nearest] reads
      the result as a value ([SFrounding]); [SFArith] proves it of the
      product, the sum and the quotient of the format, and [JsArith] of
      the operators [*], [+] and [/] of the language ([rounding]).
    - [JsString]: [toLowerCase] (on the ASCII range), [includes]
      (substring test) with its specification, truthiness of strings.
    - [NumberToString]: the conversion of a number to its decimal text
      (the shortest digit string that reads back as the same binary64
      value), which the template literals of lines 120 and 180 apply.
    - [Base64]: [atob] of line 56, the forgiving base64 decoder of the
      runtime (whitespace removed, padding stripped, four characters to
      three bytes), with the reference encoder [encode] against which
      the round trip is stated.
    - [Labels]: the records of the vision service's answer ([BoundingBox],
      [LabelInstance], [Label]), the deny list [excludeCategories], the
      filter [physicalObjects] and the cut [topObjects] (lines 146-175).
    - [Geometry]: [boxArea], the distance phrase [estimateDistance] chosen
      by thresholds on the area, the box centre and the direction phrase
      [directionOf], and [locate], the pair of both for a label (lines
      190-244), each with an abstract version over an enumeration
      ([distance_bucket]; [vertical_of], [horizontal_of] and the table
      [direction_phrase]) and the lemma that the strings of the code are
      the phrases of the abstract version.
    - [Describe]: the sentence assembly of lines 172-265: [leading], the
      loop body [appendObject], the loop [forEach], and [describe], the
      whole pure computation from the labels and the optional measured
      distance to the text; [synthesize] is the specification as a
      concatenation of one [objectClause] per object and
      [describe_refines] the refinement theorem.
    - [Exact]: the thresholds of lines 200-206 and 219-230 and the
      rounding of line 179 on exact values: the table of the
      specification on the exact area ([exact_bucket]) and on the exact
      centre [left + width / 2], [top + height / 2] ([exact_horizontal],
      [exact_vertical]), and the count of tenths nearest to a reading
      ([announces]).
    - [Configuration]: what lines 12-22 compute when the module is
      loaded: the environment variables ([Environment]), [AWS_CONFIG],
      the two clients constructed from it ([rekognitionClient],
      [s3Client]) and [S3_BUCKET], each variable with its placeholder
      ([x || 'placeholder']).
    - [Collaborators]: the interface of the outside world as a record of
      outcomes ([World]): the environment, camera, storage, vision
      service, depth sensor, speech and clock; the two cloud services
      answer to the client that sends the request ([s3Send],
      [rekognitionSend]); the events the program emits ([Event]); the monad
      [Task] of a computation that appends events to a trace, updates the
      React state and may throw, with [try_catch] and [try_finally]; the
      postcondition [post], the relations a task [preserves], and the
      class [CycleFrame] of relations that every event and every write of
      the busy flag or the result respects.
    - [Cycle]: [speakText], [getARKitDistance], [base64ToUint8Array] and
      [takePicture] as tasks, composed as the source composes them, with
      the [try]/[catch]/[finally] of lines 106-284 ([attempt], [recover]);
      [tap], the handler of the current render run on the current state;
      the reference semantics [spoken], [measure], [attempted] and
      [settle] that say, by cases on what the collaborators answer, what
      a call leaves; the class [TapFrame] of relations that the steps of
      a cycle respect.
    - [Thrown]: the [catch] clauses of [speakText] and [takePicture]
      once more, for every value that can be thrown ([Thrown]: an
      object, or [null] and [undefined]), with the plain and the
      optional property reads of lines 82, 271 and 277 ([member],
      [optional]).
    - [Lifecycle]: [checkLiDAR] and the mount effect with its cleanup
      closure (lines 30-53), the life of the screen as the relation
      [session] (the mount, then any number of taps), and the view the
      component renders from its state (lines 287-336).
    - [Console]: the handlers once more with their nine console
      statements (lines 47, 50, 66, 78, 80, 95, 107, 114 and 279), over
      a [Journal] that records the calls to the collaborators and the
      lines of the console in the order in which they happen
      ([checkLiDAR_logged] ... [takePicture_logged], [session_logged]).
    - [Protocol]: checks on adjacent events of a trace ([adjacent]) and
      the properties of the trace of a whole session: utterances follow
      a stop, analyses follow the upload of their object, the depth
      session is never stopped, and every request to the cloud is
      written for the configured bucket ([requests]).
    - [Async]: the handlers once more, as processes ([Proc]) that keep
      every [await] as a suspension ([speakTextProc] ...
      [takePictureProc], [checkLiDARProc]); [run], which forgets the
      suspensions, and [advance], one turn of the event loop; the two
      measures of a process that the machine needs: what an observer of
      its events and writes sees on every path ([guards], [neutral]; for
      the busy flag [flag], [closes], [quiet]) and how often it can
      suspend ([atMost]).
    - [Screen]: what [HomeScreen] returns as a tree of elements
      ([Element], [HomeScreen], lines 287-335) and the style sheet as
      data (Module [styles], lines 338-433).
    - [Scheduler]: the screen on the event loop: a configuration
      ([Config]) of the cells, the values the last render closed over,
      the trace and the suspended handlers; the mount ([mounted]), a
      press of the button of the current view ([press]), the turn of a
      suspended handler ([resume]), a render ([rerender]); the
      configurations [reachable] when every turn is followed by a
      render.
    - [Monitors]: the checks of [Protocol] as observers ([watch]) of the
      events they are about ([isSpeech], [isCloud]), followed through
      the interleavings of the machine.
    - [Teardown]: the unmount on the machine ([teardown], the cleanup
      of lines 32-36 as the first render created it), the turns of the
      handlers that are still in flight ([late]), and the
      configurations after the unmount ([gone]).

    ** How state and operations correspond to the code

    The four [useState] cells of lines 25-28 are the record [ScreenState]
    ([analyzing], [result], [hasLiDAR], [arSessionActive]).  A handler
    reads the state of the render that created it and writes through the
    setters; the model passes the rendered state as an argument and
    threads the written state, so a closure that outlives its render
    (the cleanup of line 32) sees the values it captured.  An [await] on a
    collaborator appends the call to the trace and asks the [World] record
    for its outcome, a function of the trace so far; the order of the
    calls is the order of the statements.  Every theorem holds for every
    [World].  One thing is assumed of the collaborators, in the type of
    [outcome]: what they throw is a value of which properties can be
    read ([JsError]: an error object or a primitive), not [null] or
    [undefined].  [Thrown] says what the [catch] clauses do without
    that assumption.

    The program is modelled twice, and the two are proved to agree.  In
    [Cycle] and [Lifecycle] a handler is a [Task]: it runs from its call
    to its settlement in one piece, which is what happens when nothing
    else is delivered while it waits.  In [Async] the same handler is a
    [Proc], and in [Scheduler] its turns interleave with presses, with
    the turns of other handlers, with renders and, in [Teardown], with
    the unmount.  [run] of the process
    is the task (lemmas [speakText_same] to [checkLiDAR_same]), and a
    cycle of the machine that nothing interrupts leaves what [tap]
    leaves, so the theorems on tasks are theorems on those cycles.  On
    the machine the outcome of a call is decided when the call is made
    and learnt when the handler is resumed; a turn is atomic; every
    [await] is a suspension, also one on a value that has settled, which
    allows more interleavings than the runtime does and none less.  That
    the screen renders before the next event is delivered is the
    assumption under which the machine's invariant holds ([reachable]);
    [stale_view_two_cycles] shows what happens without it.

    ** The theorems

    - language runtime ([JsNumber], [JsString], [NumberToString]): the
      comparison [<?] is a strict order that NaN never satisfies;
      [Math_round] gives the nearest integer, the upper one on a tie,
      as the number of exactly that value ([number_of_Z_exact]);
      [includes] holds exactly when the string decomposes around the
      substring; the text of every finite number has at most 17
      digits and reads back as the number
      ([Number_toString_reads_back]), and no shorter text does
      ([shortest_minimal]); [Number_toString] on the values and layouts
      of the language.
    - configuration ([Configuration], [Protocol]): a constant is its
      variable exactly when the variable is set and not empty, and its
      placeholder otherwise ([configured]); no constant is ever the
      empty string; the two clients share one configuration; over a
      whole session every upload and every analysis names the
      configured bucket, a key made of a timestamp, and the fixed
      content type, label count and confidence ([session_requests]).
    - image bytes ([Base64], [Cycle]): [atob] fails exactly on a length
      of 1 modulo 4 or a character outside the alphabet; what it returns
      is at most three quarters as long as the text; decoding the
      encoding of a byte list gives the list back, through [atob] and
      the copy loop of [base64ToUint8Array].
    - filter ([Labels]): a denied name is excluded whatever else the
      label holds; a label without instances is excluded; the survivors
      are a subsequence of the input; at most three are narrated; the
      deny test is a substring test, with three redundant terms.
    - arithmetic ([Values] to [JsArith]): a product, a sum or a quotient
      that is a number is the rounding of the exact result: no number
      lies between the two, and they are half a unit of the last place
      apart at most ([mul_rounding], [add_rounding], [div_rounding]); it
      is a number unless the exact result is out of range or the
      divisor is zero ([mul_real], [add_real], [div_real]); [<] and [<=]
      on numbers are the order of their values ([ltb_value],
      [leb_value]).
    - distance ([Geometry], [Exact]): the phrase is one of five, decided
      by the area alone; a smaller area never gives a nearer phrase; the
      phrase is that of the specification's table for the exact product
      of width and height, except within [2^-53] of a threshold
      ([area_refines]).
    - direction ([Geometry], [Exact]): the phrase is the entry of the
      nine-phrase table for the position of the centre and for no
      other; the tests are exclusive and strict; the phrase is that of
      the specification's table for the exact centre of the box, except
      within [2^-52] of a threshold ([direction_refines]).
    - sentence ([Describe]): the fallback on no object; the shape of the
      sentence (leading clause, clauses, full stop); the measured
      distance suppresses the estimates exactly when it is truthy;
      refinement of the specification for the measurements it covers,
      and the difference for a reading of zero or NaN; the end-to-end
      scenarios; the sentence is that of the specification with every
      row of its tables chosen on exact values, for boxes whose
      coordinates lie between -2 and 2 and whose area and centre are
      away from the thresholds ([describe_exact] in [Exact]).
    - measured distance ([Describe], [Exact]): a reading between 0.06
      and 99.9 is announced as the reading rounded to one digit after
      the point ([leading_reading]).
    - cycle ([Cycle]): [takePicture] never rejects and the busy flag is
      clear after every cycle that started; the guard is the only silent
      return; a cancelled capture ends with nothing after the request
      to the camera; every other failure shows its details and ends in
      the spoken apology; a failed depth reading is no reading; the copy
      loop of the image bytes ends and yields the character codes; the
      events and the final state of a successful cycle.
    - thrown values ([Thrown]): on an object the [catch] clauses are the
      handlers of [Cycle]; on [null] and [undefined] the clause of
      [takePicture] throws at its first read, so [takePicture] rejects
      with nothing shown or said, and its [try] statement rejects in no
      other case; when the first utterance of a cycle fails so, before
      the [try], the busy flag stays up ([caught_spec]).
    - lifecycle ([Lifecycle]): what [checkLiDAR] leaves; the cleanup
      closure of the mount effect never stops the session; the busy flag
      is clear between taps and the sensor cells never change after the
      mount ([session_invariant]); a sensor that is reported and whose
      session fails to start shows the badge and is asked for readings
      throughout ([broken_sensor_badge]); the view.
    - console ([Console]): leaving the console statements out of a
      handler gives the handler of [Cycle] or [Lifecycle], with the same
      outcome, state and calls ([erases]), and the lives of the screen
      with and without the console are the same; whatever precedes a
      call in the journal heralds it: a text is written before it is
      spoken, an error before the alert that shows its message, the
      opening of the camera before the camera is asked; whenever the
      screen shows a failure the console holds the error whose details
      are shown; a cancelled capture is written nowhere
      ([session_logged_spec], [failure_reported]).
    - protocol ([Protocol]): when every handler runs in one piece, over
      a whole session, every utterance comes
      right after a stop, every analysis right after the upload of the
      same bucket and key, and no stop of the depth session is ever
      requested.
    - event loop ([Async], [Scheduler]): the configurations of a screen
      that renders after every turn are well formed: at most one cycle
      in flight, the busy flag up exactly while it is, a press in
      between ignored ([reachable_wf]); an uninterrupted cycle of the
      machine is [tap] ([press_refines_tap]); without further presses
      every schedule ends, after 21 turns at most, with nothing in
      flight and the button enabled ([schedule_finishes]); two presses
      of one render start two cycles ([stale_view_two_cycles]).
    - protocol on the event loop ([Monitors]): in every reachable
      configuration the calls of the speech service pass the speech
      check and the calls of the cloud services the upload check,
      though events of [checkLiDAR] may stand between them
      ([machine_disciplined], [machine_uploadedFirst]): a cycle is
      guarded from any state of the observer, [checkLiDAR] is neutral
      to it, and at most one cycle is in flight.
    - unmount ([Teardown]): no request to stop the depth session is
      ever made, before the unmount, by it or after it
      ([machine_neverStopped]); the unmount changes nothing, and the
      handlers in flight run to their end after it, within 21 turns,
      their calls made and their writes lost ([teardown_finishes]).
    - view ([Screen]): the tree has one button, disabled exactly while
      the busy flag of its render is up and calling the [takePicture] of
      its render; its texts and its spinner are those of the summary
      [render]; the button is grey while busy and keeps its size.

    ** Numbers, bounds and fuel

    Numbers are binary64 throughout, with NaN, infinities and signed
    zeros; nothing is idealised to rationals or reals.  General theorems
    about comparisons use the specification of the primitive operators
    ([FloatAxioms] of the Standard Library, which relate them to
    [SpecFloat]); concrete evaluations use the kernel's own floats.  The
    digit generation of [NumberToString] tries 1 to 17 digits
    ([shortest_from] with fuel 17): 17 significant digits identify every
    binary64 value.  The decimal exponent is found from a guess by the
    binary logarithm, corrected by [exp10_down] and [exp10_up] with fuel
    700, more than the 632 decades between the least (5e-324) and the
    greatest (1.8e308) binary64 value.  That the fuel suffices is proved for every
    finite value ([exp10_spec], [candidate_17]): a finite value has a
    mantissa below [2^53] and an exponent from -1074 to 971
    ([Prim2SF_bounds]), the guess of the exponent lies between -324 and
    307 and the exponent between -323 and 309, and the decimals of 17
    digits are closer to each other than a value is to its neighbours,
    since [2^53 < 10^16].  The proofs compare scaled integers in common
    units ([bin], [dec]), where the comparisons are linear.

    The theorems of [Exact] speak of exact values, which are rationals
    ([Q]).  The product of line 197 and the product of line 179 are
    covered by the general theorem on products; the thresholds are
    compared through the numbers that stand for them ([stands]), with a
    margin of [2^-53], the distance from a decimal threshold to the
    numbers around it.  That the quotient of line 179 then prints with
    one digit after the point is checked by evaluation for the 999
    counts of tenths below 1000 ([tenths_checked]), that is for
    readings below 100, twenty times the five metres the sensor
    reaches; the range of [leading_reading] is the range of that
    check.  The centre of lines 214-215 is a quotient by 2 and a sum:
    for coordinates between -2 and 2 (the service reports ratios of the
    width and the height of the image) the quotient is within [2^-53]
    of the exact half, and the thresholds 0.3 and 0.7 are compared
    through the numbers beside them, which gives the margin [2^-52] of
    [direction_refines].  A result is shown to be a number when the
    exact result is below [2^971] in magnitude; the format reaches
    [2^1024], and no quantity of the program comes near either.

    The copy loop of [base64ToUint8Array] has the length of the
    string as fuel, one unit per iteration, and the theorem on it shows
    that this is enough.  Strings are sequences of bytes; [toLowerCase]
    maps the ASCII letters and leaves other bytes as they are, which is
    the behaviour of the source on the ASCII labels the vision service
    returns.  Bytes and sextets are natural numbers ([N]) with their
    ranges as hypotheses and conclusions ([b < 256], [v < 64]); a store
    into the byte array reduces modulo 256 as a [Uint8Array] does.

    A process is a finite tree, so [run] and [advance] are structural
    and need no fuel.  [atMost n p] bounds the suspensions on every path
    of [p]: 2 for [speakText] and [checkLiDAR], 11 for the [try] block,
    17 for [takePicture] (the bounds of a sequence add up, which counts
    the [catch] block after a whole [try] block; the longest real path
    has 14).  A suspended handler owes one turn more than its remaining
    suspensions; with at most one cycle and one [checkLiDAR] in flight
    that is 18 + 3 = 21 turns, the fuel of [drain] in
    [schedule_finishes] and of [outlive] in [teardown_finishes].
    [press_refines_tap] drains with 18.

    ** Not modelled

    The native modules, the speech engine and the two services
    themselves, of which only the outcomes appear (what a service does
    with the credentials of the client is the world's to decide); the
    two polyfills imported on lines 1-2; how the layout engine reads the
    style sheet; strings as UTF-16 code units, for which the case
    tables of Unicode would be needed where the program only meets the
    ASCII names of the vision service.  The console is modelled for
    handlers that run in one piece ([Console]); the processes of
    [Async] carry no console statements, since a write to the console
    is no suspension and no observer of the machine reads it, so the
    order of the lines of two handlers in flight is not stated.  What
    the console prints of an error object is the runtime's; the journal
    keeps the object.  That the runtime calls
    the cleanup of the first render, resumes a handler after the
    unmount and drops its writes is the behaviour of React, which the
    machine states and the repository does not contain. *)

From Stdlib Require Export String Ascii List Bool ZArith Lia.
Export ListNotations.

Declare Scope js_scope.
Delimit Scope js_scope with js.

(** ** Truthiness and the defaulting operator *)

(** [ToBoolean] of the language, one instance per modelled type. *)
Class ToBoolean (A : Type) : Type := to_boolean : A -> bool.
Arguments to_boolean {A _} _.

(** [x || d] where [x] may be [undefined] ([None]): the left operand when
    it is truthy, the right operand otherwise. *)
Definition js_or {A : Type} `{ToBoolean A} (x : option A) (d : A) : A :=
  match x with
  | Some v => if to_boolean v then v else d
  | None => d
  end.

(** An array is an object: always truthy. *)
#[export] Instance ToBoolean_list {A : Type} : ToBoolean (list A) := fun _ => true.

#[export] Instance ToBoolean_bool : ToBoolean bool := fun b => b.

(** [undefined] is falsy; a present value has the truthiness of its type. *)
#[export] Instance ToBoolean_option {A : Type} `{ToBoolean A} : ToBoolean (option A) :=
  fun o => match o with Some v => to_boolean v | None => false end.

Infix "+++" := String.append (right associativity, at level 60) : js_scope.
Notation "x '||?' d" := (js_or x d) (at level 50, left associativity) : js_scope.

(** ** Tactics *)

(** Invert a hypothesis and substitute. *)
Ltac inv H := inversion H; subst; clear H.

(** Case analysis on the first [if] or [match] scrutinee that blocks the
    goal, remembering the equation. *)
Ltac case_head :=
  match goal with
  | |- context [if ?b then _ else _] =>
      let E := fresh "E" in destruct b eqn:E
  | |- context [match ?x with _ => _ end] =>
      let E := fresh "E" in destruct x eqn:E
  end.

(** Split boolean connectives in hypotheses into their components. *)
Ltac bool_hyps :=
  repeat match goal with
  | H : _ && _ = true |- _ => apply andb_true_iff in H; destruct H
  | H : _ || _ = false |- _ => apply orb_false_iff in H; destruct H
  | H : negb _ = true |- _ => apply negb_true_iff in H
  | H : negb _ = false |- _ => apply negb_false_iff in H
  end.

Create HintDb js discriminated.
Create Rewrite HintDb js_rw.

(** ** Lists *)

Section ListFacts.
Context {A : Type}.
Implicit Types (l : list A) (f : A -> bool).

(** [l1] is a subsequence of [l2]: [l1] is [l2] with some elements
    removed, the others in their order. *)
Inductive subseq : list A -> list A -> Prop :=
| subseq_nil : subseq [] []
| subseq_skip x l1 l2 : subseq l1 l2 -> subseq l1 (x :: l2)
| subseq_keep x l1 l2 : subseq l1 l2 -> subseq (x :: l1) (x :: l2).

Lemma subseq_refl l : subseq l l.
Proof. induction l; constructor; assumption. Qed.

Lemma subseq_nil_l l : subseq [] l.
Proof. induction l; constructor; assumption. Qed.

Lemma subseq_trans l1 l2 l3 : subseq l1 l2 -> subseq l2 l3 -> subseq l1 l3.
Proof.
  intros H12 H23. revert l1 H12.
  induction H23; intros l0 H12.
  - assumption.
  - constructor. auto.
  - inv H12; [apply subseq_skip | apply subseq_keep]; auto.
Qed.

Lemma subseq_In l1 l2 x : subseq l1 l2 -> In x l1 -> In x l2.
Proof. induction 1; simpl; intuition. Qed.

Lemma subseq_length l1 l2 : subseq l1 l2 -> length l1 <= length l2.
Proof. induction 1; simpl; lia. Qed.

Lemma filter_subseq f l : subseq (filter f l) l.
Proof.
  induction l as [|x l IH]; simpl; [constructor|].
  destruct (f x); constructor; assumption.
Qed.

Lemma firstn_subseq n l : subseq (firstn n l) l.
Proof.
  revert l; induction n as [|n IH]; intros [|x l]; simpl;
    auto using subseq_nil_l, subseq_nil, subseq_keep.
Qed.

Lemma firstn_filter_Forall f n l : Forall (fun x => f x = true) (firstn n (filter f l)).
Proof.
  apply Forall_forall. intros x Hx.
  apply (subseq_In _ _ _ (firstn_subseq n _)) in Hx.
  apply filter_In in Hx. tauto.
Qed.

Lemma existsb_In f l x : In x l -> f x = true -> existsb f l = true.
Proof. intros Hin Hf. apply existsb_exists. eauto. Qed.

Lemma fold_left_snoc {B : Type} (g : B -> A -> B) l x b :
  fold_left g (l ++ [x]) b = g (fold_left g l b) x.
Proof. rewrite fold_left_app. reflexivity. Qed.

(** A filter that accepts every element changes nothing. *)
Lemma filter_all f l : Forall (fun x => f x = true) l -> filter f l = l.
Proof. induction 1 as [|x l Hx _ IH]; cbn; [reflexivity|]. now rewrite Hx, IH. Qed.

(** Induction on a list by groups of three and of four elements, for
    the functions that consume their input by such groups. *)
Lemma list_ind3 (P : list A -> Prop) :
  P [] -> (forall a, P [a]) -> (forall a b, P [a; b]) ->
  (forall a b c rest, P rest -> P (a :: b :: c :: rest)) ->
  forall l, P l.
Proof.
  intros H0 H1 H2 H3 l.
  enough (P l /\ (forall a, P (a :: l)) /\ (forall a b, P (a :: b :: l))) by tauto.
  induction l as [|x l (IH0 & IH1 & IH2)]; auto.
Qed.

Lemma list_ind4 (P : list A -> Prop) :
  P [] -> (forall a, P [a]) -> (forall a b, P [a; b]) -> (forall a b c, P [a; b; c]) ->
  (forall a b c d rest, P rest -> P (a :: b :: c :: d :: rest)) ->
  forall l, P l.
Proof.
  intros H0 H1 H2 H3 H4 l.
  enough (P l /\ (forall a, P (a :: l)) /\ (forall a b, P (a :: b :: l)) /\
          (forall a b c, P (a :: b :: c :: l))) by tauto.
  induction l as [|x l (IH0 & IH1 & IH2 & IH3)]; auto.
Qed.

End ListFacts.

(** Split the hypotheses on the elements of a list that shows them. *)
Ltac forall_inv :=
  repeat match goal with
  | H : Forall _ (_ :: _) |- _ => apply Forall_cons_iff in H; destruct H
  end.

#[export] Hint Constructors subseq : js.
#[export] Hint Resolve subseq_refl subseq_nil_l filter_subseq firstn_subseq : js.

(** ** Strings *)

Section StringFacts.
Implicit Types (s t u : string).
Local Open Scope string_scope.

Lemma append_nil_r s : s ++ "" = s.
Proof. induction s; simpl; congruence. Qed.

Lemma append_assoc s t u : (s ++ t) ++ u = s ++ t ++ u.
Proof. induction s; simpl; congruence. Qed.

Lemma length_append s t : String.length (s ++ t) = String.length s + String.length t.
Proof. induction s; simpl; congruence. Qed.

Lemma append_eq_nil s t : s ++ t = "" -> s = "" /\ t = "".
Proof. destruct s; simpl; [auto | discriminate]. Qed.

Lemma prefix_append s t : prefix s (s ++ t) = true.
Proof.
  induction s as [|c s IH]; simpl; [destruct t; reflexivity|].
  destruct (ascii_dec c c); [assumption | congruence].
Qed.

Lemma prefix_inv s t : prefix s t = true -> exists u, t = s ++ u.
Proof.
  revert t; induction s as [|c s IH]; intros t H.
  - exists t. reflexivity.
  - destruct t as [|d t]; simpl in H; [discriminate|].
    destruct (ascii_dec c d); [|discriminate]. subst d.
    destruct (IH _ H) as [u ->]. exists u. reflexivity.
Qed.

End StringFacts.

#[export] Hint Rewrite append_nil_r append_assoc length_append : js_rw.
#[export] Hint Resolve prefix_append : js.
