(* ===== verification/JsNumber.v ===== *)
(** * JsNumber: the numbers of the language

    A JavaScript number is an IEEE 754 binary64 value.  The model uses the
    kernel's primitive [float], which is the same format with the same
    round-to-nearest-even operators, so [0.3], [*], [+], [/] and [<] of the
    source are [0.3], [*], [+], [/] and [<?] here, NaN, infinities and
    signed zeros included.  This file adds what the program uses beyond the
    operators: truthiness of a number, [Math.round], and the order facts on
    comparisons, proved through the [SpecFloat] specification. *)

From Stdlib Require Export Floats.
From S2P Require Import Prelude.

#[export] Set Warnings "-inexact-float".

(** ** Definitions *)

Definition number : Set := float.

Bind Scope float_scope with number.

(** [ToBoolean] on a number: false on NaN, [+0] and [-0]. *)
#[export] Instance ToBoolean_number : ToBoolean number :=
  fun x => negb (is_nan x || is_zero x).

(** [x > y] of the language is [y < x]. *)
Definition gtb (x y : number) : bool := (y <? x)%float.

Notation "x >? y" := (gtb x y) (at level 70, no associativity) : float_scope.

(** The number whose value is the integer [n], for [|n| <= 2^53]. *)
Definition number_of_Z (n : Z) : number := SF2Prim (binary_normalize prec emax n 0 false).

(** The integer nearest to [(-1)^s * m * 2^e] for [e < 0], the one
    towards [+infinity] on a tie: [floor ((+-2m + 2^-e) / 2^(1-e))]. *)
Definition round_half_up (s : bool) (m : positive) (e : Z) : Z :=
  let d := (2 ^ (- e))%Z in
  (((if s then - (2 * Z.pos m) else 2 * Z.pos m) + d) / (2 * d))%Z.

(** [Math.round x]: [x] itself when it is NaN, infinite, a zero or
    integral; otherwise the integer nearest to [x], the one towards
    [+infinity] on a tie, and a zero with the sign of [x] when that
    integer is 0.  A finite [x] is [(-1)^s * m * 2^e]. *)
Definition Math_round (x : number) : number :=
  match Prim2SF x with
  | S754_finite s m e =>
      if (0 <=? e)%Z then x
      else
        let n := round_half_up s m e in
        if (n =? 0)%Z then (if s then PrimFloat.neg_zero else PrimFloat.zero) else number_of_Z n
  | _ => x
  end.

(** ** The range of a finite value *)

Section Range.
Local Open Scope Z_scope.

Lemma digits2_pos_bound (p : positive) : Z.pos p < 2 ^ Z.pos (digits2_pos p).
Proof.
  induction p as [p IH|p IH|]; cbn [digits2_pos]; [| |reflexivity];
    rewrite Pos2Z.inj_succ, Z.pow_succ_r by lia; lia.
Qed.

(** A finite binary64 value is [m * 2^e] with a mantissa of at most 53
    bits and an exponent between those of the least and of the greatest
    value. *)
Lemma Prim2SF_bounds x s m e :
  Prim2SF x = S754_finite s m e -> 0 < Z.pos m < 2 ^ 53 /\ -1074 <= e <= 971.
Proof.
  intros E. pose proof (Prim2SF_valid x) as V. rewrite E in V.
  unfold valid_binary, bounded, canonical_mantissa, fexp, emin in V.
  apply andb_true_iff in V as [V1 V2]. apply Z.leb_le in V2. apply Z.eqb_eq in V1.
  change prec with 53 in *. change emax with 1024 in *.
  pose proof (digits2_pos_bound m) as D.
  assert (2 ^ Z.pos (digits2_pos m) <= 2 ^ 53) by (apply Z.pow_le_mono_r; lia).
  lia.
Qed.

Lemma digits2_pos_lower (p : positive) : 2 ^ (Z.pos (digits2_pos p) - 1) <= Z.pos p.
Proof.
  induction p as [p IH|p IH|]; cbn [digits2_pos]; [| |reflexivity];
    rewrite Pos2Z.inj_succ; replace (Z.succ (Z.pos (digits2_pos p)) - 1)
      with (Z.succ (Z.pos (digits2_pos p) - 1)) by lia;
    rewrite Z.pow_succ_r by lia; lia.
Qed.

Lemma digits2_pos_iter (p j : positive) :
  digits2_pos (Pos.iter xO p j) = (digits2_pos p + j)%positive.
Proof.
  induction j as [|j IH] using Pos.peano_ind; [cbn; lia|].
  rewrite Pos.iter_succ. cbn [digits2_pos]. rewrite IH. lia.
Qed.

Lemma Zpos_iter (p j : positive) : Z.pos (Pos.iter xO p j) = Z.pos p * 2 ^ Z.pos j.
Proof.
  induction j as [|j IH] using Pos.peano_ind; [cbn; lia|].
  rewrite Pos.iter_succ, Pos2Z.inj_xO, IH, Pos2Z.inj_succ, Z.pow_succ_r by lia. ring.
Qed.

End Range.

(** ** Integers as numbers *)

Section Integers.
Local Open Scope Z_scope.

(** A mantissa of 53 bits is rounded to itself. *)
Lemma binary_round_aux_exact sx (mz : positive) ez :
  Z.pos (digits2_pos mz) = 53 -> -1074 <= ez <= 971 ->
  binary_round_aux prec emax sx (Z.pos mz) ez loc_Exact = S754_finite sx mz ez.
Proof.
  intros Hd He. unfold binary_round_aux, shr_fexp, fexp, emin.
  cbn [Zdigits2 shr_record_of_loc]. rewrite Hd.
  change prec with 53. change emax with 1024.
  replace (Z.max (53 + ez - 53) (3 - 1024 - 53) - ez) with 0 by lia.
  cbn [shr shr_m loc_of_shr_record round_nearest_even Zdigits2 shr_record_of_loc]. rewrite Hd.
  replace (Z.max (53 + ez - 53) (3 - 1024 - 53) - ez) with 0 by lia.
  cbn [shr shr_m]. destruct (Z.leb_spec ez (1024 - 53)); [reflexivity|lia].
Qed.

(** An integer below [2^53] is shifted to 53 bits and kept. *)
Lemma binary_round_exact sx (mx : positive) :
  Z.pos mx < 2 ^ 53 ->
  exists mz ez, binary_round prec emax sx mx 0 = S754_finite sx mz ez /\
                -52 <= ez <= 0 /\ Z.pos mz = Z.pos mx * 2 ^ (- ez) /\
                Z.pos (digits2_pos mz) = 53.
Proof.
  intros Hm. unfold binary_round, shl_align, fexp, emin.
  change prec with 53. change emax with 1024.
  assert (Z.pos (digits2_pos mx) <= 53) as Hd.
  { destruct (Z.le_gt_cases (Z.pos (digits2_pos mx)) 53) as [C|C]; [exact C|].
    pose proof (digits2_pos_lower mx).
    assert (2 ^ 53 <= 2 ^ (Z.pos (digits2_pos mx) - 1)) by (apply Z.pow_le_mono_r; lia). lia. }
  rewrite Z.add_0_r, Z.sub_0_r.
  replace (Z.max (Z.pos (digits2_pos mx) - 53) (3 - 1024 - 53))
    with (Z.pos (digits2_pos mx) - 53) by lia.
  destruct (Z.pos (digits2_pos mx) - 53) as [|d|d] eqn:E; try lia.
  - exists mx, 0. rewrite binary_round_aux_exact by lia. repeat split; try lia.
  - exists (Pos.iter xO mx d), (Z.neg d).
    assert (Z.pos (digits2_pos (Pos.iter xO mx d)) = 53) by (rewrite digits2_pos_iter; lia).
    rewrite binary_round_aux_exact by lia. repeat split; try lia.
    now rewrite Zpos_iter.
Qed.

Lemma valid_exact sx (mz : positive) ez :
  Z.pos (digits2_pos mz) = 53 -> -52 <= ez <= 0 ->
  valid_binary (S754_finite sx mz ez) = true.
Proof.
  intros Hd He. unfold valid_binary, bounded, canonical_mantissa, fexp, emin.
  rewrite Hd. change prec with 53. change emax with 1024.
  apply andb_true_iff. split; [apply Z.eqb_eq|apply Z.leb_le]; lia.
Qed.

(** [number_of_Z n] is the number whose value is [n]: its mantissa is
    [|n|] shifted by its exponent. *)
Lemma number_of_Z_exact n :
  n <> 0 -> Z.abs n < 2 ^ 53 ->
  exists m e, Prim2SF (number_of_Z n) = S754_finite (n <? 0) m e /\
              -52 <= e <= 0 /\ Z.pos m = Z.abs n * 2 ^ (- e).
Proof.
  intros Hn Hb. unfold number_of_Z, binary_normalize.
  destruct n as [|p|p]; [contradiction| |];
    [destruct (binary_round_exact false p Hb) as (mz & ez & E & He & Hv & Hd)
    |destruct (binary_round_exact true p Hb) as (mz & ez & E & He & Hv & Hd)];
    rewrite E; exists mz, ez; (split; [|split; assumption]);
    apply Prim2SF_SF2Prim, valid_exact; assumption.
Qed.

End Integers.

(** ** The order of [spec_float] values *)

Section SpecOrder.
Implicit Types (x y z : spec_float).
Local Open Scope Z_scope.

Lemma SFcompare_finite s1 m1 e1 s2 m2 e2 :
  SFcompare (S754_finite s1 m1 e1) (S754_finite s2 m2 e2) =
  Some (match s1, s2 with
        | true, false => Lt
        | false, true => Gt
        | false, false =>
            match e1 ?= e2 with Lt => Lt | Gt => Gt | Eq => (m1 ?= m2)%positive end
        | true, true =>
            match e1 ?= e2 with Lt => Gt | Gt => Lt | Eq => CompOpp (m1 ?= m2)%positive end
        end).
Proof. reflexivity. Qed.

(** Split every integer comparison in sight into its three cases. *)
Ltac cmp_cases :=
  repeat match goal with
  | H : context [(?a ?= ?b)%Z] |- _ => destruct (Z.compare_spec a b)
  | |- context [(?a ?= ?b)%Z] => destruct (Z.compare_spec a b)
  | H : context [(?a ?= ?b)%positive] |- _ => destruct (Pos.compare_spec a b)
  | |- context [(?a ?= ?b)%positive] => destruct (Pos.compare_spec a b)
  end.

(** Case analysis on the classes and signs of the operands of a
    comparison, leaving the finite cases as integer comparisons. *)
Ltac sf_cases :=
  rewrite ?SFcompare_finite; cbn [SFcompare];
  repeat match goal with s : bool |- _ => destruct s end;
  try discriminate; try reflexivity.

Lemma SFcompare_Lt_trans x y z :
  SFcompare x y = Some Lt -> SFcompare y z = Some Lt -> SFcompare x z = Some Lt.
Proof.
  destruct x as [sx|sx| |sx mx ex], y as [sy|sy| |sy my ey], z as [sz|sz| |sz mz ez];
    sf_cases; intros H1 H2; f_equal; injection H1 as H1; injection H2 as H2;
    cbn [CompOpp] in *; cmp_cases; cbn [CompOpp] in *;
    try discriminate; try reflexivity; lia.
Qed.

Lemma SFcompare_refl x : x <> S754_nan -> SFcompare x x = Some Eq.
Proof.
  destruct x as [s|s| |s m e]; intros Hx; try congruence; sf_cases;
    rewrite Z.compare_refl, Pos.compare_refl; reflexivity.
Qed.

Lemma SFcompare_nan_l y : SFcompare S754_nan y = None.
Proof. reflexivity. Qed.

Lemma SFcompare_nan_r x : SFcompare x S754_nan = None.
Proof. destruct x; reflexivity. Qed.

Lemma SFcompare_None x y : SFcompare x y = None <-> x = S754_nan \/ y = S754_nan.
Proof.
  split.
  - destruct x, y; cbn [SFcompare]; try discriminate; auto.
  - intros [-> | ->]; auto using SFcompare_nan_r.
Qed.

Lemma SFcompare_antisym x y c :
  SFcompare x y = Some c -> SFcompare y x = Some (CompOpp c).
Proof.
  destruct x as [sx|sx| |sx mx ex], y as [sy|sy| |sy my ey];
    rewrite ?SFcompare_finite; cbn [SFcompare];
    repeat match goal with s : bool |- _ => destruct s end;
    intros H; try discriminate; injection H as <-; try reflexivity; f_equal;
    rewrite (Z.compare_antisym ex ey), (Pos.compare_antisym mx my);
    destruct (ex ?= ey), (mx ?= my)%positive; reflexivity.
Qed.

Lemma SFltb_trans x y z : SFltb x y = true -> SFltb y z = true -> SFltb x z = true.
Proof.
  unfold SFltb.
  destruct (SFcompare x y) as [[]|] eqn:E1; try discriminate.
  destruct (SFcompare y z) as [[]|] eqn:E2; try discriminate.
  rewrite (SFcompare_Lt_trans _ _ _ E1 E2). reflexivity.
Qed.

Lemma SFltb_irrefl x : SFltb x x = false.
Proof.
  unfold SFltb. destruct x as [s|s| |s m e]; try reflexivity;
    rewrite SFcompare_refl; congruence.
Qed.

Lemma SFltb_asym x y : SFltb x y = true -> SFltb y x = false.
Proof.
  unfold SFltb. destruct (SFcompare x y) as [[]|] eqn:E; try discriminate.
  rewrite (SFcompare_antisym _ _ _ E). reflexivity.
Qed.

(** Two values that are not NaN are ordered one way or the other, or
    compare equal. *)
Lemma SFcompare_total x y :
  x <> S754_nan -> y <> S754_nan -> exists c, SFcompare x y = Some c.
Proof.
  intros Hx Hy. destruct (SFcompare x y) eqn:E; eauto.
  apply SFcompare_None in E. tauto.
Qed.

End SpecOrder.

(** ** The order of numbers *)

Section NumberOrder.
Implicit Types (x y z : number).
Local Open Scope float_scope.

Lemma ltb_trans x y z : (x <? y) = true -> (y <? z) = true -> (x <? z) = true.
Proof. rewrite !ltb_spec. apply SFltb_trans. Qed.

Lemma ltb_irrefl x : (x <? x) = false.
Proof. rewrite ltb_spec. apply SFltb_irrefl. Qed.

Lemma ltb_asym x y : (x <? y) = true -> (y <? x) = false.
Proof. rewrite !ltb_spec. apply SFltb_asym. Qed.

Lemma gtb_ltb x y : (x >? y) = (y <? x).
Proof. reflexivity. Qed.

(** The form the threshold chains use: a number above the threshold [t]
    stays above it when it grows. *)
Lemma gtb_mono t x y : (x >? t) = true -> (x <? y) = true -> (y >? t) = true.
Proof. unfold gtb. apply ltb_trans. Qed.

Lemma is_nan_spec x : is_nan x = true <-> Prim2SF x = S754_nan.
Proof.
  unfold is_nan. rewrite FloatAxioms.eqb_spec, negb_true_iff. unfold SFeqb. split.
  - intros H. destruct (Prim2SF x) eqn:E; try reflexivity;
      rewrite SFcompare_refl in H; congruence.
  - intros ->. reflexivity.
Qed.

Lemma is_zero_spec x : is_zero x = true <-> exists s, Prim2SF x = S754_zero s.
Proof.
  unfold is_zero. rewrite FloatAxioms.eqb_spec. unfold SFeqb.
  change (Prim2SF PrimFloat.zero) with (S754_zero false). split.
  - destruct (Prim2SF x) as [s|s| |s m e]; cbn [SFcompare]; try discriminate; eauto.
    + destruct s; discriminate.
    + destruct s; discriminate.
  - intros [s ->]. reflexivity.
Qed.

Lemma ltb_nan_l x y : is_nan x = true -> (x <? y) = false.
Proof. rewrite is_nan_spec, ltb_spec. intros ->. reflexivity. Qed.

Lemma ltb_nan_r x y : is_nan y = true -> (x <? y) = false.
Proof.
  rewrite is_nan_spec, ltb_spec. intros ->. unfold SFltb.
  rewrite SFcompare_nan_r. reflexivity.
Qed.

(** A number is falsy exactly when it is NaN or a zero. *)
Lemma to_boolean_number_false x :
  to_boolean x = false <-> is_nan x = true \/ is_zero x = true.
Proof.
  unfold to_boolean, ToBoolean_number. rewrite negb_false_iff. apply orb_true_iff.
Qed.

(** A truthy number is a number that [x || d] keeps. *)
Lemma js_or_number_truthy x d : to_boolean x = true -> js_or (Some x) d = x.
Proof. unfold js_or. intros ->. reflexivity. Qed.

Lemma js_or_number_falsy x d : to_boolean x = false -> js_or (Some x) d = d.
Proof. unfold js_or. intros ->. reflexivity. Qed.

End NumberOrder.

#[export] Hint Resolve ltb_trans gtb_mono : js.
#[export] Hint Rewrite ltb_irrefl : js_rw.

(** ** [Math.round] *)

Section Round.
Local Open Scope float_scope.

Lemma Math_round_nan x : is_nan x = true -> Math_round x = x.
Proof. rewrite is_nan_spec. unfold Math_round. intros ->. reflexivity. Qed.

Lemma Math_round_zero x : is_zero x = true -> Math_round x = x.
Proof. rewrite is_zero_spec. unfold Math_round. intros [s ->]. reflexivity. Qed.

(** The integer of [round_half_up] is within one half of the value, the
    upper one on a tie: [n - 1/2 <= v / d < n + 1/2], on integers. *)
Lemma round_half_up_nearest (s : bool) (m : positive) (e : Z) :
  (e < 0)%Z ->
  let v := (if s then - Z.pos m else Z.pos m)%Z in
  let d := (2 ^ (- e))%Z in
  let n := round_half_up s m e in
  ((2 * n - 1) * d <= 2 * v < (2 * n + 1) * d)%Z.
Proof.
  intros He v d n.
  assert (0 < d)%Z as Hd by (apply Z.pow_pos_nonneg; lia).
  assert (n = (2 * v + d) / (2 * d))%Z as Hn
    by (unfold n, round_half_up, v; fold d; destruct s; f_equal; lia).
  pose proof (Z.div_mod (2 * v + d) (2 * d) ltac:(lia)) as Hdiv.
  pose proof (Z.mod_pos_bound (2 * v + d) (2 * d) ltac:(lia)) as Hmod.
  rewrite <- Hn in Hdiv. nia.
Qed.

(** The integer nearest to a value that is not integral is below
    [2^53]. *)
Lemma round_half_up_bound (s : bool) (m : positive) (e : Z) :
  (e < 0)%Z -> (Z.pos m < 2 ^ 53)%Z -> (Z.abs (round_half_up s m e) < 2 ^ 53)%Z.
Proof.
  intros He Hm. pose proof (round_half_up_nearest s m e He) as H. cbv zeta in H.
  assert (2 <= 2 ^ (- e))%Z by (change 2%Z with (2 ^ 1)%Z at 1; apply Z.pow_le_mono_r; lia).
  destruct s; nia.
Qed.

(** C33 (rounding).  On a finite number that is not integral,
    [Math_round] gives the integer nearest to it, the upper one on a
    tie, as a number: when that integer is 0 the result is the zero
    with the sign of the argument, and otherwise the number whose value
    is the integer, its mantissa being the integer shifted by its
    exponent. *)
Theorem Math_round_nearest x s m e :
  Prim2SF x = S754_finite s m e -> (e < 0)%Z ->
  exists n : Z,
    ((2 * n - 1) * 2 ^ (- e) <= 2 * (if s then - Z.pos m else Z.pos m)
     < (2 * n + 1) * 2 ^ (- e))%Z /\
    Math_round x =
      (if (n =? 0)%Z then (if s then PrimFloat.neg_zero else PrimFloat.zero)
       else number_of_Z n) /\
    (n <> 0%Z ->
     exists m' e', Prim2SF (Math_round x) = S754_finite (n <? 0)%Z m' e' /\
                   (-52 <= e' <= 0)%Z /\ (Z.pos m' = Z.abs n * 2 ^ (- e'))%Z).
Proof.
  intros Hx He. exists (round_half_up s m e).
  assert (Math_round x =
          if (round_half_up s m e =? 0)%Z
          then (if s then PrimFloat.neg_zero else PrimFloat.zero)
          else number_of_Z (round_half_up s m e)) as E.
  { unfold Math_round. rewrite Hx.
    destruct (0 <=? e)%Z eqn:E; [apply Z.leb_le in E; lia | reflexivity]. }
  split; [exact (round_half_up_nearest s m e He)|]. split; [exact E|].
  intros Hn. rewrite E. destruct (Z.eqb_spec (round_half_up s m e) 0); [contradiction|].
  apply number_of_Z_exact; [assumption|].
  apply round_half_up_bound; [assumption|]. apply (Prim2SF_bounds x s m e Hx).
Qed.

Lemma Math_round_nearest_witness :
  exists n : Z,
    ((2 * n - 1) * 2 ^ (- (-51)) <= 2 * 5629499534213120 < (2 * n + 1) * 2 ^ (- (-51)))%Z /\
    Math_round 2.5 = (if (n =? 0)%Z then PrimFloat.zero else number_of_Z n) /\
    (n <> 0%Z ->
     exists m' e', Prim2SF (Math_round 2.5) = S754_finite (n <? 0)%Z m' e' /\
                   (-52 <= e' <= 0)%Z /\ (Z.pos m' = Z.abs n * 2 ^ (- e'))%Z).
Proof.
  apply (Math_round_nearest 2.5 false 5629499534213120 (-51)); [reflexivity | lia].
Defined.

Example Math_round_tie_up : Math_round 2.5 = 3.
Proof. reflexivity. Qed.

Example Math_round_tie_up_neg : Math_round (-2.5) = -2.
Proof. reflexivity. Qed.

Example Math_round_down : Math_round 12.34 = 12.
Proof. reflexivity. Qed.

Example Math_round_neg_zero : Prim2SF (Math_round (-0.3)) = S754_zero true.
Proof. reflexivity. Qed.

Example Math_round_infinity : Math_round infinity = infinity.
Proof. reflexivity. Qed.

End Round.
