(* ===== verification/Values.v ===== *)
(** * Values: the numbers of the language as rationals

    A finite binary64 value is the rational [(-1)^s * m * 2^e]
    ([value]).  This file relates the comparisons of the language to the
    order of the rationals ([ltb_value], [leb_value]: on numbers that are
    neither NaN nor infinite, [<] and [<=] compare values), through the
    canonical form of the values of the format ([valid_canonical]).  The
    tactic [to_Q] turns an inequality on integers into one on
    rationals. *)

From Stdlib Require Import QArith Qpower Lqa.
From S2P Require Import Prelude JsNumber.

(** The value of a finite number; zero for the others. *)
Definition SFvalue (x : spec_float) : Q :=
  match x with
  | S754_finite s m e => inject_Z (if s then Z.neg m else Z.pos m) * 2 ^ e
  | _ => 0
  end.

Definition value (x : number) : Q := SFvalue (Prim2SF x).

Section Powers.
Local Open Scope Q_scope.

Lemma two_pos e : 0 < 2 ^ e.
Proof. now apply Qpower_0_lt. Qed.

Lemma two_add a b : 2 ^ (a + b) == 2 ^ a * 2 ^ b.
Proof. now apply Qpower_plus. Qed.

Lemma two_Z k : (0 <= k)%Z -> inject_Z (2 ^ k) == 2 ^ k.
Proof. intros H. now rewrite Zpower_Qpower. Qed.

Lemma two_split E e : 2 ^ e == inject_Z (2 ^ (e - E)) * 2 ^ E \/ (e < E)%Z.
Proof.
  destruct (Z_lt_le_dec e E); [now right|left].
  rewrite two_Z by lia. rewrite <- two_add. now replace (e - E + E)%Z with e by lia.
Qed.

Lemma two_succ e : 2 ^ (e + 1) == 2 * 2 ^ e.
Proof. rewrite two_add. change (2 ^ 1) with 2. ring. Qed.

Lemma two_le a b : (a <= b)%Z -> 2 ^ a <= 2 ^ b.
Proof. intros H. apply Qpower_le_compat_l; [assumption|discriminate]. Qed.

End Powers.

Lemma inject_Z_sub a b : inject_Z (a - b) = (inject_Z a - inject_Z b)%Q.
Proof. unfold Z.sub, Qminus. now rewrite inject_Z_plus, inject_Z_opp. Qed.

Ltac to_Q H :=
  match type of H with
  | (?a <= ?b)%Z => rewrite (Zle_Qle a b) in H
  | (?a < ?b)%Z => rewrite (Zlt_Qlt a b) in H
  end;
  repeat match type of H with
  | context [inject_Z (?a + ?b)] => rewrite (inject_Z_plus a b) in H
  | context [inject_Z (?a * ?b)] => rewrite (inject_Z_mult a b) in H
  | context [inject_Z (?a - ?b)] => rewrite (inject_Z_sub a b) in H
  | context [inject_Z (- ?a)] => rewrite (inject_Z_opp a) in H
  end.

Section Canonical.
Local Open Scope Z_scope.

(** A valid finite value has a mantissa of at most 53 bits, of exactly 53
    above the least exponent. *)
Lemma valid_canonical s m e :
  valid_binary (S754_finite s m e) = true ->
  -1074 <= e <= 971 /\ Z.pos m < 2 ^ 53 /\ (-1074 < e -> 2 ^ 52 <= Z.pos m).
Proof.
  unfold valid_binary, bounded, canonical_mantissa, fexp, emin. intros V.
  apply andb_true_iff in V as [V1 V2]. apply Z.leb_le in V2. apply Z.eqb_eq in V1.
  change prec with 53 in *. change emax with 1024 in *.
  pose proof (digits2_pos_bound m) as U. pose proof (digits2_pos_lower m) as L.
  assert (Z.pos (digits2_pos m) <= 53) as D by lia.
  assert (2 ^ Z.pos (digits2_pos m) <= 2 ^ 53) by (apply Z.pow_le_mono_r; lia).
  repeat split; try lia.
  intros He. replace (Z.pos (digits2_pos m)) with 53 in L by lia. exact L.
Qed.

End Canonical.

(** The values that are numbers: finite or zero, and valid. *)
Definition SFfinite (x : spec_float) : Prop :=
  match x with S754_finite _ _ _ | S754_zero _ => True | _ => False end.

Definition SFreal (x : spec_float) : Prop := valid_binary x = true /\ SFfinite x.

Section Order.
Local Open Scope Q_scope.

Lemma SFvalue_pos m e : 0 < SFvalue (S754_finite false m e).
Proof.
  cbn. pose proof (two_pos e). assert (0 < inject_Z (Z.pos m)) by reflexivity.
  nra.
Qed.

Lemma SFvalue_neg m e :
  SFvalue (S754_finite true m e) == - SFvalue (S754_finite false m e).
Proof. cbn. change (Z.neg m) with (- Z.pos m)%Z. rewrite inject_Z_opp. ring. Qed.

(** What a comparison says of two values. *)
Definition ordered (c : option comparison) (u v : Q) : Prop :=
  match c with
  | Some Lt => u < v
  | Some Eq => u == v
  | Some Gt => v < u
  | None => False
  end.

Lemma ordered_pos m1 e1 m2 e2 :
  valid_binary (S754_finite false m1 e1) = true ->
  valid_binary (S754_finite false m2 e2) = true ->
  (e1 < e2)%Z ->
  SFvalue (S754_finite false m1 e1) < SFvalue (S754_finite false m2 e2).
Proof.
  intros V1 V2 He. apply valid_canonical in V1 as (E1 & U1 & _).
  apply valid_canonical in V2 as (E2 & _ & L2). specialize (L2 ltac:(lia)).
  cbn. pose proof (two_pos e1). pose proof (two_le (e1 + 1) e2 ltac:(lia)) as Hp.
  rewrite two_succ in Hp. to_Q U1. to_Q L2.
  change (inject_Z (2 ^ 53)) with (2 * inject_Z (2 ^ 52)) in U1.
  set (a := inject_Z (Z.pos m1)) in *. set (b := inject_Z (Z.pos m2)) in *.
  set (c := inject_Z (2 ^ 52)) in *. assert (0 < c) by reflexivity. nra.
Qed.

Lemma SFcompare_pos m1 e1 m2 e2 :
  valid_binary (S754_finite false m1 e1) = true ->
  valid_binary (S754_finite false m2 e2) = true ->
  ordered (SFcompare (S754_finite false m1 e1) (S754_finite false m2 e2))
          (SFvalue (S754_finite false m1 e1)) (SFvalue (S754_finite false m2 e2)).
Proof.
  intros V1 V2. cbn [SFcompare].
  destruct (Z.compare_spec e1 e2) as [->|H|H]; cbn [ordered];
    [|now apply ordered_pos..].
  rewrite Pos.compare_cont_spec. unfold SFvalue. pose proof (two_pos e2).
  destruct (Pos.compare_spec m1 m2) as [->|Hm|Hm]; cbn [Pos.switch_Eq ordered];
    [reflexivity| |];
    apply Pos2Z.pos_lt_pos in Hm; to_Q Hm; nra.
Qed.

Lemma SFcompare_negative m1 e1 m2 e2 :
  SFcompare (S754_finite true m1 e1) (S754_finite true m2 e2) =
  option_map CompOpp (SFcompare (S754_finite false m1 e1) (S754_finite false m2 e2)).
Proof. cbn. now destruct (e1 ?= e2)%Z. Qed.

Lemma ordered_opp c u v u' v' :
  u' == - u -> v' == - v -> ordered c u v -> ordered (option_map CompOpp c) u' v'.
Proof. intros Hu Hv. destruct c as [[]|]; cbn; lra. Qed.

(** The comparison of two numbers is the comparison of their values. *)
Lemma SFcompare_value x y :
  SFreal x -> SFreal y -> ordered (SFcompare x y) (SFvalue x) (SFvalue y).
Proof.
  intros [Vx Rx] [Vy Ry].
  destruct x as [sx| | |sx mx ex]; try contradiction;
    destruct y as [sy| | |sy my ey]; try contradiction.
  - cbn. reflexivity.
  - destruct sy; cbn [SFcompare ordered]; [rewrite SFvalue_neg|];
      pose proof (SFvalue_pos my ey); cbn [SFvalue] in *; lra.
  - destruct sx; cbn [SFcompare ordered]; [rewrite SFvalue_neg|];
      pose proof (SFvalue_pos mx ex); cbn [SFvalue] in *; lra.
  - destruct sx, sy.
    + rewrite SFcompare_negative.
      apply (ordered_opp _ _ _ _ _ (SFvalue_neg mx ex) (SFvalue_neg my ey)).
      now apply SFcompare_pos.
    + cbn [SFcompare ordered]. rewrite SFvalue_neg.
      pose proof (SFvalue_pos mx ex). pose proof (SFvalue_pos my ey). lra.
    + cbn [SFcompare ordered]. rewrite SFvalue_neg.
      pose proof (SFvalue_pos mx ex). pose proof (SFvalue_pos my ey). lra.
    + now apply SFcompare_pos.
Qed.

End Order.

(** ** Numbers *)

(** A number that has a value: not NaN, not infinite. *)
Definition real (x : number) : Prop := SFfinite (Prim2SF x).

Section NumberValue.
Local Open Scope Q_scope.

Lemma real_SFreal x : real x -> SFreal (Prim2SF x).
Proof. intros H. split; [apply Prim2SF_valid|exact H]. Qed.

Lemma compare_value x y :
  real x -> real y -> ordered (SFcompare (Prim2SF x) (Prim2SF y)) (value x) (value y).
Proof. intros Hx Hy. now apply SFcompare_value; apply real_SFreal. Qed.

(** [x < y] and [x <= y] of the language on numbers that have values. *)
Lemma ltb_value x y : real x -> real y -> (x <? y)%float = true <-> value x < value y.
Proof.
  intros Hx Hy. rewrite ltb_spec. unfold SFltb.
  pose proof (compare_value x y Hx Hy) as H.
  destruct (SFcompare _ _) as [[]|]; cbn in H; split;
    try discriminate; try lra; try contradiction; auto.
Qed.

Lemma leb_value x y : real x -> real y -> (x <=? y)%float = true <-> value x <= value y.
Proof.
  intros Hx Hy. rewrite leb_spec. unfold SFleb.
  pose proof (compare_value x y Hx Hy) as H.
  destruct (SFcompare _ _) as [[]|]; cbn in H; split;
    try discriminate; try lra; try contradiction; auto.
Qed.

End NumberValue.
