(* ===== verification/Shifts.v ===== *)
(** * Shifts: the bits that a shift drops

    The rounding of the Standard Library ([SpecFloat]) shifts a mantissa
    to the right and keeps two bits of what it drops: the last bit and
    whether any bit before it was set.  With them it knows where the
    exact value lies in the step between two mantissas ([position]): on
    its lower end, below, at or above its middle.  [holds X P mrs] says
    that the record [mrs] is right about the exact value [X] in steps of
    [P]; it is kept by every shift ([holds_shr_1], [holds_shr]), and the
    choice of the nearest mantissa from the two bits is then the nearest
    integer to [X / P] ([holds_nearest]).  The exact value is a
    rational: a product or a sum starts from an integer ([holds_exact]),
    a quotient from its integer part and the place of the rest
    ([holds_initial]). *)

From Stdlib Require Import QArith Qpower Lqa Morphisms.
From S2P Require Import Prelude JsNumber Values.

Local Open Scope Q_scope.

(** Where the rest [R] lies in a step of width [P]: on its lower end,
    below, at or above its middle. *)
Definition position (R P : Q) : location :=
  if Qeq_bool R 0 then loc_Exact else loc_Inexact (2 * R ?= P).

Section Position.
Variables R P : Q.

Lemma position_exact : R == 0 -> position R P = loc_Exact.
Proof. intros H. unfold position. now rewrite (proj2 (Qeq_bool_iff R 0) H). Qed.

Lemma position_inexact c : ~ R == 0 -> (2 * R ?= P) = c -> position R P = loc_Inexact c.
Proof.
  intros H Hc. unfold position. destruct (Qeq_bool R 0) eqn:E; [|now rewrite Hc].
  apply Qeq_bool_iff in E. contradiction.
Qed.

Lemma position_cases :
  0 <= R ->
  (R == 0 /\ position R P = loc_Exact) \/
  (0 < R /\ 2 * R < P /\ position R P = loc_Inexact Lt) \/
  (0 < R /\ 2 * R == P /\ position R P = loc_Inexact Eq) \/
  (0 < R /\ P < 2 * R /\ position R P = loc_Inexact Gt).
Proof.
  intros H0. destruct (Qeq_dec R 0) as [E|E]; [left; auto using position_exact|right].
  assert (0 < R) as Hpos by (destruct (Qlt_le_dec 0 R); [assumption|exfalso; apply E; lra]).
  pose proof (position_inexact (2 * R ?= P) E eq_refl) as Hp.
  destruct (2 * R ?= P) eqn:C.
  - right; left. apply Qeq_alt in C. auto.
  - left. apply Qlt_alt in C. auto.
  - right; right. apply Qgt_alt in C. auto.
Qed.

End Position.

(** The record [mrs] holds the exact value [X] shifted by [P]: the
    quotient, and where the rest lies. *)
Definition holds (X : Q) (P : Z) (mrs : shr_record) : Prop :=
  exists R : Q,
    X == inject_Z (shr_m mrs) * inject_Z P + R /\ 0 <= R < inject_Z P /\
    (0 <= shr_m mrs)%Z /\ loc_of_shr_record mrs = position R (inject_Z P).

Lemma inject_xI q : inject_Z (Z.pos q~1) = 2 * inject_Z (Z.pos q) + 1.
Proof. now rewrite Pos2Z.inj_xI, inject_Z_plus, inject_Z_mult. Qed.

Lemma inject_xO q : inject_Z (Z.pos q~0) = 2 * inject_Z (Z.pos q).
Proof. now rewrite Pos2Z.inj_xO, inject_Z_mult. Qed.

Lemma inject_double P : inject_Z (2 * P) = 2 * inject_Z P.
Proof. now rewrite inject_Z_mult. Qed.

(** The sticky bits of a record say whether the rest is zero. *)
Lemma holds_sticky R P r s m :
  0 <= R -> loc_of_shr_record (Build_shr_record m r s) = position R P ->
  (r || s = false /\ R == 0) \/ (r || s = true /\ 0 < R).
Proof.
  intros H0 Hl.
  destruct (position_cases R P H0) as [[H1 H2]|[(H1 & _ & H2)|[(H1 & _ & H2)|(H1 & _ & H2)]]];
    rewrite H2 in Hl; destruct r, s; try discriminate Hl; auto.
Qed.

Ltac position_solve :=
  first [ apply position_exact; lra
        | apply position_inexact; [lra|];
          match goal with
          | |- (?a ?= ?b) = Lt => apply (proj1 (Qlt_alt a b)); lra
          | |- (?a ?= ?b) = Gt => apply (proj1 (Qgt_alt a b)); lra
          | |- (?a ?= ?b) = Eq => apply (proj1 (Qeq_alt a b)); lra
          end ].

Lemma holds_shr_1 X P mrs : (0 < P)%Z -> holds X P mrs -> holds X (2 * P) (shr_1 mrs).
Proof.
  intros HP (R & HX & HR & Hm & Hl). destruct mrs as [m r s]. cbn [shr_m] in *.
  to_Q HP. change (inject_Z 0) with 0 in HP.
  destruct (holds_sticky R _ r s m ltac:(lra) Hl) as [[Hs HR0]|[Hs HR0]];
    (destruct m as [|[q|q|]|q]; try lia; cbn [shr_1]; rewrite Hs;
     [exists R|exists (R + inject_Z P)|exists R|exists (R + inject_Z P)]);
    cbn [shr_m loc_of_shr_record];
    try rewrite (inject_xI q) in HX; try rewrite (inject_xO q) in HX;
    rewrite (inject_double P); change (inject_Z 1) with 1 in *; change (inject_Z 0) with 0 in *;
    (split; [lra|]); (split; [lra|]); (split; [lia|]); symmetry; position_solve.
Qed.

Lemma holds_iter p : forall X P mrs,
  (0 < P)%Z -> holds X P mrs -> holds X (P * 2 ^ Z.pos p) (iter_pos shr_1 p mrs).
Proof.
  assert (forall P q, 0 < P -> 0 < P * 2 ^ Z.pos q)%Z as Hpos
    by (intros; apply Z.mul_pos_pos; [lia|apply Z.pow_pos_nonneg; lia]).
  induction p as [p IH|p IH|]; intros X P mrs HP H; cbn [iter_pos].
  - replace (P * 2 ^ Z.pos p~1)%Z with (2 * P * 2 ^ Z.pos p * 2 ^ Z.pos p)%Z
      by (replace (Z.pos p~1) with (Z.pos p + Z.pos p + 1)%Z by lia;
          rewrite !Z.pow_add_r by lia; ring).
    apply IH, IH, holds_shr_1; auto; lia.
  - replace (P * 2 ^ Z.pos p~0)%Z with (P * 2 ^ Z.pos p * 2 ^ Z.pos p)%Z
      by (replace (Z.pos p~0) with (Z.pos p + Z.pos p)%Z by lia;
          rewrite !Z.pow_add_r by lia; ring).
    apply IH, IH; auto.
  - rewrite Z.mul_comm. now apply holds_shr_1.
Qed.

(** A shift by [n] places. *)
Lemma holds_shr X mrs e n :
  holds X 1 mrs ->
  holds X (2 ^ Z.max 0 n) (fst (shr mrs e n)) /\ snd (shr mrs e n) = (e + Z.max 0 n)%Z.
Proof.
  intros H. destruct n as [|p|p]; cbn [shr fst snd]; rewrite ?Z.add_0_r; auto.
  replace (Z.max 0 (Z.pos p)) with (Z.pos p) by lia. split; [|reflexivity].
  rewrite <- (Z.mul_1_l (2 ^ Z.pos p)). apply holds_iter; [lia|assumption].
Qed.

(** The record a rounding starts from: the integer part [q] of the exact
    value and the location [l] of the rest. *)
Lemma holds_initial X q l :
  (0 <= q)%Z -> inject_Z q <= X < inject_Z q + 1 -> l = position (X - inject_Z q) 1 ->
  holds X 1 (shr_record_of_loc q l).
Proof.
  intros Hq HX Hl. exists (X - inject_Z q). change (inject_Z 1) with 1. rewrite <- Hl.
  assert (shr_m (shr_record_of_loc q l) = q) as -> by now destruct l as [|[]].
  split; [ring|]. split; [lra|]. split; [assumption|]. now destruct l as [|[]].
Qed.

Lemma holds_exact M : (0 <= M)%Z -> holds (inject_Z M) 1 (shr_record_of_loc M loc_Exact).
Proof.
  intros H. apply holds_initial; [assumption|lra|].
  symmetry. apply position_exact. ring.
Qed.

(** The quotient is the integer part of the exact value in steps of [P]. *)
Lemma holds_floor X q P mrs :
  (0 < P)%Z -> inject_Z q <= X < inject_Z q + 1 -> holds X P mrs ->
  (shr_m mrs * P <= q < (shr_m mrs + 1) * P)%Z.
Proof.
  intros HP HX (R & HR & HR' & _). set (m := shr_m mrs) in *.
  split.
  - assert (m * P < q + 1)%Z; [|lia]. rewrite Zlt_Qlt, inject_Z_plus, inject_Z_mult.
    change (inject_Z 1) with 1. lra.
  - rewrite Zlt_Qlt, inject_Z_mult, inject_Z_plus. change (inject_Z 1) with 1. lra.
Qed.

(** The integer nearest to [X / P], the even one on a tie. *)
Definition nearest (X : Q) (P m : Z) : Prop :=
  let d := X - inject_Z m * inject_Z P in
  - (1 # 2) * inject_Z P <= d <= (1 # 2) * inject_Z P /\
  (2 * d == inject_Z P \/ 2 * d == - inject_Z P -> Z.even m = true).

Lemma holds_nearest X P mrs :
  (0 < P)%Z -> holds X P mrs ->
  let m1 := shr_m mrs in
  let m2 := round_nearest_even m1 (loc_of_shr_record mrs) in
  (m1 <= m2 <= m1 + 1)%Z /\ (X == inject_Z m1 * inject_Z P -> m2 = m1) /\ nearest X P m2.
Proof.
  intros HP (R & HX & HR & Hm & Hl). cbv zeta. rewrite Hl. unfold nearest. cbv zeta.
  to_Q HP. change (inject_Z 0) with 0 in HP.
  destruct (position_cases R (inject_Z P) ltac:(lra))
    as [[H1 H2]|[(H0 & H1 & H2)|[(H0 & H1 & H2)|(H0 & H1 & H2)]]]; rewrite H2;
    cbn [round_nearest_even]; rewrite ?inject_Z_plus; change (inject_Z 1) with 1;
    try (split; [lia|]; split; [intros; try reflexivity; lra|]; split; [lra|intros [|]; lra]).
  destruct (Z.even (shr_m mrs)) eqn:Ev; rewrite ?inject_Z_plus; change (inject_Z 1) with 1;
    (split; [lia|]); (split; [intros; try reflexivity; lra|]); (split; [lra|]); intros _;
    [exact Ev|rewrite Z.even_add, Ev; reflexivity].
Qed.

Lemma holds_bounds X P mrs :
  holds X P mrs ->
  inject_Z (shr_m mrs) * inject_Z P <= X < (inject_Z (shr_m mrs) + 1) * inject_Z P /\
  (0 <= shr_m mrs)%Z.
Proof. intros (R & HX & HR & Hm & _). split; [lra|assumption]. Qed.

Lemma position_exact_inv R P : position R P = loc_Exact -> R == 0.
Proof.
  unfold position. destruct (Qeq_bool R 0) eqn:E; [|discriminate].
  intros _. now apply Qeq_bool_eq.
Qed.

#[export] Instance position_proper : Proper (Qeq ==> Qeq ==> eq) position.
Proof.
  intros R R' HR P P' HP. unfold position.
  assert (Qeq_bool R 0 = Qeq_bool R' 0) as ->.
  { destruct (Qeq_bool R' 0) eqn:E; [apply Qeq_bool_iff in E; apply Qeq_bool_iff; lra|].
    destruct (Qeq_bool R 0) eqn:E'; [|reflexivity]. apply Qeq_bool_iff in E'.
    rewrite <- E. symmetry. apply Qeq_bool_iff. lra. }
  now rewrite (Qcompare_comp (2 * R) (2 * R') ltac:(now rewrite HR) P P' HP).
Qed.
