(* ===== verification/Rounding.v ===== *)
(** * Rounding: what the rounding of the binary64 format computes

    The operators of the language round their exact result to the
    nearest value of the format, the even one on a tie.  The Standard
    Library defines that rounding on integers ([SpecFloat]:
    [binary_round_aux], by shifts that keep track of the bits they drop),
    and the primitive operators of the kernel are specified by it.  This
    file proves what that definition computes: a rounding of [X * 2^E]
    shifts the integer part of [X] to the exponent [e1] of the format,
    which leaves the quotient [m1] of at most 53 bits, and takes the
    nearer of [m1] and [m1 + 1], the even one on a tie ([rounds]); a
    mantissa that reaches [2^53] is carried to the next exponent
    ([carried]).  [Nearest] reads it as a statement on values. *)

From Stdlib Require Import ZArith QArith Lia Lqa SpecFloat.
From S2P Require Import Prelude JsNumber Values Shifts.

Local Open Scope Z_scope.

(** ** The exponent of the format *)

Lemma Zdigits2_bounds M : 0 < M -> 2 ^ (Zdigits2 M - 1) <= M < 2 ^ Zdigits2 M.
Proof.
  destruct M as [|p|p]; try lia. intros _. cbn [Zdigits2].
  split; [apply digits2_pos_lower|apply digits2_pos_bound].
Qed.

Lemma Zdigits2_le M d : 0 <= M < 2 ^ d -> 0 <= d -> Zdigits2 M <= d.
Proof.
  intros [H0 H] Hd. destruct (Z.eq_dec M 0) as [->|]; [cbn; lia|].
  destruct (Z.le_gt_cases (Zdigits2 M) d) as [C|C]; [exact C|].
  pose proof (Zdigits2_bounds M ltac:(lia)) as [L _].
  assert (2 ^ d <= 2 ^ (Zdigits2 M - 1)) by (apply Z.pow_le_mono_r; lia). lia.
Qed.

(** The first shift of a rounding: to the exponent of the format. *)
Lemma shr_fexp_holds X q E l :
  holds X 1 (shr_record_of_loc q l) ->
  let k := Z.max 0 (fexp prec emax (Zdigits2 q + E) - E) in
  holds X (2 ^ k) (fst (shr_fexp prec emax q E l)) /\
  snd (shr_fexp prec emax q E l) = E + k.
Proof. intros H k. unfold shr_fexp. now apply holds_shr. Qed.

Lemma fexp_shift M E :
  0 <= M ->
  let k := Z.max 0 (fexp prec emax (Zdigits2 M + E) - E) in
  M < 2 ^ (53 + k) /\ -1074 <= E + k.
Proof.
  intros H k. subst k. unfold fexp, emin. change prec with 53. change emax with 1024.
  split; [|lia].
  destruct (Z.eq_dec M 0) as [->|]; [apply Z.pow_pos_nonneg; lia|].
  pose proof (Zdigits2_bounds M ltac:(lia)) as [_ U].
  eapply Z.lt_le_trans; [exact U|]. apply Z.pow_le_mono_r; lia.
Qed.

(** The shift of a rounding leaves 53 bits, and all of them above the
    least exponent. *)
Lemma fexp_normal M E m1 :
  0 <= M ->
  let k := Z.max 0 (fexp prec emax (Zdigits2 M + E) - E) in
  m1 * 2 ^ k <= M < (m1 + 1) * 2 ^ k ->
  m1 < 2 ^ 53 /\ (k = 0 \/ E + k = -1074 \/ 2 ^ 52 <= m1).
Proof.
  intros HM k Hm. destruct (fexp_shift M E ltac:(lia)) as [Hb _]. fold k in Hb.
  assert (0 < 2 ^ k) as HP by (apply Z.pow_pos_nonneg; lia).
  split; [rewrite Z.pow_add_r in Hb by lia; nia|].
  subst k. unfold fexp, emin in *. change prec with 53 in *. change emax with 1024 in *.
  destruct (Z.eq_dec M 0) as [->|]; [change (Zdigits2 0) with 0; lia|].
  pose proof (Zdigits2_bounds M ltac:(lia)) as [L _]. set (d := Zdigits2 M) in *.
  destruct (Z_le_gt_dec (Z.max (d + E - 53) (3 - 1024 - 53)) E); [left; lia|right].
  destruct (Z_le_gt_dec (d + E - 53) (-1074)); [left; lia|right].
  replace (Z.max 0 (Z.max (d + E - 53) (3 - 1024 - 53) - E)) with (d - 53) in * by lia.
  replace (d - 1) with (52 + (d - 53)) in L by lia. rewrite Z.pow_add_r in L by lia. nia.
Qed.

(** A mantissa that is at the exponent of the format already and is not
    shifted is of full length, or at the least exponent. *)
Lemma fexp_unshifted M E :
  0 <= M -> E <= fexp prec emax (Zdigits2 M + E) ->
  Z.max 0 (fexp prec emax (Zdigits2 M + E) - E) = 0 ->
  E = -1074 \/ 2 ^ 52 <= M.
Proof.
  unfold fexp, emin. change prec with 53. change emax with 1024. intros HM H H0.
  destruct (Z.eq_dec M 0) as [->|]; [change (Zdigits2 0) with 0 in *; lia|].
  pose proof (Zdigits2_bounds M ltac:(lia)) as [L _].
  destruct (Z.eq_dec E (-1074)); [now left|right].
  replace (Zdigits2 M - 1) with 52 in L by lia. exact L.
Qed.

(** ** A rounding *)

(** What a rounding of [X * 2^E] computes: the quotient [m1] of the shift
    to the exponent [e1], and [m2], the nearer of [m1] and [m1 + 1]. *)
Definition rounds (X : Q) (E m1 m2 e1 : Z) : Prop :=
  let P := inject_Z (2 ^ (e1 - E)) in
  E <= e1 /\ -1074 <= e1 /\
  ((e1 = E /\ X == inject_Z m1)%Q \/ e1 = -1074 \/ 2 ^ 52 <= m1) /\ m1 < 2 ^ 53 /\
  (inject_Z m1 * P <= X < (inject_Z m1 + 1) * P)%Q /\ 0 <= m1 /\ m1 <= m2 <= m1 + 1 /\
  (X == inject_Z m1 * P -> m2 = m1)%Q /\ nearest X (2 ^ (e1 - E)) m2.

(** The result of a rounding, from the mantissa and the exponent reached. *)
Definition rounded (sx : bool) (m e : Z) : spec_float :=
  match m with
  | Z0 => S754_zero sx
  | Z.pos p => if e <=? emax - prec then S754_finite sx p e else S754_infinity sx
  | Z.neg _ => S754_nan
  end.

(** A mantissa that was rounded up to [2^53] takes the next exponent. *)
Definition carried (sx : bool) (m2 e1 : Z) : spec_float :=
  if m2 =? 2 ^ 53 then rounded sx (2 ^ 52) (e1 + 1) else rounded sx m2 e1.

(** The second shift of a rounding only moves a carry. *)
Lemma second_shift sx m2 e1 :
  0 <= m2 <= 2 ^ 53 -> -1074 <= e1 ->
  (let '(mrs, e) := shr_fexp prec emax m2 e1 loc_Exact in rounded sx (shr_m mrs) e) =
  carried sx m2 e1.
Proof.
  intros Hm He.
  destruct (shr_fexp_holds (inject_Z m2) m2 e1 loc_Exact (holds_exact m2 ltac:(lia))) as [H2 He2].
  assert (inject_Z m2 <= inject_Z m2 < inject_Z m2 + 1)%Q as Hq by lra.
  set (k := Z.max 0 (fexp prec emax (Zdigits2 m2 + e1) - e1)) in *.
  assert (0 < 2 ^ k) as HP by (apply Z.pow_pos_nonneg; lia).
  pose proof (holds_floor _ m2 _ _ HP Hq H2) as Hf. clear H2 Hq HP.
  destruct (shr_fexp prec emax m2 e1 loc_Exact) as [mrs e]. cbn [fst snd] in *. subst k.
  unfold carried, fexp, emin in *. change prec with 53 in *. change emax with 1024 in *.
  destruct (Z.eqb_spec m2 (2 ^ 53)) as [C|C].
  - rewrite C in *. change (Zdigits2 (2 ^ 53)) with 54 in *.
    replace (Z.max 0 (Z.max (54 + e1 - 53) (3 - 1024 - 53) - e1)) with 1 in * by lia.
    change (2 ^ 1) with 2 in *.
    replace (shr_m mrs) with (2 ^ 52) by (change (2 ^ 53) with (2 * 2 ^ 52) in Hf; lia).
    now subst e.
  - assert (Zdigits2 m2 <= 53) as Hd by (apply Zdigits2_le; lia).
    replace (Z.max 0 (Z.max (Zdigits2 m2 + e1 - 53) (3 - 1024 - 53) - e1)) with 0 in * by lia.
    change (2 ^ 0) with 1 in *.
    replace (shr_m mrs) with m2 by lia. subst e. now rewrite Z.add_0_r.
Qed.

(** A rounding of the value [X * 2^E] that starts from the integer part
    [q] of [X] and the location [l] of the rest.  Either nothing is lost
    at the start, or [q] is long enough to be shifted. *)
Lemma binary_round_aux_rounds sx X q E l :
  0 <= q -> (inject_Z q <= X < inject_Z q + 1)%Q -> l = position (X - inject_Z q) 1 ->
  l = loc_Exact \/ E <= fexp prec emax (Zdigits2 q + E) ->
  exists m1 m2 e1,
    rounds X E m1 m2 e1 /\ binary_round_aux prec emax sx q E l = carried sx m2 e1.
Proof.
  intros Hq HX Hl Hlong. unfold binary_round_aux.
  pose proof (holds_initial X q l Hq HX Hl) as H.
  destruct (shr_fexp_holds X q E l H) as [H1 He1].
  destruct (fexp_shift q E Hq) as [_ Hemin].
  pose proof (fexp_normal q E) as Hn. pose proof (fexp_unshifted q E Hq) as Hu.
  set (k1 := Z.max 0 (fexp prec emax (Zdigits2 q + E) - E)) in *.
  destruct (shr_fexp prec emax q E l) as [mrs1 e1]. cbn [fst snd] in *.
  assert (0 < 2 ^ k1) as HP by (apply Z.pow_pos_nonneg; lia).
  destruct (holds_nearest X (2 ^ k1) mrs1 HP H1) as (Hm2 & Hx & Hr).
  pose proof (holds_floor X q (2 ^ k1) mrs1 HP HX H1) as Hf.
  destruct (holds_bounds X (2 ^ k1) mrs1 H1) as [Hb H0].
  destruct (Hn (shr_m mrs1) Hq Hf) as [Hlt Hc].
  set (m2 := round_nearest_even (shr_m mrs1) (loc_of_shr_record mrs1)) in *.
  exists (shr_m mrs1), m2, e1. subst e1.
  split.
  - unfold rounds. replace (E + k1 - E) with k1 by lia. cbv zeta.
    do 2 (split; [lia|]). split; [|auto 10].
    destruct Hc as [Hk|Hc]; [|right; exact Hc].
    rewrite Hk in *. change (2 ^ 0) with 1 in Hf.
    destruct Hlong as [->|Hlong].
    + left. split; [lia|]. symmetry in Hl. apply position_exact_inv in Hl.
      replace (shr_m mrs1) with q by lia. lra.
    + right. replace (shr_m mrs1) with q by lia. rewrite Z.add_0_r. tauto.
  - rewrite <- (second_shift sx m2 (E + k1)) by lia.
    destruct (shr_fexp prec emax m2 (E + k1) loc_Exact) as [mrs2 e2].
    unfold rounded. now destruct (shr_m mrs2).
Qed.
