(* ===== verification/Nearest.v ===== *)
(** * Nearest: the result of a rounding is the nearest value

    [SFrounding exact r] says what a program can rely on when [r] is the
    rounding of the exact value [exact]: no value of the format lies
    between the two ([rounding_above], [rounding_below]: rounding is
    monotone and keeps the values of the format), and they are half a
    unit of the last place apart at most ([rounding_near]).  The result
    of a rounding of [Rounding] is such a value whenever it is a number
    ([carried_rounding]), and it is a number unless the exact value is
    out of range ([carried_overflow]). *)

From Stdlib Require Import QArith Qpower Lqa Morphisms.
From S2P Require Import Prelude JsNumber Values Shifts Rounding.

Local Open Scope Q_scope.

(** ** Rounding keeps the order *)

Section Scale.

Lemma scale m a E : (E <= a)%Z -> inject_Z m * 2 ^ a == inject_Z (m * 2 ^ (a - E)) * 2 ^ E.
Proof.
  intros H. destruct (two_split E a) as [->|]; [|lia]. rewrite inject_Z_mult. ring.
Qed.

Lemma unit_le U A B : 0 < U -> inject_Z A * U <= inject_Z B * U <-> (A <= B)%Z.
Proof.
  intros HU. rewrite Zle_Qle. split; intros H; nra.
Qed.

Lemma unit_lt U A B : 0 < U -> inject_Z A * U < inject_Z B * U <-> (A < B)%Z.
Proof.
  intros HU. rewrite Zlt_Qlt. split; intros H; nra.
Qed.

(** A canonical value of a lesser exponent is below the normal values of
    a greater one. *)
Lemma below_normal mc ec m1 e1 :
  (Z.pos mc < 2 ^ 53)%Z -> (ec < e1)%Z -> (2 ^ 52 <= m1)%Z ->
  inject_Z (Z.pos mc) * 2 ^ ec < inject_Z m1 * 2 ^ e1.
Proof.
  intros U He L. pose proof (two_pos ec). pose proof (two_le (ec + 1) e1 ltac:(lia)) as Hp.
  rewrite two_succ in Hp. to_Q U. to_Q L.
  change (inject_Z (2 ^ 53)) with (2 * inject_Z (2 ^ 52)) in U.
  set (a := inject_Z (Z.pos mc)) in *. set (b := inject_Z m1) in *.
  set (c := inject_Z (2 ^ 52)) in *. assert (0 < c) by reflexivity. nra.
Qed.

End Scale.

(** A rounding in the unit of its result. *)
Section Units.
Variables (X : Q) (E m1 m2 e1 : Z).
Hypothesis Hr : rounds X E m1 m2 e1.

Let exact : Q := X * 2 ^ E.
Let result : Q := inject_Z m2 * 2 ^ e1.

Lemma rounds_unit : 2 ^ e1 == inject_Z (2 ^ (e1 - E)) * 2 ^ E.
Proof. destruct Hr as (HE & _). destruct (two_split E e1) as [H|]; [exact H|lia]. Qed.

Lemma rounds_floor : inject_Z m1 * 2 ^ e1 <= exact < (inject_Z m1 + 1) * 2 ^ e1.
Proof.
  destruct Hr as (_ & _ & _ & _ & Hf & _). cbv zeta in Hf. unfold exact.
  rewrite rounds_unit. pose proof (two_pos E).
  set (P := inject_Z (2 ^ (e1 - E))) in *. set (U := 2 ^ E) in *. nra.
Qed.

Lemma rounds_exact : exact == inject_Z m1 * 2 ^ e1 -> m2 = m1.
Proof.
  destruct Hr as (_ & _ & _ & _ & _ & _ & _ & Hx & _). cbv zeta in Hx. unfold exact.
  rewrite rounds_unit, Qmult_assoc. intros H. apply Hx.
  apply Qmult_inj_r in H; [exact H|]. pose proof (two_pos E). lra.
Qed.

(** The result is within half a unit of the exact value. *)
Lemma rounds_near : exact - (1 # 2) * 2 ^ e1 <= result <= exact + (1 # 2) * 2 ^ e1.
Proof.
  destruct Hr as (_ & _ & _ & _ & _ & _ & _ & _ & [Hn _]). cbv zeta in Hn.
  unfold exact, result. rewrite rounds_unit. pose proof (two_pos E).
  set (P := inject_Z (2 ^ (e1 - E))) in *. set (U := 2 ^ E) in *. nra.
Qed.

(** When no bit was shifted out, the result is the exact value. *)
Lemma rounds_unshifted : (e1 = E /\ X == inject_Z m1) -> result == exact.
Proof.
  intros [He HX]. pose proof rounds_exact as Hx. unfold result, exact in *.
  rewrite Hx; rewrite He, HX; reflexivity.
Qed.

Lemma rounds_result : (m1 <= m2 <= m1 + 1)%Z /\ (0 <= m1)%Z.
Proof. destruct Hr as (_ & _ & _ & _ & _ & H0 & Hm & _). auto. Qed.

End Units.

Section Monotone.
Variables (X : Q) (E m1 m2 e1 : Z) (mc : positive) (ec : Z).
Hypothesis Hr : rounds X E m1 m2 e1.
Hypothesis Hc : valid_binary (S754_finite false mc ec) = true.

Let exact : Q := X * 2 ^ E.
Let result : Q := inject_Z m2 * 2 ^ e1.
Let c : Q := inject_Z (Z.pos mc) * 2 ^ ec.

(** The values of the format at the exponent of the result or above are
    multiples of its unit. *)
Lemma rounds_grid : (e1 <= ec)%Z ->
  (c <= exact -> (Z.pos mc * 2 ^ (ec - e1) <= m1)%Z) /\
  (exact <= c -> (m2 <= Z.pos mc * 2 ^ (ec - e1))%Z).
Proof.
  intros He. pose proof (rounds_floor X E m1 m2 e1 Hr) as Hf.
  pose proof (rounds_exact X E m1 m2 e1 Hr) as Hx.
  destruct (rounds_result X E m1 m2 e1 Hr) as [Hm _]. cbv zeta in Hf, Hx.
  unfold c. fold exact in Hf, Hx. rewrite (scale _ ec e1 He).
  set (C := (Z.pos mc * 2 ^ (ec - e1))%Z). pose proof (two_pos e1) as HU.
  split; intros H.
  - assert (C < m1 + 1)%Z; [|lia]. apply (unit_lt (2 ^ e1)); [assumption|].
    rewrite inject_Z_plus. change (inject_Z 1) with 1. lra.
  - assert (m1 <= C)%Z as H1 by (apply (unit_le (2 ^ e1)); [assumption|lra]).
    destruct (Z.eq_dec m1 C) as [Heq|]; [|lia].
    rewrite Hx; [lia|]. rewrite Heq in *. lra.
Qed.

Lemma rounds_above : c <= exact -> c <= result.
Proof.
  intros H. destruct (rounds_result X E m1 m2 e1 Hr) as [Hm _].
  destruct (Z_le_gt_dec e1 ec) as [He|He].
  - apply (proj1 (rounds_grid He)) in H. unfold c, result.
    rewrite (scale _ ec e1 He). apply unit_le; [apply two_pos|lia].
  - apply valid_canonical in Hc as (Hec & U & _).
    destruct Hr as (_ & _ & [Hu|[Hu|L]] & _); [|lia|].
    + unfold result. now rewrite (rounds_unshifted X E m1 m2 e1 Hr Hu).
    + apply Qlt_le_weak, below_normal; lia.
Qed.

Lemma rounds_below : exact <= c -> result <= c.
Proof.
  intros H. destruct (Z_le_gt_dec e1 ec) as [He|He].
  - apply (proj2 (rounds_grid He)) in H. unfold c, result.
    rewrite (scale _ ec e1 He). apply unit_le; [apply two_pos|lia].
  - apply valid_canonical in Hc as (Hec & U & _).
    pose proof (rounds_floor X E m1 m2 e1 Hr) as Hf. cbv zeta in Hf.
    destruct Hr as (_ & _ & [Hu|[Hu|L]] & _); [|lia|].
    + unfold result. now rewrite (rounds_unshifted X E m1 m2 e1 Hr Hu).
    + exfalso. pose proof (below_normal mc ec m1 e1 U ltac:(lia) L) as Hlt.
      unfold c, exact in *. lra.
Qed.

End Monotone.

(** ** The result of a rounding as a value *)

Definition signed (s : bool) (q : Q) : Q := if s then - q else q.

(** The exponent of the last place of a number; the least one for zero. *)
Definition SFexponent (x : spec_float) : Z :=
  match x with S754_finite _ _ e => e | _ => -1074 end.

Definition SFulp (x : spec_float) : Q := 2 ^ SFexponent x.

(** [r] is the value of the format that the exact value [exact] rounds to:
    no value of the format lies between them, and they are half a unit of
    the last place apart at most. *)
Record SFrounding (exact : Q) (r : spec_float) : Prop := mkRounding {
  rounding_above : forall c, SFreal c -> SFvalue c <= exact -> SFvalue c <= SFvalue r;
  rounding_below : forall c, SFreal c -> exact <= SFvalue c -> SFvalue r <= SFvalue c;
  rounding_near : exact - (1 # 2) * SFulp r <= SFvalue r <= exact + (1 # 2) * SFulp r
}.

Section Carried.
Variables (s : bool) (X : Q) (E m1 m2 e1 : Z).
Hypothesis HX : 0 < X.
Hypothesis Hr : rounds X E m1 m2 e1.

Let exact : Q := X * 2 ^ E.
Let result : Q := inject_Z m2 * 2 ^ e1.

Lemma SFvalue_signed sx m e :
  SFvalue (S754_finite sx m e) == signed sx (inject_Z (Z.pos m) * 2 ^ e).
Proof. destruct sx; [apply SFvalue_neg|reflexivity]. Qed.

Lemma result_bounds : 0 <= result /\ 0 < exact.
Proof.
  destruct (rounds_result X E m1 m2 e1 Hr) as [Hm H0]. unfold result, exact.
  pose proof (two_pos e1). pose proof (two_pos E).
  assert (0 <= m2)%Z as H2 by lia. to_Q H2.
  change (inject_Z 0) with 0 in *. split; nra.
Qed.

(** An exact value that was not shifted is a positive integer. *)
Lemma unshifted_positive : X == inject_Z m1 -> (1 <= m1)%Z.
Proof.
  intros H. assert (0 < m1)%Z; [|lia]. rewrite Zlt_Qlt. change (inject_Z 0) with 0. lra.
Qed.

(** Only at the least exponent is a value rounded to zero. *)
Lemma rounds_zero : m2 = 0%Z -> e1 = (-1074)%Z.
Proof.
  destruct (rounds_result X E m1 m2 e1 Hr) as [Hm H0].
  destruct Hr as (_ & _ & [[_ Hu]|[Hu|L]] & _); intros H2; [|assumption|lia].
  apply unshifted_positive in Hu. lia.
Qed.

(** The value of the result, when it is a number. *)
Lemma carried_value :
  SFfinite (carried s m2 e1) ->
  SFvalue (carried s m2 e1) == signed s result /\
  (1 # 2) * 2 ^ e1 <= (1 # 2) * SFulp (carried s m2 e1).
Proof.
  destruct (rounds_result X E m1 m2 e1 Hr) as [Hm H0]. pose proof rounds_zero as Hz.
  unfold carried, SFfinite, result, SFulp. destruct (Z.eqb_spec m2 (2 ^ 53)) as [C|C].
  - rewrite C. change (2 ^ 52)%Z with (Z.pos (2 ^ 52)). cbn [rounded].
    destruct (_ <=? _)%Z; [|intros []]. intros _. cbn [SFexponent].
    pose proof (two_pos e1). split; [|rewrite two_succ; lra].
    rewrite SFvalue_signed. change (inject_Z (2 ^ 53)) with (2 * inject_Z (Z.pos (2 ^ 52))).
    destruct s; cbn [signed]; rewrite two_succ; ring.
  - destruct m2 as [|p|p] eqn:E2; [| |lia]; cbn [rounded].
    + intros _. cbn [SFvalue SFexponent]. split; [destruct s; cbn; ring|].
      rewrite Hz by reflexivity. lra.
    + destruct (_ <=? _)%Z; [|intros []]. intros _. cbn [SFexponent].
      split; [apply SFvalue_signed|lra].
Qed.

Lemma rounds_monotone c :
  SFreal c ->
  (SFvalue c <= signed s exact -> SFvalue c <= signed s result) /\
  (signed s exact <= SFvalue c -> signed s result <= SFvalue c).
Proof.
  intros [Vc Rc]. destruct result_bounds as [R0 E0].
  destruct c as [sc| | |sc mc ec]; try contradiction.
  - cbn [SFvalue]. destruct s; cbn [signed]; split; intros H; lra.
  - pose proof (rounds_above X E m1 m2 e1 mc ec Hr Vc) as Ha.
    pose proof (rounds_below X E m1 m2 e1 mc ec Hr Vc) as Hb.
    pose proof (SFvalue_pos mc ec) as Hp. fold exact result in Ha, Hb.
    rewrite SFvalue_signed in *. cbn [SFvalue] in Hp.
    destruct s, sc; cbn [signed] in *; split; intros H; lra.
Qed.

(** The result is the rounding of the exact value. *)
Lemma carried_rounding :
  SFfinite (carried s m2 e1) -> SFrounding (signed s exact) (carried s m2 e1).
Proof.
  intros Hreal. destruct (carried_value Hreal) as [Hv Hu].
  pose proof (rounds_near X E m1 m2 e1 Hr) as Hnear. fold exact result in Hnear.
  split.
  - intros c Hc H. rewrite Hv. now apply rounds_monotone.
  - intros c Hc H. rewrite Hv. now apply rounds_monotone.
  - rewrite Hv. destruct s; cbn [signed]; lra.
Qed.

(** A result that is no number is an overflow. *)
Lemma carried_overflow : SFfinite (carried s m2 e1) \/ 2 ^ 971 <= exact.
Proof.
  destruct (rounds_result X E m1 m2 e1 Hr) as [Hm H0].
  pose proof (rounds_floor X E m1 m2 e1 Hr) as Hfl. fold exact in Hfl.
  destruct Hr as (HE & He & Hn & Hb & _).
  destruct (Z_le_gt_dec e1 970) as [Hs|Hl].
  - left. unfold SFfinite, carried.
    destruct (Z.eqb_spec m2 (2 ^ 53)) as [C|C]; [change (2 ^ 52)%Z with (Z.pos (2 ^ 52))|];
      [|destruct m2 as [|p|p]; [| |lia]]; cbn [rounded]; trivial;
      change (emax - prec)%Z with 971%Z.
    + destruct (Z.leb_spec (e1 + 1) 971); [exact I|lia].
    + destruct (Z.leb_spec e1 971); [exact I|lia].
  - right. pose proof (two_le 971 e1 ltac:(lia)) as Hp. pose proof (two_pos e1).
    assert (1 <= m1)%Z as H1
      by (destruct Hn as [[_ Hu]|[Hu|L]]; [now apply unshifted_positive|lia|lia]).
    to_Q H1. change (inject_Z 1) with 1 in H1.
    set (U := 2 ^ e1) in *. set (T := 2 ^ 971) in *. nra.
Qed.

End Carried.

#[export] Instance SFrounding_proper : Proper (Qeq ==> eq ==> iff) SFrounding.
Proof.
  intros a b Hab r r' <-.
  split; intros [Ha Hb Hn]; split; intros; rewrite ?Hab in *; auto;
    try (apply Ha; auto; lra); try (apply Hb; auto; lra); lra.
Qed.

#[export] Instance signed_proper : Proper (eq ==> Qeq ==> Qeq) signed.
Proof. intros s s' <- a b Hab. destruct s; cbn; lra. Qed.

Lemma SFulp_pos r : 0 < SFulp r.
Proof. apply two_pos. Qed.

(** A value of the format is its own rounding. *)
Lemma rounding_exact r : SFrounding (SFvalue r) r.
Proof. pose proof (SFulp_pos r). split; intros; lra. Qed.

Lemma rounding_zero exact s : exact == 0 -> SFrounding exact (S754_zero s).
Proof. intros ->. apply (rounding_exact (S754_zero s)). Qed.
