(* ===== verification/SFArith.v ===== *)
(** * SFArith: product, sum and quotient of the format

    The three operators of the format that the program uses, as the
    Standard Library defines them ([SFmul], [SFadd], [SFdiv]), are
    roundings of the exact result: the product of the mantissas at the
    sum of the exponents ([SFmul_rounding]), the sum of the mantissas
    aligned at the lesser exponent ([SFadd_rounding]), and the quotient
    of the shifted dividend with the place of the rest of the division
    ([SFdiv_rounding]).  Each is a number unless the exact result is out
    of range or the divisor is zero ([SFmul_real], [SFadd_real],
    [SFdiv_real]). *)

From Stdlib Require Import QArith Qpower Lqa Morphisms.
From S2P Require Import Prelude JsNumber Values Shifts Rounding Nearest.

Local Open Scope Q_scope.

(** ** The product *)

Lemma signed_mul sx sy a b : signed sx a * signed sy b == signed (xorb sx sy) (a * b).
Proof. destruct sx, sy; cbn; ring. Qed.

(** A rounding that starts from an integer. *)
Lemma binary_round_aux_integer sx M E :
  (0 < M)%Z ->
  exists m1 m2 e1,
    rounds (inject_Z M) E m1 m2 e1 /\
    binary_round_aux prec emax sx M E loc_Exact = carried sx m2 e1.
Proof.
  intros HM. apply binary_round_aux_rounds; [lia|lra| |now left].
  symmetry. apply position_exact. ring.
Qed.

Lemma SFmul_finite sx mx ex sy my ey :
  exists m1 m2 e1,
    rounds (inject_Z (Z.pos mx * Z.pos my)) (ex + ey) m1 m2 e1 /\
    SFmul prec emax (S754_finite sx mx ex) (S754_finite sy my ey) =
      carried (xorb sx sy) m2 e1.
Proof. cbn [SFmul]. rewrite Pos2Z.inj_mul. apply binary_round_aux_integer. lia. Qed.

Lemma SFmul_exact sx mx ex sy my ey :
  SFvalue (S754_finite sx mx ex) * SFvalue (S754_finite sy my ey) ==
  signed (xorb sx sy) (inject_Z (Z.pos mx * Z.pos my) * 2 ^ (ex + ey)).
Proof.
  rewrite !SFvalue_signed, signed_mul, inject_Z_mult, two_add.
  destruct (xorb sx sy); cbn [signed]; ring.
Qed.

(** The product of the language is the rounding of the product of the
    values. *)
Theorem SFmul_rounding x y :
  SFfinite x -> SFfinite y -> SFfinite (SFmul prec emax x y) ->
  SFrounding (SFvalue x * SFvalue y) (SFmul prec emax x y).
Proof.
  intros Hx Hy.
  destruct x as [sx| | |sx mx ex]; try contradiction;
    destruct y as [sy| | |sy my ey]; try contradiction; intros Hxy;
    try (cbn [SFmul SFvalue]; apply rounding_zero; ring).
  destruct (SFmul_finite sx mx ex sy my ey) as (m1 & m2 & e1 & Hr & E).
  rewrite E in *. rewrite SFmul_exact.
  apply (carried_rounding _ _ _ m1); [reflexivity|assumption..].
Qed.

(** It is a number unless the product of the values is out of range. *)
Theorem SFmul_real x y :
  SFfinite x -> SFfinite y ->
  - 2 ^ 971 < SFvalue x * SFvalue y < 2 ^ 971 -> SFfinite (SFmul prec emax x y).
Proof.
  intros Hx Hy.
  destruct x as [sx| | |sx mx ex]; try contradiction;
    destruct y as [sy| | |sy my ey]; try contradiction; try (intros; exact I).
  destruct (SFmul_finite sx mx ex sy my ey) as (m1 & m2 & e1 & Hr & E).
  rewrite E, SFmul_exact. intros Hb.
  destruct (carried_overflow (xorb sx sy) (inject_Z (Z.pos mx * Z.pos my)) (ex + ey) m1 m2 e1
              ltac:(reflexivity) Hr) as [H|H]; [auto|].
  destruct (xorb sx sy); cbn [signed] in Hb; lra.
Qed.

(** ** The sum *)

(** An alignment to a lesser exponent keeps the value. *)
Lemma shl_align_value mx ex ex' :
  inject_Z (Z.pos (fst (shl_align mx ex ex'))) * 2 ^ snd (shl_align mx ex ex') ==
    inject_Z (Z.pos mx) * 2 ^ ex /\
  ((ex' <= ex)%Z -> snd (shl_align mx ex ex') = ex').
Proof.
  unfold shl_align. destruct (ex' - ex)%Z as [|d|d] eqn:Hd; cbn [fst snd];
    (split; [try reflexivity|intros; lia]).
  change (Pos.iter xO mx d) with (shift_pos d mx). rewrite shift_pos_correct.
  change (Zpower_pos 2 d) with (2 ^ Z.pos d)%Z.
  rewrite inject_Z_mult, two_Z by lia. replace ex with (Z.pos d + ex')%Z by lia.
  rewrite two_add. ring.
Qed.

Section BinaryRound.
Variables (sx : bool) (m : positive) (e : Z).

Let exact : Q := inject_Z (Z.pos m) * 2 ^ e.

Lemma binary_round_rounds :
  exists X E m1 m2 e1,
    0 < X /\ X * 2 ^ E == exact /\ rounds X E m1 m2 e1 /\
    binary_round prec emax sx m e = carried sx m2 e1.
Proof.
  unfold binary_round.
  destruct (shl_align_value m e (fexp prec emax (Z.pos (digits2_pos m) + e))) as [Hv _].
  destruct (shl_align m e _) as [mz ez]. cbn [fst snd] in Hv.
  destruct (binary_round_aux_integer sx (Z.pos mz) ez ltac:(lia)) as (m1 & m2 & e1 & Hr & Hc).
  exists (inject_Z (Z.pos mz)), ez, m1, m2, e1.
  split; [reflexivity|]. split; [exact Hv|]. split; assumption.
Qed.

(** A mantissa at an exponent, rounded to the format. *)
Lemma binary_round_rounding :
  SFfinite (binary_round prec emax sx m e) ->
  SFrounding (signed sx exact) (binary_round prec emax sx m e).
Proof.
  destruct binary_round_rounds as (X & E & m1 & m2 & e1 & HX & Hv & Hr & ->).
  rewrite <- Hv. now apply (carried_rounding _ _ _ m1).
Qed.

Lemma binary_round_real : exact < 2 ^ 971 -> SFfinite (binary_round prec emax sx m e).
Proof.
  destruct binary_round_rounds as (X & E & m1 & m2 & e1 & HX & Hv & Hr & ->).
  intros Hb. destruct (carried_overflow sx X E m1 m2 e1 HX Hr) as [H|H]; [exact H|lra].
Qed.

End BinaryRound.

Lemma inject_cond_Zopp s z : inject_Z (cond_Zopp s z) == signed s (inject_Z z).
Proof. destruct s; cbn [cond_Zopp signed]; [now rewrite inject_Z_opp|reflexivity]. Qed.

Section Normalize.
Variables (M e : Z) (szero : bool).

Lemma binary_normalize_rounding :
  SFfinite (binary_normalize prec emax M e szero) ->
  SFrounding (inject_Z M * 2 ^ e) (binary_normalize prec emax M e szero).
Proof.
  destruct M as [|p|p]; cbn [binary_normalize]; intros H.
  - apply rounding_zero. ring.
  - now apply (binary_round_rounding false).
  - change (Z.neg p) with (- Z.pos p)%Z. rewrite inject_Z_opp.
    setoid_replace (- inject_Z (Z.pos p) * 2 ^ e) with (signed true (inject_Z (Z.pos p) * 2 ^ e))
      by (cbn [signed]; ring).
    now apply binary_round_rounding.
Qed.

Lemma binary_normalize_real :
  - 2 ^ 971 < inject_Z M * 2 ^ e < 2 ^ 971 -> SFfinite (binary_normalize prec emax M e szero).
Proof.
  destruct M as [|p|p]; cbn [binary_normalize]; intros H; [exact I|..];
    apply binary_round_real; [lra|].
  change (Z.neg p) with (- Z.pos p)%Z in H. rewrite inject_Z_opp in H. lra.
Qed.

End Normalize.

(** The sum of two numbers of the format, as a mantissa at the lesser
    exponent. *)
Lemma SFadd_exact sx mx ex sy my ey :
  let ez := Z.min ex ey in
  inject_Z (cond_Zopp sx (Z.pos (fst (shl_align mx ex ez))) +
            cond_Zopp sy (Z.pos (fst (shl_align my ey ez)))) * 2 ^ ez ==
  SFvalue (S754_finite sx mx ex) + SFvalue (S754_finite sy my ey).
Proof.
  intros ez. rewrite inject_Z_plus, !inject_cond_Zopp, !SFvalue_signed.
  destruct (shl_align_value mx ex ez) as [Hx Ex], (shl_align_value my ey ez) as [Hy Ey].
  rewrite Ex in Hx by lia. rewrite Ey in Hy by lia. rewrite <- Hx, <- Hy.
  destruct sx, sy; cbn [signed]; ring.
Qed.

(** The sum of the language is the rounding of the sum of the values. *)
Theorem SFadd_rounding x y :
  SFfinite x -> SFfinite y -> SFfinite (SFadd prec emax x y) ->
  SFrounding (SFvalue x + SFvalue y) (SFadd prec emax x y).
Proof.
  intros Hx Hy.
  destruct x as [sx| | |sx mx ex]; try contradiction;
    destruct y as [sy| | |sy my ey]; try contradiction; intros Hxy.
  - destruct sx, sy; apply rounding_zero; cbn; ring.
  - cbn [SFadd]. setoid_replace (SFvalue (S754_zero sx) + SFvalue (S754_finite sy my ey))
      with (SFvalue (S754_finite sy my ey)) by (cbn [SFvalue]; ring). apply rounding_exact.
  - cbn [SFadd]. setoid_replace (SFvalue (S754_finite sx mx ex) + SFvalue (S754_zero sy))
      with (SFvalue (S754_finite sx mx ex)) by (cbn [SFvalue]; ring). apply rounding_exact.
  - rewrite <- SFadd_exact. now apply binary_normalize_rounding.
Qed.

(** It is a number unless the sum of the values is out of range. *)
Theorem SFadd_real x y :
  SFfinite x -> SFfinite y ->
  - 2 ^ 971 < SFvalue x + SFvalue y < 2 ^ 971 -> SFfinite (SFadd prec emax x y).
Proof.
  intros Hx Hy.
  destruct x as [sx| | |sx mx ex]; try contradiction;
    destruct y as [sy| | |sy my ey]; try contradiction; try (intros; exact I).
  - now destruct sx, sy.
  - rewrite <- SFadd_exact. apply binary_normalize_real.
Qed.

(** ** The quotient *)

(** The location that a division reports is the place of the rest of
    the division in a step. *)
Lemma new_location_position m r :
  (0 <= r < m)%Z -> new_location m r = position (inject_Z r / inject_Z m) 1.
Proof.
  intros [H0 Hr]. set (R := inject_Z r / inject_Z m).
  assert (0 < m)%Z as Hm by lia. to_Q Hm. change (inject_Z 0) with 0 in Hm.
  assert (R * inject_Z m == inject_Z r) as HR by (unfold R; field; lra).
  unfold new_location, new_location_even, new_location_odd. symmetry.
  destruct (Z.eqb_spec r 0) as [->|Hn].
  - rewrite position_exact; [now destruct (Z.even m)|]. change (inject_Z 0) with 0 in HR. nra.
  - assert (0 < r)%Z as Hp by lia. to_Q Hp. change (inject_Z 0) with 0 in Hp.
    assert (0 < R) by nra.
    assert (forall a, 2 * inject_Z a == inject_Z (2 * a)) as H2
      by (intros; now rewrite inject_Z_mult).
    destruct (Z.even m) eqn:Ev; rewrite (proj2 (Z.eqb_neq r 0) Hn).
    + destruct (Z.compare_spec (2 * r) m) as [C|C|C].
      * assert (2 * inject_Z r == inject_Z m) as C' by (rewrite <- C; apply H2).
        assert (2 * R == 1) by nra. position_solve.
      * to_Q C. change (inject_Z 2) with 2 in C. assert (2 * R < 1) by nra. position_solve.
      * to_Q C. change (inject_Z 2) with 2 in C. assert (1 < 2 * R) by nra. position_solve.
    + assert (2 * r <> m)%Z as Hodd by (intros <-; rewrite Z.even_mul in Ev; discriminate).
      destruct (Z.compare_spec (2 * r + 1) m) as [C|C|C].
      * assert (2 * r < m)%Z as C' by lia. to_Q C'. change (inject_Z 2) with 2 in C'.
        assert (2 * R < 1) by nra. position_solve.
      * assert (2 * r < m)%Z as C' by lia. to_Q C'. change (inject_Z 2) with 2 in C'.
        assert (2 * R < 1) by nra. position_solve.
      * assert (m < 2 * r)%Z as C' by lia. to_Q C'. change (inject_Z 2) with 2 in C'.
        assert (1 < 2 * R) by nra. position_solve.
Qed.

Lemma Zdigits2_pos M : (0 < M -> 0 < Zdigits2 M)%Z.
Proof. destruct M; cbn [Zdigits2]; lia. Qed.

(** The quotient of a division has at least the digits that the shift
    of the dividend provides. *)
Lemma quotient_digits m1 m2 s q r :
  (0 < m1 -> 0 < m2 -> 0 <= s -> m1 * 2 ^ s = m2 * q + r -> 0 <= r < m2 ->
   0 <= q /\ Zdigits2 m1 - Zdigits2 m2 + s <= Zdigits2 q)%Z.
Proof.
  intros H1 H2 Hs Hq Hr. assert (0 < 2 ^ s)%Z as Hp by (apply Z.pow_pos_nonneg; lia).
  assert (0 <= q)%Z as H0 by nia. split; [exact H0|].
  pose proof (Zdigits2_bounds m1 H1) as [L1 _]. pose proof (Zdigits2_bounds m2 H2) as [_ U2].
  set (d1 := Zdigits2 m1) in *. set (d2 := Zdigits2 m2) in *.
  destruct (Z_le_gt_dec (d1 - d2 + s) 0) as [|Ht];
    [destruct q; cbn [Zdigits2]; lia|].
  pose proof (Zdigits2_pos m1 H1). pose proof (Zdigits2_pos m2 H2).
  assert (2 ^ (d1 - d2 + s - 1) <= q)%Z as Hq'.
  { assert (0 < 2 ^ (d1 - d2 + s - 1))%Z by (apply Z.pow_pos_nonneg; lia).
    assert (2 ^ (d1 - 1) * 2 ^ s = 2 ^ (d1 - d2 + s - 1) * 2 ^ d2)%Z as Hsplit
      by (rewrite <- !Z.pow_add_r by lia; f_equal; lia).
    assert (0 < 2 ^ d2)%Z by (apply Z.pow_pos_nonneg; lia). nia. }
  assert (0 < q)%Z by (assert (0 < 2 ^ (d1 - d2 + s - 1))%Z by (apply Z.pow_pos_nonneg; lia); lia).
  pose proof (Zdigits2_bounds q ltac:(lia)) as [_ Uq].
  destruct (Z_le_gt_dec (d1 - d2 + s) (Zdigits2 q)) as [|C]; [assumption|].
  assert (2 ^ Zdigits2 q <= 2 ^ (d1 - d2 + s - 1))%Z by (apply Z.pow_le_mono_r; lia). lia.
Qed.

(** The exponent of the format grows with the magnitude. *)
Lemma fexp_monotone a b : (a <= b -> fexp prec emax a <= fexp prec emax b)%Z.
Proof. unfold fexp, emin. lia. Qed.

Section Division.
Variables (sx : bool) (mx my : positive) (ex ey : Z).

Let exact : Q := (inject_Z (Z.pos mx) * 2 ^ ex) / (inject_Z (Z.pos my) * 2 ^ ey).

(** The exponent and the shift that a division chooses. *)
Let e' : Z :=
  Z.min (fexp prec emax (Zdigits2 (Z.pos mx) + ex - (Zdigits2 (Z.pos my) + ey))) (ex - ey).
Let s : Z := (ex - ey - e')%Z.

Lemma SFdiv_core_binary_eq :
  SFdiv_core_binary prec emax (Z.pos mx) ex (Z.pos my) ey =
  let '(q, r) := Z.div_eucl (Z.pos mx * 2 ^ s) (Z.pos my) in (q, e', new_location (Z.pos my) r).
Proof.
  unfold SFdiv_core_binary. fold e'. fold s. assert (0 <= s)%Z as Hs by (unfold s, e'; lia).
  destruct s as [|p|p] eqn:E; [| |lia].
  - now rewrite Z.mul_1_r.
  - now rewrite Z.shiftl_mul_pow2 by lia.
Qed.

Lemma SFdiv_exact q r :
  (Z.pos mx * 2 ^ s = Z.pos my * q + r)%Z ->
  ((inject_Z q + inject_Z r / inject_Z (Z.pos my)) * 2 ^ e' == exact).
Proof.
  intros H. assert (0 <= s)%Z as Hs by (unfold s, e'; lia).
  assert (inject_Z (Z.pos mx) * 2 ^ s == inject_Z (Z.pos my) * inject_Z q + inject_Z r) as H'
    by (rewrite <- (two_Z s Hs), <- !inject_Z_mult, <- inject_Z_plus, H; reflexivity).
  unfold exact. replace ex with (s + e' + ey)%Z at 1 by (unfold s; lia).
  rewrite !two_add. pose proof (two_pos ey). pose proof (two_pos e'). pose proof (two_pos s).
  assert (0 < inject_Z (Z.pos my)) by reflexivity.
  set (a := inject_Z (Z.pos mx)) in *. set (b := inject_Z (Z.pos my)) in *.
  field_simplify_eq; [|lra]. nra.
Qed.

Lemma SFdiv_core_binary_rounds :
  exists X m1 m2 e1,
    0 < X /\ X * 2 ^ e' == exact /\ rounds X e' m1 m2 e1 /\
    (let '(q, e, l) := SFdiv_core_binary prec emax (Z.pos mx) ex (Z.pos my) ey in
     binary_round_aux prec emax sx q e l) = carried sx m2 e1.
Proof.
  rewrite SFdiv_core_binary_eq. assert (0 <= s)%Z as Hs by (unfold s, e'; lia).
  pose proof (Z_div_mod (Z.pos mx * 2 ^ s) (Z.pos my) ltac:(lia)) as Hdiv.
  destruct (Z.div_eucl _ _) as [q r]. destruct Hdiv as [Hq Hr].
  destruct (quotient_digits (Z.pos mx) (Z.pos my) s q r) as [H0 Hd]; try lia.
  set (R := inject_Z r / inject_Z (Z.pos my)).
  assert (0 <= R < 1) as HR.
  { assert (0 < inject_Z (Z.pos my)) as Hy by reflexivity.
    assert (R * inject_Z (Z.pos my) == inject_Z r) as HR by (unfold R; field; lra).
    destruct Hr as [Hr0 Hr1]. to_Q Hr0. to_Q Hr1. change (inject_Z 0) with 0 in Hr0.
    split; nra. }
  destruct (binary_round_aux_rounds sx (inject_Z q + R) q e' (new_location (Z.pos my) r))
    as (m1 & m2 & e1 & Hrounds & Hc); [assumption|lra| |right|].
  - rewrite new_location_position by assumption. apply position_proper; [|reflexivity].
    fold R. ring.
  - unfold e' at 1. etransitivity; [apply Z.le_min_l|]. apply fexp_monotone. fold e'.
    unfold s in Hd. lia.
  - exists (inject_Z q + R), m1, m2, e1. split; [|split; [now apply SFdiv_exact|now split]].
    assert (0 < q \/ 0 < r)%Z as [C|C] by nia.
    + to_Q C. change (inject_Z 0) with 0 in C. lra.
    + assert (0 < R); [|to_Q H0; change (inject_Z 0) with 0 in H0; lra].
      unfold R. apply Qlt_shift_div_l; [reflexivity|]. to_Q C. change (inject_Z 0) with 0 in C. lra.
Qed.

End Division.

Lemma signed_div sx sy a b : ~ b == 0 -> signed sx a / signed sy b == signed (xorb sx sy) (a / b).
Proof. intros H. destruct sx, sy; cbn; field; assumption. Qed.

Lemma SFdiv_finite sx mx ex sy my ey :
  exists X E m1 m2 e1,
    0 < X /\
    signed (xorb sx sy) (X * 2 ^ E) == SFvalue (S754_finite sx mx ex) / SFvalue (S754_finite sy my ey) /\
    rounds X E m1 m2 e1 /\
    SFdiv prec emax (S754_finite sx mx ex) (S754_finite sy my ey) = carried (xorb sx sy) m2 e1.
Proof.
  destruct (SFdiv_core_binary_rounds (xorb sx sy) mx my ex ey) as (X & m1 & m2 & e1 & HX & Hv & Hr & Hc).
  cbv zeta in Hv, Hr. eexists X, _, m1, m2, e1. split; [exact HX|]. split; [|split; [exact Hr|]].
  - rewrite Hv, !SFvalue_signed, signed_div; [reflexivity|].
    pose proof (two_pos ey). assert (0 < inject_Z (Z.pos my)) by reflexivity. nra.
  - cbn [SFdiv]. destruct (SFdiv_core_binary _ _ _ _ _ _) as [[q e] l]. exact Hc.
Qed.

(** The quotient of the language is the rounding of the quotient of the
    values. *)
Theorem SFdiv_rounding x y :
  SFfinite x -> SFfinite y -> SFfinite (SFdiv prec emax x y) ->
  SFrounding (SFvalue x / SFvalue y) (SFdiv prec emax x y).
Proof.
  intros Hx Hy.
  destruct x as [sx| | |sx mx ex]; try contradiction;
    destruct y as [sy| | |sy my ey]; try contradiction; intros Hxy; try contradiction.
  - cbn [SFdiv SFvalue]. apply rounding_zero. unfold Qdiv. ring.
  - destruct (SFdiv_finite sx mx ex sy my ey) as (X & E & m1 & m2 & e1 & HX & Hv & Hr & Hc).
    rewrite Hc in *. rewrite <- Hv. now apply (carried_rounding _ _ _ m1).
Qed.

(** It is a number unless the divisor is zero or the quotient of the
    values is out of range. *)
Theorem SFdiv_real x y :
  SFfinite x -> SFfinite y -> ~ SFvalue y == 0 ->
  - 2 ^ 971 < SFvalue x / SFvalue y < 2 ^ 971 -> SFfinite (SFdiv prec emax x y).
Proof.
  intros Hx Hy.
  destruct x as [sx| | |sx mx ex]; try contradiction;
    destruct y as [sy| | |sy my ey]; try contradiction; intros H0 Hb;
    try exact I; try (exfalso; apply H0; reflexivity).
  destruct (SFdiv_finite sx mx ex sy my ey) as (X & E & m1 & m2 & e1 & HX & Hv & Hr & Hc).
  rewrite Hc. rewrite <- Hv in Hb.
  destruct (carried_overflow (xorb sx sy) X E m1 m2 e1 HX Hr) as [H|H]; [exact H|].
  destruct (xorb sx sy); cbn [signed] in Hb; lra.
Qed.
