(* ===== verification/JsArith.v ===== *)
(** * JsArith: the arithmetic of the language on values

    [x * y], [x + y] and [x / y] of the language are the numbers nearest
    to the product, the sum and the quotient of the values of [x] and
    [y].  [rounding exact r] says what the program can rely on: no
    number lies between the exact value and [r] ([rounding_ge],
    [rounding_le]), and the two are half a unit of the last place apart
    at most ([rounding_close]).  The results of the three operators are
    such roundings whenever they are numbers ([mul_rounding],
    [add_rounding], [div_rounding]), and they are numbers unless the
    exact result is out of range or the divisor is zero ([mul_real],
    [add_real], [div_real]).  A comparison of a result with a threshold
    therefore decides the exact value up to the distance between the
    threshold and the number beside it ([rounding_gtb],
    [rounding_gtb_intro], [rounding_ltb], [rounding_ltb_intro]). *)

From Stdlib Require Import QArith Qpower Lqa Morphisms.
From S2P Require Import Prelude JsNumber Values Shifts Rounding Nearest SFArith.

Local Open Scope Q_scope.

(** ** Numbers *)

(** The unit of the last place of a number. *)
Definition ulp (x : number) : Q := SFulp (Prim2SF x).

(** [r] is the number that [exact] rounds to. *)
Definition rounding (exact : Q) (r : number) : Prop := SFrounding exact (Prim2SF r).

#[export] Instance rounding_proper : Proper (Qeq ==> eq ==> iff) rounding.
Proof. intros a b Hab r r' <-. unfold rounding. now rewrite Hab. Qed.

Section Rounding.
Implicit Types (x y r c t : number) (exact : Q).

Lemma rounding_ge exact r c : rounding exact r -> real c -> value c <= exact -> value c <= value r.
Proof. intros H Hc. apply (rounding_above _ _ H). now apply real_SFreal. Qed.

Lemma rounding_le exact r c : rounding exact r -> real c -> exact <= value c -> value r <= value c.
Proof. intros H Hc. apply (rounding_below _ _ H). now apply real_SFreal. Qed.

Lemma rounding_close exact r :
  rounding exact r -> exact - (1 # 2) * ulp r <= value r <= exact + (1 # 2) * ulp r.
Proof. apply rounding_near. Qed.

(** A result above a threshold comes from an exact value above it. *)
Lemma rounding_gtb exact r t :
  rounding exact r -> real r -> real t -> (r >? t)%float = true -> value t < exact.
Proof.
  intros H Hr Ht Hgt. unfold gtb in Hgt. apply ltb_value in Hgt; [|assumption..].
  destruct (Qlt_le_dec (value t) exact) as [|Hle]; [assumption|].
  pose proof (rounding_le _ _ _ H Ht Hle). lra.
Qed.

(** An exact value at or above the next number exceeds the threshold. *)
Lemma rounding_gtb_intro exact r t t' :
  rounding exact r -> real r -> real t -> real t' ->
  value t < value t' -> value t' <= exact -> (r >? t)%float = true.
Proof.
  intros H Hr Ht Ht' Hlt Hle. unfold gtb. apply ltb_value; [assumption..|].
  pose proof (rounding_ge _ _ _ H Ht' Hle). lra.
Qed.

(** A result below a threshold comes from an exact value below it. *)
Lemma rounding_ltb exact r t :
  rounding exact r -> real r -> real t -> (r <? t)%float = true -> exact < value t.
Proof.
  intros H Hr Ht Hlt. apply ltb_value in Hlt; [|assumption..].
  destruct (Qlt_le_dec exact (value t)) as [|Hle]; [assumption|].
  pose proof (rounding_ge _ _ _ H Ht Hle). lra.
Qed.

(** An exact value at or below the number before falls short of the
    threshold. *)
Lemma rounding_ltb_intro exact r t t' :
  rounding exact r -> real r -> real t -> real t' ->
  value t' < value t -> exact <= value t' -> (r <? t)%float = true.
Proof.
  intros H Hr Ht Ht' Hlt Hle. apply ltb_value; [assumption..|].
  pose proof (rounding_le _ _ _ H Ht' Hle). lra.
Qed.

Theorem mul_rounding x y :
  real x -> real y -> real (x * y) -> rounding (value x * value y) (x * y).
Proof.
  unfold real, rounding, value. rewrite mul_spec. apply SFmul_rounding.
Qed.

Theorem mul_real x y :
  real x -> real y -> - 2 ^ 971 < value x * value y < 2 ^ 971 -> real (x * y).
Proof. unfold real, value. rewrite mul_spec. apply SFmul_real. Qed.

Theorem add_rounding x y :
  real x -> real y -> real (x + y) -> rounding (value x + value y) (x + y).
Proof.
  unfold real, rounding, value. rewrite add_spec. apply SFadd_rounding.
Qed.

Theorem add_real x y :
  real x -> real y -> - 2 ^ 971 < value x + value y < 2 ^ 971 -> real (x + y).
Proof. unfold real, value. rewrite add_spec. apply SFadd_real. Qed.

Theorem div_rounding x y :
  real x -> real y -> real (x / y) -> rounding (value x / value y) (x / y).
Proof.
  unfold real, rounding, value. rewrite div_spec. apply SFdiv_rounding.
Qed.

Theorem div_real x y :
  real x -> real y -> ~ value y == 0 ->
  - 2 ^ 971 < value x / value y < 2 ^ 971 -> real (x / y).
Proof. unfold real, value. rewrite div_spec. apply SFdiv_real. Qed.

End Rounding.

(** ** The last place of a small number *)

(** A number between -2 and 2 has its last place at [2^-52] or below. *)
Lemma ulp_small x : real x -> - 2 < value x < 2 -> ulp x <= 2 ^ (-52).
Proof.
  intros Hr Hv. unfold ulp, SFulp, value in *. pose proof (Prim2SF_valid x) as V.
  unfold real in Hr. destruct (Prim2SF x) as [s| | |s m e]; try contradiction;
    cbn [SFexponent]; [apply two_le; lia|].
  apply two_le. apply valid_canonical in V as (_ & _ & L).
  destruct (Z_le_gt_dec e (-52)) as [|He]; [assumption|exfalso].
  specialize (L ltac:(lia)). rewrite SFvalue_signed in Hv.
  pose proof (two_le (-51) e ltac:(lia)) as Hp. to_Q L.
  assert (inject_Z (2 ^ 52) * 2 ^ (-51) == 2) as H2 by reflexivity.
  set (a := inject_Z (Z.pos m)) in *. set (U := 2 ^ e) in *.
  set (b := inject_Z (2 ^ 52)) in *. set (V := 2 ^ (-51)) in *.
  assert (0 < V) by reflexivity. assert (0 < b) by reflexivity.
  destruct s; cbn [signed] in Hv; nra.
Qed.
