(* ===== verification/JsString.v ===== *)
(** * JsString: the string operations the program calls

    [toLowerCase] on the ASCII range, [includes] (the substring test of
    [String.prototype.includes] at position 0), and truthiness of a
    string, with the specification of [includes] as the existence of a
    decomposition [pre ++ sub ++ post]. *)

From S2P Require Import Prelude.

Local Open Scope string_scope.

(** ** Definitions *)

(** The lower-case form of one character: [A]..[Z] (65..90) move to
    [a]..[z], every other code is kept. *)
Definition lower_ascii (c : ascii) : ascii :=
  let n := N_of_ascii c in
  if ((65 <=? n) && (n <=? 90))%N then ascii_of_N (n + 32) else c.

Fixpoint toLowerCase (s : string) : string :=
  match s with
  | EmptyString => EmptyString
  | String c s' => String (lower_ascii c) (toLowerCase s')
  end.

(** [s.includes(sub)]: [sub] starts at some position of [s]. *)
Fixpoint includes (s sub : string) : bool :=
  prefix sub s ||
  match s with
  | EmptyString => false
  | String _ s' => includes s' sub
  end.

(** [ToBoolean] on a string: false on the empty string only. *)
#[export] Instance ToBoolean_string : ToBoolean string :=
  fun s => negb (s =? "").

(** ** [toLowerCase] *)

Section LowerCase.
Implicit Types (s t : string) (c : ascii).

Lemma lower_ascii_idem c : lower_ascii (lower_ascii c) = lower_ascii c.
Proof.
  unfold lower_ascii.
  destruct ((65 <=? N_of_ascii c) && (N_of_ascii c <=? 90))%N eqn:E; [|rewrite E; reflexivity].
  apply andb_true_iff in E. destruct E as [E1 E2].
  apply N.leb_le in E1, E2.
  rewrite N_ascii_embedding by lia.
  replace (N_of_ascii c + 32 <=? 90)%N with false by (symmetry; apply N.leb_gt; lia).
  rewrite andb_false_r. reflexivity.
Qed.

Lemma toLowerCase_idem s : toLowerCase (toLowerCase s) = toLowerCase s.
Proof. induction s; simpl; rewrite ?lower_ascii_idem; congruence. Qed.

Lemma toLowerCase_append s t : toLowerCase (s ++ t) = toLowerCase s ++ toLowerCase t.
Proof. induction s; simpl; congruence. Qed.

Lemma toLowerCase_length s : String.length (toLowerCase s) = String.length s.
Proof. induction s; simpl; congruence. Qed.

Lemma toLowerCase_nil_iff s : toLowerCase s = "" <-> s = "".
Proof. destruct s; simpl; split; congruence. Qed.

End LowerCase.

(** ** [includes] *)

Section Includes.
Implicit Types (s t sub pre post : string).

Lemma includes_prefix s sub : prefix sub s = true -> includes s sub = true.
Proof. destruct s; simpl; intros ->; reflexivity. Qed.

Lemma includes_cons c s sub : includes s sub = true -> includes (String c s) sub = true.
Proof. simpl. intros ->. apply orb_true_r. Qed.

Lemma includes_app_l pre s sub : includes s sub = true -> includes (pre ++ s) sub = true.
Proof. induction pre; simpl; intros H; [assumption|]. rewrite IHpre by assumption. apply orb_true_r. Qed.

(** Soundness and completeness of the substring test. *)
Lemma includes_spec s sub :
  includes s sub = true <-> exists pre post, s = pre ++ sub ++ post.
Proof.
  split.
  - induction s as [|c s IH]; cbn [includes]; rewrite orb_true_iff; intros [H|H].
    + apply prefix_inv in H. destruct H as [u ->]. exists "", u. reflexivity.
    + discriminate.
    + apply prefix_inv in H. destruct H as [u ->]. exists "", u. reflexivity.
    + destruct (IH H) as (pre & post & ->). exists (String c pre), post. reflexivity.
  - intros (pre & post & ->). apply includes_app_l, includes_prefix, prefix_append.
Qed.

Lemma includes_refl s : includes s s = true.
Proof. apply includes_spec. exists "", "". simpl. symmetry. apply append_nil_r. Qed.

Lemma includes_nil s : includes s "" = true.
Proof. apply includes_spec. exists "", s. reflexivity. Qed.

Lemma includes_trans s t sub :
  includes s t = true -> includes t sub = true -> includes s sub = true.
Proof.
  rewrite !includes_spec. intros (p1 & q1 & ->) (p2 & q2 & ->).
  exists (p1 ++ p2), (q2 ++ q1). now rewrite !append_assoc.
Qed.

Lemma includes_length s sub : includes s sub = true -> String.length sub <= String.length s.
Proof.
  rewrite includes_spec. intros (pre & post & ->). rewrite !length_append. lia.
Qed.

End Includes.

(** ** Truthiness *)

Lemma to_boolean_string_false (s : string) : to_boolean s = false <-> s = "".
Proof.
  unfold to_boolean, ToBoolean_string. rewrite negb_false_iff. apply String.eqb_eq.
Qed.

Lemma js_or_string_nonempty (s d : string) : s <> "" -> js_or (Some s) d = s.
Proof.
  intros Hs. unfold js_or.
  destruct (to_boolean s) eqn:E; [reflexivity|].
  apply to_boolean_string_false in E. contradiction.
Qed.

Lemma js_or_string_default (o : option string) (d : string) :
  d <> "" -> js_or o d <> "".
Proof.
  intros Hd. unfold js_or. destruct o as [s|]; [|assumption].
  destruct (to_boolean s) eqn:E; [|assumption].
  intros ->. discriminate.
Qed.

#[export] Hint Resolve includes_refl includes_nil includes_prefix : js.
#[export] Hint Rewrite toLowerCase_idem toLowerCase_append toLowerCase_length : js_rw.
