(* ===== verification/NumberToString.v ===== *)
(** * NumberToString: the decimal text of a number

    A template literal [`${x}`] applies [Number::toString] of the language
    to a number [x]: "NaN", "Infinity", "0", or the digits [s] of the
    shortest decimal [s * 10^(n-k)] ([k] digits) that reads back as [x],
    the closest to [x] when several have that length, laid out with a
    decimal point or an exponent according to [n].

    A finite non-zero binary64 value is [m * 2^e].  Its rounding interval
    runs from the midpoint with the value below to the midpoint with the
    value above, the ends included when [m] is even.  Quantities of the
    form [c * 2^a * 10^b] are compared exactly, on integers.

    The theorems: the search for the exponent and the search for the
    digits succeed within their fuel for every finite value, the digits
    read back as the value ([Number_toString_reads_back]), and no
    decimal of fewer digits does ([shortest_minimal]). *)

From Stdlib Require Import DecimalString.
From S2P Require Import Prelude JsNumber.

Local Open Scope Z_scope.

(** ** Exact comparison of scaled integers *)

(** The rational [coef * 2^e2 * 10^e10]. *)
Record scaled : Set := mkScaled { coef : Z; e2 : Z; e10 : Z }.

(** The integer [u / (2^a * 10^b)], for [a <= e2 u] and [b <= e10 u]. *)
Definition scaled_num (u : scaled) (a b : Z) : Z :=
  coef u * 2 ^ (e2 u - a) * 10 ^ (e10 u - b).

Definition scaled_compare (u v : scaled) : comparison :=
  let a := Z.min (e2 u) (e2 v) in
  let b := Z.min (e10 u) (e10 v) in
  scaled_num u a b ?= scaled_num v a b.

Definition scaled_ltb (u v : scaled) : bool :=
  match scaled_compare u v with Lt => true | _ => false end.

Definition scaled_leb (u v : scaled) : bool :=
  match scaled_compare u v with Gt => false | _ => true end.

(** [floor (m * 2^e / 10^q)]. *)
Definition floor_scaled (m e q : Z) : Z :=
  (m * 2 ^ (Z.max e 0) * 10 ^ (Z.max (- q) 0)) /
  (2 ^ (Z.max (- e) 0) * 10 ^ (Z.max q 0)).

(** ** The decimal exponent *)

(** The [n] with [10^(n-1) <= m * 2^e < 10^n]: a guess from the binary
    logarithm, moved down while the value is below [10^(n-1)], then up
    while it is at least [10^n]. *)
Fixpoint exp10_down (fuel : nat) (m e n : Z) : Z :=
  match fuel with
  | O => n
  | S fuel' =>
      if scaled_ltb (mkScaled m e 0) (mkScaled 1 0 (n - 1))
      then exp10_down fuel' m e (n - 1) else n
  end.

Fixpoint exp10_up (fuel : nat) (m e n : Z) : Z :=
  match fuel with
  | O => n
  | S fuel' =>
      if scaled_ltb (mkScaled m e 0) (mkScaled 1 0 n)
      then n else exp10_up fuel' m e (n + 1)
  end.

Definition exp10_guess (m e : Z) : Z := ((Z.log2 m + e) * 30103) / 100000.

Definition exp10 (m e : Z) : Z :=
  exp10_up 700 m e (exp10_down 700 m e (exp10_guess m e)).

(** ** The rounding interval *)

Definition lower_mid (m e : Z) : scaled :=
  if (m =? 2 ^ 52) && (-1074 <? e)
  then mkScaled (4 * m - 1) (e - 2) 0
  else mkScaled (2 * m - 1) (e - 1) 0.

Definition upper_mid (m e : Z) : scaled := mkScaled (2 * m + 1) (e - 1) 0.

(** [u] reads back as [m * 2^e]. *)
Definition within (m e : Z) (u : scaled) : bool :=
  if Z.even m
  then scaled_leb (lower_mid m e) u && scaled_leb u (upper_mid m e)
  else scaled_ltb (lower_mid m e) u && scaled_ltb u (upper_mid m e).

(** ** Digit generation *)

(** The [k]-digit decimal [s * 10^(n-k)] that reads back as [m * 2^e],
    if there is one: the candidates are the two multiples of [10^(n-k)]
    around the value; of two that fit, the closer, the even one on a tie. *)
Definition candidate (m e n k : Z) : option Z :=
  let q := n - k in
  let lo := floor_scaled m e q in
  let hi := lo + 1 in
  match within m e (mkScaled lo 0 q), within m e (mkScaled hi 0 q) with
  | true, false => Some lo
  | false, true => Some hi
  | false, false => None
  | true, true =>
      match scaled_compare (mkScaled (2 * m) e 0) (mkScaled (2 * lo + 1) 0 q) with
      | Lt => Some lo
      | Gt => Some hi
      | Eq => Some (if Z.even lo then lo else hi)
      end
  end.

(** The first length from [k] on that has a candidate; [fuel] lengths
    are tried. *)
Fixpoint shortest_from (fuel : nat) (m e n k : Z) : Z * Z :=
  match fuel with
  | O => (floor_scaled m e (n - k), k)
  | S fuel' =>
      match candidate m e n k with
      | Some s => (s, k)
      | None => shortest_from fuel' m e n (k + 1)
      end
  end.

Fixpoint strip_zeros (fuel : nat) (s k : Z) : Z * Z :=
  match fuel with
  | O => (s, k)
  | S fuel' =>
      if (s mod 10 =? 0) && (1 <? k) then strip_zeros fuel' (s / 10) (k - 1) else (s, k)
  end.

(** The digits [s], their number [k] and the exponent [n] of the text. *)
Definition shortest (m e : Z) : Z * Z * Z :=
  let n := exp10 m e in
  let '(s, k) := shortest_from 17 m e n 1 in
  if s =? 10 ^ k then (1, 1, n + 1)
  else let '(s', k') := strip_zeros 17 s k in (s', k', n).

(** ** Layout *)

Definition decimal (z : Z) : string :=
  NilZero.string_of_uint (N.to_uint (Z.to_N z)).

Fixpoint zeros (n : nat) : string :=
  match n with
  | O => EmptyString
  | S n' => String "0"%char (zeros n')
  end.

(** The exponent part ["e+21"], ["e-7"] of the text. *)
Definition exponent_part (n : Z) : string :=
  ("e" ++ (if (n - 1 <? 0)%Z then "-" else "+") ++ decimal (Z.abs (n - 1)))%string.

(** The four layouts of the language: digits then zeros, digits around a
    point, ["0."] then zeros then digits, and the exponent form. *)
Definition layout (skn : Z * Z * Z) : string :=
  let '(s, k, n) := skn in
  let ds := decimal s in
  if (k <=? n) && (n <=? 21) then
    (ds ++ zeros (Z.to_nat (n - k)))%string
  else if (0 <? n) && (n <=? 21) then
    (substring 0 (Z.to_nat n) ds ++ "." ++ substring (Z.to_nat n) (Z.to_nat (k - n)) ds)%string
  else if (-6 <? n) && (n <=? 0) then
    ("0." ++ zeros (Z.to_nat (- n)) ++ ds)%string
  else if k =? 1 then
    (ds ++ exponent_part n)%string
  else
    (substring 0 1 ds ++ "." ++ substring 1 (Z.to_nat (k - 1)) ds ++ exponent_part n)%string.

Definition Number_toString (x : number) : string :=
  match Prim2SF x with
  | S754_nan => "NaN"
  | S754_zero _ => "0"
  | S754_infinity s => if s then "-Infinity" else "Infinity"
  | S754_finite s m e =>
      ((if s then "-" else "") ++ layout (shortest (Z.pos m) e))%string
  end.

(** ** Lemmas *)

Section Scaled.
Implicit Types (u v : scaled).

Lemma scaled_compare_refl u : scaled_compare u u = Eq.
Proof. unfold scaled_compare. apply Z.compare_refl. Qed.

Lemma scaled_leb_refl u : scaled_leb u u = true.
Proof. unfold scaled_leb. now rewrite scaled_compare_refl. Qed.

Lemma scaled_ltb_leb u v : scaled_ltb u v = true -> scaled_leb u v = true.
Proof. unfold scaled_ltb, scaled_leb. destruct (scaled_compare u v); congruence. Qed.

Lemma scaled_ltb_antisym u v : scaled_ltb u v = true -> scaled_ltb v u = false.
Proof.
  unfold scaled_ltb, scaled_compare.
  rewrite (Z.min_comm (e2 v)), (Z.min_comm (e10 v)), (Z.compare_antisym (scaled_num u _ _)).
  destruct (scaled_num u _ _ ?= _); cbn; congruence.
Qed.

Lemma scaled_leb_ltb u v : scaled_leb v u = negb (scaled_ltb u v).
Proof.
  unfold scaled_leb, scaled_ltb, scaled_compare.
  rewrite (Z.min_comm (e2 v)), (Z.min_comm (e10 v)), (Z.compare_antisym (scaled_num u _ _)).
  now destruct (scaled_num u _ _ ?= _).
Qed.

End Scaled.

(** ** Units

    Scaled integers are compared as integers, in units of [2^a * 10^b]
    for exponents [a] and [b] below those of both.  In such units
    [c * 2^e] is [c * bin e] and [c * 10^q] is [c * dec q], and what is
    left to prove of the digits is linear in a few products. *)

Section Units.
Variables a b : Z.

Definition bin (e : Z) : Z := 2 ^ (e - a) * 10 ^ (- b).

Definition dec (q : Z) : Z := 2 ^ (- a) * 10 ^ (q - b).

Lemma bin_pos e : a <= e -> b <= 0 -> 0 < bin e.
Proof. intros. unfold bin. apply Z.mul_pos_pos; apply Z.pow_pos_nonneg; lia. Qed.

Lemma dec_pos q : a <= 0 -> b <= q -> 0 < dec q.
Proof. intros. unfold dec. apply Z.mul_pos_pos; apply Z.pow_pos_nonneg; lia. Qed.

Lemma bin_add e j : a <= e -> 0 <= j -> bin (e + j) = 2 ^ j * bin e.
Proof.
  intros. unfold bin. replace (e + j - a) with (j + (e - a)) by lia.
  rewrite Z.pow_add_r by lia. ring.
Qed.

Lemma dec_add q j : b <= q -> 0 <= j -> dec (q + j) = 10 ^ j * dec q.
Proof.
  intros. unfold dec. replace (q + j - b) with (j + (q - b)) by lia.
  rewrite Z.pow_add_r by lia. ring.
Qed.

Lemma scaled_num_rescale u a' b' :
  a <= a' <= e2 u -> b <= b' <= e10 u ->
  scaled_num u a b = scaled_num u a' b' * (2 ^ (a' - a) * 10 ^ (b' - b)).
Proof.
  intros. unfold scaled_num.
  replace (e2 u - a) with ((e2 u - a') + (a' - a)) by lia.
  replace (e10 u - b) with ((e10 u - b') + (b' - b)) by lia.
  rewrite !Z.pow_add_r by lia. ring.
Qed.

(** The comparison does not depend on the units. *)
Lemma scaled_compare_units u v :
  a <= e2 u -> a <= e2 v -> b <= e10 u -> b <= e10 v ->
  scaled_compare u v = (scaled_num u a b ?= scaled_num v a b).
Proof.
  intros. unfold scaled_compare.
  rewrite (scaled_num_rescale u (Z.min (e2 u) (e2 v)) (Z.min (e10 u) (e10 v))) by lia.
  rewrite (scaled_num_rescale v (Z.min (e2 u) (e2 v)) (Z.min (e10 u) (e10 v))) by lia.
  apply Zmult_compare_compat_r, Z.lt_gt.
  apply Z.mul_pos_pos; apply Z.pow_pos_nonneg; lia.
Qed.

Lemma compare_bin_dec c e d q :
  a <= e -> a <= 0 -> b <= 0 -> b <= q ->
  scaled_compare (mkScaled c e 0) (mkScaled d 0 q) = (c * bin e ?= d * dec q).
Proof.
  intros. rewrite scaled_compare_units by (cbn; lia).
  unfold scaled_num, bin, dec. cbn [coef e2 e10]. rewrite !Z.sub_0_l.
  now rewrite !Z.mul_assoc.
Qed.

Lemma compare_dec_bin c e d q :
  a <= e -> a <= 0 -> b <= 0 -> b <= q ->
  scaled_compare (mkScaled d 0 q) (mkScaled c e 0) = (d * dec q ?= c * bin e).
Proof.
  intros. rewrite scaled_compare_units by (cbn; lia).
  unfold scaled_num, bin, dec. cbn [coef e2 e10]. rewrite !Z.sub_0_l.
  now rewrite !Z.mul_assoc.
Qed.

End Units.

(** ** The rounding interval and the floor, in units *)

Section Interval.
Variables a b m e q : Z.
Hypotheses (Ha : a <= e - 2) (Ha0 : a <= 0) (Hb0 : b <= 0) (Hbq : b <= q).

Lemma bin_half : bin a b (e - 1) = 2 * bin a b (e - 2).
Proof. replace (e - 1) with (e - 2 + 1) by lia. now rewrite bin_add by lia. Qed.

Lemma bin_whole : bin a b e = 4 * bin a b (e - 2).
Proof. replace e with (e - 2 + 2) at 1 by lia. now rewrite bin_add by lia. Qed.

(** The ends of the rounding interval of [m * 2^e]. *)
Definition lower_units : Z :=
  if (m =? 2 ^ 52) && (-1074 <? e) then (4 * m - 1) * bin a b (e - 2)
  else (2 * m - 1) * (2 * bin a b (e - 2)).

Definition upper_units : Z := (2 * m + 1) * (2 * bin a b (e - 2)).

Lemma within_units s :
  within m e (mkScaled s 0 q) =
  if Z.even m
  then (lower_units <=? s * dec a b q) && (s * dec a b q <=? upper_units)
  else (lower_units <? s * dec a b q) && (s * dec a b q <? upper_units).
Proof.
  unfold within, lower_mid, upper_mid, scaled_leb, scaled_ltb, lower_units, upper_units.
  destruct ((m =? 2 ^ 52) && (-1074 <? e));
    rewrite (compare_bin_dec a b), (compare_dec_bin a b) by lia; rewrite ?bin_half;
    reflexivity.
Qed.

(** [floor_scaled] is the floor of the quotient. *)
Lemma floor_units :
  0 <= m ->
  floor_scaled m e q * dec a b q <= m * bin a b e < (floor_scaled m e q + 1) * dec a b q.
Proof.
  intros Hm. unfold floor_scaled.
  set (N1 := 2 ^ Z.max e 0 * 10 ^ Z.max (- q) 0).
  set (D := 2 ^ Z.max (- e) 0 * 10 ^ Z.max q 0).
  assert (0 < D) as HD by (apply Z.mul_pos_pos; apply Z.pow_pos_nonneg; lia).
  assert (bin a b e * D = N1 * dec a b q) as E.
  { unfold bin, dec, N1, D.
    transitivity (2 ^ (e - a + Z.max (- e) 0) * 10 ^ (- b + Z.max q 0));
      [rewrite !Z.pow_add_r by lia; ring|].
    replace (e - a + Z.max (- e) 0) with (Z.max e 0 + - a) by lia.
    replace (- b + Z.max q 0) with (Z.max (- q) 0 + (q - b)) by lia.
    rewrite !Z.pow_add_r by lia. ring. }
  replace (m * 2 ^ Z.max e 0 * 10 ^ Z.max (- q) 0) with (m * N1) by (unfold N1; ring).
  pose proof (dec_pos a b q Ha0 Hbq) as HT.
  pose proof (Z.mul_div_le (m * N1) D HD) as Hlo.
  pose proof (Z.mul_succ_div_gt (m * N1) D HD) as Hhi.
  set (lo := m * N1 / D) in *.
  assert (m * bin a b e * D = m * N1 * dec a b q) as E'
      by (rewrite <- !Z.mul_assoc; now rewrite E).
  split.
  - apply (Z.mul_le_mono_pos_r _ _ D HD). rewrite E'.
    replace (lo * dec a b q * D) with (D * lo * dec a b q) by ring.
    apply Z.mul_le_mono_nonneg_r; lia.
  - apply (Z.mul_lt_mono_pos_r D _ _ HD). rewrite E'.
    replace ((lo + 1) * dec a b q * D) with (D * Z.succ lo * dec a b q) by ring.
    apply Z.mul_lt_mono_pos_r; lia.
Qed.

End Interval.

(** Two decimals of the same value read back alike. *)
Lemma within_same a b m e s q s' q' :
  a <= e - 2 -> a <= 0 -> b <= 0 -> b <= q -> b <= q' ->
  s * dec a b q = s' * dec a b q' ->
  within m e (mkScaled s 0 q) = within m e (mkScaled s' 0 q').
Proof. intros ? ? ? ? ? E. rewrite !(within_units a b) by lia. now rewrite E. Qed.

Lemma within_shift m e s q j :
  0 <= j -> within m e (mkScaled (10 ^ j * s) 0 q) = within m e (mkScaled s 0 (q + j)).
Proof.
  intros. apply (within_same (Z.min (e - 2) 0) (Z.min q 0)); try lia.
  rewrite dec_add by lia. ring.
Qed.

(** The comparisons of the goal, case by case; what is left is linear. *)
Ltac interval_cases :=
  repeat match goal with
    | |- context [?x <=? ?y] => destruct (Z.leb_spec x y)
    | |- context [?x <? ?y] => destruct (Z.ltb_spec x y)
    end;
  cbn [andb]; try discriminate; try (repeat case_head; discriminate).

Section Digits.
Implicit Types (m e n k s : Z).

(** A candidate reads back as the value. *)
Lemma candidate_within m e n k s :
  candidate m e n k = Some s -> within m e (mkScaled s 0 (n - k)) = true.
Proof.
  unfold candidate.
  destruct (within m e (mkScaled (floor_scaled m e (n - k)) 0 (n - k))) eqn:Elo,
           (within m e (mkScaled (floor_scaled m e (n - k) + 1) 0 (n - k))) eqn:Ehi;
    try discriminate; repeat case_head; intros [= <-]; assumption.
Qed.

(** A candidate is one of the two multiples around the value. *)
Lemma candidate_adjacent m e n k s :
  candidate m e n k = Some s ->
  s = floor_scaled m e (n - k) \/ s = floor_scaled m e (n - k) + 1.
Proof.
  unfold candidate. repeat case_head; intros [= <-]; auto.
Qed.

(** The search stops at the first length that has a candidate. *)
Lemma shortest_from_found fuel m e n k s :
  candidate m e n k = Some s -> shortest_from (S fuel) m e n k = (s, k).
Proof. cbn [shortest_from]. intros ->. reflexivity. Qed.

Lemma shortest_from_length fuel m e n k :
  k <= snd (shortest_from fuel m e n k) <= k + Z.of_nat fuel.
Proof.
  revert k. induction fuel as [|fuel IH]; intros k; cbn [shortest_from].
  - cbn. lia.
  - destruct (candidate m e n k); [cbn; lia|].
    specialize (IH (k + 1)). lia.
Qed.

(** Whatever the search returns within its fuel reads back as the value. *)
Lemma shortest_from_within fuel m e n k s k' :
  shortest_from fuel m e n k = (s, k') ->
  k' < k + Z.of_nat fuel ->
  within m e (mkScaled s 0 (n - k')) = true.
Proof.
  revert k. induction fuel as [|fuel IH]; intros k; cbn [shortest_from].
  - intros [= <- <-]. lia.
  - destruct (candidate m e n k) as [c|] eqn:E.
    + intros [= <- <-] _. now apply candidate_within.
    + intros H Hk. apply (IH _ H). lia.
Qed.

Lemma zeros_length (j : nat) : String.length (zeros j) = j.
Proof. induction j; cbn; congruence. Qed.

(** The search stops at the latest at a length that has a candidate. *)
Lemma shortest_from_stops fuel m e n k :
  candidate m e n (k + Z.of_nat fuel) <> None ->
  exists s k', shortest_from (S fuel) m e n k = (s, k') /\
               k <= k' <= k + Z.of_nat fuel /\ candidate m e n k' = Some s.
Proof.
  revert k; induction fuel as [|fuel IH]; intros k Hc.
  - cbn [shortest_from]. replace (k + Z.of_nat 0) with k in Hc by lia.
    destruct (candidate m e n k) as [s|] eqn:E; [|contradiction].
    exists s, k. repeat split; auto; lia.
  - cbn [shortest_from]. destruct (candidate m e n k) as [s|] eqn:E.
    + exists s, k. repeat split; auto; lia.
    + destruct (IH (k + 1)) as (s & k' & Hs & Hk & Hc').
      { now replace (k + 1 + Z.of_nat fuel) with (k + Z.of_nat (S fuel)) by lia. }
      exists s, k'. cbn [shortest_from] in Hs. repeat split; auto; lia.
Qed.

(** The lengths it has passed have none. *)
Lemma shortest_from_first fuel m e n k j :
  k <= j < snd (shortest_from fuel m e n k) -> candidate m e n j = None.
Proof.
  revert k; induction fuel as [|fuel IH]; intros k; cbn [shortest_from]; [cbn [snd]; lia|].
  destruct (candidate m e n k) as [s|] eqn:E; [cbn [snd]; lia|].
  intros Hj. destruct (Z.eq_dec j k) as [->|]; [exact E|]. apply (IH (k + 1)). lia.
Qed.

Lemma strip_zeros_le fuel s k : snd (strip_zeros fuel s k) <= k.
Proof.
  revert s k; induction fuel as [|fuel IH]; intros s k; cbn [strip_zeros]; [cbn [snd]; lia|].
  destruct ((s mod 10 =? 0) && (1 <? k)); [|cbn [snd]; lia].
  specialize (IH (s / 10) (k - 1)). lia.
Qed.

(** A length at which some decimal reads back has a candidate: the
    interval holds the value, so it holds a multiple next to the value
    when it holds any. *)
Lemma candidate_complete m e n k d :
  0 < m -> within m e (mkScaled d 0 (n - k)) = true -> candidate m e n k <> None.
Proof.
  intros Hm. set (a := Z.min (e - 2) 0). set (b := Z.min (n - k) 0).
  pose proof (bin_pos a b (e - 2) ltac:(lia) ltac:(lia)) as HH.
  pose proof (dec_pos a b (n - k) ltac:(lia) ltac:(lia)) as HT.
  destruct (floor_units a b m e (n - k)) as [F1 F2]; try lia.
  rewrite (bin_whole a b e) in F1, F2 by lia.
  unfold candidate. rewrite !(within_units a b) by lia.
  unfold lower_units, upper_units.
  set (H := bin a b (e - 2)) in *. set (T := dec a b (n - k)) in *.
  set (lo := floor_scaled m e (n - k)) in *.
  assert (d * T <= lo * T \/ (lo + 1) * T <= d * T) as D.
  { destruct (Z.le_gt_cases d lo); [left|right]; apply Z.mul_le_mono_nonneg_r; lia. }
  destruct ((m =? 2 ^ 52) && (-1074 <? e)), (Z.even m).
  all: interval_cases; lia.
Qed.

End Digits.

(** ** The digits of a value between two powers of ten *)

Section Candidate.
Variables m e n k : Z.
Hypotheses (Hm : 0 < m < 2 ^ 53) (Hk : 1 <= k).
Hypothesis Hlow : scaled_leb (mkScaled 1 0 (n - 1)) (mkScaled m e 0) = true.
Hypothesis Hhigh : scaled_ltb (mkScaled m e 0) (mkScaled 1 0 n) = true.

Let a := Z.min (e - 2) 0.
Let b := Z.min (n - k) 0.
Let H := bin a b (e - 2).
Let T := dec a b (n - k).
Let lo := floor_scaled m e (n - k).

(** In units of [H], a quarter of the gap to the next value, and of [T],
    the step of the decimals of [k] digits. *)
Lemma unit_facts :
  0 < H /\ 0 < T /\ 10 ^ (k - 1) * T <= 4 * (m * H) < 10 ^ k * T /\
  lo * T <= 4 * (m * H) < (lo + 1) * T.
Proof.
  assert (0 < H) by (apply bin_pos; lia).
  assert (0 < T) by (apply dec_pos; lia).
  pose proof (floor_units a b m e (n - k)) as F. rewrite (bin_whole a b e) in F by lia.
  fold H T lo in F.
  repeat split; try assumption; try lia.
  - revert Hlow. unfold scaled_leb. rewrite (compare_dec_bin a b) by lia.
    replace (n - 1) with (n - k + (k - 1)) by lia.
    rewrite dec_add, (bin_whole a b e) by lia. fold H T.
    intros E. apply Z.leb_le. unfold Z.leb.
    replace (10 ^ (k - 1) * T ?= 4 * (m * H)) with (1 * (10 ^ (k - 1) * T) ?= m * (4 * H))
      by (f_equal; ring).
    exact E.
  - revert Hhigh. unfold scaled_ltb. rewrite (compare_bin_dec a b) by lia.
    replace n with (n - k + k) at 1 by lia.
    rewrite dec_add, (bin_whole a b e) by lia. fold H T.
    intros E. apply Z.ltb_lt. unfold Z.ltb.
    replace (4 * (m * H) ?= 10 ^ k * T) with (m * (4 * H) ?= 1 * (10 ^ k * T))
      by (f_equal; ring).
    exact E.
Qed.

Lemma floor_range : 10 ^ (k - 1) <= lo < 10 ^ k.
Proof.
  destruct unit_facts as (HH & HT & [L1 L2] & [F1 F2]). split.
  - assert (10 ^ (k - 1) < lo + 1); [|lia].
    apply (Z.mul_lt_mono_pos_r T); lia.
  - apply (Z.mul_lt_mono_pos_r T); lia.
Qed.

(** A candidate has [k] digits, or is [10^k]. *)
Lemma candidate_range s : candidate m e n k = Some s -> 10 ^ (k - 1) <= s <= 10 ^ k.
Proof.
  intros E. pose proof floor_range.
  destruct (candidate_adjacent m e n k s E); subst s; fold lo; lia.
Qed.

(** Seventeen digits tell a value from its neighbours: the decimals of
    17 digits are less than a gap apart, since [2^53 < 10^16]. *)
Lemma candidate_17 : k = 17 -> candidate m e n k <> None.
Proof.
  intros Ek. destruct unit_facts as (HH & HT & [L1 _] & [F1 F2]).
  rewrite Ek in L1. change (10 ^ (17 - 1)) with 10000000000000000 in L1.
  assert (m * H <= 9007199254740991 * H) by (apply Z.mul_le_mono_nonneg_r; lia).
  unfold candidate. fold lo. rewrite !(within_units a b) by lia.
  unfold lower_units, upper_units. fold H T.
  destruct (m =? 2 ^ 52) eqn:E2; [apply Z.eqb_eq in E2; rewrite E2 in *|];
    cbn [andb]; destruct (-1074 <? e), (Z.even _).
  all: interval_cases; lia.
Qed.

End Candidate.

(** ** The decimal exponent is found *)

Section Exponent.
Variables m e : Z.
Hypotheses (Hm : 0 < m < 2 ^ 53) (He : -1074 <= e <= 971).

(** [m * 2^e < 10^n]. *)
Definition below (n : Z) : bool := scaled_ltb (mkScaled m e 0) (mkScaled 1 0 n).

Lemma below_units a b n :
  a <= e -> a <= 0 -> b <= 0 -> b <= n -> below n = (m * bin a b e <? dec a b n).
Proof.
  intros. unfold below, scaled_ltb. rewrite (compare_bin_dec a b) by lia.
  now rewrite Z.mul_1_l.
Qed.

(** The least value is above [10^-324], the greatest below [10^309]. *)
Lemma below_small n : n <= -324 -> below n = false.
Proof.
  intros Hn. rewrite (below_units (-1074) n) by lia. apply Z.ltb_ge.
  unfold bin, dec. rewrite Z.sub_diag, Z.mul_1_r. change (- -1074) with 1074.
  assert (2 ^ 1074 <= 10 ^ 324) as Hc by (apply Z.leb_le; vm_compute; reflexivity).
  assert (10 ^ 324 <= 10 ^ (- n)) by (apply Z.pow_le_mono_r; lia).
  assert (0 < 2 ^ (e - -1074)) by (apply Z.pow_pos_nonneg; lia).
  transitivity (1 * (1 * 10 ^ (- n))); [lia|].
  apply Z.mul_le_mono_nonneg; try lia.
  apply Z.mul_le_mono_nonneg; lia.
Qed.

Lemma below_large n : 309 <= n -> below n = true.
Proof.
  intros Hn. rewrite (below_units (-1074) 0) by lia. apply Z.ltb_lt.
  unfold bin, dec. change (- 0) with 0. rewrite Z.sub_0_r, Z.pow_0_r, Z.mul_1_r.
  change (- -1074) with 1074.
  assert (2 ^ 1024 <= 10 ^ 309) as Hc by (apply Z.leb_le; vm_compute; reflexivity).
  assert (10 ^ 309 <= 10 ^ n) by (apply Z.pow_le_mono_r; lia).
  assert (2 ^ (e - -1074) <= 2 ^ 2045) by (apply Z.pow_le_mono_r; lia).
  assert (0 < 2 ^ (e - -1074)) by (apply Z.pow_pos_nonneg; lia).
  apply Z.lt_le_trans with (2 ^ 53 * 2 ^ (e - -1074)); [apply Z.mul_lt_mono_pos_r; lia|].
  apply Z.le_trans with (2 ^ 53 * 2 ^ 2045); [apply Z.mul_le_mono_nonneg_l; lia|].
  change (2 ^ 53 * 2 ^ 2045) with (2 ^ 1074 * 2 ^ 1024).
  apply Z.mul_le_mono_nonneg_l; lia.
Qed.

(** Going down stops above a power of ten that the value reaches. *)
Lemma exp10_down_spec fuel n0 :
  n0 - Z.of_nat fuel <= exp10_down fuel m e n0 <= n0 /\
  (exp10_down fuel m e n0 < n0 -> below (exp10_down fuel m e n0) = true) /\
  (n0 - Z.of_nat fuel < exp10_down fuel m e n0 ->
   below (exp10_down fuel m e n0 - 1) = false).
Proof.
  revert n0; induction fuel as [|fuel IH]; intros n0; cbn [exp10_down]; [lia|].
  fold (below (n0 - 1)). destruct (below (n0 - 1)) eqn:E; [|repeat split; auto; lia].
  destruct (IH (n0 - 1)) as (R & D & S). repeat split; try lia.
  - intros _. destruct (Z.eq_dec (exp10_down fuel m e (n0 - 1)) (n0 - 1)) as [->|]; [exact E|].
    apply D. lia.
  - intros. apply S. lia.
Qed.

(** Going up stops at a power of ten above the value. *)
Lemma exp10_up_spec fuel n1 :
  n1 <= exp10_up fuel m e n1 <= n1 + Z.of_nat fuel /\
  (n1 < exp10_up fuel m e n1 -> below (exp10_up fuel m e n1 - 1) = false) /\
  (exp10_up fuel m e n1 < n1 + Z.of_nat fuel -> below (exp10_up fuel m e n1) = true).
Proof.
  revert n1; induction fuel as [|fuel IH]; intros n1; cbn [exp10_up]; [lia|].
  fold (below n1). destruct (below n1) eqn:E; [repeat split; auto; lia|].
  destruct (IH (n1 + 1)) as (R & U & S). repeat split; try lia.
  - intros _. destruct (Z.eq_dec (exp10_up fuel m e (n1 + 1)) (n1 + 1)) as [->|].
    + now replace (n1 + 1 - 1) with n1 by lia.
    + apply U. lia.
  - intros. apply S. lia.
Qed.

Lemma exp10_guess_range : -324 <= exp10_guess m e <= 307.
Proof.
  unfold exp10_guess. pose proof (Z.log2_nonneg m).
  assert (Z.log2 m < 53) by (apply Z.log2_lt_pow2; lia).
  split; [apply Z.div_le_lower_bound; lia|].
  assert ((Z.log2 m + e) * 30103 / 100000 < 308); [apply Z.div_lt_upper_bound|]; lia.
Qed.

(** The fuel of [exp10] is enough: [10^(n-1) <= m * 2^e < 10^n]. *)
Lemma exp10_spec : below (exp10 m e) = true /\ below (exp10 m e - 1) = false.
Proof.
  unfold exp10. pose proof exp10_guess_range as G.
  destruct (exp10_down_spec 700 (exp10_guess m e)) as (R1 & D1 & S1).
  set (n1 := exp10_down 700 m e (exp10_guess m e)) in *.
  assert (-324 <= n1) as L1.
  { destruct (Z.lt_ge_cases n1 (-324)) as [C|C]; [|exact C].
    rewrite below_small in D1 by lia. discriminate D1. lia. }
  destruct (exp10_up_spec 700 n1) as (R2 & U2 & S2).
  set (n2 := exp10_up 700 m e n1) in *.
  assert (n2 <= 309) as L2.
  { destruct (Z.le_gt_cases n2 309) as [C|C]; [exact C|].
    rewrite below_large in U2 by lia. discriminate U2. lia. }
  split; [apply S2; lia|].
  destruct (Z.eq_dec n2 n1) as [->|]; [apply S1|apply U2]; lia.
Qed.

Lemma exp10_low : scaled_leb (mkScaled 1 0 (exp10 m e - 1)) (mkScaled m e 0) = true.
Proof. rewrite scaled_leb_ltb. fold (below (exp10 m e - 1)). now rewrite (proj2 exp10_spec). Qed.

Lemma exp10_high : scaled_ltb (mkScaled m e 0) (mkScaled 1 0 (exp10 m e)) = true.
Proof. apply exp10_spec. Qed.

End Exponent.

(** ** The digits *)

(** What the language requires of the digits [s], their number [k] and
    the exponent [n]: [s] has [k] digits, 17 at most, and [s * 10^(n-k)]
    reads back as the value. *)
Definition digits_ok (m e s k n : Z) : Prop :=
  1 <= k <= 17 /\ 10 ^ (k - 1) <= s < 10 ^ k /\ within m e (mkScaled s 0 (n - k)) = true.

Lemma strip_zeros_ok fuel m e s k n :
  digits_ok m e s k n ->
  digits_ok m e (fst (strip_zeros fuel s k)) (snd (strip_zeros fuel s k)) n.
Proof.
  revert s k; induction fuel as [|fuel IH]; intros s k Hs; cbn [strip_zeros]; [exact Hs|].
  destruct ((s mod 10 =? 0) && (1 <? k)) eqn:E; [|exact Hs].
  apply andb_true_iff in E as [E1 E2]. apply Z.eqb_eq in E1. apply Z.ltb_lt in E2.
  destruct Hs as (Hk & Hr & Hw). apply IH.
  pose proof (Z.div_mod s 10 ltac:(lia)) as D. rewrite E1, Z.add_0_r in D.
  assert (10 ^ (k - 1) = 10 * 10 ^ (k - 1 - 1)) as P1
      by (rewrite <- Z.pow_succ_r by lia; f_equal; lia).
  assert (10 ^ k = 10 * 10 ^ (k - 1)) as P2
      by (rewrite <- Z.pow_succ_r by lia; f_equal; lia).
  repeat split; try lia.
  rewrite <- Hw. replace (n - (k - 1)) with (n - k + 1) by lia.
  rewrite <- within_shift by lia. change (10 ^ 1) with 10. now rewrite <- D.
Qed.

(** ** The special values and the sign *)

Section Special.
Local Open Scope string_scope.

Lemma Number_toString_nan x : is_nan x = true -> Number_toString x = "NaN".
Proof. rewrite is_nan_spec. unfold Number_toString. intros ->. reflexivity. Qed.

Lemma Number_toString_zero x : is_zero x = true -> Number_toString x = "0".
Proof. rewrite is_zero_spec. unfold Number_toString. intros [s ->]. reflexivity. Qed.

(** The text of the opposite of a positive finite number is the text of
    the number after a minus sign. *)
Lemma Number_toString_opp x m e :
  Prim2SF x = S754_finite false m e ->
  Number_toString (- x) = "-" ++ Number_toString x.
Proof.
  intros H. unfold Number_toString. rewrite opp_spec, H. reflexivity.
Qed.

End Special.

(** ** The text of a finite value *)

Section Finite.
Implicit Types (x : number) (sgn : bool) (m : positive) (e k d : Z).

(** C30 (the text reads back).  For every finite value that is not
    zero, whatever its size: [Number_toString] lays out digits [s],
    [k] of them and 17 at most, with an exponent [n], such that the
    decimal [s * 10^(n-k)] lies in the rounding interval of the value;
    the fuel of the search for the exponent and for the digits is
    enough. *)
Theorem Number_toString_reads_back x sgn m e :
  Prim2SF x = S754_finite sgn m e ->
  Number_toString x = ((if sgn then "-" else "") ++ layout (shortest (Z.pos m) e))%string /\
  digits_ok (Z.pos m) e (fst (fst (shortest (Z.pos m) e))) (snd (fst (shortest (Z.pos m) e)))
    (snd (shortest (Z.pos m) e)).
Proof.
  intros E. destruct (Prim2SF_bounds x sgn m e E) as [Hm He].
  split; [unfold Number_toString; now rewrite E|].
  pose proof (exp10_low _ _ Hm He) as Hlow. pose proof (exp10_high _ _ Hm He) as Hhigh.
  unfold shortest. set (n := exp10 (Z.pos m) e) in *.
  destruct (shortest_from_stops 16 (Z.pos m) e n 1) as (s & k & -> & Hk & Hc).
  { apply (candidate_17 (Z.pos m) e n 17); auto; lia. }
  pose proof (candidate_within _ _ _ _ _ Hc) as Hw.
  pose proof (candidate_range (Z.pos m) e n k Hm ltac:(lia) Hlow Hhigh s Hc) as Hr.
  destruct (Z.eqb_spec s (10 ^ k)) as [->|Hne].
  - cbn [fst snd]. repeat split; try lia; try reflexivity.
    rewrite <- Hw. replace (10 ^ k) with (10 ^ k * 1) by ring.
    rewrite within_shift by lia. f_equal. f_equal. lia.
  - pose proof (strip_zeros_ok 17 (Z.pos m) e s k n) as S.
    destruct (strip_zeros 17 s k) as [s' k']. cbn [fst snd] in *.
    apply S. repeat split; auto; lia.
Qed.

(** C31 (no shorter text reads back).  With fewer digits than
    [shortest] gives [Number_toString] to lay out, no decimal lies in
    the rounding interval of the value [m * 2^e]: the text is the
    shortest that reads back. *)
Theorem shortest_minimal m e k d :
  1 <= k < snd (fst (shortest (Z.pos m) e)) ->
  within (Z.pos m) e (mkScaled d 0 (snd (shortest (Z.pos m) e) - k)) = false.
Proof.
  unfold shortest. set (n := exp10 (Z.pos m) e).
  pose proof (shortest_from_first 17 (Z.pos m) e n 1 k) as F.
  destruct (shortest_from 17 (Z.pos m) e n 1) as [s k0]. cbn [snd] in F.
  destruct (s =? 10 ^ k0); [cbn [fst snd]; lia|].
  pose proof (strip_zeros_le 17 s k0).
  destruct (strip_zeros 17 s k0) as [s' k']. cbn [fst snd] in *. intros Hk.
  destruct (within (Z.pos m) e (mkScaled d 0 (n - k))) eqn:W; [|reflexivity].
  apply candidate_complete in W; [|lia]. rewrite F in W by lia. contradiction.
Qed.

End Finite.

(** ** Values *)

Section Values.
Local Open Scope float_scope.
Local Open Scope string_scope.

(** On these values [Number_toString] gives the text the language
    gives: the shortest decimal that reads back as the value, without
    exponent in this range. *)
Example Number_toString_values :
  map Number_toString
    [1.2; 0.1 + 0.2; 4.35; 0.5; 1 / 3; 25; 123.456; -1.5; 0.3 * 0.3; 0; -0] =
  ["1.2"; "0.30000000000000004"; "4.35"; "0.5"; "0.3333333333333333"; "25";
   "123.456"; "-1.5"; "0.09"; "0"; "0"].
Proof. vm_compute. reflexivity. Qed.

Example Number_toString_layouts :
  map Number_toString
    [1e21; 1e-7; 123456789012345680000; 0.000001; 1e23; 9007199254740992;
     5e-324; 1.7976931348623157e308] =
  ["1e+21"; "1e-7"; "123456789012345680000"; "0.000001"; "1e+23";
   "9007199254740992"; "5e-324"; "1.7976931348623157e+308"].
Proof. vm_compute. reflexivity. Qed.

Example Number_toString_special :
  map Number_toString [nan; infinity; neg_infinity] = ["NaN"; "Infinity"; "-Infinity"].
Proof. vm_compute. reflexivity. Qed.

(** The power of two [2^-970] has the narrow interval of a value whose
    lower neighbour is half as far as the upper: of the decimals of 17
    digits around it only the upper one reads back. *)
Lemma Number_toString_reads_back_witness :
  Number_toString 1.0020841800044864e-292 =
    (if false then "-" else "") ++ layout (shortest 4503599627370496 (-1022)) /\
  digits_ok 4503599627370496 (-1022)
    (fst (fst (shortest 4503599627370496 (-1022))))
    (snd (fst (shortest 4503599627370496 (-1022))))
    (snd (shortest 4503599627370496 (-1022))).
Proof.
  exact (Number_toString_reads_back 1.0020841800044864e-292 false 4503599627370496 (-1022)
           eq_refl).
Defined.

Example shortest_power_of_two :
  shortest 4503599627370496 (-1022) = (10020841800044864, 17, -291)%Z /\
  within 4503599627370496 (-1022) (mkScaled 10020841800044863 0 (-291 - 17)) = false /\
  Number_toString 1.0020841800044864e-292 = "1.0020841800044864e-292".
Proof. vm_compute. auto. Qed.

(** The sum [0.1 + 0.2] is [5404319552844596 * 2^-54]; its text has 17
    digits, and the decimal [0.3000000000000000] of 16 digits does not
    read back as the sum. *)
Lemma shortest_minimal_witness :
  within 5404319552844596 (-54)
    (mkScaled 3000000000000000 0 (snd (shortest 5404319552844596 (-54)) - 16)) = false.
Proof.
  apply (shortest_minimal 5404319552844596 (-54) 16 3000000000000000).
  split; [lia|]. apply Z.ltb_lt. vm_compute. reflexivity.
Defined.

Example shortest_sum :
  shortest 5404319552844596 (-54) = (30000000000000004, 17, 0)%Z.
Proof. vm_compute. reflexivity. Qed.

End Values.
