(* ===== verification/Base64.v ===== *)
(** * Base64: the decoder behind [atob]

    Line 56 of [index.tsx] calls the global [atob] on the image data the
    camera returned.  [atob] is the forgiving base64 decoder of the web
    platform: it drops ASCII whitespace, drops one or two padding
    characters when the length is a multiple of four, refuses a length
    that leaves one character over and any character outside the
    alphabet, and turns each group of four characters into three bytes,
    a last group of two or three characters into one or two.  The result
    is a binary string: one character per byte.

    [encode] is the standard encoder, the reference against which the
    decoder is checked: what a camera produces from the bytes of an
    image. *)

From Stdlib Require Import NArith ZifyN ZifyBool.
From S2P Require Import Prelude.

Local Open Scope N_scope.

(** ** The alphabet *)

(** The value of a character of the alphabet: A-Z, a-z, 0-9, + and /. *)
Definition sextetOf (c : ascii) : option N :=
  let n := N_of_ascii c in
  if (65 <=? n) && (n <=? 90) then Some (n - 65)
  else if (97 <=? n) && (n <=? 122) then Some (n - 71)
  else if (48 <=? n) && (n <=? 57) then Some (n + 4)
  else if n =? 43 then Some 62
  else if n =? 47 then Some 63
  else None.

(** The character of a value below 64. *)
Definition charOf (v : N) : ascii :=
  ascii_of_N (if v <? 26 then v + 65
              else if v <? 52 then v + 71
              else if v <? 62 then v - 4
              else if v =? 62 then 43 else 47).

(** ASCII whitespace: tab, line feed, form feed, carriage return, space. *)
Definition isWhitespace (c : ascii) : bool :=
  let n := N_of_ascii c in
  (n =? 9) || (n =? 10) || (n =? 12) || (n =? 13) || (n =? 32).

Definition isPadding (c : ascii) : bool := N_of_ascii c =? 61.

(** ** The decoder *)

Definition removeWhitespace (data : list ascii) : list ascii :=
  filter (fun c => negb (isWhitespace c)) data.

(** One or two padding characters at the end of a text whose length is a
    multiple of four are dropped. *)
Definition stripPadding (data : list ascii) : list ascii :=
  if (N.of_nat (length data) mod 4 =? 0) then
    match rev data with
    | p1 :: p2 :: rest =>
        if isPadding p1 then if isPadding p2 then rev rest else rev (p2 :: rest)
        else data
    | [p1] => if isPadding p1 then [] else data
    | [] => data
    end
  else data.

(** The values of the characters, if all are of the alphabet. *)
Fixpoint sextets (data : list ascii) : option (list N) :=
  match data with
  | [] => Some []
  | c :: rest =>
      match sextetOf c, sextets rest with
      | Some v, Some vs => Some (v :: vs)
      | _, _ => None
      end
  end.

(** Four values of six bits are three bytes; of a last group of two or
    three values the bits that fill no byte are dropped. *)
Fixpoint decodeSextets (vs : list N) : list N :=
  match vs with
  | a :: b :: c :: d :: rest =>
      (a * 4 + b / 16) :: ((b mod 16) * 16 + c / 4) :: ((c mod 4) * 64 + d)
      :: decodeSextets rest
  | [a; b; c] => [a * 4 + b / 16; (b mod 16) * 16 + c / 4]
  | [a; b] => [a * 4 + b / 16]
  | _ => []
  end.

(** The binary string of a list of bytes. *)
Definition binaryStringOf (bytes : list N) : string :=
  string_of_list_ascii (map ascii_of_N bytes).

(** [atob data]: the binary string, or nothing when the decoder throws. *)
Definition atob (data : string) : option string :=
  let cleaned := stripPadding (removeWhitespace (list_ascii_of_string data)) in
  if N.of_nat (length cleaned) mod 4 =? 1 then None
  else option_map (fun vs => binaryStringOf (decodeSextets vs)) (sextets cleaned).

(** ** The encoder *)

Fixpoint encodeSextets (bytes : list N) : list N :=
  match bytes with
  | x :: y :: z :: rest =>
      (x / 4) :: ((x mod 4) * 16 + y / 16) :: ((y mod 16) * 4 + z / 64) :: (z mod 64)
      :: encodeSextets rest
  | [x; y] => [x / 4; (x mod 4) * 16 + y / 16; (y mod 16) * 4]
  | [x] => [x / 4; (x mod 4) * 16]
  | [] => []
  end.

(** The padding that completes the last group of four characters. *)
Definition padding (sextetCount : nat) : list ascii :=
  match (N.of_nat sextetCount mod 4) with
  | 2 => ["="; "="]%char
  | 3 => ["="]%char
  | _ => []
  end.

Definition encodeChars (bytes : list N) : list ascii :=
  let vs := encodeSextets bytes in
  (map charOf vs ++ padding (length vs))%list.

Definition encode (bytes : list N) : string :=
  string_of_list_ascii (encodeChars bytes).

(** Close a goal on division and modulo by constants. *)
Ltac div_lia := Z.to_euclidean_division_equations; lia.

(** ** The alphabet *)

Section Alphabet.
Implicit Types (v : N) (c : ascii).

(** A property of the values below 64 holds when it holds of each. *)
Lemma small_cases (P : N -> Prop) :
  (forall v, In v (map N.of_nat (seq 0 64)) -> P v) -> forall v, v < 64 -> P v.
Proof.
  intros H v Hv. apply H. apply in_map_iff. exists (N.to_nat v). split; [lia|].
  apply in_seq. lia.
Qed.

Ltac by_cases :=
  let v := fresh "v" in let H := fresh "H" in
  apply small_cases; cbn [map seq]; intros v H;
  repeat (destruct H as [<-|H]; [reflexivity|]); destruct H.

Lemma sextetOf_charOf v : v < 64 -> sextetOf (charOf v) = Some v.
Proof. revert v. by_cases. Qed.

Lemma charOf_not_whitespace v : v < 64 -> isWhitespace (charOf v) = false.
Proof. revert v. by_cases. Qed.

Lemma charOf_not_padding v : v < 64 -> isPadding (charOf v) = false.
Proof. revert v. by_cases. Qed.

Lemma sextetOf_bound c v : sextetOf c = Some v -> v < 64.
Proof.
  unfold sextetOf. pose proof (N_ascii_bounded c).
  repeat case_head; intros [= <-]; lia.
Qed.

(** The padding character is not of the alphabet. *)
Lemma sextetOf_padding c : isPadding c = true -> sextetOf c = None.
Proof. unfold isPadding, sextetOf. intros H. repeat case_head; try reflexivity; lia. Qed.

End Alphabet.

(** ** Values and bytes *)

Section Sextets.
Implicit Types (vs bytes : list N) (data : list ascii).

Lemma sextets_charOf vs :
  Forall (fun v => v < 64) vs -> sextets (map charOf vs) = Some vs.
Proof.
  induction 1 as [|v vs Hv _ IH]; cbn [map sextets]; [reflexivity|].
  now rewrite sextetOf_charOf, IH.
Qed.

Lemma sextets_Some data vs :
  sextets data = Some vs -> length vs = length data /\ Forall (fun v => v < 64) vs.
Proof.
  revert vs. induction data as [|c data IH]; cbn [sextets]; intros vs.
  - intros [= <-]. auto.
  - destruct (sextetOf c) as [v|] eqn:E; [|discriminate].
    destruct (sextets data) as [vs'|]; [|discriminate]. intros [= <-].
    destruct (IH _ eq_refl). cbn [length]. eauto using sextetOf_bound.
Qed.


(** Every decoded byte is a byte. *)
Lemma decodeSextets_bound vs :
  Forall (fun v => v < 64) vs -> Forall (fun b => b < 256) (decodeSextets vs).
Proof.
  induction vs using list_ind4; intros H; forall_inv; cbn [decodeSextets];
    repeat constructor; auto; div_lia.
Qed.

(** Four characters give three bytes, three give two, two give one. *)
Lemma decodeSextets_length vs :
  N.of_nat (length (decodeSextets vs)) = 3 * N.of_nat (length vs) / 4.
Proof.
  induction vs using list_ind4; cbn [decodeSextets length]; try reflexivity.
  rewrite !Nat2N.inj_succ, IHvs. div_lia.
Qed.

Lemma encodeSextets_bound bytes :
  Forall (fun b => b < 256) bytes -> Forall (fun v => v < 64) (encodeSextets bytes).
Proof.
  induction bytes using list_ind3; intros H; forall_inv; cbn [encodeSextets];
    repeat constructor; auto; div_lia.
Qed.

Lemma encodeSextets_length bytes :
  N.of_nat (length (encodeSextets bytes)) mod 4 =
  match N.of_nat (length bytes) mod 3 with 0 => 0 | 1 => 2 | _ => 3 end.
Proof.
  induction bytes using list_ind3; try reflexivity.
  cbn [encodeSextets length]. rewrite !Nat2N.inj_succ.
  replace (N.succ (N.succ (N.succ (N.succ (N.of_nat (length (encodeSextets bytes)))))))
    with (N.of_nat (length (encodeSextets bytes)) + 1 * 4) by lia.
  replace (N.succ (N.succ (N.succ (N.of_nat (length bytes)))))
    with (N.of_nat (length bytes) + 1 * 3) by lia.
  now rewrite !N.Div0.mod_add.
Qed.

(** The bytes of the values of the bytes are the bytes. *)
Lemma decode_encode bytes :
  Forall (fun b => b < 256) bytes -> decodeSextets (encodeSextets bytes) = bytes.
Proof.
  induction bytes using list_ind3; intros H; forall_inv;
    cbn [encodeSextets decodeSextets]; rewrite ?IHbytes by assumption;
    repeat f_equal; div_lia.
Qed.

End Sextets.

(** ** What the decoder makes of an encoded text *)

Lemma padding_cases n :
  (padding n = [] /\ N.of_nat n mod 4 <> 2 /\ N.of_nat n mod 4 <> 3) \/
  (padding n = ["="; "="]%char /\ N.of_nat n mod 4 = 2) \/
  (padding n = ["="]%char /\ N.of_nat n mod 4 = 3).
Proof.
  unfold padding. destruct (N.of_nat n mod 4) as [|[[|[]|]|[|[]|]|]] eqn:E; auto;
    left; repeat split; discriminate.
Qed.

Section Encoded.
Variable vs : list N.
Hypothesis Hvs : Forall (fun v => v < 64) vs.

Lemma chars_not_whitespace :
  Forall (fun c => negb (isWhitespace c) = true) (map charOf vs ++ padding (length vs)).
Proof.
  apply Forall_app. split.
  - apply Forall_map. eapply Forall_impl; [|exact Hvs].
    intros v Hv. cbn. now rewrite charOf_not_whitespace.
  - destruct (padding_cases (length vs)) as [(-> & _) | [(-> & _) | (-> & _)]];
      repeat constructor.
Qed.

Lemma removeWhitespace_chars :
  removeWhitespace (map charOf vs ++ padding (length vs)) =
  (map charOf vs ++ padding (length vs))%list.
Proof. apply filter_all, chars_not_whitespace. Qed.

(** The last character before the padding is of the alphabet. *)
Lemma last_not_padding c rest :
  rev (map charOf vs) = c :: rest -> isPadding c = false.
Proof.
  intros E. assert (In c (map charOf vs)) as Hin by (apply in_rev; rewrite E; now left).
  apply in_map_iff in Hin. destruct Hin as (v & <- & Hv).
  apply charOf_not_padding. rewrite Forall_forall in Hvs. auto.
Qed.

Lemma stripPadding_chars :
  N.of_nat (length vs) mod 4 <> 1 ->
  stripPadding (map charOf vs ++ padding (length vs)) = map charOf vs.
Proof.
  intros H1. unfold stripPadding. rewrite length_app, length_map, rev_app_distr.
  destruct (padding_cases (length vs)) as [(-> & H2 & H3) | [(-> & H2) | (-> & H3)]];
    cbn [length rev app].
  - rewrite app_nil_r.
    destruct (_ =? 0); [|reflexivity].
    destruct (rev (map charOf vs)) as [|p1 [|p2 rest]] eqn:E; try reflexivity;
      now rewrite (last_not_padding _ _ E).
  - replace (N.of_nat (length vs + 2) mod 4) with 0 by div_lia.
    change (isPadding "="%char) with true. cbv iota. apply rev_involutive.
  - replace (N.of_nat (length vs + 1) mod 4) with 0 by div_lia.
    destruct (rev (map charOf vs)) as [|p2 rest] eqn:E.
    + apply (f_equal (@length _)) in E. rewrite length_rev, length_map in E.
      destruct vs; [discriminate H3 | discriminate E].
    + change (isPadding "="%char) with true. cbv iota.
      rewrite (last_not_padding _ _ E).
      change (rev rest ++ [p2])%list with (rev (p2 :: rest)).
      rewrite <- E. apply rev_involutive.
Qed.

End Encoded.

(** ** The decoder *)

Section Decoder.
Implicit Types (data s : string) (bytes : list N).

(** Decoding the encoding of a list of bytes gives its binary string. *)
Lemma atob_encode bytes :
  Forall (fun b => b < 256) bytes -> atob (encode bytes) = Some (binaryStringOf bytes).
Proof.
  intros Hb. pose proof (encodeSextets_bound _ Hb) as Hvs.
  assert (N.of_nat (length (encodeSextets bytes)) mod 4 <> 1) as H1.
  { rewrite encodeSextets_length. destruct (_ mod 3) as [|[]]; discriminate. }
  unfold atob, encode, encodeChars. rewrite list_ascii_of_string_of_list_ascii.
  rewrite removeWhitespace_chars, stripPadding_chars by assumption.
  rewrite length_map. destruct (_ =? 1) eqn:E; [lia|].
  rewrite sextets_charOf by assumption. cbn [option_map].
  now rewrite decode_encode.
Qed.

Lemma removeWhitespace_length (l : list ascii) :
  (length (removeWhitespace l) <= length l)%nat.
Proof. apply filter_length_le. Qed.

Lemma stripPadding_length (l : list ascii) : (length (stripPadding l) <= length l)%nat.
Proof.
  unfold stripPadding. destruct (_ =? 0); [|lia].
  destruct (rev l) as [|p1 [|p2 rest]] eqn:E; try lia;
    apply (f_equal (@length _)) in E; rewrite length_rev in E; cbn [length] in *;
    repeat case_head; cbn [length]; rewrite ?length_rev, ?length_app; cbn [length]; lia.
Qed.

Lemma binaryStringOf_length bytes : String.length (binaryStringOf bytes) = length bytes.
Proof. unfold binaryStringOf. induction bytes; cbn; congruence. Qed.

Lemma length_list_ascii s : String.length s = length (list_ascii_of_string s).
Proof. induction s; cbn; congruence. Qed.

(** The decoded length.  The binary string that [atob] returns has at
    most three characters for four characters of its argument: the
    array that line 57 allocates is never longer than three quarters
    of the image data. *)
Theorem atob_length data s :
  atob data = Some s -> (4 * String.length s <= 3 * String.length data)%nat.
Proof.
  unfold atob. set (cleaned := stripPadding _).
  assert (length cleaned <= String.length data)%nat as Hlen.
  { rewrite length_list_ascii. etransitivity; [apply stripPadding_length|].
    apply removeWhitespace_length. }
  destruct (_ =? 1); [discriminate|].
  destruct (sextets cleaned) as [vs|] eqn:E; [|discriminate]. intros [= <-].
  destruct (sextets_Some _ _ E) as [Hl _].
  rewrite binaryStringOf_length.
  pose proof (decodeSextets_length vs). div_lia.
Qed.


End Decoder.

(** ** Values *)

Lemma atob_length_witness : (4 * String.length "hi" <= 3 * String.length "aGk=")%nat.
Proof. apply atob_length. reflexivity. Defined.

(** Padded, unpadded and spaced data decode alike; a misplaced or
    surplus padding character and a lone character are refused. *)
Example atob_values :
  map atob ["aGk="; "aGk"; " a G k = "; "aGk=="; "a"; "aG=k"; ""; "/9j/4AAQ"]%string =
  [Some "hi"; Some "hi"; Some "hi"; None; None; None; Some "";
   Some (binaryStringOf [255; 216; 255; 224; 0; 16])]%string.
Proof. vm_compute. reflexivity. Qed.

Example encode_values :
  map encode [[104; 105]; [255; 216; 255; 224; 0; 16]; []; [0]] =
  ["aGk="; "/9j/4AAQ"; ""; "AA=="]%string.
Proof. vm_compute. reflexivity. Qed.
