(* ===== verification/Labels.v ===== *)
(** * Labels: the vision service's answer and the object filter

    The records read by lines 146-197 of [index.tsx] (every field of the
    service's types is optional, hence the [option]s), the deny list
    [excludeCategories] of lines 149-154, the filter predicate of lines
    156-164 and the cut to the first three survivors of line 175. *)

From S2P Require Import Prelude JsNumber JsString.

Local Open Scope string_scope.

(** ** Data *)

(** A box in coordinates normalised to the image: [0..1] each way. *)
Record BoundingBox : Set := mkBox {
  Width : option number;
  Height : option number;
  Left : option number;
  Top : option number
}.

(** One located occurrence of a label ([Instance] of the service). *)
Record LabelInstance : Set := mkInstance {
  InstanceBoundingBox : option BoundingBox
}.

(** One recognised concept. *)
Record Label : Set := mkLabel {
  Name : option string;
  Confidence : option number;
  Instances : option (list LabelInstance)
}.

(** ** Operations *)

(** [rekognitionResult.Labels || []] (line 146). *)
Definition allLabels (Labels : option (list Label)) : list Label :=
  js_or Labels [].

(** The deny list of scene and category terms (lines 149-154). *)
Definition excludeCategories : list string :=
  [ "interior design"; "architecture"; "room"; "indoors"; "outdoors";
    "building"; "floor"; "wall"; "ceiling"; "flooring"; "hardwood";
    "wood"; "lighting"; "urban"; "city"; "nature"; "scenery"; "landscape";
    "housing"; "shelter"; "home decor"; "art"; "modern art"; "abstract" ].

(** [label.Name?.toLowerCase() || dflt] (lines 157 and 187). *)
Definition lowerName (label : Label) (dflt : string) : string :=
  js_or (option_map toLowerCase (Name label)) dflt.

(** [excludeCategories.some(cat => name.includes(cat))] (line 159). *)
Definition isExcluded (name : string) : bool :=
  existsb (fun cat => includes name cat) excludeCategories.

(** [label.Instances && label.Instances.length > 0] as a condition
    (lines 163 and 193). *)
Definition hasInstances (label : Label) : bool :=
  match Instances label with
  | Some l => (0 <? length l)%nat
  | None => false
  end.

(** The callback of [allLabels.filter] (lines 156-164). *)
Definition isPhysicalObject (label : Label) : bool :=
  let name := lowerName label "" in
  if isExcluded name then false
  else hasInstances label.

(** [allLabels.filter(...)] (line 156). *)
Definition physicalObjects (labels : list Label) : list Label :=
  filter isPhysicalObject labels.

(** [physicalObjects.slice(0, 3)] (line 175). *)
Definition topObjects (physical : list Label) : list Label :=
  firstn 3 physical.

(** ** The deny list without its redundant entries

    "flooring", "hardwood" and "modern art" contain "floor", "wood" and
    "art": a name that contains one of the former contains one of the
    latter. *)
Definition coreCategories : list string :=
  [ "interior design"; "architecture"; "room"; "indoors"; "outdoors";
    "building"; "floor"; "wall"; "ceiling";
    "wood"; "lighting"; "urban"; "city"; "nature"; "scenery"; "landscape";
    "housing"; "shelter"; "home decor"; "art"; "abstract" ].

(** ** Lemmas *)

Section Filter.
Implicit Types (label : Label) (labels : list Label) (name cat : string).

Lemma allLabels_Some labels : allLabels (Some labels) = labels.
Proof. reflexivity. Qed.

Lemma allLabels_None : allLabels None = [].
Proof. reflexivity. Qed.

Lemma isExcluded_intro name cat :
  In cat excludeCategories -> includes name cat = true -> isExcluded name = true.
Proof. intros Hin Hinc. apply (existsb_In _ _ cat); assumption. Qed.

Lemma isExcluded_elim name :
  isExcluded name = true ->
  exists cat, In cat excludeCategories /\ includes name cat = true.
Proof. intros H. apply existsb_exists in H. exact H. Qed.

Lemma lowerName_Some label n d :
  Name label = Some n -> n <> "" -> lowerName label d = toLowerCase n.
Proof.
  intros Hn Hne. unfold lowerName. rewrite Hn. cbn [option_map].
  apply js_or_string_nonempty. now rewrite toLowerCase_nil_iff.
Qed.

Lemma lowerName_None label d : Name label = None -> lowerName label d = d.
Proof. intros Hn. unfold lowerName. rewrite Hn. reflexivity. Qed.

Lemma hasInstances_true label :
  hasInstances label = true <->
  exists i l, Instances label = Some (i :: l).
Proof.
  unfold hasInstances. destruct (Instances label) as [[|i l]|]; cbn; split;
    try discriminate; try (intros (? & ? & ?); discriminate); eauto.
Qed.

(** The filter keeps a label exactly when its lower-cased name contains no
    denied term and it has at least one instance. *)
Lemma isPhysicalObject_spec label :
  isPhysicalObject label = true <->
  isExcluded (lowerName label "") = false /\ hasInstances label = true.
Proof.
  unfold isPhysicalObject. destruct (isExcluded _); split; intuition congruence.
Qed.

Lemma physicalObjects_In label labels :
  In label (physicalObjects labels) <-> In label labels /\ isPhysicalObject label = true.
Proof. apply filter_In. Qed.

Lemma physicalObjects_subseq labels : subseq (physicalObjects labels) labels.
Proof. apply filter_subseq. Qed.

Lemma topObjects_subseq labels : subseq (topObjects labels) labels.
Proof. apply firstn_subseq. Qed.

Lemma topObjects_length labels : length (topObjects labels) <= 3.
Proof. apply firstn_le_length. Qed.

Lemma topObjects_nil labels : topObjects labels = [] <-> labels = [].
Proof. destruct labels; cbn; split; congruence. Qed.

Lemma topObjects_all_physical labels :
  Forall (fun label => isPhysicalObject label = true) (topObjects (physicalObjects labels)).
Proof. apply firstn_filter_Forall. Qed.

Lemma physicalObjects_app l1 l2 :
  physicalObjects (l1 ++ l2)%list = (physicalObjects l1 ++ physicalObjects l2)%list.
Proof. apply filter_app. Qed.

Lemma physicalObjects_idem labels :
  physicalObjects (physicalObjects labels) = physicalObjects labels.
Proof.
  unfold physicalObjects. induction labels as [|x l IH]; cbn; [reflexivity|].
  destruct (isPhysicalObject x) eqn:E; cbn; rewrite ?E, IH; reflexivity.
Qed.

(** With the empty default, the name the filter tests is the lower-cased
    name, or the empty string when the label has none. *)
Lemma lowerName_filter label :
  lowerName label "" =
  match Name label with Some n => toLowerCase n | None => "" end.
Proof.
  unfold lowerName, js_or. destruct (Name label) as [n|]; cbn [option_map]; [|reflexivity].
  destruct (to_boolean (toLowerCase n)) eqn:E; [reflexivity|].
  apply to_boolean_string_false in E. congruence.
Qed.

Lemma isPhysicalObject_excluded label :
  isExcluded (lowerName label "") = true -> isPhysicalObject label = false.
Proof. unfold isPhysicalObject. intros ->. reflexivity. Qed.

Lemma isPhysicalObject_no_instances label :
  hasInstances label = false -> isPhysicalObject label = false.
Proof. unfold isPhysicalObject. intros ->. destruct (isExcluded _); reflexivity. Qed.

Lemma not_physical_not_kept label labels :
  isPhysicalObject label = false -> ~ In label (physicalObjects labels).
Proof. rewrite physicalObjects_In. intros E [_ H]. congruence. Qed.

(** C3 (filter exclusion).  A label whose lower-cased name contains a term
    of the deny list is rejected by the filter predicate and is absent
    from the filtered list, whatever its confidence and its instances. *)
Theorem filter_excludes_denied label n cat labels :
  Name label = Some n ->
  In cat excludeCategories ->
  includes (toLowerCase n) cat = true ->
  isPhysicalObject label = false /\ ~ In label (physicalObjects labels).
Proof.
  intros Hn Hcat Hinc.
  assert (isPhysicalObject label = false) as E.
  { apply isPhysicalObject_excluded. rewrite lowerName_filter, Hn.
    eapply isExcluded_intro; eassumption. }
  split; [exact E | now apply not_physical_not_kept].
Qed.

(** C5 (filter instance requirement).  A label with no instance list, or
    with an empty one, is rejected and absent from the filtered list,
    whatever its name. *)
Theorem filter_requires_instances label labels :
  Instances label = None \/ Instances label = Some [] ->
  isPhysicalObject label = false /\ ~ In label (physicalObjects labels).
Proof.
  intros H.
  assert (isPhysicalObject label = false) as E.
  { apply isPhysicalObject_no_instances. unfold hasInstances.
    destruct H as [-> | ->]; reflexivity. }
  split; [exact E | now apply not_physical_not_kept].
Qed.

(** C6 (filter cap and order).  The narrated objects are at most three,
    they are a subsequence of the service's labels (relative order kept,
    nothing invented), and each of them passed the filter. *)
Theorem topObjects_cap labels :
  length (topObjects (physicalObjects labels)) <= 3 /\
  subseq (topObjects (physicalObjects labels)) labels /\
  Forall (fun label => isPhysicalObject label = true)
         (topObjects (physicalObjects labels)).
Proof.
  split; [apply topObjects_length|].
  split; [|apply topObjects_all_physical].
  eapply subseq_trans; [apply topObjects_subseq | apply physicalObjects_subseq].
Qed.

(** C24 (redundant terms).  The three entries of [excludeCategories] that
    contain another entry ("flooring", "hardwood", "modern art") change
    nothing: the deny test is the test against the twenty-one entries
    of [coreCategories]. *)
Lemma isExcluded_core name :
  isExcluded name = existsb (fun cat => includes name cat) coreCategories.
Proof.
  apply eq_true_iff_eq. unfold isExcluded. rewrite !existsb_exists. split.
  - intros (cat & Hin & Hinc). cbn in Hin.
    repeat (destruct Hin as [<- | Hin]; [| ]); try contradiction;
      try (eexists; split; [|eassumption]; cbn; tauto).
    + exists "floor". split; [cbn; tauto|]. eapply includes_trans; [eassumption|reflexivity].
    + exists "wood". split; [cbn; tauto|]. eapply includes_trans; [eassumption|reflexivity].
    + exists "art". split; [cbn; tauto|]. eapply includes_trans; [eassumption|reflexivity].
  - intros (cat & Hin & Hinc). exists cat. split; [|assumption].
    cbn in Hin |- *. tauto.
Qed.

End Filter.

(** ** Concrete labels *)

Definition unitBox : BoundingBox :=
  mkBox (Some 0.5%float) (Some 0.5%float) (Some 0.25%float) (Some 0.25%float).

Definition sampleLabel (name : string) : Label :=
  mkLabel (Some name) (Some 99%float) (Some [mkInstance (Some unitBox)]).

Lemma filter_excludes_denied_witness :
  isPhysicalObject (sampleLabel "Interior Design") = false /\
  ~ In (sampleLabel "Interior Design")
       (physicalObjects [sampleLabel "Chair"; sampleLabel "Interior Design"]).
Proof.
  apply (filter_excludes_denied _ "Interior Design" "interior design").
  - reflexivity.
  - cbn. tauto.
  - reflexivity.
Defined.

Lemma filter_requires_instances_witness :
  isPhysicalObject (mkLabel (Some "Chair") (Some 99%float) (Some [])) = false /\
  ~ In (mkLabel (Some "Chair") (Some 99%float) (Some []))
       (physicalObjects [mkLabel (Some "Chair") (Some 99%float) (Some [])]).
Proof. apply filter_requires_instances. right. reflexivity. Defined.

Example chair_is_physical : isPhysicalObject (sampleLabel "Chair") = true.
Proof. reflexivity. Qed.

(** The deny test is a substring test: a concrete
    object whose name happens to contain a denied term is dropped with
    the scene labels ("cart" and "smartphone" contain "art", "wallet"
    contains "wall", "mushroom" contains "room"). *)
Example cart_is_excluded :
  map isPhysicalObject
    [sampleLabel "Shopping Cart"; sampleLabel "Wallet";
     sampleLabel "Mushroom"; sampleLabel "Smartphone"] =
  [false; false; false; false].
Proof. reflexivity. Qed.

(** A label without a name is kept when it has instances: the empty name
    contains no denied term. *)
Example nameless_is_physical :
  isPhysicalObject (mkLabel None None (Some [mkInstance None])) = true.
Proof. reflexivity. Qed.

#[export] Hint Resolve physicalObjects_subseq topObjects_subseq topObjects_length : js.
#[export] Hint Rewrite allLabels_Some allLabels_None : js_rw.
