(* ===== verification/Geometry.v ===== *)
(** * Geometry: distance and direction of one object

    Lines 190-244 of [index.tsx]: the area of the first instance's box
    picks one of five distance phrases by fixed thresholds, the centre of
    the box picks a horizontal and a vertical qualifier, and the two are
    combined into the direction phrase.  Each choice is given twice: as
    the code computes it, on strings, and as a value of an enumeration
    with its phrase; the refinement lemmas say that the two agree. *)

From S2P Require Import Prelude JsNumber JsString Labels.

Local Open Scope string_scope.
Local Open Scope float_scope.

(** ** The code's definitions *)

(** [(box.Width || 0) * (box.Height || 0)] (line 197). *)
Definition boxArea (box : BoundingBox) : number :=
  js_or (Width box) 0 * js_or (Height box) 0.

(** The distance phrase chosen by the area (lines 200-210). *)
Definition estimateDistance (boxArea : number) : string :=
  if boxArea >? 0.3 then "2 to 3 feet"
  else if boxArea >? 0.15 then "4 to 6 feet"
  else if boxArea >? 0.08 then "8 to 10 feet"
  else if boxArea >? 0.04 then "12 to 15 feet"
  else "more than 15 feet".

(** The centre of the box (lines 214-215). *)
Definition centerX (box : BoundingBox) : number :=
  js_or (Left box) 0 + js_or (Width box) 0 / 2.

Definition centerY (box : BoundingBox) : number :=
  js_or (Top box) 0 + js_or (Height box) 0 / 2.

(** The horizontal qualifier (lines 218-225). *)
Definition horizontalOf (centerX : number) : string :=
  if centerX <? 0.3 then "on your left"
  else if centerX >? 0.7 then "on your right"
  else "in front of you".

(** The vertical qualifier, empty when the box is level (lines 228-233). *)
Definition verticalOf (centerY : number) : string :=
  if centerY <? 0.3 then "above"
  else if centerY >? 0.7 then "below"
  else "".

(** The combination of the two qualifiers (lines 236-242). *)
Definition combineDirections (vertical horizontal : string) : string :=
  if to_boolean vertical && negb (horizontal =? "in front of you")%string
  then vertical ++ " and " ++ horizontal
  else if to_boolean vertical then vertical ++ " " ++ horizontal
  else horizontal.

(** The direction phrase of a box (lines 214-242). *)
Definition directionOf (box : BoundingBox) : string :=
  combineDirections (verticalOf (centerY box)) (horizontalOf (centerX box)).

(** [objectDistance] and [direction] after the block of lines 190-244:
    both empty unless the label has a first instance with a box. *)
Definition locate (label : Label) : string * string :=
  match Instances label with
  | Some (instance :: _) =>
      match InstanceBoundingBox instance with
      | Some box => (estimateDistance (boxArea box), directionOf box)
      | None => ("", "")
      end
  | _ => ("", "")
  end.

(** ** The specification's enumerations *)

Inductive DistanceBucket : Set :=
| Feet2to3 | Feet4to6 | Feet8to10 | Feet12to15 | FeetOver15.

Definition bucket_phrase (b : DistanceBucket) : string :=
  match b with
  | Feet2to3 => "2 to 3 feet"
  | Feet4to6 => "4 to 6 feet"
  | Feet8to10 => "8 to 10 feet"
  | Feet12to15 => "12 to 15 feet"
  | FeetOver15 => "more than 15 feet"
  end.

(** Position of a bucket from the nearest (0) to the farthest (4). *)
Definition bucket_rank (b : DistanceBucket) : nat :=
  match b with
  | Feet2to3 => 0 | Feet4to6 => 1 | Feet8to10 => 2 | Feet12to15 => 3 | FeetOver15 => 4
  end.

(** The table of the specification: the first threshold the area exceeds. *)
Definition distance_bucket (area : number) : DistanceBucket :=
  if area >? 0.3 then Feet2to3
  else if area >? 0.15 then Feet4to6
  else if area >? 0.08 then Feet8to10
  else if area >? 0.04 then Feet12to15
  else FeetOver15.

Inductive Horizontal : Set := OnLeft | InFront | OnRight.

Inductive Vertical : Set := Above | Level | Below.

Definition horizontal_of (cx : number) : Horizontal :=
  if cx <? 0.3 then OnLeft else if cx >? 0.7 then OnRight else InFront.

Definition vertical_of (cy : number) : Vertical :=
  if cy <? 0.3 then Above else if cy >? 0.7 then Below else Level.

(** Position from left (0) to right (2). *)
Definition horizontal_rank (h : Horizontal) : nat :=
  match h with OnLeft => 0 | InFront => 1 | OnRight => 2 end.

(** The nine phrases of the specification. *)
Definition direction_phrase (v : Vertical) (h : Horizontal) : string :=
  match v, h with
  | Above, OnLeft => "above and on your left"
  | Above, InFront => "above in front of you"
  | Above, OnRight => "above and on your right"
  | Level, OnLeft => "on your left"
  | Level, InFront => "in front of you"
  | Level, OnRight => "on your right"
  | Below, OnLeft => "below and on your left"
  | Below, InFront => "below in front of you"
  | Below, OnRight => "below and on your right"
  end.

(** A box given by its four coordinates, all present. *)
Definition boxAt (left top width height : number) : BoundingBox :=
  mkBox (Some width) (Some height) (Some left) (Some top).

(** ** Distance *)

Section Distance.
Implicit Types (a : number) (b : DistanceBucket).

Lemma bucket_phrase_inj b1 b2 : bucket_phrase b1 = bucket_phrase b2 -> b1 = b2.
Proof. destruct b1, b2; cbn; congruence. Qed.

(** The string of the code is the phrase of the specification's bucket. *)
Lemma estimateDistance_refines a : estimateDistance a = bucket_phrase (distance_bucket a).
Proof. unfold estimateDistance, distance_bucket. repeat case_head; reflexivity. Qed.

Lemma estimateDistance_nonempty a : estimateDistance a <> "".
Proof. rewrite estimateDistance_refines. destruct (distance_bucket a); discriminate. Qed.

(** A bucket at least as near as the one of threshold [t]: the area
    exceeds [t]. *)
Lemma distance_bucket_rank_lt a :
  (bucket_rank (distance_bucket a) < 4 -> (a >? 0.04) = true) /\
  (bucket_rank (distance_bucket a) < 3 -> (a >? 0.08) = true) /\
  (bucket_rank (distance_bucket a) < 2 -> (a >? 0.15) = true) /\
  (bucket_rank (distance_bucket a) < 1 -> (a >? 0.3) = true).
Proof.
  unfold distance_bucket.
  destruct (a >? 0.3) eqn:E1; [|destruct (a >? 0.15) eqn:E2;
    [|destruct (a >? 0.08) eqn:E3; [|destruct (a >? 0.04) eqn:E4]]];
  cbn [bucket_rank]; repeat split; intros; try lia;
  try assumption; unfold gtb in *;
  match goal with
  | H : (?t <? a) = true |- (?u <? a) = true =>
      apply (ltb_trans u t a); [reflexivity | exact H]
  end.
Qed.

(** Conversely an area above a threshold lands in its bucket or nearer. *)
Lemma distance_bucket_rank_le a :
  ((a >? 0.3) = true -> bucket_rank (distance_bucket a) <= 0) /\
  ((a >? 0.15) = true -> bucket_rank (distance_bucket a) <= 1) /\
  ((a >? 0.08) = true -> bucket_rank (distance_bucket a) <= 2) /\
  ((a >? 0.04) = true -> bucket_rank (distance_bucket a) <= 3).
Proof.
  unfold distance_bucket.
  destruct (a >? 0.3) eqn:E1; [|destruct (a >? 0.15) eqn:E2;
    [|destruct (a >? 0.08) eqn:E3; [|destruct (a >? 0.04) eqn:E4]]];
  cbn [bucket_rank]; repeat split; intros; try lia; congruence.
Qed.

Lemma distance_bucket_monotone a1 a2 :
  (a1 <? a2) = true ->
  bucket_rank (distance_bucket a2) <= bucket_rank (distance_bucket a1).
Proof.
  intros Hlt.
  destruct (distance_bucket_rank_lt a1) as (L4 & L3 & L2 & L1).
  destruct (distance_bucket_rank_le a2) as (U1 & U2 & U3 & U4).
  pose proof (fun t H => gtb_mono t a1 a2 H Hlt) as up.
  destruct (distance_bucket a1) eqn:B1; cbn [bucket_rank] in *;
    [ apply U1 | apply U2 | apply U3 | apply U4 | ];
    try (apply up; auto with arith).
  destruct (distance_bucket a2); cbn; lia.
Qed.

(** C4 (distance monotonicity).  Of two areas, the smaller never gets the
    nearer phrase: the phrases of the code are phrases of the table, and
    the one of the larger area is at least as near. *)
Theorem distance_monotone a1 a2 :
  (a1 <? a2) = true ->
  exists b1 b2,
    estimateDistance a1 = bucket_phrase b1 /\
    estimateDistance a2 = bucket_phrase b2 /\
    bucket_rank b2 <= bucket_rank b1.
Proof.
  intros Hlt. exists (distance_bucket a1), (distance_bucket a2).
  rewrite !estimateDistance_refines.
  auto using distance_bucket_monotone.
Qed.

(** An area that is not a number exceeds no threshold. *)
Lemma estimateDistance_nan a : is_nan a = true -> estimateDistance a = "more than 15 feet".
Proof.
  intros H. unfold estimateDistance, gtb. now rewrite !(ltb_nan_r _ _ H).
Qed.

(** A box that lacks its width or its height has area [0] or [NaN], and
    is narrated as far away. *)
Lemma boxArea_missing_width box :
  Width box = None -> estimateDistance (boxArea box) = "more than 15 feet".
Proof.
  intros H. unfold boxArea. rewrite H. cbn [js_or].
  set (h := js_or (Height box) 0).
  destruct (is_nan (0 * h)) eqn:E; [now apply estimateDistance_nan|].
  unfold estimateDistance, gtb.
  assert (forall t, (0 <? t) = true -> (t <? 0 * h) = false) as Hsmall.
  { intros t Ht. destruct (t <? 0 * h) eqn:F; [|reflexivity].
    pose proof (ltb_trans _ _ _ Ht F) as G.
    rewrite ltb_spec, mul_spec in G. change (Prim2SF 0) with (S754_zero false) in G.
    destruct (Prim2SF h) as [s|s| |s m e]; cbn in G; try destruct s; discriminate. }
  rewrite !Hsmall by reflexivity. reflexivity.
Qed.

End Distance.

(** ** Direction *)

Section Direction.
Implicit Types (cx cy : number) (v : Vertical) (h : Horizontal).

Lemma horizontalOf_refines cx :
  horizontalOf cx = direction_phrase Level (horizontal_of cx).
Proof. unfold horizontalOf, horizontal_of. repeat case_head; reflexivity. Qed.

Lemma combineDirections_refines cx cy :
  combineDirections (verticalOf cy) (horizontalOf cx) =
  direction_phrase (vertical_of cy) (horizontal_of cx).
Proof.
  unfold verticalOf, horizontalOf, vertical_of, horizontal_of.
  repeat case_head; reflexivity.
Qed.

(** The two horizontal tests exclude each other, and so do the vertical
    ones: [0.3 < 0.7], so nothing is below the first and above the
    second. *)
Lemma thresholds_exclusive (c : number) : (c <? 0.3) = true -> (c >? 0.7) = false.
Proof.
  intros H. unfold gtb. destruct (0.7 <? c) eqn:E; [|reflexivity].
  pose proof (ltb_trans _ _ _ E H) as F. vm_compute in F. discriminate.
Qed.

Lemma horizontal_of_left cx : horizontal_of cx = OnLeft <-> (cx <? 0.3) = true.
Proof. unfold horizontal_of. repeat case_head; split; congruence. Qed.

Lemma horizontal_of_right cx : horizontal_of cx = OnRight <-> (cx >? 0.7) = true.
Proof.
  unfold horizontal_of. destruct (cx <? 0.3) eqn:E.
  - rewrite (thresholds_exclusive _ E). split; discriminate.
  - case_head; split; congruence.
Qed.

Lemma vertical_of_above cy : vertical_of cy = Above <-> (cy <? 0.3) = true.
Proof. unfold vertical_of. repeat case_head; split; congruence. Qed.

Lemma vertical_of_below cy : vertical_of cy = Below <-> (cy >? 0.7) = true.
Proof.
  unfold vertical_of. destruct (cy <? 0.3) eqn:E.
  - rewrite (thresholds_exclusive _ E). split; discriminate.
  - case_head; split; congruence.
Qed.

Lemma direction_phrase_inj v1 h1 v2 h2 :
  direction_phrase v1 h1 = direction_phrase v2 h2 -> v1 = v2 /\ h1 = h2.
Proof. destruct v1, h1, v2, h2; cbn; intros H; try discriminate; auto. Qed.

Lemma direction_phrase_nonempty v h : direction_phrase v h <> "".
Proof. destruct v, h; discriminate. Qed.

(** Moving the centre to the right never moves the qualifier to the left. *)
Lemma horizontal_of_monotone cx1 cx2 :
  (cx1 <? cx2) = true ->
  horizontal_rank (horizontal_of cx1) <= horizontal_rank (horizontal_of cx2).
Proof.
  intros Hlt. unfold horizontal_of.
  destruct (cx2 <? 0.3) eqn:E2.
  - rewrite (ltb_trans _ _ _ Hlt E2). cbn. lia.
  - destruct (cx1 <? 0.3) eqn:E1; [repeat case_head; cbn; lia|].
    destruct (cx1 >? 0.7) eqn:G1.
    + rewrite (gtb_mono _ _ _ G1 Hlt). cbn. lia.
    + repeat case_head; cbn; lia.
Qed.

(** C7 (direction).  The direction phrase of a box is the entry of the
    nine-phrase table for the position of its centre, and for no other
    position: above when [centerY < 0.3], below when [centerY > 0.7], on
    the left when [centerX < 0.3], on the right when [centerX > 0.7]. *)
Theorem directionOf_spec box v h :
  directionOf box = direction_phrase v h <->
  v = vertical_of (centerY box) /\ h = horizontal_of (centerX box).
Proof.
  unfold directionOf. rewrite combineDirections_refines. split.
  - intros H. apply direction_phrase_inj in H. intuition congruence.
  - intros [-> ->]. reflexivity.
Qed.

(** The positions of the specification's examples: the centre and two
    corners. *)
Example direction_examples :
  map directionOf [boxAt 0.4 0.4 0.2 0.2; boxAt 0 0 0.2 0.2; boxAt 0.8 0.8 0.2 0.2] =
  ["in front of you"; "above and on your left"; "below and on your right"].
Proof. vm_compute. reflexivity. Qed.

(** A centre exactly on a threshold is in front: the tests are strict. *)
Example direction_on_threshold :
  map horizontalOf [0.3; 0.7] = ["in front of you"; "in front of you"].
Proof. vm_compute. reflexivity. Qed.

End Direction.

Lemma distance_monotone_witness :
  exists b1 b2,
    estimateDistance 0.05 = bucket_phrase b1 /\
    estimateDistance 0.2 = bucket_phrase b2 /\
    bucket_rank b2 <= bucket_rank b1.
Proof. apply distance_monotone. reflexivity. Defined.

Lemma directionOf_spec_witness :
  directionOf (boxAt 0 0 0.2 0.2) = direction_phrase Above OnLeft.
Proof. apply directionOf_spec. split; reflexivity. Defined.

#[export] Hint Rewrite estimateDistance_refines combineDirections_refines : js_rw.
#[export] Hint Resolve estimateDistance_nonempty direction_phrase_nonempty : js.
