(* ===== verification/Describe.v ===== *)
(** * Describe: the sentence

    Lines 172-265 of [index.tsx]: from the filtered labels and the optional
    measured distance to the text that is displayed and spoken.  The code
    grows a string [description] inside a [forEach] loop; [appendObject] is
    the loop body, [forEach] the loop, [describe] the whole branch.  The
    specification [synthesize] builds the same sentence as a concatenation
    of one clause per object. *)

From S2P Require Import Prelude JsNumber JsString NumberToString Labels Geometry.

Local Open Scope string_scope.

(** ** The code's definitions *)

(** [Math.round(realDistance * 10) / 10] (line 179). *)
Definition distFeet (realDistance : number) : number :=
  (Math_round (realDistance * 10) / 10)%float.

(** The leading sentence (lines 178-183). *)
Definition leading (realDistance : option number) : string :=
  match realDistance with
  | Some d => "Objects are approximately " ++ Number_toString (distFeet d) ++ " feet away. "
  | None => "Objects detected. "
  end.

(** The body of the loop (lines 186-259): [description] after one object. *)
Definition appendObject (realDistance : option number)
    (description : string) (label : Label) (index : nat) : string :=
  let name := lowerName label "object" in
  let '(objectDistance, direction) := locate label in
  let description :=
    if (index =? 0)%nat then description ++ "I see a " ++ name
    else description ++ ", a " ++ name in
  let description :=
    if to_boolean objectDistance && negb (to_boolean realDistance)
    then description ++ " about " ++ objectDistance ++ " away"
    else description in
  if to_boolean direction then description ++ " " ++ direction else description.

(** [array.forEach((x, index) => ...)] on a state [s] that the callback
    updates: the elements in order, the index counting from [index]. *)
Fixpoint forEach {A St : Type} (f : St -> A -> nat -> St) (l : list A) (index : nat) (s : St) : St :=
  match l with
  | [] => s
  | x :: l' => forEach f l' (S index) (f s x index)
  end.

(** The sentence of line 264. *)
Definition fallback : string :=
  "No specific objects detected. Try pointing at a clear object like a person, chair, or bottle.".

(** [description] after lines 172-265. *)
Definition describe (physicalObjects : list Label) (realDistance : option number) : string :=
  if (0 <? length physicalObjects)%nat then
    let topObjects := topObjects physicalObjects in
    let description := leading realDistance in
    let description := forEach (appendObject realDistance) topObjects 0 description in
    description ++ "."
  else fallback.

(** Lines 146-265: from the service's answer to the sentence. *)
Definition describeLabels (Labels : option (list Label)) (realDistance : option number) : string :=
  describe (physicalObjects (allLabels Labels)) realDistance.

(** ** The specification *)

(** The box that locates a label: the box of its first instance. *)
Definition firstBox (label : Label) : option BoundingBox :=
  match Instances label with
  | Some (instance :: _) => InstanceBoundingBox instance
  | _ => None
  end.

Definition connective (index : nat) : string :=
  if (index =? 0)%nat then "I see a " else ", a ".

(** The per-object distance: only without a measured distance, and only
    for a located object. *)
Definition aboutPart (measured : option number) (label : Label) : string :=
  match measured, firstBox label with
  | None, Some box => " about " ++ bucket_phrase (distance_bucket (boxArea box)) ++ " away"
  | _, _ => ""
  end.

Definition directionPart (label : Label) : string :=
  match firstBox label with
  | Some box => " " ++ direction_phrase (vertical_of (centerY box)) (horizontal_of (centerX box))
  | None => ""
  end.

Definition objectClause (measured : option number) (index : nat) (label : Label) : string :=
  connective index ++ lowerName label "object" ++ aboutPart measured label ++ directionPart label.

(** The texts [g index x] of the elements of a list, in order. *)
Fixpoint texts {A : Type} (g : nat -> A -> string) (index : nat) (l : list A) : string :=
  match l with
  | [] => ""
  | x :: l' => g index x ++ texts g (S index) l'
  end.

Definition clauses (measured : option number) (index : nat) (labels : list Label) : string :=
  texts (objectClause measured) index labels.

(** The sentence of the specification. *)
Definition synthesize (objects : list Label) (measured : option number) : string :=
  match objects with
  | [] => fallback
  | _ :: _ => leading measured ++ clauses measured 0 (firstn 3 objects) ++ "."
  end.

(** The measured distances the specification's policy covers: none, or
    one that the language takes for true (not NaN, not zero). *)
Definition usable (measured : option number) : Prop :=
  match measured with
  | None => True
  | Some d => to_boolean d = true
  end.

(** ** The loop *)

Section Loop.
Context {A : Type}.
Implicit Types (l : list A) (s : string).

(** A loop whose body appends a text that does not depend on the state
    appends the texts in order. *)
Lemma forEach_append (g : nat -> A -> string) (f : string -> A -> nat -> string) l :
  (forall s x i, f s x i = s ++ g i x) ->
  forall index s, forEach f l index s = s ++ texts g index l.
Proof.
  intros Hf. induction l as [|x l IH]; intros index s; cbn [forEach texts].
  - now rewrite append_nil_r.
  - rewrite IH, Hf, append_assoc. reflexivity.
Qed.

Lemma texts_app (g : nat -> A -> string) l1 l2 index :
  texts g index (l1 ++ l2)%list = texts g index l1 ++ texts g (index + length l1) l2.
Proof.
  revert index. induction l1 as [|x l1 IH]; intros index; cbn [texts app length].
  - now rewrite Nat.add_0_r.
  - rewrite IH, append_assoc. do 3 f_equal. lia.
Qed.

Lemma forEach_app (f : string -> A -> nat -> string) l1 l2 index s :
  forEach f (l1 ++ l2)%list index s =
  forEach f l2 (index + length l1) (forEach f l1 index s).
Proof.
  revert index s. induction l1 as [|x l1 IH]; intros index s; cbn [forEach app length].
  - now rewrite Nat.add_0_r.
  - rewrite IH. f_equal. lia.
Qed.

End Loop.

(** ** One object *)

Section Clause.
Implicit Types (label : Label) (measured : option number) (description : string).

(** What [locate] returns, in the specification's terms. *)
Lemma locate_firstBox label :
  locate label =
  match firstBox label with
  | Some box => (bucket_phrase (distance_bucket (boxArea box)),
                 direction_phrase (vertical_of (centerY box)) (horizontal_of (centerX box)))
  | None => ("", "")
  end.
Proof.
  unfold locate, firstBox, directionOf.
  destruct (Instances label) as [[|instance rest]|]; try reflexivity.
  destruct (InstanceBoundingBox instance); [|reflexivity].
  now rewrite estimateDistance_refines, combineDirections_refines.
Qed.

Lemma to_boolean_bucket_phrase b : to_boolean (bucket_phrase b) = true.
Proof. destruct b; reflexivity. Qed.

Lemma to_boolean_direction_phrase v h : to_boolean (direction_phrase v h) = true.
Proof. destruct v, h; reflexivity. Qed.

(** The estimates are written exactly when the measured distance is
    absent or falsy. *)
Lemma appendObject_shape measured description label index :
  appendObject measured description label index =
  description ++ connective index ++ lowerName label "object"
  ++ aboutPart (if to_boolean measured then measured else None) label
  ++ directionPart label.
Proof.
  unfold appendObject, aboutPart, directionPart, connective.
  rewrite locate_firstBox.
  destruct (firstBox label) as [box|].
  - rewrite to_boolean_bucket_phrase, to_boolean_direction_phrase. cbn [andb].
    destruct (index =? 0)%nat, measured as [d|]; cbn [to_boolean ToBoolean_option negb];
      try destruct (to_boolean d); cbn [negb]; now rewrite ?append_assoc.
  - cbn [to_boolean ToBoolean_string String.eqb negb andb].
    destruct (index =? 0)%nat, measured as [d|]; cbn [to_boolean ToBoolean_option];
      try destruct (to_boolean d); now rewrite ?append_assoc, ?append_nil_r.
Qed.

Lemma usable_to_boolean measured :
  usable measured -> (if to_boolean measured then measured else None) = measured.
Proof. destruct measured as [d|]; cbn; [intros ->|]; reflexivity. Qed.

Lemma appendObject_clause measured description label index :
  usable measured ->
  appendObject measured description label index =
  description ++ objectClause measured index label.
Proof.
  intros Hm. rewrite appendObject_shape, (usable_to_boolean _ Hm). reflexivity.
Qed.

(** With a measured distance that the language takes for false (zero or
    NaN), the loop writes the clause of the case without measurement. *)
Lemma appendObject_falsy d description label index :
  to_boolean d = false ->
  appendObject (Some d) description label index =
  description ++ objectClause None index label.
Proof.
  intros Hd. rewrite appendObject_shape. cbn [to_boolean ToBoolean_option].
  rewrite Hd. reflexivity.
Qed.

Lemma aboutPart_measured d label : aboutPart (Some d) label = "".
Proof. reflexivity. Qed.

Lemma aboutPart_located label box :
  firstBox label = Some box ->
  aboutPart None label = " about " ++ estimateDistance (boxArea box) ++ " away".
Proof. intros H. unfold aboutPart. now rewrite H, estimateDistance_refines. Qed.

Lemma directionPart_located label box :
  firstBox label = Some box -> directionPart label = " " ++ directionOf box.
Proof.
  intros H. unfold directionPart, directionOf. now rewrite H, combineDirections_refines.
Qed.

Lemma aboutPart_located_length label box :
  firstBox label = Some box -> 0 < String.length (aboutPart None label).
Proof. intros H. rewrite (aboutPart_located _ _ H). cbn. lia. Qed.

(** A filtered label is located: it has a first instance, though that
    instance may lack its box. *)
Lemma physical_first_instance label :
  isPhysicalObject label = true ->
  exists instance rest, Instances label = Some (instance :: rest) /\
                        firstBox label = InstanceBoundingBox instance.
Proof.
  intros H. apply isPhysicalObject_spec in H. destruct H as [_ H].
  apply hasInstances_true in H. destruct H as (i & l & E).
  exists i, l. unfold firstBox. now rewrite E.
Qed.

End Clause.

(** ** The sentence *)

Section Sentence.
Implicit Types (physical labels : list Label) (measured : option number).

(** The loop appends the clauses of the measured distance as the loop
    body sees it: absent when it is falsy. *)
Lemma forEach_appendObject measured labels index description :
  forEach (appendObject measured) labels index description =
  description ++ clauses (if to_boolean measured then measured else None) index labels.
Proof. apply forEach_append. intros s x i. apply appendObject_shape. Qed.

(** The clauses with estimates are at least as long as those without. *)
Lemma texts_estimates_length d index labels :
  String.length (texts (objectClause None) index labels) >=
  String.length (texts (objectClause (Some d)) index labels).
Proof.
  revert index. induction labels as [|label rest IH]; intros index; cbn [texts]; [lia|].
  specialize (IH (S index)). unfold objectClause at 1 3.
  rewrite !length_append, aboutPart_measured. cbn [String.length]. lia.
Qed.

(** They are longer when the first object is located. *)
Lemma clauses_estimates_longer d index label rest :
  firstBox label <> None ->
  String.length (clauses (Some d) index (label :: rest)) <
  String.length (clauses None index (label :: rest)).
Proof.
  intros Hbox. destruct (firstBox label) as [box|] eqn:Eb; [clear Hbox|congruence].
  pose proof (aboutPart_located_length _ _ Eb) as Hlen.
  pose proof (texts_estimates_length d (S index) rest) as Hrest.
  unfold clauses. cbn [texts]. unfold objectClause at 1 3.
  rewrite !length_append, aboutPart_measured. cbn [String.length]. lia.
Qed.

Lemma describe_nil measured : describe [] measured = fallback.
Proof. reflexivity. Qed.

Lemma describe_cons label physical measured :
  describe (label :: physical) measured =
  forEach (appendObject measured) (topObjects (label :: physical)) 0 (leading measured) ++ ".".
Proof. reflexivity. Qed.

(** The sentence for at least one object, whatever the measurement. *)
Lemma describe_shape label physical measured :
  describe (label :: physical) measured =
  leading measured
  ++ clauses (if to_boolean measured then measured else None) 0 (topObjects (label :: physical))
  ++ ".".
Proof. now rewrite describe_cons, forEach_appendObject, append_assoc. Qed.

(** C1 (refinement).  For a measured distance that is absent or that the
    language takes for true, the text the code builds by appending inside
    the loop is the sentence of the specification: the fallback on no
    object, otherwise the leading sentence, one clause per object for at
    most three objects, and a full stop. *)
Theorem describe_refines physical measured :
  usable measured ->
  describe physical measured = synthesize physical measured.
Proof.
  intros Hm. destruct physical as [|label physical]; [reflexivity|].
  rewrite describe_shape, (usable_to_boolean _ Hm). reflexivity.
Qed.

(** C2 (measured-distance priority).  For a located object, the loop body
    writes the per-object estimate between the name and the direction
    exactly when the measured distance is absent or falsy; with a truthy
    measured distance the clause is the name and the direction only. *)
Theorem estimate_written_iff measured description label index box :
  firstBox label = Some box ->
  (appendObject measured description label index =
   description ++ connective index ++ lowerName label "object"
   ++ (" about " ++ estimateDistance (boxArea box) ++ " away") ++ " " ++ directionOf box
   <-> to_boolean measured = false) /\
  (appendObject measured description label index =
   description ++ connective index ++ lowerName label "object" ++ " " ++ directionOf box
   <-> to_boolean measured = true).
Proof.
  intros Hbox. rewrite appendObject_shape.
  rewrite <- (aboutPart_located _ _ Hbox), <- (directionPart_located _ _ Hbox).
  pose proof (aboutPart_located_length _ _ Hbox) as Hlen.
  destruct measured as [d|]; cbn [to_boolean ToBoolean_option];
    [destruct (to_boolean d)|]; cbv iota; rewrite ?aboutPart_measured;
    change ("" ++ directionPart label) with (directionPart label);
    (split; split; intros H; try reflexivity; try discriminate);
    apply (f_equal String.length) in H; rewrite ?length_append in H; lia.
Qed.

(** C21 (falsy measurement).  With a measured distance that the language
    takes for false (zero or NaN) the sentence is not the one of the
    specification: the leading sentence announces the measurement and
    the clauses are those of the case without measurement, estimates
    included. *)
Theorem describe_falsy_measured label physical d :
  to_boolean d = false ->
  describe (label :: physical) (Some d) =
  leading (Some d) ++ clauses None 0 (topObjects (label :: physical)) ++ "." /\
  (firstBox label <> None ->
   describe (label :: physical) (Some d) <> synthesize (label :: physical) (Some d)).
Proof.
  intros Hd.
  assert (describe (label :: physical) (Some d) =
          leading (Some d) ++ clauses None 0 (topObjects (label :: physical)) ++ ".") as E.
  { rewrite describe_shape. cbn [to_boolean ToBoolean_option]. now rewrite Hd. }
  split; [exact E|]. intros Hbox. rewrite E. unfold synthesize, topObjects. intros H.
  apply (f_equal String.length) in H. rewrite !length_append in H.
  pose proof (clauses_estimates_longer d 0 label (firstn 2 physical) Hbox).
  cbn [firstn] in *. lia.
Qed.

(** C8 (fallback).  When no label survives the filter, whether the
    service returned none, none with instances or only denied names, the
    text is the fixed fallback sentence, with or without a measured
    distance. *)
Theorem describe_fallback Labels measured :
  physicalObjects (allLabels Labels) = [] ->
  describeLabels Labels measured =
  "No specific objects detected. Try pointing at a clear object like a person, chair, or bottle.".
Proof. unfold describeLabels. intros ->. reflexivity. Qed.

(** The fallback is the only text without a leading sentence. *)
Lemma describe_leading physical measured :
  physical <> [] -> exists rest, describe physical measured = leading measured ++ rest ++ ".".
Proof.
  destruct physical as [|label physical]; [congruence|]. intros _.
  eexists. apply describe_shape.
Qed.

(** The text is never empty. *)
Lemma describe_nonempty physical measured : describe physical measured <> "".
Proof.
  destruct physical as [|label physical]; [discriminate|].
  rewrite describe_cons. intros H. apply append_eq_nil in H. destruct H; discriminate.
Qed.

(** Objects after the third do not change the text. *)
Lemma describe_firstn physical measured :
  describe (firstn 3 physical) measured = describe physical measured.
Proof.
  destruct physical as [|a [|b [|c rest]]]; reflexivity.
Qed.

End Sentence.

(** ** Scenarios *)

(** The chair of the specification's end-to-end scenario. *)
Definition chair : Label :=
  mkLabel (Some "Chair") (Some 98.5%float)
          (Some [mkInstance (Some (boxAt 0.1 0.4 0.3 0.3))]).

Definition interiorDesign : Label :=
  mkLabel (Some "Interior Design") (Some 99.1%float)
          (Some [mkInstance (Some (boxAt 0 0 1 1))]).

Definition bottle : Label :=
  mkLabel (Some "Bottle") (Some 80%float)
          (Some [mkInstance (Some (boxAt 0.8 0.75 0.1 0.2))]).

Lemma describe_refines_witness :
  describe [chair; bottle] (Some 4.26%float) = synthesize [chair; bottle] (Some 4.26%float).
Proof. apply describe_refines. reflexivity. Defined.

Lemma estimate_written_iff_witness :
  (appendObject (Some 0%float) "Objects are approximately 0 feet away. " chair 0 =
   "Objects are approximately 0 feet away. " ++ connective 0 ++ lowerName chair "object"
   ++ (" about " ++ estimateDistance (boxArea (boxAt 0.1 0.4 0.3 0.3)) ++ " away")
   ++ " " ++ directionOf (boxAt 0.1 0.4 0.3 0.3)
   <-> to_boolean (Some 0%float) = false) /\
  (appendObject (Some 0%float) "Objects are approximately 0 feet away. " chair 0 =
   "Objects are approximately 0 feet away. " ++ connective 0 ++ lowerName chair "object"
   ++ " " ++ directionOf (boxAt 0.1 0.4 0.3 0.3)
   <-> to_boolean (Some 0%float) = true).
Proof. apply estimate_written_iff. reflexivity. Defined.

Lemma describe_fallback_witness :
  describeLabels (Some [interiorDesign]) None =
  "No specific objects detected. Try pointing at a clear object like a person, chair, or bottle.".
Proof. apply describe_fallback. reflexivity. Defined.

Lemma describe_falsy_measured_witness :
  describe [chair; bottle] (Some 0%float) =
  leading (Some 0%float) ++ clauses None 0 (topObjects [chair; bottle]) ++ "." /\
  (firstBox chair <> None ->
   describe [chair; bottle] (Some 0%float) <> synthesize [chair; bottle] (Some 0%float)).
Proof. apply describe_falsy_measured. reflexivity. Defined.

(** The end-to-end scenario.  A chair whose box has left 0.1, top 0.4,
    width 0.3 and height 0.3, with a scene label that the deny list
    removes and no measurement, is narrated with the bucket of its area
    0.09 (above 0.08, not above 0.15: 8 to 10 feet) on the left. *)
Example scenario_chair :
  describeLabels (Some [chair; interiorDesign]) None =
  "Objects detected. I see a chair about 8 to 10 feet away on your left.".
Proof. vm_compute. reflexivity. Qed.

(** ** The measured distance as text *)

(** The decimal text of [n] tenths: the integer part and, unless it is
    zero, one digit after the point. *)
Definition tenths (n : Z) : string :=
  decimal (n / 10) ++ (if (n mod 10 =? 0)%Z then "" else "." ++ decimal (n mod 10)).

(** [ok] holds of [fuel] integers from [n] on. *)
Fixpoint upto (fuel : nat) (n : Z) (ok : Z -> bool) : bool :=
  match fuel with
  | O => true
  | S fuel => ok n && upto fuel (n + 1)%Z ok
  end.

Lemma upto_spec fuel n ok k :
  upto fuel n ok = true -> (n <= k < n + Z.of_nat fuel)%Z -> ok k = true.
Proof.
  revert n. induction fuel as [|fuel IH]; intros n H Hk; [lia|].
  cbn [upto] in H. apply andb_prop in H as [Hn H].
  destruct (Z.eq_dec k n) as [->|]; [assumption|]. apply (IH (n + 1)%Z); [assumption|lia].
Qed.

(** The quotient of line 179 prints as tenths: checked for every count of
    tenths below 1000, that is for readings below 100, twenty times
    the range of the sensor. *)
Lemma tenths_checked :
  upto 999 1 (fun n => Number_toString (number_of_Z n / 10)%float =? tenths n) = true.
Proof. vm_compute. reflexivity. Qed.

(** A reading that rounds to [n] tenths, for [n] from 1 to 999, is
    announced as the decimal text of [n] tenths: the reading to one
    digit after the point, without that digit when it is zero, and in
    the unit of the sensor. *)
Lemma leading_measured d n :
  (0 < n < 1000)%Z -> Math_round (d * 10) = number_of_Z n ->
  leading (Some d) = "Objects are approximately " ++ tenths n ++ " feet away. ".
Proof.
  intros Hn Hd. unfold leading, distFeet. rewrite Hd.
  pose proof (upto_spec _ _ _ n tenths_checked) as H.
  cbv beta in H. rewrite String.eqb_eq in H. rewrite H by lia. reflexivity.
Qed.

Lemma leading_measured_witness :
  leading (Some 4.26%float) = "Objects are approximately " ++ tenths 43 ++ " feet away. ".
Proof. apply leading_measured; [lia|reflexivity]. Defined.

(** With a reading of 4.26 the leading sentence announces it rounded to
    one decimal, 4.3, the scene label is dropped, and the two objects are
    narrated with their directions and without estimates. *)
Example scenario_measured :
  describeLabels (Some [chair; interiorDesign; bottle]) (Some 4.26%float) =
  "Objects are approximately 4.3 feet away. I see a chair on your left, a bottle below and on your right.".
Proof. vm_compute. reflexivity. Qed.

(** A reading of zero is announced and the estimates are kept. *)
Example scenario_zero_reading :
  describeLabels (Some [chair]) (Some 0%float) =
  "Objects are approximately 0 feet away. I see a chair about 8 to 10 feet away on your left.".
Proof. vm_compute. reflexivity. Qed.

(** A reading that is not a number is announced as such, and the
    estimates are kept: the falsy case of the leading sentence at a
    value the sensor can give. *)
Example scenario_nan_reading :
  describeLabels (Some [chair]) (Some nan) =
  "Objects are approximately NaN feet away. I see a chair about 8 to 10 feet away on your left.".
Proof. vm_compute. reflexivity. Qed.

(** A nameless label without a box is narrated as "object", with neither
    distance nor direction. *)
Example scenario_nameless :
  describeLabels (Some [mkLabel None None (Some [mkInstance None])]) None =
  "Objects detected. I see a object.".
Proof. vm_compute. reflexivity. Qed.

#[export] Hint Rewrite describe_nil aboutPart_measured : js_rw.
#[export] Hint Resolve describe_nonempty : js.
