(* ===== verification/Exact.v ===== *)
(** * Exact: the thresholds of the program on exact values

    The distance phrase is chosen by comparing a product of two numbers
    with decimal thresholds, the direction phrase by comparing a sum of
    a number and a quotient, and the measured distance is rounded to
    tenths through a product and a quotient.  The numbers of the
    language are binary: the thresholds are not the decimals of the
    source but the numbers nearest to them, and every result is rounded.
    This file says what the comparisons decide about the exact values:
    the distance phrase is the phrase of the specification's table for
    the exact area, except within [2^-53] of a threshold
    ([area_refines]); the direction phrase is that of the table for the
    exact centre, except within [2^-52] of a threshold
    ([direction_refines]); the whole sentence is that of the
    specification with every row chosen on exact values
    ([describe_exact]); and the text of a measured distance is the
    reading rounded to one digit after the point ([leading_reading]).
    All rest on [JsArith]: the results of the operators are the
    roundings of the exact results. *)

From Stdlib Require Import QArith Qpower Lqa.
From S2P Require Import Prelude JsNumber Values Shifts Rounding Nearest SFArith JsArith Labels Geometry Describe.

Local Open Scope Q_scope.

(** ** Dimensions *)

(** The value of a side of a box; a missing side counts as zero, as
    [box.Width || 0] makes it. *)
Definition dimension (side : option number) : Q :=
  match side with
  | Some x => value x
  | None => 0
  end.

(** A side that is missing or a number with a value. *)
Definition measurable (side : option number) : Prop :=
  match side with
  | Some x => real x
  | None => True
  end.

(** Width times height, on values. *)
Definition exactArea (box : BoundingBox) : Q :=
  dimension (Width box) * dimension (Height box).

Lemma value_zero x : is_zero x = true -> value x == 0.
Proof. rewrite is_zero_spec. unfold value. now intros [s ->]. Qed.

Lemma real_not_nan x : real x -> is_nan x = false.
Proof.
  intros H. destruct (is_nan x) eqn:E; [|reflexivity].
  apply is_nan_spec in E. unfold real in H. now rewrite E in H.
Qed.

(** [side || 0] is a number with the value of the side. *)
Lemma js_or_dimension side :
  measurable side -> real (js_or side 0%float) /\ value (js_or side 0%float) == dimension side.
Proof.
  destruct side as [x|]; cbn [measurable dimension js_or]; [|now split].
  intros H. unfold to_boolean, ToBoolean_number. rewrite (real_not_nan x H). cbn [orb].
  destruct (is_zero x) eqn:E; cbn [negb]; [|now split].
  split; [exact I|]. now rewrite (value_zero x E).
Qed.

(** ** Thresholds *)

(** The distance between a decimal threshold and the numbers around it
    that the theorems allow for: [2^-53]. *)
Definition margin : Q := 1 # 9007199254740992.

(** The number [t] stands for the decimal [T]: [T] lies between [t] and
    the number after [t], within the margin of both. *)
Definition stands (T : Q) (t : number) : Prop :=
  real t /\ real (next_up t) /\ value t < value (next_up t) /\
  T - margin <= value t /\ value (next_up t) <= T + margin.

Lemma stands_exceeds T t exact r :
  stands T t -> real r -> rounding exact r ->
  (exact <= T - margin -> (r >? t)%float = false) /\
  (T + margin <= exact -> (r >? t)%float = true).
Proof.
  intros (Ht & Hn & Hlt & Hlo & Hhi) Hr H. split; intros Ha.
  - destruct (r >? t)%float eqn:E; [|reflexivity].
    pose proof (rounding_gtb exact r t H Hr Ht E). lra.
  - apply (rounding_gtb_intro exact r t (next_up t)); auto. lra.
Qed.

Ltac stands_by_evaluation := unfold stands, margin; vm_compute; repeat split; discriminate.

(** The four thresholds of lines 200-206. *)
Lemma stands_03 : stands (3 # 10) 0.3.
Proof. stands_by_evaluation. Qed.

Lemma stands_015 : stands (15 # 100) 0.15.
Proof. stands_by_evaluation. Qed.

Lemma stands_008 : stands (8 # 100) 0.08.
Proof. stands_by_evaluation. Qed.

Lemma stands_004 : stands (4 # 100) 0.04.
Proof. stands_by_evaluation. Qed.

(** The table of the specification on exact areas. *)
Definition exact_bucket (area : Q) : DistanceBucket :=
  if Qlt_le_dec (3 # 10) area then Feet2to3
  else if Qlt_le_dec (15 # 100) area then Feet4to6
  else if Qlt_le_dec (8 # 100) area then Feet8to10
  else if Qlt_le_dec (4 # 100) area then Feet12to15
  else FeetOver15.

(** An area that is not within the margin of a threshold. *)
Definition decided (area : Q) : Prop :=
  Forall (fun T => area <= T - margin \/ T + margin <= area)
         [3 # 10; 15 # 100; 8 # 100; 4 # 100].

(** The product of two sides (line 197) is the rounding of the product
    of their values. *)
Lemma product_rounding width height :
  measurable width -> measurable height ->
  - 2 ^ 971 < dimension width * dimension height < 2 ^ 971 ->
  real (js_or width 0 * js_or height 0)%float /\
  rounding (dimension width * dimension height) (js_or width 0 * js_or height 0)%float.
Proof.
  intros Hw Hh Hb.
  destruct (js_or_dimension _ Hw) as [Rw Vw]. destruct (js_or_dimension _ Hh) as [Rh Vh].
  rewrite <- Vw, <- Vh in *.
  assert (real (js_or width 0 * js_or height 0)%float) as Hr by now apply mul_real.
  split; [exact Hr|]. now apply mul_rounding.
Qed.

(** The comparisons of lines 200-206 on a product of two sides choose
    the row of the specification's table for the exact product. *)
Lemma bucket_exact width height :
  measurable width -> measurable height ->
  - 2 ^ 971 < dimension width * dimension height < 2 ^ 971 ->
  decided (dimension width * dimension height) ->
  distance_bucket (js_or width 0 * js_or height 0)%float =
  exact_bucket (dimension width * dimension height).
Proof.
  intros Hw Hh Hb Hc. destruct (product_rounding width height Hw Hh Hb) as [Hr H].
  unfold distance_bucket, exact_bucket.
  unfold decided in Hc. repeat (apply Forall_cons_iff in Hc as [? Hc]). clear Hc.
  destruct (stands_exceeds _ _ _ _ stands_03 Hr H).
  destruct (stands_exceeds _ _ _ _ stands_015 Hr H).
  destruct (stands_exceeds _ _ _ _ stands_008 Hr H).
  destruct (stands_exceeds _ _ _ _ stands_004 Hr H).
  unfold margin in *.
  repeat match goal with
  | |- context [Qlt_le_dec ?T ?a] => destruct (Qlt_le_dec T a)
  end;
  repeat match goal with
  | H : _ \/ _ |- _ => destruct H
  end; try lra;
  repeat match goal with
  | H : ?P -> _ = _, H' : ?P |- _ => rewrite (H H')
  end; try reflexivity.
Qed.

(** C23 (thresholds on exact areas).  For a box whose sides are missing
    or numbers with values, the distance phrase is the phrase of the
    specification's table for the exact product of width and height,
    whenever that product is not within [2^-53] of a threshold: the
    rounding of the product and of the decimal thresholds moves no area
    across a threshold by more than that. *)
Theorem area_refines box :
  measurable (Width box) -> measurable (Height box) ->
  - 2 ^ 971 < exactArea box < 2 ^ 971 -> decided (exactArea box) ->
  estimateDistance (boxArea box) = bucket_phrase (exact_bucket (exactArea box)).
Proof.
  intros Hw Hh Hb Hc. rewrite estimateDistance_refines. f_equal.
  exact (bucket_exact (Width box) (Height box) Hw Hh Hb Hc).
Qed.

(** ** The measured distance *)

(** A number with a positive value is finite and positive. *)
Lemma real_positive x :
  real x -> 0 < value x -> exists m e, Prim2SF x = S754_finite false m e.
Proof.
  unfold real, value. destruct (Prim2SF x) as [s| | |[|] m e]; try contradiction.
  - cbn. intros _ H. lra.
  - intros _ H. rewrite SFvalue_neg in H. pose proof (SFvalue_pos m e). lra.
  - eauto.
Qed.

(** A number below 1024 has its last place at [2^-43] or below. *)
Lemma small_exponent x m e :
  Prim2SF x = S754_finite false m e -> value x < 1024 -> (e <= -43)%Z.
Proof.
  intros E Hv. pose proof (Prim2SF_valid x) as V. rewrite E in V.
  apply valid_canonical in V as (_ & _ & L).
  destruct (Z_le_gt_dec e (-43)) as [|He]; [assumption|exfalso].
  specialize (L ltac:(lia)). unfold value in Hv. rewrite E in Hv. cbn [SFvalue] in Hv.
  pose proof (two_le (-42) e ltac:(lia)) as Hp. to_Q L.
  change (inject_Z (2 ^ 52)) with (1024 * / 2 ^ (-42)) in L.
  set (a := inject_Z (Z.pos m)) in *. set (U := 2 ^ e) in *.
  assert (0 < 2 ^ (-42)) by reflexivity. assert (2 ^ (-42) * / 2 ^ (-42) == 1) by reflexivity.
  set (V := 2 ^ (-42)) in *. set (W := / V) in *. assert (0 < W) by reflexivity. nra.
Qed.

Lemma value_scaled m e :
  (e < 0)%Z -> inject_Z (Z.pos m) == inject_Z (Z.pos m) * 2 ^ e * inject_Z (2 ^ (- e)).
Proof.
  intros He. rewrite two_Z by lia. rewrite <- Qmult_assoc, <- two_add.
  replace (e + - e)%Z with 0%Z by lia. change (2 ^ 0) with 1. ring.
Qed.

(** [Math.round] of a number between one half and 999.25. *)
Lemma Math_round_value x :
  real x -> 1 # 2 <= value x -> value x <= 3997 # 4 ->
  exists n, (1 <= n <= 999)%Z /\ Math_round x = number_of_Z n /\
            inject_Z n - (1 # 2) <= value x < inject_Z n + (1 # 2).
Proof.
  intros Hr Hlo Hhi. destruct (real_positive x Hr ltac:(lra)) as (m & e & E).
  pose proof (small_exponent x m e E ltac:(lra)) as He.
  pose proof (round_half_up_nearest false m e ltac:(lia)) as Hn. cbv zeta in Hn.
  set (n := round_half_up false m e) in *. exists n.
  assert (inject_Z n - (1 # 2) <= value x < inject_Z n + (1 # 2)) as Hv.
  { unfold value. rewrite E. cbn [SFvalue]. destruct Hn as [H1 H2].
    assert (0 < 2 ^ (- e))%Z as Hd by (apply Z.pow_pos_nonneg; lia).
    to_Q H1. to_Q H2. to_Q Hd. rewrite (value_scaled m e ltac:(lia)) in H1, H2.
    change (inject_Z 2) with 2 in *. change (inject_Z 1) with 1 in *.
    change (inject_Z 0) with 0 in *.
    set (D := inject_Z (2 ^ (- e))) in *. set (v := inject_Z (Z.pos m) * 2 ^ e) in *.
    split; nra. }
  assert (1 <= n <= 999)%Z as Hb.
  { destruct Hv as [H1 H2]. split.
    - destruct (Z_le_gt_dec 1 n) as [|C]; [assumption|exfalso].
      assert (n <= 0)%Z as C' by lia. to_Q C'. change (inject_Z 0) with 0 in C'. lra.
    - destruct (Z_le_gt_dec n 999) as [|C]; [assumption|exfalso].
      assert (1000 <= n)%Z as C' by lia. to_Q C'. change (inject_Z 1000) with 1000 in C'. lra. }
  split; [exact Hb|]. split; [|exact Hv].
  unfold Math_round. rewrite E. fold n.
  destruct (Z.leb_spec 0 e); [lia|]. destruct (Z.eqb_spec n 0); [lia|reflexivity].
Qed.

(** [n] tenths is the reading [d] rounded to one digit after the point:
    the two are one half of a tenth apart at most, up to the rounding of
    the product of line 179. *)
Definition announces (d : Q) (n : Z) : Prop :=
  inject_Z n - (1 # 2) - (1 # 17592186044416) <= 10 * d
    <= inject_Z n + (1 # 2) + (1 # 17592186044416).

(** C29 (the measured distance).  A reading between 0.06 and 99.9 is
    announced as the decimal text of a count of tenths from 1 to 999
    that is the reading rounded to one digit after the point: the count
    and ten times the reading are one half apart at most, up to the
    rounding of the product ([2^-44]). *)
Theorem leading_reading d :
  real d -> 6 # 100 <= value d -> value d <= 999 # 10 ->
  exists n, (1 <= n <= 999)%Z /\ announces (value d) n /\
            leading (Some d) = ("Objects are approximately " ++ tenths n ++ " feet away. ")%string.
Proof.
  intros Hd Hlo Hhi.
  assert (value 10 == 10) as V10 by reflexivity.
  assert (real (d * 10)) as Hr.
  { apply mul_real; [assumption|exact I|]. rewrite V10.
    assert (9990 < 2 ^ 971) by reflexivity. set (T := 2 ^ 971) in *. lra. }
  pose proof (mul_rounding d 10 Hd I Hr) as H. rewrite V10 in H.
  pose proof (rounding_ge _ _ 0.5%float H I) as H1.
  pose proof (rounding_le _ _ 999.25%float H I) as H2.
  assert (value 0.5 == 1 # 2) as V1 by (vm_compute; reflexivity).
  assert (value 999.25 == 3997 # 4) as V2 by (vm_compute; reflexivity).
  rewrite V1 in H1. rewrite V2 in H2.
  destruct (Math_round_value (d * 10) Hr ltac:(lra) ltac:(lra)) as (n & Hn & Hm & Hv).
  exists n. split; [exact Hn|]. split; [|apply leading_measured; [lia|exact Hm]].
  destruct (real_positive _ Hr ltac:(lra)) as (m & e & E).
  pose proof (small_exponent _ m e E ltac:(lra)) as He.
  pose proof (rounding_close _ _ H) as Hc. unfold ulp, SFulp in Hc. rewrite E in Hc.
  cbn [SFexponent] in Hc. pose proof (two_le e (-43) He) as Hp.
  assert (2 ^ (-43) == 2 # 17592186044416) as V3 by (vm_compute; reflexivity).
  rewrite V3 in Hp. unfold announces. set (U := 2 ^ e) in *. lra.
Qed.

(** ** The direction *)

(** A coordinate of a box: missing, or a number between -2 and 2.  The
    service reports ratios of the width and the height of the image. *)
Definition coordinate (side : option number) : Prop :=
  measurable side /\ - 2 <= dimension side <= 2.

(** The centre of a box along an axis, on values (lines 214-215). *)
Definition exactCenter (start extent : option number) : Q :=
  dimension start + dimension extent / 2.

Definition exactCenterX (box : BoundingBox) : Q := exactCenter (Left box) (Width box).
Definition exactCenterY (box : BoundingBox) : Q := exactCenter (Top box) (Height box).

(** The number [t] stands for the decimal [T] in a test [_ < t]: [T]
    lies between the number before [t] and [t], within the margin of
    both. *)
Definition stands_below (T : Q) (t : number) : Prop :=
  real t /\ real (next_down t) /\ value (next_down t) < value t /\
  T - margin <= value (next_down t) /\ value t <= T + margin.

Lemma stands_falls T t exact r :
  stands_below T t -> real r -> rounding exact r ->
  (exact <= T - margin -> (r <? t)%float = true) /\
  (T + margin <= exact -> (r <? t)%float = false).
Proof.
  intros (Ht & Hn & Hlt & Hlo & Hhi) Hr H. split; intros Ha.
  - apply (rounding_ltb_intro exact r t (next_down t)); auto. lra.
  - destruct (r <? t)%float eqn:E; [|reflexivity].
    pose proof (rounding_ltb exact r t H Hr Ht E). lra.
Qed.

Lemma stands_below_03 : stands_below (3 # 10) 0.3.
Proof. unfold stands_below, margin. vm_compute. repeat split; discriminate. Qed.

Lemma stands_07 : stands (7 # 10) 0.7.
Proof. stands_by_evaluation. Qed.

Lemma half x : x / 2 == (1 # 2) * x.
Proof. field. Qed.

(** The error of the centre: that of the quotient, [2^-53]. *)
Definition slack : Q := 1 # 9007199254740992.

(** Half a coordinate (lines 214-215) is half its value, up to [2^-53]. *)
Lemma half_rounding side :
  coordinate side ->
  let q := (js_or side 0 / 2)%float in
  real q /\ dimension side / 2 - slack <= value q <= dimension side / 2 + slack.
Proof.
  intros [Hm Hb] q. destruct (js_or_dimension side Hm) as [Rw Vw].
  assert (value 2 == 2) as V2 by reflexivity.
  assert (1 < 2 ^ 971) as HT by reflexivity.
  assert (real q) as Hq.
  { apply div_real; [assumption|exact I|rewrite V2; discriminate|].
    rewrite Vw, V2, half. set (T := 2 ^ 971) in *. lra. }
  split; [exact Hq|].
  pose proof (div_rounding (js_or side 0%float) 2%float Rw I Hq) as H. rewrite Vw, V2, half in H. fold q in H.
  pose proof (rounding_ge _ _ (-1)%float H I) as H1.
  pose proof (rounding_le _ _ 1%float H I) as H2.
  assert (value (-1) == -1) as Vm by reflexivity. assert (value 1 == 1) as V1 by reflexivity.
  rewrite Vm in H1. rewrite V1 in H2.
  pose proof (ulp_small q Hq ltac:(lra)) as Hu. pose proof (rounding_close _ _ H) as Hc.
  assert (2 ^ (-52) == 2 * slack) as Hs by reflexivity. rewrite Hs in Hu.
  rewrite half. set (u := ulp q) in *. lra.
Qed.

(** The centre of lines 214-215 is the rounding of a sum that is the
    exact centre up to [2^-53]. *)
Lemma center_rounding start extent :
  coordinate start -> coordinate extent ->
  let c := (js_or start 0 + js_or extent 0 / 2)%float in
  real c /\
  exists sum, rounding sum c /\
    exactCenter start extent - slack <= sum <= exactCenter start extent + slack.
Proof.
  intros [Hm Hb] He c. destruct (js_or_dimension start Hm) as [Rs Vs].
  destruct (half_rounding extent He) as [Rq Vq]. destruct He as [_ He].
  assert (4 < 2 ^ 971) as HT by reflexivity. assert (slack < 1) as Hslack by reflexivity.
  assert (real c) as Hc.
  { apply add_real; [assumption..|]. rewrite Vs. rewrite half in Vq. set (T := 2 ^ 971) in *. lra. }
  split; [exact Hc|]. eexists. split; [now apply add_rounding|].
  rewrite Vs. unfold exactCenter. rewrite half in *. lra.
Qed.

(** The rows of the specification's table on exact centres. *)
Definition exact_horizontal (center : Q) : Horizontal :=
  if Qlt_le_dec center (3 # 10) then OnLeft
  else if Qlt_le_dec (7 # 10) center then OnRight
  else InFront.

Definition exact_vertical (center : Q) : Vertical :=
  if Qlt_le_dec center (3 # 10) then Above
  else if Qlt_le_dec (7 # 10) center then Below
  else Level.

(** A centre that is not within [2^-52] of a threshold. *)
Definition placed (center : Q) : Prop :=
  Forall (fun T => center <= T - (margin + slack) \/ T + (margin + slack) <= center)
         [3 # 10; 7 # 10].

(** The two tests of lines 219-221 and 228-230 decide the exact centre. *)
Lemma center_tests start extent :
  coordinate start -> coordinate extent -> placed (exactCenter start extent) ->
  let c := (js_or start 0 + js_or extent 0 / 2)%float in
  (c <? 0.3)%float = (if Qlt_le_dec (exactCenter start extent) (3 # 10) then true else false) /\
  (c >? 0.7)%float = (if Qlt_le_dec (7 # 10) (exactCenter start extent) then true else false).
Proof.
  intros Hs He Hd c. destruct (center_rounding start extent Hs He) as (Hc & sum & H & Hsum).
  fold c in Hc, H. unfold placed in Hd. repeat (apply Forall_cons_iff in Hd as [? Hd]). clear Hd.
  destruct (stands_falls _ _ _ _ stands_below_03 Hc H) as [L1 L2].
  destruct (stands_exceeds _ _ _ _ stands_07 Hc H) as [R1 R2].
  unfold margin, slack in *.
  split; match goal with |- context [Qlt_le_dec ?a ?b] => destruct (Qlt_le_dec a b) end;
    repeat match goal with H : _ \/ _ |- _ => destruct H end; try lra;
    first [apply L1|apply L2|apply R1|apply R2]; lra.
Qed.

Lemma horizontal_of_exact start extent :
  coordinate start -> coordinate extent -> placed (exactCenter start extent) ->
  horizontal_of (js_or start 0 + js_or extent 0 / 2)%float =
  exact_horizontal (exactCenter start extent).
Proof.
  intros Hs He Hd. destruct (center_tests _ _ Hs He Hd) as [H1 H2].
  unfold horizontal_of, exact_horizontal. rewrite H1, H2.
  now repeat destruct (Qlt_le_dec _ _).
Qed.

Lemma vertical_of_exact start extent :
  coordinate start -> coordinate extent -> placed (exactCenter start extent) ->
  vertical_of (js_or start 0 + js_or extent 0 / 2)%float =
  exact_vertical (exactCenter start extent).
Proof.
  intros Hs He Hd. destruct (center_tests _ _ Hs He Hd) as [H1 H2].
  unfold vertical_of, exact_vertical. rewrite H1, H2.
  now repeat destruct (Qlt_le_dec _ _).
Qed.

(** C22 (thresholds on exact centres).  For a box whose coordinates are
    missing or numbers between -2 and 2, the direction phrase is the
    phrase of the specification's table for the exact centre
    [left + width / 2], [top + height / 2], whenever neither coordinate
    of the centre is within [2^-52] of a threshold: the roundings of the
    quotient, of the sum and of the decimal thresholds move no centre
    across a threshold by more than that. *)
Theorem direction_refines box :
  coordinate (Left box) -> coordinate (Width box) ->
  coordinate (Top box) -> coordinate (Height box) ->
  placed (exactCenterX box) -> placed (exactCenterY box) ->
  directionOf box =
  direction_phrase (exact_vertical (exactCenterY box)) (exact_horizontal (exactCenterX box)).
Proof.
  intros Hl Hw Ht Hh Hx Hy. unfold directionOf, centerX, centerY.
  rewrite combineDirections_refines.
  rewrite (horizontal_of_exact (Left box) (Width box)) by assumption.
  now rewrite (vertical_of_exact (Top box) (Height box)) by assumption.
Qed.

(** ** The sentence *)

(** A box that the theorems above cover: coordinates between -2 and 2,
    an area and a centre away from the thresholds. *)
Definition regular (box : BoundingBox) : Prop :=
  coordinate (Left box) /\ coordinate (Top box) /\
  coordinate (Width box) /\ coordinate (Height box) /\
  decided (exactArea box) /\ placed (exactCenterX box) /\ placed (exactCenterY box).

(** A label whose box, if it has one, is regular. *)
Definition wellLocated (label : Label) : Prop :=
  forall box, firstBox label = Some box -> regular box.

(** The clause of the specification for one object, with the rows of
    the tables chosen on exact values. *)
Definition exactAbout (measured : option number) (label : Label) : string :=
  match measured, firstBox label with
  | None, Some box => " about " ++ bucket_phrase (exact_bucket (exactArea box)) ++ " away"
  | _, _ => ""
  end%string.

Definition exactDirection (label : Label) : string :=
  match firstBox label with
  | Some box =>
      " " ++ direction_phrase (exact_vertical (exactCenterY box))
                              (exact_horizontal (exactCenterX box))
  | None => ""
  end%string.

Definition exactClause (measured : option number) (index : nat) (label : Label) : string :=
  (connective index ++ lowerName label "object" ++ exactAbout measured label
   ++ exactDirection label)%string.

(** The sentence of the specification on exact values. *)
Definition exactSentence (objects : list Label) (measured : option number) : string :=
  match objects with
  | [] => fallback
  | _ :: _ => leading measured ++ texts (exactClause measured) 0 (firstn 3 objects) ++ "."
  end%string.

Lemma coordinate_product width height :
  coordinate width -> coordinate height ->
  - 2 ^ 971 < dimension width * dimension height < 2 ^ 971.
Proof.
  intros [_ Hw] [_ Hh]. assert (4 < 2 ^ 971) as HT by reflexivity.
  set (T := 2 ^ 971) in *. split; nra.
Qed.

Lemma objectClause_exact measured index label :
  wellLocated label -> objectClause measured index label = exactClause measured index label.
Proof.
  intros H. unfold objectClause, exactClause, aboutPart, exactAbout, directionPart,
    exactDirection.
  unfold wellLocated in H. destruct (firstBox label) as [box|]; [|reflexivity].
  destruct (H box eq_refl) as (Hl & Ht & Hw & Hh & Hd & Hx & Hy).
  unfold centerX, centerY.
  rewrite (horizontal_of_exact (Left box) (Width box)) by assumption.
  rewrite (vertical_of_exact (Top box) (Height box)) by assumption.
  unfold boxArea.
  rewrite (bucket_exact (Width box) (Height box));
    [reflexivity|apply Hw|apply Hh|now apply coordinate_product|assumption].
Qed.

Lemma texts_ext {A : Type} (P : A -> Prop) (g g' : nat -> A -> string) l :
  Forall P l -> (forall i x, P x -> g i x = g' i x) ->
  forall index, texts g index l = texts g' index l.
Proof.
  intros Hl Hg. induction Hl as [|x l Hx _ IH]; intros index; cbn [texts]; [reflexivity|].
  now rewrite IH, (Hg index x Hx).
Qed.

(** C35 (the sentence on exact values).  For a measured distance that is
    absent or taken for true, and narrated objects whose boxes have
    coordinates between -2 and 2 and an area and a centre away from the
    thresholds, the sentence of the program is the sentence of the
    specification with every row of its tables chosen on exact values:
    the product of width and height against 0.30, 0.15, 0.08 and 0.04,
    the centre against 0.3 and 0.7. *)
Theorem describe_exact physical measured :
  usable measured -> Forall wellLocated (firstn 3 physical) ->
  describe physical measured = exactSentence physical measured.
Proof.
  intros Hm Hl. destruct physical as [|label physical]; [reflexivity|].
  rewrite describe_shape, (usable_to_boolean _ Hm). unfold exactSentence, clauses.
  do 2 f_equal. apply (texts_ext wellLocated); [exact Hl|].
  intros i x. apply objectClause_exact.
Qed.

(** ** Witnesses *)

Lemma area_refines_witness :
  estimateDistance (boxArea (boxAt 0.1 0.4 0.3 0.3)) =
  bucket_phrase (exact_bucket (exactArea (boxAt 0.1 0.4 0.3 0.3))).
Proof.
  apply area_refines; [exact I|exact I|split; reflexivity|].
  unfold decided, margin.
  repeat (apply Forall_cons;
          [first [left; vm_compute; discriminate | right; vm_compute; discriminate]|]).
  apply Forall_nil.
Defined.

(** The area of the chair of the specification's scenario is nine
    hundredths on values too: the phrase is that of the third row. *)
Example chair_bucket : exact_bucket (exactArea (boxAt 0.1 0.4 0.3 0.3)) = Feet8to10.
Proof. vm_compute. reflexivity. Qed.

Lemma leading_reading_witness :
  exists n, (1 <= n <= 999)%Z /\ announces (value 4.26) n /\
            leading (Some 4.26%float) =
            ("Objects are approximately " ++ tenths n ++ " feet away. ")%string.
Proof. apply leading_reading; [exact I|vm_compute; discriminate..]. Defined.

Lemma direction_refines_witness :
  directionOf (boxAt 0.1 0.4 0.3 0.3) =
  direction_phrase (exact_vertical (exactCenterY (boxAt 0.1 0.4 0.3 0.3)))
                   (exact_horizontal (exactCenterX (boxAt 0.1 0.4 0.3 0.3))).
Proof.
  apply direction_refines;
    try (split; [exact I|split; vm_compute; discriminate]);
    unfold placed, margin, slack;
    repeat (apply Forall_cons;
            [first [left; vm_compute; discriminate | right; vm_compute; discriminate]|]);
    apply Forall_nil.
Defined.

(** The chair of the specification's scenario, from the answer of the
    service to the sentence: the rows are those of the exact area and
    the exact centre. *)
Lemma describe_exact_witness :
  describe (physicalObjects [chair; interiorDesign]) None =
  exactSentence (physicalObjects [chair; interiorDesign]) None.
Proof.
  apply describe_exact; [exact I|].
  apply Forall_cons; [|apply Forall_nil]. intros box [= <-].
  unfold regular, coordinate, decided, placed, margin, slack.
  repeat split.
  1-8: vm_compute; discriminate.
  all: repeat (apply Forall_cons;
               [first [left; vm_compute; discriminate | right; vm_compute; discriminate]|]);
    apply Forall_nil.
Defined.

Example chair_sentence :
  exactSentence (physicalObjects [chair; interiorDesign]) None =
  "Objects detected. I see a chair about 8 to 10 feet away on your left."%string.
Proof. vm_compute. reflexivity. Qed.

(** The centre of the chair is at one quarter of the width and a little
    below the middle of the height: on the left, level. *)
Example chair_centre :
  exact_horizontal (exactCenterX (boxAt 0.1 0.4 0.3 0.3)) = OnLeft /\
  exact_vertical (exactCenterY (boxAt 0.1 0.4 0.3 0.3)) = Level.
Proof. split; vm_compute; reflexivity. Qed.
