(* ===== verification/Configuration.v ===== *)
(** * Configuration: the cloud clients and what they are made of

    Lines 12-22 of [index.tsx] run once, when the module is loaded.  They
    read four variables of [process.env], take a placeholder for each
    that is missing or empty ([x || 'placeholder']), and construct the
    clients of the vision service and of the object store from the same
    configuration object; the name of the bucket is a constant of its
    own.

    Here the environment is a function from names to values, the
    constants are functions of the environment, and a client is the
    configuration it was constructed with: which answers a service gives
    to a client is the business of [World] in [Collaborators].  The
    theorems: no constant is ever the empty string, a constant is the
    variable exactly when the variable is set and not empty, and the two
    clients share their configuration. *)

From S2P Require Import Prelude JsString.

Local Open Scope string_scope.

(** ** The environment *)

(** [process.env]: the value of a variable, if it is set. *)
Definition Environment : Type := string -> option string.

(** The environment in which the variables [vars] are set; the first
    binding of a name counts. *)
Fixpoint environment (vars : list (string * string)) : Environment :=
  fun name =>
    match vars with
    | [] => None
    | (n, v) :: rest => if n =? name then Some v else environment rest name
    end.

(** ** The constants *)

Record Credentials : Set := mkCredentials {
  accessKeyId : string;
  secretAccessKey : string
}.

Record AwsConfig : Set := mkAwsConfig {
  credentials : Credentials;
  region : string
}.

(** [AWS_CONFIG] (lines 12-18). *)
Definition AWS_CONFIG (env : Environment) : AwsConfig :=
  mkAwsConfig
    (mkCredentials
       (js_or (env "AWS_ACCESS_KEY_ID") "YOUR_ACCESS_KEY_HERE")
       (js_or (env "AWS_SECRET_ACCESS_KEY") "YOUR_SECRET_KEY_HERE"))
    (js_or (env "AWS_REGION") "us-east-1").

(** [new RekognitionClient(config)] and [new S3Client(config)]. *)
Record RekognitionClient : Set := newRekognitionClient { rekognitionConfig : AwsConfig }.

Record S3Client : Set := newS3Client { s3Config : AwsConfig }.

(** [rekognitionClient] and [s3Client] (lines 20-21). *)
Definition rekognitionClient (env : Environment) : RekognitionClient :=
  newRekognitionClient (AWS_CONFIG env).

Definition s3Client (env : Environment) : S3Client :=
  newS3Client (AWS_CONFIG env).

(** [S3_BUCKET] (line 22). *)
Definition S3_BUCKET (env : Environment) : string :=
  js_or (env "AWS_S3_BUCKET") "your-bucket-name".

(** ** What [x || 'placeholder'] gives *)

(** The specification of a constant: the variable when it is set and not
    empty, the placeholder otherwise. *)
Definition configured (value : option string) (placeholder : string) : string :=
  match value with
  | Some v => if String.eqb v "" then placeholder else v
  | None => placeholder
  end.

Section Defaults.
Implicit Types (env : Environment) (value : option string) (v placeholder : string).

Lemma js_or_configured value placeholder : js_or value placeholder = configured value placeholder.
Proof.
  unfold js_or, configured. destruct value as [[|c v]|]; reflexivity.
Qed.

Lemma configured_set v placeholder : v <> "" -> configured (Some v) placeholder = v.
Proof. intros Hv. cbn. destruct (String.eqb_spec v ""); [contradiction|reflexivity]. Qed.

Lemma configured_nonempty value placeholder :
  placeholder <> "" -> configured value placeholder <> "".
Proof.
  intros Hp. unfold configured. destruct value as [v|]; [|exact Hp].
  destruct (String.eqb_spec v ""); assumption.
Qed.

(** The placeholder is used exactly when the variable is missing, empty,
    or the placeholder itself. *)
Lemma configured_placeholder value placeholder :
  configured value placeholder = placeholder <->
  value = None \/ value = Some "" \/ value = Some placeholder.
Proof.
  unfold configured. destruct value as [v|]; [|intuition].
  destruct (String.eqb_spec v "") as [->|Hv]; [intuition|].
  split; [intros ->; auto|]. intros [H|[H|H]]; congruence.
Qed.

End Defaults.

(** ** The constants are what the environment says, or placeholders *)

Section Constants.
Implicit Types (env : Environment).

Lemma S3_BUCKET_configured env :
  S3_BUCKET env = configured (env "AWS_S3_BUCKET") "your-bucket-name".
Proof. apply js_or_configured. Qed.

Lemma AWS_CONFIG_configured env :
  AWS_CONFIG env =
  mkAwsConfig
    (mkCredentials
       (configured (env "AWS_ACCESS_KEY_ID") "YOUR_ACCESS_KEY_HERE")
       (configured (env "AWS_SECRET_ACCESS_KEY") "YOUR_SECRET_KEY_HERE"))
    (configured (env "AWS_REGION") "us-east-1").
Proof. unfold AWS_CONFIG. now rewrite !js_or_configured. Qed.

(** No constant is the empty string, whatever the environment. *)
Lemma S3_BUCKET_nonempty env : S3_BUCKET env <> "".
Proof. rewrite S3_BUCKET_configured. now apply configured_nonempty. Qed.

Lemma AWS_CONFIG_nonempty env :
  accessKeyId (credentials (AWS_CONFIG env)) <> "" /\
  secretAccessKey (credentials (AWS_CONFIG env)) <> "" /\
  region (AWS_CONFIG env) <> "".
Proof.
  rewrite AWS_CONFIG_configured. cbn [credentials accessKeyId secretAccessKey region].
  repeat split; now apply configured_nonempty.
Qed.

(** The two clients are constructed from one configuration. *)
Lemma clients_share env : rekognitionConfig (rekognitionClient env) = s3Config (s3Client env).
Proof. reflexivity. Qed.

(** Only four variables matter. *)
Definition variables : list string :=
  ["AWS_ACCESS_KEY_ID"; "AWS_SECRET_ACCESS_KEY"; "AWS_REGION"; "AWS_S3_BUCKET"].

Lemma constants_frame env env' :
  Forall (fun name => env name = env' name) variables ->
  AWS_CONFIG env = AWS_CONFIG env' /\ S3_BUCKET env = S3_BUCKET env'.
Proof.
  unfold variables, AWS_CONFIG, S3_BUCKET. intros H.
  repeat (apply Forall_cons_iff in H as [E H]; cbv beta in E; rewrite ?E; clear E).
  split; reflexivity.
Qed.

End Constants.

(** ** Lookup in a list of bindings *)

Section Bindings.
Implicit Types (vars : list (string * string)) (name v : string).

Lemma environment_head name v vars : environment ((name, v) :: vars) name = Some v.
Proof. cbn. now rewrite String.eqb_refl. Qed.

Lemma environment_other name n v vars :
  n <> name -> environment ((n, v) :: vars) name = environment vars name.
Proof. intros H. cbn. now destruct (String.eqb_spec n name). Qed.

Lemma environment_None name vars :
  environment vars name = None <-> ~ In name (map fst vars).
Proof.
  induction vars as [|[n v] vars IH]; cbn; [tauto|].
  destruct (String.eqb_spec n name) as [->|Hn]; [|rewrite IH]; intuition congruence.
Qed.

End Bindings.

(** ** Examples *)

(** With nothing set the program goes on with the placeholders; an empty
    variable counts as missing. *)
Example unconfigured :
  AWS_CONFIG (environment []) =
    mkAwsConfig (mkCredentials "YOUR_ACCESS_KEY_HERE" "YOUR_SECRET_KEY_HERE") "us-east-1" /\
  S3_BUCKET (environment []) = "your-bucket-name" /\
  S3_BUCKET (environment [("AWS_S3_BUCKET", "")]) = "your-bucket-name".
Proof. repeat split. Qed.

Example configured_bucket :
  S3_BUCKET (environment [("AWS_REGION", "eu-west-1"); ("AWS_S3_BUCKET", "photos")]) = "photos" /\
  region (AWS_CONFIG (environment [("AWS_REGION", "eu-west-1"); ("AWS_S3_BUCKET", "photos")]))
    = "eu-west-1".
Proof. split; reflexivity. Qed.
