(* ===== verification/Collaborators.v ===== *)
(** * Collaborators: the outside world and the monad of asynchronous code

    The program talks to five collaborators: the native camera module, the
    object store, the vision service, the native depth module and the
    speech engine, and it reads the clock.  An [await] on one of them
    either resolves with a value or rejects with an error object.

    [World] gives the outcome of every call as a function of the events so
    far (the call included), so that a collaborator may answer differently
    each time.  [Event] is what the program does to the world.  A [Task] is
    a computation that reads the world, updates the component's state,
    appends events to the trace and settles: the shape of an [async]
    function whose [await]s are resolved by the world. *)

From Stdlib Require Import Relations RelationClasses.
From S2P Require Import Prelude JsNumber JsString Labels Configuration.

(** ** Errors and outcomes *)

(** A thrown error object, as far as the program inspects it: [error.code],
    [error.message] and [error.toString()].  The program only compares
    the code with a string: a code that is absent or not a string is
    [None]. *)
Record JsError : Set := mkError {
  code : option string;
  message : option string;
  toString : string
}.

(** [new Error(msg)]. *)
Definition newError (msg : string) : JsError :=
  mkError None (Some msg) ("Error: " ++ msg)%string.

(** A settled promise. *)
Inductive outcome (A : Type) : Type :=
| Resolved (a : A)
| Rejected (e : JsError).
Arguments Resolved {A} a.
Arguments Rejected {A} e.

(** ** The component's state (lines 25-28) *)

Record ScreenState : Set := mkState {
  analyzing : bool;
  result : string;
  hasLiDAR : bool;
  arSessionActive : bool
}.

(** The state of the first render: the arguments of the four [useState]. *)
Definition initialState : ScreenState := mkState false "" false false.

(** ** Requests and answers *)

(** What the camera module resolves with: possibly nothing, possibly an
    object without [base64]. *)
Record Photo : Set := mkPhoto { base64 : option string }.

(** The answer of [getDepthAtCenter]. *)
Record DepthData : Set := mkDepth { distance : number }.

(** The options of [Speech.speak] (lines 70-76). *)
Record SpeechOptions : Set := mkSpeechOptions {
  rate : number;
  pitch : number;
  volume : number;
  language : string;
  _voiceIndex : number
}.

(** [PutObjectCommand] (lines 124-129). *)
Record PutObjectCommand : Set := mkPut {
  put_Bucket : string;
  put_Key : string;
  put_Body : list N;
  put_ContentType : string
}.

(** [DetectLabelsCommand] (lines 134-143). *)
Record DetectLabelsCommand : Set := mkDetect {
  detect_Bucket : string;
  detect_Name : string;
  MaxLabels : number;
  MinConfidence : number
}.

(** The answer of the vision service. *)
Record DetectLabelsResponse : Set := mkResponse { Labels : option (list Label) }.

(** ** Events *)

Inductive Event : Set :=
| SpeechStop
| SpeechSpeak (text : string) (options : SpeechOptions)
| AlertAlert (title text : string)
| CameraTakePicture
| DateNow
| S3Send (command : PutObjectCommand)
| RekognitionSend (command : DetectLabelsCommand)
| IsLiDARAvailable
| StartDepthSession
| StopDepthSession
| GetDepthAtCenter.

Definition trace : Set := list Event.

(** ** The world *)

(** Which native modules exist, the environment of the process, the text
    of the error that the runtime's base64 decoder throws, and the
    outcome of each call given the trace up to and including the call;
    what a cloud service answers depends on the client that asks. *)
Record World : Type := mkWorld {
  ARKitDepthModule : bool;
  CameraModule : bool;
  env : Environment;
  speechStop : trace -> outcome unit;
  speechSpeak : trace -> outcome unit;
  cameraTakePicture : trace -> outcome (option Photo);
  dateNow : trace -> number;
  decodeError : JsError;
  s3Service : S3Client -> trace -> outcome unit;
  rekognitionService : RekognitionClient -> trace -> outcome DetectLabelsResponse;
  isLiDARAvailable : trace -> outcome bool;
  startDepthSession : trace -> outcome unit;
  stopDepthSession : trace -> outcome unit;
  getDepthAtCenter : trace -> outcome DepthData
}.

(** [s3Client.send] and [rekognitionClient.send] (lines 130 and 145): the
    clients are those of lines 20-21. *)
Definition s3Send (w : World) : trace -> outcome unit :=
  s3Service w (s3Client (env w)).

Definition rekognitionSend (w : World) : trace -> outcome DetectLabelsResponse :=
  rekognitionService w (rekognitionClient (env w)).

(** ** Tasks *)

(** A run of a task: how it settled, the state it left, the trace. *)
Definition Task (A : Type) : Type :=
  World -> ScreenState -> trace -> outcome A * ScreenState * trace.

Definition ret {A : Type} (a : A) : Task A :=
  fun _ s t => (Resolved a, s, t).

Definition throw {A : Type} (e : JsError) : Task A :=
  fun _ s t => (Rejected e, s, t).

Definition bind {A B : Type} (c : Task A) (k : A -> Task B) : Task B :=
  fun w s t =>
    match c w s t with
    | (Resolved a, s', t') => k a w s' t'
    | (Rejected e, s', t') => (Rejected e, s', t')
    end.

(** [try { c } catch (error) { handler error }]. *)
Definition try_catch {A : Type} (c : Task A) (handler : JsError -> Task A) : Task A :=
  fun w s t =>
    match c w s t with
    | (Resolved a, s', t') => (Resolved a, s', t')
    | (Rejected e, s', t') => handler e w s' t'
    end.

(** [try { c } finally { final }]: [final] runs however [c] settled; the
    outcome is the one of [c] unless [final] throws. *)
Definition try_finally {A : Type} (c : Task A) (final : Task unit) : Task A :=
  fun w s t =>
    match c w s t with
    | (r, s', t') =>
        match final w s' t' with
        | (Resolved _, s'', t'') => (r, s'', t'')
        | (Rejected e, s'', t'') => (Rejected e, s'', t'')
        end
    end.

(** An [await] on a collaborator: the event is appended, the world
    decides the outcome. *)
Definition call {A : Type} (ev : Event) (oracle : World -> trace -> outcome A) : Task A :=
  fun w s t => (oracle w (t ++ [ev]), s, t ++ [ev]).

(** A call that cannot fail. *)
Definition emit (ev : Event) : Task unit :=
  fun _ s t => (Resolved tt, s, t ++ [ev]).

(** A synchronous read of the world after announcing it. *)
Definition ask {A : Type} (ev : Event) (oracle : World -> trace -> A) : Task A :=
  fun w s t => (Resolved (oracle w (t ++ [ev])), s, t ++ [ev]).

(** A read of the world's constants. *)
Definition world {A : Type} (f : World -> A) : Task A :=
  fun w s t => (Resolved (f w), s, t).

(** The state with one cell replaced. *)
Definition withAnalyzing (b : bool) (s : ScreenState) : ScreenState :=
  mkState b (result s) (hasLiDAR s) (arSessionActive s).

Definition withResult (r : string) (s : ScreenState) : ScreenState :=
  mkState (analyzing s) r (hasLiDAR s) (arSessionActive s).

Definition withHasLiDAR (b : bool) (s : ScreenState) : ScreenState :=
  mkState (analyzing s) (result s) b (arSessionActive s).

Definition withArSessionActive (b : bool) (s : ScreenState) : ScreenState :=
  mkState (analyzing s) (result s) (hasLiDAR s) b.

(** The state setters. *)
Definition setAnalyzing (b : bool) : Task unit :=
  fun _ s t => (Resolved tt, withAnalyzing b s, t).

Definition setResult (r : string) : Task unit :=
  fun _ s t => (Resolved tt, withResult r s, t).

Definition setHasLiDAR (b : bool) : Task unit :=
  fun _ s t => (Resolved tt, withHasLiDAR b s, t).

Definition setArSessionActive (b : bool) : Task unit :=
  fun _ s t => (Resolved tt, withArSessionActive b s, t).

Declare Scope task_scope.
Delimit Scope task_scope with task.
Bind Scope task_scope with Task.

Notation "x <- c ;; k" := (bind c (fun x => k))
  (at level 61, c at next level, right associativity) : task_scope.
Notation "c ;; k" := (bind c (fun _ => k))
  (at level 61, right associativity) : task_scope.

(** ** Postconditions *)

(** [post c w s t Q]: the run of [c] from state [s] and trace [t] in world
    [w] ends in an outcome, a state and a trace that satisfy [Q]. *)
Definition post {A : Type} (c : Task A) (w : World) (s : ScreenState) (t : trace)
    (Q : outcome A -> ScreenState -> trace -> Prop) : Prop :=
  match c w s t with
  | (r, s', t') => Q r s' t'
  end.

Section TaskLaws.
Context {A B : Type}.
Implicit Types (w : World) (s : ScreenState) (t : trace).

Lemma post_intro (c : Task A) w s t Q r s' t' :
  c w s t = (r, s', t') -> Q r s' t' -> post c w s t Q.
Proof. unfold post. intros ->. auto. Qed.

Lemma post_elim (c : Task A) w s t Q :
  post c w s t Q -> exists r s' t', c w s t = (r, s', t') /\ Q r s' t'.
Proof. unfold post. destruct (c w s t) as [[r s'] t']. eauto. Qed.

Lemma post_mono (c : Task A) w s t (Q Q' : outcome A -> ScreenState -> trace -> Prop) :
  (forall r s' t', Q r s' t' -> Q' r s' t') -> post c w s t Q -> post c w s t Q'.
Proof. unfold post. destruct (c w s t) as [[r s'] t']. auto. Qed.

Lemma post_conj (c : Task A) w s t (Q Q' : outcome A -> ScreenState -> trace -> Prop) :
  post c w s t Q -> post c w s t Q' -> post c w s t (fun r s' t' => Q r s' t' /\ Q' r s' t').
Proof. unfold post. destruct (c w s t) as [[r s'] t']. auto. Qed.

Lemma post_bind (c : Task A) (k : A -> Task B) w s t Q :
  post c w s t (fun r s' t' =>
    match r with
    | Resolved a => post (k a) w s' t' Q
    | Rejected e => Q (Rejected e) s' t'
    end) ->
  post (bind c k) w s t Q.
Proof. unfold post, bind. destruct (c w s t) as [[[a|e] s'] t']; auto. Qed.

Lemma post_try_catch (c : Task A) handler w s t Q :
  post c w s t (fun r s' t' =>
    match r with
    | Resolved a => Q (Resolved a) s' t'
    | Rejected e => post (handler e) w s' t' Q
    end) ->
  post (try_catch c handler) w s t Q.
Proof. unfold post, try_catch. destruct (c w s t) as [[[a|e] s'] t']; auto. Qed.

Lemma post_try_finally (c : Task A) final w s t Q :
  post c w s t (fun r s' t' =>
    post final w s' t' (fun r' s'' t'' =>
      match r' with
      | Resolved _ => Q r s'' t''
      | Rejected e => Q (Rejected e) s'' t''
      end)) ->
  post (try_finally c final) w s t Q.
Proof.
  unfold post, try_finally. destruct (c w s t) as [[r s'] t'].
  destruct (final w s' t') as [[[u|e] s''] t'']; auto.
Qed.

Lemma bind_ret_l (a : A) (k : A -> Task B) w s t : bind (ret a) k w s t = k a w s t.
Proof. reflexivity. Qed.

Lemma bind_ret_r (c : Task A) w s t : bind c ret w s t = c w s t.
Proof. unfold bind, ret. destruct (c w s t) as [[[a|e] s'] t']; reflexivity. Qed.

Lemma bind_throw (e : JsError) (k : A -> Task B) w s t :
  bind (throw e) k w s t = throw e w s t.
Proof. reflexivity. Qed.

End TaskLaws.

Lemma bind_assoc {A B C : Type} (c : Task A) (k : A -> Task B) (h : B -> Task C) w s t :
  bind (bind c k) h w s t = bind c (fun a => bind (k a) h) w s t.
Proof. unfold bind. destruct (c w s t) as [[[a|e] s'] t']; reflexivity. Qed.

(** The primitive tasks, as postconditions. *)

Section Primitives.
Implicit Types (w : World) (s : ScreenState) (t : trace).

Lemma post_ret {A : Type} (a : A) w s t (Q : outcome A -> ScreenState -> trace -> Prop) :
  Q (Resolved a) s t -> post (ret a) w s t Q.
Proof. auto. Qed.

Lemma post_throw {A : Type} e w s t (Q : outcome A -> ScreenState -> trace -> Prop) :
  Q (Rejected e) s t -> post (throw e) w s t Q.
Proof. auto. Qed.

Lemma post_call {A : Type} ev (oracle : World -> trace -> outcome A) w s t Q :
  Q (oracle w (t ++ [ev])) s (t ++ [ev]) -> post (call ev oracle) w s t Q.
Proof. auto. Qed.

Lemma post_emit ev w s t (Q : outcome unit -> ScreenState -> trace -> Prop) :
  Q (Resolved tt) s (t ++ [ev]) -> post (emit ev) w s t Q.
Proof. auto. Qed.

Lemma post_ask {A : Type} ev (oracle : World -> trace -> A) w s t Q :
  Q (Resolved (oracle w (t ++ [ev]))) s (t ++ [ev]) -> post (ask ev oracle) w s t Q.
Proof. auto. Qed.

Lemma post_world {A : Type} (f : World -> A) w s t Q :
  Q (Resolved (f w)) s t -> post (world f) w s t Q.
Proof. auto. Qed.

End Primitives.

(** ** Preserved relations

    A task preserves a preorder [R] on states and traces when every run
    ends [R]-after where it started.  The combinators preserve what their
    parts preserve, so a property of this form is proved once per
    primitive and follows for whole handlers. *)

Definition preserves (R : relation (ScreenState * trace)) {A : Type} (c : Task A) : Prop :=
  forall w s t, post c w s t (fun _ s' t' => R (s, t) (s', t')).

Section Preserves.
Context (R : relation (ScreenState * trace)) `{!PreOrder R}.

Lemma preserves_ret {A : Type} (a : A) : preserves R (ret a).
Proof. intros w s t. apply post_ret. reflexivity. Qed.

Lemma preserves_throw {A : Type} e : preserves R (@throw A e).
Proof. intros w s t. apply post_throw. reflexivity. Qed.

Lemma preserves_world {A : Type} (f : World -> A) : preserves R (world f).
Proof. intros w s t. apply post_world. reflexivity. Qed.

Lemma preserves_bind {A B : Type} (c : Task A) (k : A -> Task B) :
  preserves R c -> (forall a, preserves R (k a)) -> preserves R (bind c k).
Proof.
  intros Hc Hk w s t. apply post_bind. eapply post_mono; [|apply Hc].
  intros [a|e] s' t' H; [|exact H].
  eapply post_mono; [|apply Hk]. intros r s'' t'' H'. cbn in H'. etransitivity; eassumption.
Qed.

Lemma preserves_try_catch {A : Type} (c : Task A) handler :
  preserves R c -> (forall e, preserves R (handler e)) -> preserves R (try_catch c handler).
Proof.
  intros Hc Hh w s t. apply post_try_catch. eapply post_mono; [|apply Hc].
  intros [a|e] s' t' H; [exact H|].
  eapply post_mono; [|apply Hh]. intros r s'' t'' H'. cbn in H'. etransitivity; eassumption.
Qed.

Lemma preserves_try_finally {A : Type} (c : Task A) final :
  preserves R c -> preserves R final -> preserves R (try_finally c final).
Proof.
  intros Hc Hf w s t. apply post_try_finally. eapply post_mono; [|apply Hc].
  intros r s' t' H. eapply post_mono; [|apply Hf].
  intros [u|e] s'' t'' H'; cbn in *; etransitivity; eassumption.
Qed.

Lemma preserves_if {A : Type} (b : bool) (c1 c2 : Task A) :
  preserves R c1 -> preserves R c2 -> preserves R (if b then c1 else c2).
Proof. destruct b; auto. Qed.

(** The primitives that touch the trace or the state preserve [R] when
    their one step is in [R]. *)
Lemma preserves_call {A : Type} ev (oracle : World -> trace -> outcome A) :
  (forall s t, R (s, t) (s, t ++ [ev])) -> preserves R (call ev oracle).
Proof. intros H w s t. apply post_call, H. Qed.

Lemma preserves_emit ev :
  (forall s t, R (s, t) (s, t ++ [ev])) -> preserves R (emit ev).
Proof. intros H w s t. apply post_emit, H. Qed.

Lemma preserves_ask {A : Type} ev (oracle : World -> trace -> A) :
  (forall s t, R (s, t) (s, t ++ [ev])) -> preserves R (ask ev oracle).
Proof. intros H w s t. apply post_ask, H. Qed.

Lemma preserves_setAnalyzing b :
  (forall s t, R (s, t) (withAnalyzing b s, t)) -> preserves R (setAnalyzing b).
Proof. intros H w s t. apply H. Qed.

Lemma preserves_setResult r :
  (forall s t, R (s, t) (withResult r s, t)) -> preserves R (setResult r).
Proof. intros H w s t. apply H. Qed.

End Preserves.

(** A relation that every event and every write of the busy flag and of
    the result respects: what a capture cycle is allowed to change. *)
Class CycleFrame (R : relation (ScreenState * trace)) : Prop := {
  frame_preorder :: PreOrder R;
  frame_event : forall s t ev, R (s, t) (s, t ++ [ev]);
  frame_analyzing : forall s t b, R (s, t) (withAnalyzing b s, t);
  frame_result : forall s t r, R (s, t) (withResult r s, t)
}.

(** The sensor cells are kept and the trace only grows. *)
Definition advances : relation (ScreenState * trace) :=
  fun a b =>
    hasLiDAR (fst b) = hasLiDAR (fst a) /\
    arSessionActive (fst b) = arSessionActive (fst a) /\
    exists added, snd b = snd a ++ added.

#[export] Instance advances_PreOrder : PreOrder advances.
Proof.
  split.
  - intros [s t]. unfold advances. cbn. split; [|split]; try reflexivity.
    exists []. now rewrite app_nil_r.
  - intros [s1 t1] [s2 t2] [s3 t3] (H1 & H2 & l1 & H3) (H4 & H5 & l2 & H6). cbn in *.
    unfold advances. cbn. split; [|split]; try congruence.
    exists (l1 ++ l2). subst. now rewrite app_assoc.
Qed.

Lemma advances_event s t ev : advances (s, t) (s, t ++ [ev]).
Proof. unfold advances. cbn. eauto. Qed.

Lemma advances_state s s' t :
  hasLiDAR s' = hasLiDAR s -> arSessionActive s' = arSessionActive s ->
  advances (s, t) (s', t).
Proof.
  intros H1 H2. unfold advances. cbn. split; [|split]; try assumption.
  exists []. now rewrite app_nil_r.
Qed.

#[export] Instance advances_CycleFrame : CycleFrame advances.
Proof.
  split; [exact advances_PreOrder | intros; apply advances_event | |];
    intros; apply advances_state; reflexivity.
Qed.

(** One step of symbolic execution of a task under [post]. *)
Ltac task_step :=
  first
  [ apply post_bind
  | apply post_try_catch
  | apply post_try_finally
  | apply post_ret
  | apply post_throw
  | apply post_call
  | apply post_emit
  | apply post_ask
  | apply post_world ].

#[export] Hint Resolve post_ret post_throw post_call post_emit post_ask post_world : js.
#[export] Hint Rewrite @bind_ret_l @bind_ret_r @bind_throw : js_rw.
