(* ===== verification/Cycle.v ===== *)
(** * Cycle: one capture, analysis and narration

    [speakText] (lines 64-84), [getARKitDistance] (lines 86-98),
    [base64ToUint8Array] (lines 55-62) and [takePicture] (lines 100-285) as
    tasks.  A function of the component closes over the state of the
    render that created it: that state is the argument [rendered], while
    the setters act on the state the task threads.  Beside each task
    stands what it leaves, by cases on the answers of the collaborators
    ([spoken], [measure], [attempted], [settle]), and the class
    [TapFrame] of the relations that every step of a cycle respects. *)

From Stdlib Require Import Relations RelationClasses.
From S2P Require Import Prelude JsNumber JsString NumberToString Base64 Labels Geometry Describe.
From S2P Require Import Configuration Collaborators.

Local Open Scope string_scope.
Local Open Scope task_scope.

(** ** Speech *)

(** The options of line 70-76. *)
Definition speechOptions : SpeechOptions :=
  mkSpeechOptions 0.85 1.0 1.0 "en-US" 0.

(** A value inside a template literal: [undefined] prints as such. *)
Definition templateString (o : option string) : string :=
  match o with
  | Some s => s
  | None => "undefined"
  end.

(** [speakText] (lines 64-84): stop the current utterance, speak, and on
    any error show an alert instead of throwing. *)
Definition speakText (text : string) : Task unit :=
  try_catch
    (call SpeechStop speechStop ;;
     call (SpeechSpeak text speechOptions) speechSpeak)
    (fun error =>
       emit (AlertAlert "TTS Error" ("Could not speak: " ++ templateString (message error)))).

(** ** Depth *)

(** [getARKitDistance] (lines 86-98): [null] without the sensor or on a
    failed reading. *)
Definition getARKitDistance (rendered : ScreenState) : Task (option number) :=
  has <- world ARKitDepthModule ;;
  if negb (hasLiDAR rendered) || negb has then ret None
  else
    try_catch
      (depthData <- call GetDepthAtCenter getDepthAtCenter ;;
       ret (Some (distance depthData)))
      (fun _ => ret None).

(** ** Image bytes *)

(** [binaryString.charCodeAt(i)], for [i] inside the string. *)
Definition charCodeAt (binaryString : string) (i : nat) : N :=
  match String.get i binaryString with
  | Some c => N_of_ascii c
  | None => 0
  end.

(** [bytes[i] = v] on a [Uint8Array]: the value is stored modulo 256, a
    write outside the array is ignored. *)
Fixpoint storeByte (bytes : list N) (i : nat) (v : N) : list N :=
  match bytes, i with
  | [], _ => []
  | _ :: rest, O => (v mod 256)%N :: rest
  | b :: rest, S i' => b :: storeByte rest i' v
  end.

(** The loop of lines 58-60, from index [i]; [fuel] bounds the number of
    iterations. *)
Fixpoint copyLoop (fuel : nat) (binaryString : string) (i : nat) (bytes : list N) : list N :=
  match fuel with
  | O => bytes
  | S fuel' =>
      if (i <? String.length binaryString)%nat
      then copyLoop fuel' binaryString (S i) (storeByte bytes i (charCodeAt binaryString i))
      else bytes
  end.

(** Lines 57-61 on the decoded string. *)
Definition bytesOfBinaryString (binaryString : string) : list N :=
  copyLoop (String.length binaryString) binaryString 0
           (repeat 0%N (String.length binaryString)).

(** What [atob] throws on data it cannot decode: the runtime's error
    object, whose code is not a string. *)
Definition decodeFailure (w : World) : JsError :=
  mkError None (message (decodeError w)) (toString (decodeError w)).

(** [base64ToUint8Array] (lines 55-62): [atob] is the decoder of
    [Base64]; it returns the binary string or throws. *)
Definition base64ToUint8Array (data : string) : Task (list N) :=
  match atob data with
  | Some binaryString => ret (bytesOfBinaryString binaryString)
  | None => error <- world decodeFailure ;; throw error
  end.

(** ** The cycle *)

(** [error?.message || error?.toString() || 'Unknown error'] (line 277). *)
Definition errorDetails (error : JsError) : string :=
  js_or (message error) (js_or (Some (toString error)) "Unknown error").

(** [error.code === 'CANCELLED'] (line 271). *)
Definition isCancelled (error : JsError) : bool :=
  match code error with
  | Some c => (c =? "CANCELLED")%string
  | None => false
  end.

(** [!photo || !photo.base64], and the image data otherwise (line 110). *)
Definition imageData (photo : option Photo) : option string :=
  match photo with
  | Some p =>
      match base64 p with
      | Some data => if to_boolean data then Some data else None
      | None => None
      end
  | None => None
  end.

(** The object key of a cycle: [`analysis/${timestamp}.jpg`] (line 120). *)
Definition objectKey (timestamp : number) : string :=
  "analysis/" ++ Number_toString timestamp ++ ".jpg".

(** The upload and the analysis of a cycle (lines 124-129 and 134-143). *)
Definition uploadCommand (bucket key : string) (imageBytes : list N) : PutObjectCommand :=
  mkPut bucket key imageBytes "image/jpeg".

Definition detectCommand (bucket key : string) : DetectLabelsCommand :=
  mkDetect bucket key 10 70.

(** The body of the [try] block (lines 107-268). *)
Definition attempt (rendered : ScreenState) : Task unit :=
  photo <- call CameraTakePicture cameraTakePicture ;;
  match imageData photo with
  | None => throw (newError "No image data")
  | Some data =>
      setResult "Analyzing image..." ;;
      speakText "Analyzing" ;;
      timestamp <- ask DateNow dateNow ;;
      let key := objectKey timestamp in
      imageBytes <- base64ToUint8Array data ;;
      bucket <- world (fun w => S3_BUCKET (env w)) ;;
      call (S3Send (uploadCommand bucket key imageBytes)) s3Send ;;
      rekognitionResult <-
        call (RekognitionSend (detectCommand bucket key)) rekognitionSend ;;
      let physical := physicalObjects (allLabels (Labels rekognitionResult)) in
      realDistance <-
        (if hasLiDAR rendered then getARKitDistance rendered else ret None) ;;
      let description := describe physical realDistance in
      setResult description ;;
      speakText description
  end.

(** The [catch] block (lines 270-281). *)
Definition recover (error : JsError) : Task unit :=
  if isCancelled error then
    setResult "" ;;
    setAnalyzing false
  else
    setResult ("Analysis failed: " ++ errorDetails error)%string ;;
    speakText "Analysis failed. Please try again.".

(** [takePicture] (lines 100-285). *)
Definition takePicture (rendered : ScreenState) : Task unit :=
  camera <- world CameraModule ;;
  if analyzing rendered || negb camera then ret tt
  else
    setAnalyzing true ;;
    speakText "Opening camera" ;;
    try_finally
      (try_catch (attempt rendered) recover)
      (setAnalyzing false).

(** A tap on the capture button: the handler of the current render runs
    on the current state. *)
Definition tap (w : World) (s : ScreenState) (t : trace) : ScreenState * trace :=
  match takePicture s w s t with
  | (_, s', t') => (s', t')
  end.

(** ** Speech never throws *)

(** The trace after [speakText text] from the trace [t]. *)
Definition spoken (w : World) (t : trace) (text : string) : trace :=
  let alert e := AlertAlert "TTS Error" ("Could not speak: " ++ templateString (message e)) in
  let t1 := (t ++ [SpeechStop])%list in
  match speechStop w t1 with
  | Rejected e => (t1 ++ [alert e])%list
  | Resolved _ =>
      let t2 := (t1 ++ [SpeechSpeak text speechOptions])%list in
      match speechSpeak w t2 with
      | Rejected e => (t2 ++ [alert e])%list
      | Resolved _ => t2
      end
  end.

Section Speech.
Implicit Types (w : World) (s : ScreenState) (t : trace) (text : string).

(** [speakText] resolves, leaves the state alone and extends the trace to
    [spoken]. *)
Lemma speakText_run text w s t : speakText text w s t = (Resolved tt, s, spoken w t text).
Proof.
  unfold speakText, spoken, try_catch, bind, call, emit.
  destruct (speechStop w _) as [[]|e]; [|reflexivity].
  destruct (speechSpeak w _) as [[]|e]; reflexivity.
Qed.

(** What one call of [speakText] adds: a stop, then possibly the
    utterance, then possibly an alert. *)
Lemma spoken_added w t text :
  exists added,
    spoken w t text = (t ++ SpeechStop :: added)%list /\
    (added = [SpeechSpeak text speechOptions] \/
     (exists e, added = [AlertAlert "TTS Error" ("Could not speak: " ++ templateString (message e))]) \/
     (exists e, added = [SpeechSpeak text speechOptions;
                         AlertAlert "TTS Error" ("Could not speak: " ++ templateString (message e))])).
Proof.
  unfold spoken.
  destruct (speechStop w _) as [[]|e].
  - destruct (speechSpeak w _) as [[]|e]; rewrite <- ?app_assoc; cbn [app]; eauto 6.
  - rewrite <- ?app_assoc; cbn [app]; eauto 6.
Qed.

Lemma post_speakText text w s t (Q : outcome unit -> ScreenState -> trace -> Prop) :
  Q (Resolved tt) s (spoken w t text) -> post (speakText text) w s t Q.
Proof. unfold post. now rewrite speakText_run. Qed.

End Speech.

(** ** The shape of a cycle *)

(** The sentence spoken on a failure (line 281). *)
Definition apology : string := "Analysis failed. Please try again.".

(** What [catch] and [finally] make of the settled [try] block: on
    success the flag is cleared; on a cancelled capture the result is
    emptied and the flag cleared twice; on any other error the message is
    shown, the apology spoken and the flag cleared. *)
Definition settle (w : World) (attempted : outcome unit * ScreenState * trace) :
    outcome unit * ScreenState * trace :=
  match attempted with
  | (Resolved _, s2, t2) => (Resolved tt, withAnalyzing false s2, t2)
  | (Rejected e, s2, t2) =>
      if isCancelled e
      then (Resolved tt, withAnalyzing false (withAnalyzing false (withResult "" s2)), t2)
      else (Resolved tt,
            withAnalyzing false (withResult ("Analysis failed: " ++ errorDetails e) s2),
            spoken w t2 apology)
  end.

Section TakePicture.
Implicit Types (w : World) (s rendered : ScreenState) (t : trace) (e : JsError).

(** The guard of line 101: a busy render or a missing camera module
    returns at once. *)
Lemma takePicture_guard rendered w s t :
  analyzing rendered = true \/ CameraModule w = false ->
  takePicture rendered w s t = (Resolved tt, s, t).
Proof.
  intros H. unfold takePicture, bind, world.
  destruct H as [-> | ->]; [reflexivity|].
  now rewrite orb_true_r.
Qed.

(** Otherwise the cycle is the [try] block between the first
    announcement and the settlement. *)
Lemma takePicture_run rendered w s t :
  analyzing rendered = false -> CameraModule w = true ->
  takePicture rendered w s t =
  settle w (attempt rendered w (withAnalyzing true s) (spoken w t "Opening camera")).
Proof.
  intros Ha Hc. unfold takePicture, bind, world. rewrite Ha, Hc. cbn [orb negb].
  unfold setAnalyzing. rewrite speakText_run.
  unfold try_finally, try_catch, settle, recover.
  destruct (attempt rendered w _ _) as [[[[]|e] s2] t2]; [reflexivity|].
  destruct (isCancelled e); unfold bind, setResult, setAnalyzing;
    rewrite ?speakText_run; reflexivity.
Qed.

Lemma settle_resolves w a :
  exists s' t', settle w a = (Resolved tt, s', t') /\ analyzing s' = false.
Proof.
  destruct a as [[[u|e] s2] t2]; cbn [settle]; [|destruct (isCancelled e)]; eauto.
Qed.

(** The settlement only adds events. *)
Lemma settle_trace w o s2 t2 :
  exists added, snd (settle w (o, s2, t2)) = (t2 ++ added)%list.
Proof.
  destruct o as [u|e]; cbn [settle]; [|destruct (isCancelled e)]; cbn [snd];
    try (exists []; now rewrite app_nil_r).
  destruct (spoken_added w t2 apology) as (added & -> & _). eauto.
Qed.

(** C9 (busy flag).  [takePicture] never rejects, and a cycle that
    started leaves the busy flag clear however it went. *)
Theorem takePicture_settles rendered w s t :
  exists s' t',
    takePicture rendered w s t = (Resolved tt, s', t') /\
    (analyzing rendered = false -> CameraModule w = true -> analyzing s' = false).
Proof.
  destruct (analyzing rendered) eqn:Ha; [|destruct (CameraModule w) eqn:Hc].
  - exists s, t. split; [apply takePicture_guard; auto | discriminate].
  - rewrite takePicture_run by assumption.
    destruct (settle_resolves w (attempt rendered w (withAnalyzing true s)
                                   (spoken w t "Opening camera"))) as (s' & t' & -> & Hs).
    eauto.
  - exists s, t. split; [apply takePicture_guard; auto | discriminate].
Qed.

(** A rejected capture leaves the [try] block at once. *)
Lemma attempt_camera_rejected rendered w s t e :
  cameraTakePicture w (t ++ [CameraTakePicture])%list = Rejected e ->
  attempt rendered w s t = (Rejected e, s, (t ++ [CameraTakePicture])%list).
Proof. intros H. unfold attempt, bind, call. now rewrite H. Qed.

(** A capture without image data throws [Error('No image data')]. *)
Lemma attempt_no_image rendered w s t photo :
  cameraTakePicture w (t ++ [CameraTakePicture])%list = Resolved photo ->
  imageData photo = None ->
  attempt rendered w s t =
  (Rejected (newError "No image data"), s, (t ++ [CameraTakePicture])%list).
Proof. intros H Hi. unfold attempt, bind, call. now rewrite H, Hi. Qed.

(** C11 (cancelled capture).  When the capture is rejected with the code
    CANCELLED, the cycle ends with an empty result and a clear flag, and
    after the request to the camera nothing happens: no upload, no
    analysis, no speech. *)
Theorem takePicture_cancelled rendered w s t e :
  analyzing rendered = false -> CameraModule w = true ->
  cameraTakePicture w (spoken w t "Opening camera" ++ [CameraTakePicture])%list = Rejected e ->
  code e = Some "CANCELLED" ->
  takePicture rendered w s t =
  (Resolved tt,
   mkState false "" (hasLiDAR s) (arSessionActive s),
   (spoken w t "Opening camera" ++ [CameraTakePicture])%list).
Proof.
  intros Ha Hc Hcam Hcode. rewrite takePicture_run by assumption.
  rewrite (attempt_camera_rejected _ _ _ _ _ Hcam). cbn [settle].
  unfold isCancelled. rewrite Hcode. reflexivity.
Qed.

(** C12 (failure).  When the [try] block throws an error that is not a
    cancellation, whichever collaborator it came from, the screen shows
    "Analysis failed: " and the details of the error, the apology is
    spoken after everything else, and the flag is clear. *)
Theorem takePicture_failed rendered w s t e s2 t2 :
  analyzing rendered = false -> CameraModule w = true ->
  attempt rendered w (withAnalyzing true s) (spoken w t "Opening camera") = (Rejected e, s2, t2) ->
  isCancelled e = false ->
  takePicture rendered w s t =
  (Resolved tt,
   withAnalyzing false (withResult ("Analysis failed: " ++ errorDetails e) s2),
   spoken w t2 "Analysis failed. Please try again.").
Proof.
  intros Ha Hc Hatt Hcan. rewrite takePicture_run by assumption.
  rewrite Hatt. cbn [settle]. now rewrite Hcan.
Qed.

(** The details shown for an error: its message when it has a non-empty
    one, else its text, else "Unknown error". *)
Lemma errorDetails_message e m : message e = Some m -> m <> "" -> errorDetails e = m.
Proof. intros H Hm. unfold errorDetails. rewrite H. now apply js_or_string_nonempty. Qed.

Lemma errorDetails_nonempty e : errorDetails e <> "".
Proof.
  unfold errorDetails. set (d := js_or (Some (toString e)) "Unknown error").
  assert (d <> "") as Hd by (apply js_or_string_default; discriminate).
  now apply js_or_string_default.
Qed.

End TakePicture.

(** ** The depth reading *)

(** The measured distance of a cycle and the trace after asking for it:
    the sensor is asked only when the rendered state has it and the
    module exists; a failed reading is no reading. *)
Definition measure (rendered : ScreenState) (w : World) (t : trace) : option number * trace :=
  if hasLiDAR rendered && ARKitDepthModule w then
    match getDepthAtCenter w (t ++ [GetDepthAtCenter])%list with
    | Resolved depthData => (Some (distance depthData), (t ++ [GetDepthAtCenter])%list)
    | Rejected _ => (None, (t ++ [GetDepthAtCenter])%list)
    end
  else (None, t).

Section Depth.
Implicit Types (w : World) (s rendered : ScreenState) (t : trace).

Lemma getARKitDistance_run rendered w s t :
  getARKitDistance rendered w s t =
  (Resolved (fst (measure rendered w t)), s, snd (measure rendered w t)).
Proof.
  unfold getARKitDistance, measure, bind, world, try_catch, call, ret.
  destruct (hasLiDAR rendered), (ARKitDepthModule w); cbn [negb orb andb]; try reflexivity.
  destruct (getDepthAtCenter w _); reflexivity.
Qed.

(** Lines 167-170: the reading of a cycle. *)
Lemma realDistance_run rendered w s t :
  (if hasLiDAR rendered then getARKitDistance rendered else ret None) w s t =
  (Resolved (fst (measure rendered w t)), s, snd (measure rendered w t)).
Proof.
  destruct (hasLiDAR rendered) eqn:E; [apply getARKitDistance_run|].
  unfold measure. rewrite E. reflexivity.
Qed.

(** C13 (sensor failure).  [getARKitDistance] never rejects and never
    touches the state: without the sensor it asks nothing and returns
    [null]; with it, it asks once and returns the reading, or [null] when
    the reading fails. *)
Theorem getARKitDistance_total rendered w s t :
  exists reading added,
    getARKitDistance rendered w s t = (Resolved reading, s, (t ++ added)%list) /\
    ((hasLiDAR rendered && ARKitDepthModule w = false /\ reading = None /\ added = []) \/
     (hasLiDAR rendered && ARKitDepthModule w = true /\ added = [GetDepthAtCenter] /\
      match getDepthAtCenter w (t ++ [GetDepthAtCenter])%list with
      | Resolved depthData => reading = Some (distance depthData)
      | Rejected _ => reading = None
      end)).
Proof.
  rewrite getARKitDistance_run. unfold measure.
  destruct (hasLiDAR rendered && ARKitDepthModule w).
  - destruct (getDepthAtCenter w _) eqn:E; eexists _, [GetDepthAtCenter]; (split; [reflexivity|]);
      right; rewrite ?E; auto.
  - exists None, []. rewrite app_nil_r. auto.
Qed.

End Depth.

(** ** Image bytes *)

Section Bytes.
Implicit Types (binaryString : string) (bytes : list N) (i : nat).

Lemma storeByte_length bytes i v : length (storeByte bytes i v) = length bytes.
Proof.
  revert i; induction bytes as [|b rest IH]; intros [|i]; cbn; auto.
Qed.

Lemma storeByte_nth bytes i v d :
  i < length bytes -> nth i (storeByte bytes i v) d = (v mod 256)%N.
Proof.
  revert i; induction bytes as [|b rest IH]; intros [|i] H; cbn in *; try lia; auto.
  apply IH. lia.
Qed.

Lemma storeByte_nth_other bytes i j v d :
  i <> j -> nth j (storeByte bytes i v) d = nth j bytes d.
Proof.
  revert i j; induction bytes as [|b rest IH]; intros [|i] [|j] H; cbn; auto; try lia.
Qed.

Lemma copyLoop_length fuel binaryString i bytes :
  length (copyLoop fuel binaryString i bytes) = length bytes.
Proof.
  revert i bytes; induction fuel as [|fuel IH]; intros i bytes; cbn [copyLoop]; [reflexivity|].
  destruct (i <? _)%nat; [|reflexivity]. now rewrite IH, storeByte_length.
Qed.

(** The loop leaves the positions below [i] alone and writes the code of
    each character from [i] on, given fuel for the remaining characters. *)
Lemma copyLoop_nth fuel binaryString i bytes j d :
  String.length binaryString <= i + fuel ->
  length bytes = String.length binaryString ->
  nth j (copyLoop fuel binaryString i bytes) d =
  if (i <=? j)%nat && (j <? String.length binaryString)%nat
  then (charCodeAt binaryString j mod 256)%N
  else nth j bytes d.
Proof.
  revert i bytes; induction fuel as [|fuel IH]; intros i bytes Hfuel Hlen; cbn [copyLoop];
    [|destruct (Nat.ltb_spec i (String.length binaryString)) as [Hi|Hi];
      [rewrite IH by (rewrite ?storeByte_length; lia)|]];
    repeat match goal with
    | |- context [(?a <=? ?b)%nat] => destruct (Nat.leb_spec a b)
    | |- context [(?a <? ?b)%nat] => destruct (Nat.ltb_spec a b)
    end; cbn [andb]; try lia; try reflexivity;
    try (rewrite storeByte_nth_other by lia; reflexivity).
  assert (j = i) as -> by lia. apply storeByte_nth. lia.
Qed.

(** The reference: the codes of the characters, in order. *)
Fixpoint charCodes (binaryString : string) : list N :=
  match binaryString with
  | EmptyString => []
  | String c rest => N_of_ascii c :: charCodes rest
  end.

Lemma charCodes_length binaryString : length (charCodes binaryString) = String.length binaryString.
Proof. induction binaryString; cbn; congruence. Qed.

Lemma charCodes_nth binaryString j d :
  j < String.length binaryString -> nth j (charCodes binaryString) d = charCodeAt binaryString j.
Proof.
  unfold charCodeAt. revert j; induction binaryString as [|c rest IH]; intros [|j] H;
    cbn in *; try lia; auto. apply IH. lia.
Qed.

Lemma charCodeAt_byte binaryString j : (charCodeAt binaryString j < 256)%N.
Proof.
  unfold charCodeAt. destruct (String.get j binaryString); [apply N_ascii_bounded | lia].
Qed.

(** C14 (image bytes).  The loop of [base64ToUint8Array] terminates within
    one iteration per character and yields the character codes of the
    decoded string, in order, one byte each. *)
Theorem bytesOfBinaryString_spec binaryString :
  bytesOfBinaryString binaryString = charCodes binaryString /\
  Forall (fun b => (b < 256)%N) (bytesOfBinaryString binaryString).
Proof.
  assert (bytesOfBinaryString binaryString = charCodes binaryString) as E.
  { apply (nth_ext _ _ 0%N 0%N).
    - unfold bytesOfBinaryString. now rewrite copyLoop_length, repeat_length, charCodes_length.
    - intros j Hj. unfold bytesOfBinaryString in *.
      rewrite copyLoop_length, repeat_length in Hj.
      rewrite copyLoop_nth by (rewrite ?repeat_length; lia).
      destruct (Nat.ltb_spec j (String.length binaryString)); [|lia]. cbn [Nat.leb andb].
      rewrite charCodes_nth by assumption.
      apply N.mod_small, charCodeAt_byte. }
  split; [exact E|]. rewrite E. clear E.
  induction binaryString as [|c rest IH]; cbn; constructor; auto using N_ascii_bounded.
Qed.

(** The loop writes through [storeByte] and reads through [charCodeAt];
    for the round trip it is followed position by position on the string
    a byte list spells. *)
Lemma charCodes_binaryStringOf bytes :
  Forall (fun b => (b < 256)%N) bytes -> charCodes (binaryStringOf bytes) = bytes.
Proof.
  unfold binaryStringOf. induction 1 as [|b rest Hb _ IH]; cbn; [reflexivity|].
  now rewrite IH, N_ascii_embedding.
Qed.

Lemma bytesOfBinaryString_nth binaryString j :
  j < String.length binaryString ->
  nth j (bytesOfBinaryString binaryString) 0%N = nth j (charCodes binaryString) 0%N.
Proof.
  intros Hj. unfold bytesOfBinaryString.
  rewrite copyLoop_nth by (rewrite ?repeat_length; lia).
  destruct (Nat.ltb_spec j (String.length binaryString)); [|lia]. cbn [Nat.leb andb].
  rewrite charCodes_nth by assumption. apply N.mod_small, charCodeAt_byte.
Qed.

(** C34 (round trip of the image bytes).  Whatever bytes the camera
    encoded, [base64ToUint8Array] gives them back from their base64 text:
    decoding the standard encoding of a byte list and copying the decoded
    string into the array returns the list, without an error and without
    touching the screen or the collaborators. *)
Theorem base64ToUint8Array_encode bytes w s t :
  Forall (fun b => (b < 256)%N) bytes ->
  base64ToUint8Array (encode bytes) w s t = (Resolved bytes, s, t).
Proof.
  intros Hbytes. unfold base64ToUint8Array. rewrite (atob_encode _ Hbytes).
  unfold ret. do 2 f_equal. f_equal.
  rewrite <- (charCodes_binaryStringOf bytes Hbytes) at 2.
  apply (nth_ext _ _ 0%N 0%N).
  - unfold bytesOfBinaryString. now rewrite copyLoop_length, repeat_length, charCodes_length.
  - intros j Hj. apply bytesOfBinaryString_nth.
    unfold bytesOfBinaryString in Hj. now rewrite copyLoop_length, repeat_length in Hj.
Qed.

End Bytes.

(** ** The successful cycle *)

(** The [try] block from the decoded image on: upload, analysis, depth
    reading, description. *)
Definition analysed (rendered : ScreenState) (w : World) (s : ScreenState) (t : trace)
    (key : string) (binaryString : string) : outcome unit * ScreenState * trace :=
  let t4 := (t ++ [S3Send (uploadCommand (S3_BUCKET (env w)) key
                                        (bytesOfBinaryString binaryString))])%list in
  match s3Send w t4 with
  | Rejected e => (Rejected e, s, t4)
  | Resolved _ =>
      let t5 := (t4 ++ [RekognitionSend (detectCommand (S3_BUCKET (env w)) key)])%list in
      match rekognitionSend w t5 with
      | Rejected e => (Rejected e, s, t5)
      | Resolved response =>
          let description :=
            describe (physicalObjects (allLabels (Labels response)))
                     (fst (measure rendered w t5)) in
          (Resolved tt, withResult description s,
           spoken w (snd (measure rendered w t5)) description)
      end
  end.

(** The whole [try] block, by cases on what the collaborators answer:
    each rejection leaves at once with the state and the trace reached. *)
Definition attempted (rendered : ScreenState) (w : World) (s : ScreenState) (t : trace) :
    outcome unit * ScreenState * trace :=
  let t1 := (t ++ [CameraTakePicture])%list in
  match cameraTakePicture w t1 with
  | Rejected e => (Rejected e, s, t1)
  | Resolved photo =>
      match imageData photo with
      | None => (Rejected (newError "No image data"), s, t1)
      | Some data =>
          let t2 := (spoken w t1 "Analyzing" ++ [DateNow])%list in
          match atob data with
          | None => (Rejected (decodeFailure w), withResult "Analyzing image..." s, t2)
          | Some binaryString =>
              analysed rendered w (withResult "Analyzing image..." s) t2
                       (objectKey (dateNow w t2)) binaryString
          end
      end
  end.

Section Success.
Implicit Types (w : World) (s rendered : ScreenState) (t : trace).

Lemma attempt_run rendered w s t : attempt rendered w s t = attempted rendered w s t.
Proof.
  unfold attempt, attempted, analysed, bind, call.
  destruct (cameraTakePicture w _) as [photo|e]; [|reflexivity].
  destruct (imageData photo) as [data|]; [|reflexivity].
  unfold setResult. rewrite speakText_run.
  unfold ask, base64ToUint8Array, bind.
  destruct (atob data) as [binaryString|]; [|reflexivity].
  unfold call, world, ret.
  destruct (s3Send w _) as [[]|e]; [|reflexivity].
  destruct (rekognitionSend w _) as [response|e]; [|reflexivity].
  rewrite realDistance_run, speakText_run. reflexivity.
Qed.

(** The [try] block when every collaborator answers: the events in the
    order of the statements, ending with the description shown and
    spoken. *)
Lemma attempt_success rendered w s t photo data binaryString response :
  let t1 := (t ++ [CameraTakePicture])%list in
  let t2 := (spoken w t1 "Analyzing" ++ [DateNow])%list in
  let key := objectKey (dateNow w t2) in
  let t4 := (t2 ++ [S3Send (mkPut (S3_BUCKET (env w)) key (bytesOfBinaryString binaryString)
                                  "image/jpeg")])%list in
  let t5 := (t4 ++ [RekognitionSend (mkDetect (S3_BUCKET (env w)) key 10 70)])%list in
  let description :=
    describe (physicalObjects (allLabels (Labels response))) (fst (measure rendered w t5)) in
  cameraTakePicture w t1 = Resolved photo ->
  imageData photo = Some data ->
  atob data = Some binaryString ->
  s3Send w t4 = Resolved tt ->
  rekognitionSend w t5 = Resolved response ->
  attempt rendered w s t =
  (Resolved tt, withResult description (withResult "Analyzing image..." s),
   spoken w (snd (measure rendered w t5)) description).
Proof.
  intros t1 t2 key t4 t5 description Hcam Himg Hatob Hs3 Hrek.
  rewrite attempt_run. unfold attempted, analysed, uploadCommand, detectCommand.
  fold t1. rewrite Hcam, Himg. fold t2. rewrite Hatob. fold key t4.
  rewrite Hs3. fold t5. rewrite Hrek. reflexivity.
Qed.

(** C15 (success).  When every collaborator answers, the cycle shows and
    speaks the description of the labels the service returned for the
    object it uploaded: the upload and the analysis name the same bucket
    and the same key, the analysis follows the upload, and the flag is
    clear at the end. *)
Theorem takePicture_success rendered w s t photo data binaryString response :
  let t1 := (spoken w t "Opening camera" ++ [CameraTakePicture])%list in
  let t2 := (spoken w t1 "Analyzing" ++ [DateNow])%list in
  let key := objectKey (dateNow w t2) in
  let t4 := (t2 ++ [S3Send (mkPut (S3_BUCKET (env w)) key (bytesOfBinaryString binaryString)
                                  "image/jpeg")])%list in
  let t5 := (t4 ++ [RekognitionSend (mkDetect (S3_BUCKET (env w)) key 10 70)])%list in
  let description :=
    describe (physicalObjects (allLabels (Labels response))) (fst (measure rendered w t5)) in
  analyzing rendered = false -> CameraModule w = true ->
  cameraTakePicture w t1 = Resolved photo ->
  imageData photo = Some data ->
  atob data = Some binaryString ->
  s3Send w t4 = Resolved tt ->
  rekognitionSend w t5 = Resolved response ->
  takePicture rendered w s t =
  (Resolved tt, mkState false description (hasLiDAR s) (arSessionActive s),
   spoken w (snd (measure rendered w t5)) description).
Proof.
  intros t1 t2 key t4 t5 description Ha Hc Hcam Himg Hatob Hs3 Hrek.
  rewrite takePicture_run by assumption.
  rewrite (attempt_success _ _ _ _ photo data binaryString response) by assumption.
  reflexivity.
Qed.

End Success.

(** ** What a cycle may change *)

(** The events a cycle asks of its collaborators outside [speakText]. *)
Definition cycleEvent (ev : Event) : bool :=
  match ev with
  | CameraTakePicture | DateNow | S3Send _ | RekognitionSend _
  | GetDepthAtCenter => true
  | _ => false
  end.

(** A relation that the steps of a capture cycle respect: its own
    events, a whole call of [speakText], and the writes of the busy flag
    and of the result.  Weaker than [CycleFrame], which asks the same of
    every event. *)
Class TapFrame (R : relation (ScreenState * trace)) : Prop := {
  tap_preorder :: PreOrder R;
  tap_event : forall s t ev, cycleEvent ev = true -> R (s, t) (s, t ++ [ev])%list;
  tap_spoken : forall w s t text, R (s, t) (s, spoken w t text);
  tap_analyzing : forall s t b, R (s, t) (withAnalyzing b s, t);
  tap_result : forall s t r, R (s, t) (withResult r s, t)
}.

#[export] Instance CycleFrame_TapFrame R `{!CycleFrame R} : TapFrame R.
Proof.
  split; [exact _ | intros; apply frame_event | | apply frame_analyzing | apply frame_result].
  intros w s t text. unfold spoken.
  destruct (speechStop w _); [destruct (speechSpeak w _)|];
    repeat (etransitivity; [|apply frame_event]); reflexivity.
Qed.

(** The relation of a property of traces that, once true, stays true. *)
Definition keeps (P : trace -> Prop) : relation (ScreenState * trace) :=
  fun a b => P (snd a) -> P (snd b).

#[export] Instance keeps_PreOrder P : PreOrder (keeps P).
Proof. split; unfold keeps; [intros a; auto | intros a b c; auto]. Qed.

(** A property of traces that the events of a cycle and the calls of
    [speakText] keep is kept by every step of a cycle. *)
Lemma keeps_TapFrame (P : trace -> Prop) :
  (forall t ev, cycleEvent ev = true -> P t -> P (t ++ [ev])%list) ->
  (forall w t text, P t -> P (spoken w t text)) ->
  TapFrame (keeps P).
Proof.
  intros Hev Hsp. split; [exact _ | | | |]; unfold keeps; cbn [snd]; intros; eauto.
Qed.

(** Apply the preservation lemma of the head combinator or primitive. *)
Ltac frame_step :=
  first
  [ apply preserves_bind; [exact _ | | intros ?]
  | apply preserves_try_catch; [exact _ | | intros ?]
  | apply preserves_try_finally; [exact _ | | ]
  | apply preserves_if
  | apply preserves_ret; exact _
  | apply preserves_throw; exact _
  | apply preserves_world; exact _
  | apply preserves_call; intros; apply tap_event; reflexivity
  | apply preserves_ask; intros; apply tap_event; reflexivity
  | apply preserves_setAnalyzing; intros; apply tap_analyzing
  | apply preserves_setResult; intros; apply tap_result ].

Section Frame.
Context (R : relation (ScreenState * trace)) `{!TapFrame R}.

Lemma speakText_preserves text : preserves R (speakText text).
Proof. intros w s t. unfold post. rewrite speakText_run. apply tap_spoken. Qed.

Lemma getARKitDistance_preserves rendered : preserves R (getARKitDistance rendered).
Proof. unfold getARKitDistance. repeat frame_step. Qed.

Lemma base64ToUint8Array_preserves data : preserves R (base64ToUint8Array data).
Proof. unfold base64ToUint8Array. destruct (atob data); repeat frame_step. Qed.

Lemma attempt_preserves rendered : preserves R (attempt rendered).
Proof.
  unfold attempt. frame_step; [repeat frame_step|].
  destruct (imageData _);
    repeat first [ apply speakText_preserves | apply getARKitDistance_preserves
                 | apply base64ToUint8Array_preserves | frame_step ].
Qed.

Lemma recover_preserves e : preserves R (recover e).
Proof.
  unfold recover. repeat first [apply speakText_preserves | frame_step].
Qed.

(** Every relation that events and writes of the flag and of the result
    respect is preserved by the whole handler. *)
Lemma takePicture_preserves rendered : preserves R (takePicture rendered).
Proof.
  unfold takePicture.
  repeat first [ apply speakText_preserves | apply attempt_preserves
               | apply recover_preserves | frame_step ].
Qed.

End Frame.

(** ** Taps *)

Section Taps.
Implicit Types (w : World) (s : ScreenState) (t : trace).

(** A cycle that starts begins by stopping the current utterance. *)
Lemma takePicture_started rendered w s t :
  analyzing rendered = false -> CameraModule w = true ->
  exists added, snd (takePicture rendered w s t) = (t ++ SpeechStop :: added)%list.
Proof.
  intros Ha Hc. rewrite takePicture_run by assumption.
  destruct (spoken_added w t "Opening camera") as (a1 & -> & _).
  pose proof (attempt_preserves advances rendered w (withAnalyzing true s)
                (t ++ SpeechStop :: a1)%list) as H.
  unfold post in H. destruct (attempt rendered w _ _) as [[o s2] t2].
  destruct H as (_ & _ & a2 & H). cbn [snd] in H. subst t2.
  destruct (settle_trace w o s2 ((t ++ SpeechStop :: a1) ++ a2)%list) as (a3 & ->).
  rewrite <- !app_assoc. cbn [app]. eauto.
Qed.

(** C10 (re-entrancy guard).  A tap does nothing, no state change and no
    event, exactly when the rendered state is busy or the camera module
    is missing: the guard is the only early return, and every cycle that
    passes it is heard. *)
Theorem takePicture_ignored rendered w s t :
  takePicture rendered w s t = (Resolved tt, s, t) <->
  analyzing rendered = true \/ CameraModule w = false.
Proof.
  split; [|apply takePicture_guard]. intros H.
  destruct (analyzing rendered) eqn:Ha; [auto|].
  destruct (CameraModule w) eqn:Hc; [|auto].
  destruct (takePicture_started rendered w s t Ha Hc) as (added & E).
  rewrite H in E. cbn [snd] in E. apply (f_equal (@length _)) in E.
  rewrite length_app in E. cbn [length] in E. lia.
Qed.

(** A tap on an idle screen leaves an idle screen. *)
Lemma tap_idle w s t : analyzing s = false -> analyzing (fst (tap w s t)) = false.
Proof.
  intros Hs. unfold tap. destruct (CameraModule w) eqn:Hc.
  - rewrite takePicture_run by assumption.
    destruct (settle_resolves w (attempt s w (withAnalyzing true s)
                                   (spoken w t "Opening camera"))) as (s' & t' & -> & H).
    exact H.
  - rewrite takePicture_guard by auto. assumption.
Qed.

(** A tap respects every relation that the steps of a cycle respect. *)
Lemma tap_preserves (R : relation (ScreenState * trace)) `{!TapFrame R} w s t :
  R (s, t) (tap w s t).
Proof.
  pose proof (takePicture_preserves R s w s t) as H.
  unfold post, tap in *. destruct (takePicture s w s t) as [[r s'] t']. exact H.
Qed.

(** A tap never changes what the screen knows about the sensor and never
    removes an event: the trace after the tap is the trace before it
    followed by the events of the cycle. *)
Lemma tap_advances w s t :
  hasLiDAR (fst (tap w s t)) = hasLiDAR s /\
  arSessionActive (fst (tap w s t)) = arSessionActive s /\
  exists added, snd (tap w s t) = (t ++ added)%list.
Proof. exact (tap_preserves advances w s t). Qed.

(** The trace of a tap: untouched behind the guard, otherwise the trace
    of the settled [try] block. *)
Lemma tap_trace w s t :
  snd (tap w s t) =
  if analyzing s || negb (CameraModule w) then t
  else snd (settle w (attempted s w (withAnalyzing true s) (spoken w t "Opening camera"))).
Proof.
  unfold tap. destruct (analyzing s) eqn:Ha; [|destruct (CameraModule w) eqn:Hc]; cbn [orb negb].
  - now rewrite takePicture_guard by auto.
  - rewrite takePicture_run, attempt_run by assumption.
    now destruct (settle w _) as [[r s'] t'].
  - now rewrite takePicture_guard by auto.
Qed.

End Taps.

(** ** Sample worlds *)

(** An environment with the four variables set. *)
Definition deviceEnv : Environment :=
  environment
    [("AWS_ACCESS_KEY_ID", "AKIAEXAMPLE"); ("AWS_SECRET_ACCESS_KEY", "example");
     ("AWS_REGION", "eu-west-1"); ("AWS_S3_BUCKET", "bucket")].

(** A world in which everything works and the device has no depth sensor:
    the camera returns a small image, the service returns a chair and a
    scene label. *)
Definition quietWorld : World :=
  mkWorld false true deviceEnv
    (fun _ => Resolved tt) (fun _ => Resolved tt)
    (fun _ => Resolved (Some (mkPhoto (Some "aGk="))))
    (fun _ => 1700000000000%float)
    (newError "Invalid character")
    (fun _ _ => Resolved tt)
    (fun _ _ => Resolved (mkResponse (Some [chair; interiorDesign])))
    (fun _ => Resolved false) (fun _ => Resolved tt) (fun _ => Resolved tt)
    (fun _ => Rejected (newError "no sensor")).

(** A device on which no variable is set, and services that refuse the
    placeholder key. *)
Definition unconfiguredWorld : World :=
  let refused :=
    mkError (Some "InvalidAccessKeyId") (Some "The AWS Access Key Id does not exist")
            "InvalidAccessKeyId: The AWS Access Key Id does not exist" in
  let known (config : AwsConfig) :=
    negb (accessKeyId (credentials config) =? "YOUR_ACCESS_KEY_HERE") in
  mkWorld false true (environment [])
    (fun _ => Resolved tt) (fun _ => Resolved tt)
    (fun _ => Resolved (Some (mkPhoto (Some "aGk="))))
    (fun _ => 1700000000000%float)
    (newError "Invalid character")
    (fun client _ => if known (s3Config client) then Resolved tt else Rejected refused)
    (fun client _ => if known (rekognitionConfig client)
                     then Resolved (mkResponse (Some [chair])) else Rejected refused)
    (fun _ => Resolved false) (fun _ => Resolved tt) (fun _ => Resolved tt)
    (fun _ => Rejected (newError "no sensor")).

(** The quiet world with a user who cancels the capture. *)
Definition cancellingWorld : World :=
  mkWorld false true deviceEnv
    (fun _ => Resolved tt) (fun _ => Resolved tt)
    (fun _ => Rejected (mkError (Some "CANCELLED") (Some "User cancelled") "Error: User cancelled"))
    (fun _ => 1700000000000%float)
    (newError "Invalid character")
    (fun _ _ => Resolved tt)
    (fun _ _ => Resolved (mkResponse (Some [chair])))
    (fun _ => Resolved false) (fun _ => Resolved tt) (fun _ => Resolved tt)
    (fun _ => Rejected (newError "no sensor")).

(** The same world with an object store that cannot be reached. *)
Definition offlineWorld : World :=
  mkWorld false true deviceEnv
    (fun _ => Resolved tt) (fun _ => Resolved tt)
    (fun _ => Resolved (Some (mkPhoto (Some "aGk="))))
    (fun _ => 1700000000000%float)
    (newError "Invalid character")
    (fun _ _ => Rejected (newError "Network request failed"))
    (fun _ _ => Resolved (mkResponse (Some [chair])))
    (fun _ => Resolved false) (fun _ => Resolved tt) (fun _ => Resolved tt)
    (fun _ => Rejected (newError "no sensor")).

(** A device with the sensor, which reads 1.27 length units. *)
Definition lidarWorld : World :=
  mkWorld true true deviceEnv
    (fun _ => Resolved tt) (fun _ => Resolved tt)
    (fun _ => Resolved (Some (mkPhoto (Some "aGk="))))
    (fun _ => 1700000000000%float)
    (newError "Invalid character")
    (fun _ _ => Resolved tt)
    (fun _ _ => Resolved (mkResponse (Some [chair; bottle])))
    (fun _ => Resolved true) (fun _ => Resolved tt) (fun _ => Resolved tt)
    (fun _ => Resolved (mkDepth 1.27%float)).

Definition busyState : ScreenState := mkState true "Analyzing image..." false false.

Lemma takePicture_ignored_witness :
  takePicture busyState quietWorld busyState [] = (Resolved tt, busyState, []).
Proof. apply takePicture_ignored. left. reflexivity. Defined.

Lemma base64ToUint8Array_encode_witness :
  base64ToUint8Array (encode [255; 216; 255; 224]%N) quietWorld initialState [] =
  (Resolved [255; 216; 255; 224]%N, initialState, []).
Proof. apply base64ToUint8Array_encode. repeat constructor. Defined.

(** Text that is not base64 is refused with the runtime's error, whose
    code is absent, and the cycle reports it like any other failure. *)
Example base64ToUint8Array_refuses :
  base64ToUint8Array "a" quietWorld initialState [] =
  (Rejected (mkError None (Some "Invalid character") "Error: Invalid character"),
   initialState, []).
Proof. reflexivity. Qed.

Example takePicture_heard :
  takePicture initialState quietWorld initialState [] <> (Resolved tt, initialState, []).
Proof. vm_compute. discriminate. Qed.

Lemma takePicture_settles_witness :
  exists s' t',
    takePicture initialState offlineWorld initialState [] = (Resolved tt, s', t') /\
    (analyzing initialState = false -> CameraModule offlineWorld = true -> analyzing s' = false).
Proof. apply takePicture_settles. Defined.

Lemma takePicture_cancelled_witness :
  takePicture initialState cancellingWorld initialState [] =
  (Resolved tt, mkState false "" false false,
   [SpeechStop; SpeechSpeak "Opening camera" speechOptions; CameraTakePicture]).
Proof.
  apply (takePicture_cancelled initialState cancellingWorld initialState []
           (mkError (Some "CANCELLED") (Some "User cancelled") "Error: User cancelled"));
    reflexivity.
Defined.

Lemma takePicture_failed_witness :
  takePicture initialState offlineWorld initialState [] =
  (Resolved tt,
   withAnalyzing false
     (withResult ("Analysis failed: " ++ errorDetails (newError "Network request failed"))
        (withResult "Analyzing image..." (withAnalyzing true initialState))),
   spoken offlineWorld
     [SpeechStop; SpeechSpeak "Opening camera" speechOptions; CameraTakePicture;
      SpeechStop; SpeechSpeak "Analyzing" speechOptions; DateNow;
      S3Send (mkPut "bucket" "analysis/1700000000000.jpg" [104%N; 105%N] "image/jpeg")]
     "Analysis failed. Please try again.").
Proof.
  apply (takePicture_failed initialState offlineWorld initialState []); reflexivity.
Defined.

Lemma getARKitDistance_total_witness :
  exists reading added,
    getARKitDistance (withHasLiDAR true initialState) lidarWorld initialState [] =
    (Resolved reading, initialState, ([] ++ added)%list) /\
    ((hasLiDAR (withHasLiDAR true initialState) && ARKitDepthModule lidarWorld = false /\
      reading = None /\ added = []) \/
     (hasLiDAR (withHasLiDAR true initialState) && ARKitDepthModule lidarWorld = true /\
      added = [GetDepthAtCenter] /\
      match getDepthAtCenter lidarWorld ([] ++ [GetDepthAtCenter])%list with
      | Resolved depthData => reading = Some (distance depthData)
      | Rejected _ => reading = None
      end)).
Proof. apply getARKitDistance_total. Defined.

Lemma takePicture_success_witness :
  takePicture (withHasLiDAR true initialState) lidarWorld (withHasLiDAR true initialState) [] =
  (Resolved tt,
   mkState false
     "Objects are approximately 1.3 feet away. I see a chair on your left, a bottle below and on your right."
     true false,
   [SpeechStop; SpeechSpeak "Opening camera" speechOptions; CameraTakePicture;
    SpeechStop; SpeechSpeak "Analyzing" speechOptions; DateNow;
    S3Send (mkPut "bucket" "analysis/1700000000000.jpg" [104%N; 105%N] "image/jpeg");
    RekognitionSend (mkDetect "bucket" "analysis/1700000000000.jpg" 10 70);
    GetDepthAtCenter; SpeechStop;
    SpeechSpeak
      "Objects are approximately 1.3 feet away. I see a chair on your left, a bottle below and on your right."
      speechOptions]).
Proof.
  etransitivity.
  - apply (takePicture_success _ lidarWorld _ [] (Some (mkPhoto (Some "aGk="))) "aGk=" "hi"
             (mkResponse (Some [chair; bottle]))); reflexivity.
  - vm_compute. reflexivity.
Defined.

(** The whole cycle in the quiet world, from the first render. *)
Example tap_quietWorld :
  tap quietWorld initialState [] =
  (mkState false "Objects detected. I see a chair about 8 to 10 feet away on your left."
           false false,
   [SpeechStop; SpeechSpeak "Opening camera" speechOptions; CameraTakePicture;
    SpeechStop; SpeechSpeak "Analyzing" speechOptions; DateNow;
    S3Send (mkPut "bucket" "analysis/1700000000000.jpg" [104%N; 105%N] "image/jpeg");
    RekognitionSend (mkDetect "bucket" "analysis/1700000000000.jpg" 10 70);
    SpeechStop;
    SpeechSpeak "Objects detected. I see a chair about 8 to 10 feet away on your left."
                speechOptions]).
Proof. vm_compute. reflexivity. Qed.

(** The store fails: the message of the error is shown and the apology
    spoken. *)
Example tap_offlineWorld :
  fst (tap offlineWorld initialState []) =
  mkState false "Analysis failed: Network request failed" false false.
Proof. vm_compute. reflexivity. Qed.
