(* ===== verification/Thrown.v ===== *)
(** * Thrown: the catch clauses on a value that is no object

    [throw] takes any value, and [catch (error: any)] receives it.  The
    tasks of [Cycle] are written for the values of which properties can
    be read ([JsError]): an error object, or a primitive, whose
    properties are [undefined].  The two values of which no property can
    be read are [null] and [undefined].  Here the [catch] clauses of
    [speakText] (lines 79-83) and of [takePicture] (lines 270-281) are
    written once more, for every thrown value, with the property reads
    as the source has them: [error.code] and [error.message] plain,
    [error?.message] and [error?.toString()] optional.

    The theorems: on an object the clauses are the handlers of [Cycle];
    on [null] and [undefined] each clause throws the [TypeError] of its
    first plain read, before anything is shown or said, so the optional
    reads of line 277 never see such a value; when it is the first
    utterance of a cycle that fails so, [takePicture] rejects before its
    [try] and the busy flag stays up ([opened_nullish]). *)

From S2P Require Import Prelude JsNumber JsString Collaborators Cycle.

Local Open Scope string_scope.
Local Open Scope task_scope.

(** What a [catch] clause receives. *)
Inductive Thrown : Set :=
| nullish
| object (error : JsError).

Section Clauses.

(** The [TypeError] of reading the named property of [null] or
    [undefined]; its text is the engine's. *)
Variable typeError : string -> JsError.

(** [error.name]. *)
Definition member {A : Type} (name : string) (get : JsError -> A) (error : Thrown) :
    outcome A :=
  match error with
  | object e => Resolved (get e)
  | nullish => Rejected (typeError name)
  end.

(** [error?.name]. *)
Definition optional {A : Type} (get : JsError -> option A) (error : Thrown) : option A :=
  match error with
  | object e => get e
  | nullish => None
  end.

(** The [catch] clause of [speakText] (lines 79-83). *)
Definition speakTextCatch (error : Thrown) : Task unit :=
  match member "message" message error with
  | Resolved text => emit (AlertAlert "TTS Error" ("Could not speak: " ++ templateString text))
  | Rejected e => throw e
  end.

(** The [catch] clause of [takePicture] (lines 270-281). *)
Definition takePictureCatch (error : Thrown) : Task unit :=
  match member "code" code error with
  | Rejected e => throw e
  | Resolved c =>
      if match c with Some c => c =? "CANCELLED" | None => false end then
        setResult "" ;;
        setAnalyzing false
      else
        let errorDetails :=
          js_or (optional message error)
                (js_or (optional (fun e => Some (toString e)) error) "Unknown error") in
        setResult ("Analysis failed: " ++ errorDetails) ;;
        speakText "Analysis failed. Please try again."
  end.

(** The statement of lines 106-284 around a [try] block that throws
    [error]. *)
Definition caught (error : Thrown) : Task unit :=
  try_finally (takePictureCatch error) (setAnalyzing false).

(** [speakText] (lines 64-84) when [Speech.stop()] throws [error]. *)
Definition speakTextStopped (error : Thrown) : Task unit :=
  emit SpeechStop ;; speakTextCatch error.

(** [takePicture] past its guard (lines 103-284) when the [Speech.stop()]
    of its first utterance throws [error]: line 104 stands before the
    [try], so what [speakText] throws leaves [takePicture] at once. *)
Definition opened (error : Thrown) (rest : Task unit) : Task unit :=
  setAnalyzing true ;; speakTextStopped error ;; rest.

(** ** On an object *)

Lemma speakTextCatch_object e :
  speakTextCatch (object e) =
  emit (AlertAlert "TTS Error" ("Could not speak: " ++ templateString (message e))).
Proof. reflexivity. Qed.

Lemma speakText_clause text w s t :
  speakText text w s t =
  try_catch (call SpeechStop speechStop ;; call (SpeechSpeak text speechOptions) speechSpeak)
            (fun e => speakTextCatch (object e)) w s t.
Proof. reflexivity. Qed.

Lemma takePictureCatch_object e : takePictureCatch (object e) = recover e.
Proof. reflexivity. Qed.

Lemma takePicture_clause rendered w s t :
  CameraModule w = true -> analyzing rendered = false ->
  takePicture rendered w s t =
  (setAnalyzing true ;; speakText "Opening camera" ;;
   try_finally (try_catch (attempt rendered) (fun e => takePictureCatch (object e)))
               (setAnalyzing false)) w s t.
Proof.
  intros Hc Ha. unfold takePicture, bind at 1, world. now rewrite Hc, Ha.
Qed.

(** ** On [null] and [undefined] *)

Lemma speakTextCatch_nullish w s t :
  speakTextCatch nullish w s t = (Rejected (typeError "message"), s, t).
Proof. reflexivity. Qed.

Lemma takePictureCatch_nullish w s t :
  takePictureCatch nullish w s t = (Rejected (typeError "code"), s, t).
Proof. reflexivity. Qed.

(** A plain read succeeds on objects only. *)
Lemma member_Resolved {A : Type} name (get : JsError -> A) error a :
  member name get error = Resolved a -> exists e, error = object e /\ get e = a.
Proof. destruct error as [|e]; [discriminate|]. intros [= <-]. eauto. Qed.

(** The optional reads of line 277 come after the plain read of line
    271: they never see [null] or [undefined], and the text
    ['Unknown error'] is that of an object without a message whose
    [toString()] is empty. *)
Lemma optional_after_plain {A B : Type} name (get : JsError -> A) (get' : JsError -> option B)
    error a :
  member name get error = Resolved a ->
  exists e, error = object e /\ optional get' error = get' e.
Proof. intros H. apply member_Resolved in H as (e & -> & _). eauto. Qed.

(** ** The first utterance *)

(** On an object [speakText] shows the alert and [takePicture] goes on. *)
Lemma opened_object e rest w s t :
  opened (object e) rest w s t =
  rest w (withAnalyzing true s)
       (t ++ [SpeechStop;
              AlertAlert "TTS Error" ("Could not speak: " ++ templateString (message e))%string])%list.
Proof.
  unfold opened, speakTextStopped, bind, setAnalyzing, emit. cbn.
  now rewrite <- app_assoc.
Qed.

(** On [null] and [undefined] the [catch] clause of [speakText] throws
    at the read of line 82: [takePicture] rejects before its [try], and
    nothing lowers the busy flag it raised on line 103. *)
Lemma opened_nullish rest w s t :
  opened nullish rest w s t =
  (Rejected (typeError "message"), withAnalyzing true s, (t ++ [SpeechStop])%list).
Proof. reflexivity. Qed.

(** ** The whole statement *)

Lemma caught_object e w s t : caught (object e) w s t = settle w (Rejected e, s, t).
Proof.
  unfold caught, try_finally. rewrite takePictureCatch_object. unfold recover. cbn [settle].
  destruct (isCancelled e); [reflexivity|].
  unfold bind, setResult. now rewrite speakText_run.
Qed.

Lemma caught_nullish w s t :
  caught nullish w s t = (Rejected (typeError "code"), withAnalyzing false s, t).
Proof. reflexivity. Qed.

(** C19 (a thrown value that is no object).  Around a [try] block that
    throws an object, the [catch] and [finally] clauses of [takePicture]
    leave what [settle] says: the cancellation or the failure shown and
    the apology spoken, the promise resolved.  Around one that throws
    [null] or [undefined] the [catch] clause itself throws at the read
    of line 271: [takePicture] rejects with that [TypeError], nothing is
    shown and nothing is said; only the busy flag is cleared.  The
    promise of [takePicture] is rejected by its [try] statement in no
    other case.  When it is the [Speech.stop()] of the first utterance
    that throws [null] or [undefined], [takePicture] rejects before the
    [try] statement, and the busy flag stays up. *)
Theorem caught_spec error w s t :
  caught error w s t =
    match error with
    | object e => settle w (Rejected e, s, t)
    | nullish => (Rejected (typeError "code"), withAnalyzing false s, t)
    end /\
  ((exists e, fst (fst (caught error w s t)) = Rejected e) <-> error = nullish) /\
  (forall rest,
     opened nullish rest w s t =
     (Rejected (typeError "message"), withAnalyzing true s, (t ++ [SpeechStop])%list)).
Proof.
  split; [|split; [|intros rest; apply opened_nullish]]; destruct error as [|e].
  - apply caught_nullish.
  - apply caught_object.
  - rewrite caught_nullish. cbn. intuition eauto.
  - rewrite caught_object.
    destruct (settle_resolves w (Rejected e, s, t)) as (s' & t' & -> & _).
    cbn. split; [intros [? [=]]|discriminate].
Qed.

End Clauses.

(** ** Examples *)

(** A camera module that rejects with [undefined]: the screen keeps the
    text it had and nothing is spoken, where an error object with neither
    message nor text is reported as unknown. *)
Example caught_undefined :
  let typeError name :=
    mkError None (Some ("Cannot read property '" ++ name ++ "' of undefined"))
            ("TypeError: Cannot read property '" ++ name ++ "' of undefined") in
  caught typeError nullish quietWorld (withAnalyzing true initialState) [] =
    (Rejected (typeError "code"), initialState, []) /\
  opened typeError nullish (attempt initialState) quietWorld initialState [] =
    (Rejected (typeError "message"), withAnalyzing true initialState, [SpeechStop]) /\
  caught typeError (object (mkError None None "")) quietWorld (withAnalyzing true initialState) [] =
    (Resolved tt, withResult "Analysis failed: Unknown error" initialState,
     [SpeechStop; SpeechSpeak "Analysis failed. Please try again." speechOptions]).
Proof. split; [|split]; reflexivity. Qed.
