(* ===== verification/Lifecycle.v ===== *)
(** * Lifecycle: mounting, the depth session, the view

    [checkLiDAR] (lines 39-53), the mount effect with its cleanup (lines
    30-37), the life of the screen as a sequence of taps after the mount,
    and the view that [HomeScreen] renders from its state (lines
    287-336). *)

From S2P Require Import Prelude JsNumber JsString Labels Describe Collaborators Cycle.

Local Open Scope string_scope.
Local Open Scope task_scope.

(** ** The depth session *)

(** [checkLiDAR] (lines 39-53). *)
Definition checkLiDAR : Task unit :=
  has <- world ARKitDepthModule ;;
  if has then
    try_catch
      (available <- call IsLiDARAvailable isLiDARAvailable ;;
       setHasLiDAR available ;;
       if available then
         call StartDepthSession startDepthSession ;;
         setArSessionActive true
       else ret tt)
      (fun _ => ret tt)
  else ret tt.

(** The cleanup function of lines 32-36, created by the render whose
    state is [rendered].  The call is not awaited: its outcome is
    dropped. *)
Definition cleanup (rendered : ScreenState) : Task unit :=
  has <- world ARKitDepthModule ;;
  if arSessionActive rendered && has then
    try_catch (call StopDepthSession stopDepthSession) (fun _ => ret tt)
  else ret tt.

(** The effect of lines 30-37 as created by a render: what it runs and
    the cleanup it returns. *)
Definition effect (rendered : ScreenState) : Task unit * Task unit :=
  (checkLiDAR, cleanup rendered).

(** The dependency list of line 37 is empty: the effect of the first
    render runs once, at mount, and its cleanup runs at unmount. *)
Definition mount : Task unit := fst (effect initialState).

Definition unmount : Task unit := snd (effect initialState).

(** ** The life of the screen *)

(** The states and traces the screen can be in between two events: after
    the mount, and after each tap. *)
Inductive session (w : World) : ScreenState -> trace -> Prop :=
| session_mount r s t :
    mount w initialState [] = (r, s, t) -> session w s t
| session_tap s t s' t' :
    session w s t -> tap w s t = (s', t') -> session w s' t'.

(** ** The view *)

(** The middle of the screen (lines 299-314). *)
Inductive Body : Set :=
| ResultText (text : string)
| Instructions (lidarSubtext : bool).

(** What the JSX of lines 287-336 shows, as far as it depends on the
    state. *)
Record View : Set := mkView {
  lidarBadge : bool;
  body : Body;
  buttonDisabled : bool;
  buttonSpinner : bool;
  buttonLabel : string
}.

Definition render (s : ScreenState) : View :=
  mkView
    (hasLiDAR s)
    (if to_boolean (result s) then ResultText (result s) else Instructions (hasLiDAR s))
    (analyzing s)
    (analyzing s)
    (if analyzing s then "Analyzing..." else "Tap to Analyze").

(** ** Mounting *)

Section Mount.
Implicit Types (w : World) (s rendered : ScreenState) (t : trace).

(** The state and the trace after [checkLiDAR], by cases on the world. *)
Lemma checkLiDAR_run w s t :
  checkLiDAR w s t =
  if ARKitDepthModule w then
    match isLiDARAvailable w (t ++ [IsLiDARAvailable])%list with
    | Rejected _ => (Resolved tt, s, (t ++ [IsLiDARAvailable])%list)
    | Resolved false => (Resolved tt, withHasLiDAR false s, (t ++ [IsLiDARAvailable])%list)
    | Resolved true =>
        match startDepthSession w ((t ++ [IsLiDARAvailable]) ++ [StartDepthSession])%list with
        | Resolved _ =>
            (Resolved tt, withArSessionActive true (withHasLiDAR true s),
             ((t ++ [IsLiDARAvailable]) ++ [StartDepthSession])%list)
        | Rejected _ =>
            (Resolved tt, withHasLiDAR true s,
             ((t ++ [IsLiDARAvailable]) ++ [StartDepthSession])%list)
        end
    end
  else (Resolved tt, s, t).
Proof.
  unfold checkLiDAR, bind, world, try_catch, call, setHasLiDAR, setArSessionActive, ret.
  destruct (ARKitDepthModule w); [|reflexivity].
  destruct (isLiDARAvailable w _) as [[|]|e]; try reflexivity.
  destruct (startDepthSession w _) as [[]|e]; reflexivity.
Qed.


(** The cleanup of a render that saw no active session does nothing. *)
Lemma cleanup_inactive rendered w s t :
  arSessionActive rendered = false -> cleanup rendered w s t = (Resolved tt, s, t).
Proof. intros H. unfold cleanup, bind, world. now rewrite H. Qed.

(** The cleanup of a render that saw the session active stops it. *)
Lemma cleanup_active rendered w s t :
  arSessionActive rendered = true -> ARKitDepthModule w = true ->
  cleanup rendered w s t = (Resolved tt, s, (t ++ [StopDepthSession])%list).
Proof.
  intros H Hm. unfold cleanup, bind, world, try_catch, call, ret. rewrite H, Hm. cbn [andb].
  destruct (stopDepthSession w _) as [[]|e]; reflexivity.
Qed.

(** The cleanup that runs at unmount is the one of the
    first render, which saw [arSessionActive = false]: it does nothing in
    any world and any state, so a session that [checkLiDAR] started is
    never stopped. *)
Theorem unmount_never_stops w s t : unmount w s t = (Resolved tt, s, t).
Proof. apply cleanup_inactive. reflexivity. Qed.

End Mount.

(** ** Invariants of the session *)

Section Session.
Implicit Types (w : World) (s : ScreenState) (t : trace).

(** The state after the mount: idle, with what [checkLiDAR] found. *)
Lemma mount_state w r s t :
  mount w initialState [] = (r, s, t) ->
  analyzing s = false /\ (arSessionActive s = true -> hasLiDAR s = true).
Proof.
  unfold mount, effect. cbn [fst]. rewrite checkLiDAR_run.
  destruct (ARKitDepthModule w);
    [destruct (isLiDARAvailable w _) as [[|]|e];
     [destruct (startDepthSession w _) as [[]|e]|..]|];
    intros H; injection H as <- <- <-; cbn; intuition congruence.
Qed.

(** Between any two events of the life of the screen, the busy flag is
    clear, and the session is marked active only on a device whose
    sensor is marked present. *)
Lemma session_idle w s t :
  session w s t ->
  analyzing s = false /\ (arSessionActive s = true -> hasLiDAR s = true).
Proof.
  induction 1 as [r s t Hm | s t s' t' Hs [IH1 IH2] Htap].
  - eapply mount_state; eassumption.
  - pose proof (tap_idle w s t IH1) as Hidle.
    pose proof (tap_advances w s t) as (Hl & Ha & _).
    rewrite Htap in *. cbn [fst] in *. split; [assumption|].
    rewrite Hl, Ha. assumption.
Qed.

(** After the mount the sensor cells never change and no event is lost. *)
Lemma session_sensor w s t :
  session w s t ->
  exists r s0 t0 added,
    mount w initialState [] = (r, s0, t0) /\
    hasLiDAR s = hasLiDAR s0 /\ arSessionActive s = arSessionActive s0 /\
    t = (t0 ++ added)%list.
Proof.
  induction 1 as [r s t Hm | s t s' t' Hs (r & s0 & t0 & a & Hm & H1 & H2 & ->) Htap].
  - exists r, s, t, []. now rewrite app_nil_r.
  - pose proof (tap_advances w s (t0 ++ a)%list) as (Hl & Ha & a' & Ht).
    rewrite Htap in *. cbn [fst snd] in *. exists r, s0, t0, (a ++ a')%list.
    rewrite app_assoc. intuition congruence.
Qed.

(** C18 (session invariant).  Between any two events of the life of the
    screen the busy flag is clear and the session is marked active only
    on a device whose sensor is marked present; whatever the taps, the
    screen knows about the sensor what [checkLiDAR] found at the mount,
    and the trace is the trace of the mount followed by the events of
    the cycles. *)
Theorem session_invariant w s t :
  session w s t ->
  analyzing s = false /\ (arSessionActive s = true -> hasLiDAR s = true) /\
  exists r s0 t0 added,
    mount w initialState [] = (r, s0, t0) /\
    hasLiDAR s = hasLiDAR s0 /\ arSessionActive s = arSessionActive s0 /\
    t = (t0 ++ added)%list.
Proof.
  intros H. destruct (session_idle w s t H) as [Hidle Hactive].
  auto using session_sensor.
Qed.

End Session.

(** ** The view *)

Section ViewFacts.
Implicit Types (s : ScreenState).

(** The view.  The button is disabled and shows the spinner exactly
    while the screen is busy; the result is shown exactly when it is not
    empty, and the instructions otherwise; the badge follows the sensor
    cell. *)
Theorem render_spec s :
  buttonDisabled (render s) = analyzing s /\
  buttonSpinner (render s) = analyzing s /\
  lidarBadge (render s) = hasLiDAR s /\
  (result s <> "" -> body (render s) = ResultText (result s)) /\
  (result s = "" -> body (render s) = Instructions (hasLiDAR s)).
Proof.
  unfold render. cbn. repeat split.
  - intros H. destruct (to_boolean (result s)) eqn:E; [reflexivity|].
    apply to_boolean_string_false in E. contradiction.
  - intros ->. reflexivity.
Qed.

End ViewFacts.

(** ** Sample worlds *)

(** A device that reports the sensor and fails to start the session. *)
Definition brokenSensorWorld : World :=
  mkWorld true true deviceEnv
    (fun _ => Resolved tt) (fun _ => Resolved tt)
    (fun _ => Resolved (Some (mkPhoto (Some "aGk="))))
    (fun _ => 1700000000000%float)
    (newError "Invalid character")
    (fun _ _ => Resolved tt)
    (fun _ _ => Resolved (mkResponse (Some [chair])))
    (fun _ => Resolved true)
    (fun _ => Rejected (newError "ARSession failed"))
    (fun _ => Resolved tt)
    (fun _ => Rejected (newError "no depth data")).

Example checkLiDAR_lidarWorld :
  checkLiDAR lidarWorld initialState [] =
  (Resolved tt, mkState false "" true true, [IsLiDARAvailable; StartDepthSession]).
Proof. reflexivity. Qed.

(** The screen of a device with the sensor, after the mount and one tap. *)
Definition tapped : ScreenState * trace :=
  tap lidarWorld (mkState false "" true true) [IsLiDARAvailable; StartDepthSession].

Lemma session_tapped : session lidarWorld (fst tapped) (snd tapped).
Proof.
  eapply session_tap; [eapply (session_mount lidarWorld (Resolved tt)); reflexivity|].
  apply surjective_pairing.
Qed.

Lemma session_invariant_witness :
  analyzing (fst tapped) = false /\
  (arSessionActive (fst tapped) = true -> hasLiDAR (fst tapped) = true) /\
  exists r s0 t0 added,
    mount lidarWorld initialState [] = (r, s0, t0) /\
    hasLiDAR (fst tapped) = hasLiDAR s0 /\
    arSessionActive (fst tapped) = arSessionActive s0 /\
    snd tapped = (t0 ++ added)%list.
Proof. apply (session_invariant lidarWorld), session_tapped. Defined.

(** The session outlives the screen: on a device with the sensor, the
    session started at mount is still marked active after the unmount,
    and the trace of the whole life of the screen holds no stop. *)
Example mounted_then_unmounted :
  let '(_, s1, t1) := mount lidarWorld initialState [] in
  let '(_, s2, t2) := unmount lidarWorld s1 t1 in
  arSessionActive s2 = true /\ t2 = [IsLiDARAvailable; StartDepthSession].
Proof. vm_compute. auto. Qed.

(** What the mount leaves on a device that reports the sensor and fails
    to start the session. *)
Lemma mount_broken_sensor w e :
  ARKitDepthModule w = true ->
  isLiDARAvailable w [IsLiDARAvailable] = Resolved true ->
  startDepthSession w [IsLiDARAvailable; StartDepthSession] = Rejected e ->
  mount w initialState [] =
  (Resolved tt, withHasLiDAR true initialState, [IsLiDARAvailable; StartDepthSession]).
Proof.
  intros Hm Ha Hs. unfold mount, effect. cbn [fst]. rewrite checkLiDAR_run, Hm.
  cbn [app]. now rewrite Ha, Hs.
Qed.

(** C26 (badge without session).  On a device that reports the sensor
    and fails to start the session, over the whole life of the screen
    the badge is shown although the session is not active, and every
    cycle that comes to the reading asks the sensor for one. *)
Theorem broken_sensor_badge w e s t :
  ARKitDepthModule w = true ->
  isLiDARAvailable w [IsLiDARAvailable] = Resolved true ->
  startDepthSession w [IsLiDARAvailable; StartDepthSession] = Rejected e ->
  session w s t ->
  lidarBadge (render s) = true /\ arSessionActive s = false /\
  forall t', snd (measure s w t') = (t' ++ [GetDepthAtCenter])%list.
Proof.
  intros Hm Ha Hs H.
  destruct (session_sensor w s t H) as (r & s0 & t0 & added & Hmount & Hl & Hact & _).
  rewrite (mount_broken_sensor w e Hm Ha Hs) in Hmount. injection Hmount as _ <- _.
  cbn in Hl, Hact. repeat split; [assumption..|].
  intros t'. unfold measure. rewrite Hl, Hm. cbn [andb].
  now destruct (getDepthAtCenter w _).
Qed.

Lemma broken_sensor_badge_witness :
  lidarBadge (render (withHasLiDAR true initialState)) = true /\
  arSessionActive (withHasLiDAR true initialState) = false /\
  forall t', snd (measure (withHasLiDAR true initialState) brokenSensorWorld t') =
             (t' ++ [GetDepthAtCenter])%list.
Proof.
  apply (broken_sensor_badge brokenSensorWorld (newError "ARSession failed") _
           [IsLiDARAvailable; StartDepthSession]); try reflexivity.
  apply (session_mount brokenSensorWorld (Resolved tt)). reflexivity.
Defined.

(** On such a device the reading fails and the cycle falls back to the
    estimates. *)
Example broken_sensor_tap :
  let '(_, s1, t1) := mount brokenSensorWorld initialState [] in
  lidarBadge (render s1) = true /\ arSessionActive s1 = false /\
  result (fst (tap brokenSensorWorld s1 t1)) =
  "Objects detected. I see a chair about 8 to 10 feet away on your left.".
Proof. vm_compute. auto. Qed.

(** After a cancelled capture the instructions are shown again. *)
Example cancelled_shows_instructions :
  body (render (fst (tap cancellingWorld initialState []))) = Instructions false.
Proof. vm_compute. reflexivity. Qed.
