(* ===== verification/Console.v ===== *)
(** * Console: what the handlers write to the console

    The handlers of the component write to the console as they go
    (lines 47, 50, 66, 78, 80, 95, 107, 114 and 279).  Nothing the
    program does depends on it: the tasks of [Cycle] and [Lifecycle] are
    the handlers without these statements.  Here the handlers are written
    once more with them, over a [Journal] that records the calls to the
    collaborators and the lines of the console in the order in which
    they happen.

    The theorems: leaving the console out of a handler gives the task of
    [Cycle] or [Lifecycle], with the same outcome, state and calls
    ([erases]); what is said, what is alerted and the opening of the
    camera are each written to the console just before they happen
    ([heralded]); and a failure of a cycle is written with the error
    whose details the screen shows. *)

From S2P Require Import Prelude JsNumber JsString Base64 Labels Describe Configuration Collaborators Cycle Lifecycle.

(** ** The journal *)

(** [console.log] and [console.error]. *)
Inductive Method : Set := ConsoleLog | ConsoleError.

(** An argument of a call to the console: a string, the length of a
    string, or a caught error. *)
Inductive Argument : Set :=
| Words (text : string)
| Count (length : nat)
| Caught (error : JsError).

(** What happened: a call to a collaborator, or a line on the console. *)
Inductive Entry : Set :=
| Called (ev : Event)
| Printed (method : Method) (arguments : list Argument).

Definition Journal : Set := list Entry.

(** The calls of a journal, in order. *)
Fixpoint calls (j : Journal) : trace :=
  match j with
  | [] => []
  | Called ev :: j => ev :: calls j
  | Printed _ _ :: j => calls j
  end.

(** The lines of a journal, in order. *)
Fixpoint prints (j : Journal) : list (Method * list Argument) :=
  match j with
  | [] => []
  | Called _ :: j => prints j
  | Printed method arguments :: j => (method, arguments) :: prints j
  end.

(** ** Handlers that write *)

(** A run of a handler over the journal.  The world answers a call from
    the calls so far: it does not see the console. *)
Definition Logged (A : Type) : Type :=
  World -> ScreenState -> Journal -> outcome A * ScreenState * Journal.

(** A task that calls nobody. *)
Definition plain {A : Type} (c : Task A) : Logged A :=
  fun w s j => let '(r, s', _) := c w s (calls j) in (r, s', j).

(** [await] on a collaborator. *)
Definition awaiting {A : Type} (ev : Event) (oracle : World -> trace -> outcome A) : Logged A :=
  fun w s j => (oracle w (calls j ++ [ev]), s, j ++ [Called ev]).

(** A call that cannot fail, and a synchronous read. *)
Definition doing (ev : Event) : Logged unit :=
  fun _ s j => (Resolved tt, s, j ++ [Called ev]).

Definition reading {A : Type} (ev : Event) (oracle : World -> trace -> A) : Logged A :=
  fun w s j => (Resolved (oracle w (calls j ++ [ev])), s, j ++ [Called ev]).

(** [console.log(...)] and [console.error(...)]. *)
Definition printing (method : Method) (arguments : list Argument) : Logged unit :=
  fun _ s j => (Resolved tt, s, j ++ [Printed method arguments]).

Definition console_log : list Argument -> Logged unit := printing ConsoleLog.
Definition console_error : list Argument -> Logged unit := printing ConsoleError.

Definition andThen {A B : Type} (c : Logged A) (k : A -> Logged B) : Logged B :=
  fun w s j =>
    match c w s j with
    | (Resolved a, s', j') => k a w s' j'
    | (Rejected e, s', j') => (Rejected e, s', j')
    end.

Definition tryCatch {A : Type} (c : Logged A) (handler : JsError -> Logged A) : Logged A :=
  fun w s j =>
    match c w s j with
    | (Resolved a, s', j') => (Resolved a, s', j')
    | (Rejected e, s', j') => handler e w s' j'
    end.

Definition tryFinally {A : Type} (c : Logged A) (final : Logged unit) : Logged A :=
  fun w s j =>
    match c w s j with
    | (r, s', j') =>
        match final w s' j' with
        | (Resolved _, s'', j'') => (r, s'', j'')
        | (Rejected e, s'', j'') => (Rejected e, s'', j'')
        end
    end.

Declare Scope logged_scope.
Delimit Scope logged_scope with logged.
Bind Scope logged_scope with Logged.

Notation "x <- c ;; k" := (andThen c (fun x => k))
  (at level 61, c at next level, right associativity) : logged_scope.
Notation "c ;; k" := (andThen c (fun _ => k))
  (at level 61, right associativity) : logged_scope.

Local Open Scope string_scope.
Local Open Scope logged_scope.

(** [checkLiDAR] (lines 39-53). *)
Definition checkLiDAR_logged : Logged unit :=
  has <- plain (world ARKitDepthModule) ;;
  if has then
    tryCatch
      (available <- awaiting IsLiDARAvailable isLiDARAvailable ;;
       plain (setHasLiDAR available) ;;
       if available then
         awaiting StartDepthSession startDepthSession ;;
         plain (setArSessionActive true) ;;
         console_log [Words "✅ LiDAR available and session started"]
       else plain (ret tt))
      (fun error => console_log [Words "❌ ARKit error:"; Caught error])
  else plain (ret tt).

(** [speakText] (lines 64-84). *)
Definition speakText_logged (text : string) : Logged unit :=
  tryCatch
    (console_log [Words "🔊 Attempting to speak:"; Words text] ;;
     awaiting SpeechStop speechStop ;;
     awaiting (SpeechSpeak text speechOptions) speechSpeak ;;
     console_log [Words "✅ Speech command sent"])
    (fun error =>
       console_error [Words "❌ TTS Error:"; Caught error] ;;
       doing (AlertAlert "TTS Error" ("Could not speak: " ++ templateString (message error)))).

(** [getARKitDistance] (lines 86-98). *)
Definition getARKitDistance_logged (rendered : ScreenState) : Logged (option number) :=
  has <- plain (world ARKitDepthModule) ;;
  if negb (hasLiDAR rendered) || negb has then plain (ret None)
  else
    tryCatch
      (depthData <- awaiting GetDepthAtCenter getDepthAtCenter ;;
       plain (ret (Some (distance depthData))))
      (fun error =>
         console_log [Words "Could not get ARKit depth:"; Caught error] ;;
         plain (ret None)).

(** The body of the [try] block of [takePicture] (lines 107-268). *)
Definition attempt_logged (rendered : ScreenState) : Logged unit :=
  console_log [Words "📸 Opening native camera..."] ;;
  photo <- awaiting CameraTakePicture cameraTakePicture ;;
  match imageData photo with
  | None => plain (throw (newError "No image data"))
  | Some data =>
      console_log [Words "✅ Photo captured, base64 length:"; Count (String.length data)] ;;
      plain (setResult "Analyzing image...") ;;
      speakText_logged "Analyzing" ;;
      timestamp <- reading DateNow dateNow ;;
      let key := objectKey timestamp in
      imageBytes <- plain (base64ToUint8Array data) ;;
      bucket <- plain (world (fun w => S3_BUCKET (env w))) ;;
      awaiting (S3Send (uploadCommand bucket key imageBytes)) s3Send ;;
      rekognitionResult <-
        awaiting (RekognitionSend (detectCommand bucket key)) rekognitionSend ;;
      let physical := physicalObjects (allLabels (Labels rekognitionResult)) in
      realDistance <-
        (if hasLiDAR rendered then getARKitDistance_logged rendered else plain (ret None)) ;;
      let description := describe physical realDistance in
      plain (setResult description) ;;
      speakText_logged description
  end.

(** The [catch] block (lines 270-281). *)
Definition recover_logged (error : JsError) : Logged unit :=
  if isCancelled error then
    plain (setResult "") ;;
    plain (setAnalyzing false)
  else
    console_error [Words "❌ Full error:"; Caught error] ;;
    plain (setResult ("Analysis failed: " ++ errorDetails error)%string) ;;
    speakText_logged "Analysis failed. Please try again.".

(** [takePicture] (lines 100-285). *)
Definition takePicture_logged (rendered : ScreenState) : Logged unit :=
  camera <- plain (world CameraModule) ;;
  if analyzing rendered || negb camera then plain (ret tt)
  else
    plain (setAnalyzing true) ;;
    speakText_logged "Opening camera" ;;
    tryFinally
      (tryCatch (attempt_logged rendered) recover_logged)
      (plain (setAnalyzing false)).

(** A tap on the button and the mount, over the journal. *)
Definition tap_logged (w : World) (s : ScreenState) (j : Journal) : ScreenState * Journal :=
  match takePicture_logged s w s j with
  | (_, s', j') => (s', j')
  end.

Definition mount_logged : Logged unit := checkLiDAR_logged.

(** The life of the screen over the journal: the mount, then taps. *)
Inductive session_logged (w : World) : ScreenState -> Journal -> Prop :=
| session_logged_mount r s j :
    mount_logged w initialState [] = (r, s, j) -> session_logged w s j
| session_logged_tap s j s' j' :
    session_logged w s j -> tap_logged w s j = (s', j') -> session_logged w s' j'.

Local Close Scope string_scope.

(** ** Leaving the console out *)

Lemma calls_app j j' : calls (j ++ j') = calls j ++ calls j'.
Proof. induction j as [|[ev|m a] j IH]; cbn; [reflexivity|now rewrite IH|exact IH]. Qed.

(** A task that calls nobody leaves the trace as it is. *)
Definition silent {A : Type} (c : Task A) : Prop := forall w s t, snd (c w s t) = t.

(** [c] is [c0] with console statements: on the calls of any journal
    they settle alike, and [c] only adds to the journal. *)
Definition erases {A : Type} (c : Logged A) (c0 : Task A) : Prop :=
  forall w s j r s' t',
    c0 w s (calls j) = (r, s', t') ->
    exists j', c w s j = (r, s', j ++ j') /\ t' = calls (j ++ j').

Section Erasure.
Context {A B : Type}.

Lemma erases_plain (c : Task A) : silent c -> erases (plain c) c.
Proof.
  intros H w s j r s' t' E. exists []. unfold plain. rewrite E, app_nil_r.
  specialize (H w s (calls j)). rewrite E in H. now split.
Qed.

Lemma erases_awaiting ev (oracle : World -> trace -> outcome A) :
  erases (awaiting ev oracle) (call ev oracle).
Proof. intros w s j r s' t' [= <- <- <-]. exists [Called ev]. now rewrite calls_app. Qed.

Lemma erases_reading ev (oracle : World -> trace -> A) :
  erases (reading ev oracle) (ask ev oracle).
Proof. intros w s j r s' t' [= <- <- <-]. exists [Called ev]. now rewrite calls_app. Qed.

Lemma erases_andThen (c : Logged A) c0 (k : A -> Logged B) k0 :
  erases c c0 -> (forall a, erases (k a) (k0 a)) -> erases (andThen c k) (bind c0 k0).
Proof.
  intros Hc Hk w s j r s' t'. unfold andThen, bind.
  destruct (c0 w s (calls j)) as [[[a|e] s1] t1] eqn:E;
    destruct (Hc _ _ _ _ _ _ E) as (j1 & -> & ->).
  - intros E2. destruct (Hk a _ _ _ _ _ _ E2) as (j2 & -> & ->).
    exists (j1 ++ j2). now rewrite app_assoc.
  - intros [= <- <- <-]. now exists j1.
Qed.

Lemma erases_tryCatch (c : Logged A) c0 handler handler0 :
  erases c c0 -> (forall e, erases (handler e) (handler0 e)) ->
  erases (tryCatch c handler) (try_catch c0 handler0).
Proof.
  intros Hc Hk w s j r s' t'. unfold tryCatch, try_catch.
  destruct (c0 w s (calls j)) as [[[a|e] s1] t1] eqn:E;
    destruct (Hc _ _ _ _ _ _ E) as (j1 & -> & ->).
  - intros [= <- <- <-]. now exists j1.
  - intros E2. destruct (Hk e _ _ _ _ _ _ E2) as (j2 & -> & ->).
    exists (j1 ++ j2). now rewrite app_assoc.
Qed.

Lemma erases_tryFinally (c : Logged A) c0 final final0 :
  erases c c0 -> erases final final0 -> erases (tryFinally c final) (try_finally c0 final0).
Proof.
  intros Hc Hf w s j r s' t'. unfold tryFinally, try_finally.
  destruct (c0 w s (calls j)) as [[r1 s1] t1] eqn:E.
  destruct (Hc _ _ _ _ _ _ E) as (j1 & -> & ->).
  destruct (final0 w s1 (calls (j ++ j1))) as [[r2 s2] t2] eqn:E2.
  destruct (Hf _ _ _ _ _ _ E2) as (j2 & -> & ->).
  destruct r2; intros [= <- <- <-]; exists (j1 ++ j2); now rewrite app_assoc.
Qed.

(** A line before or after a step changes nothing but the journal. *)
Lemma erases_printing_first method arguments (k : Logged A) k0 :
  erases k k0 -> erases (andThen (printing method arguments) (fun _ => k)) k0.
Proof.
  intros Hk w s j r s' t' E. unfold andThen, printing.
  assert (calls (j ++ [Printed method arguments]) = calls j) as Ec
    by (rewrite calls_app; apply app_nil_r).
  rewrite <- Ec in E. destruct (Hk _ _ _ _ _ _ E) as (j2 & -> & ->).
  exists (Printed method arguments :: j2). now rewrite <- app_assoc.
Qed.

End Erasure.

Lemma erases_printing_last method arguments (c : Logged unit) c0 :
  erases c c0 -> erases (andThen c (fun _ => printing method arguments)) c0.
Proof.
  intros Hc w s j r s' t' E. unfold andThen, printing.
  destruct (Hc _ _ _ _ _ _ E) as (j1 & -> & ->). destruct r as [[]|e].
  - exists (j1 ++ [Printed method arguments]).
    rewrite !app_assoc, (calls_app _ [Printed _ _]). cbn. now rewrite app_nil_r.
  - now exists j1.
Qed.

Lemma erases_doing ev : erases (doing ev) (emit ev).
Proof. intros w s j r s' t' [= <- <- <-]. exists [Called ev]. now rewrite calls_app. Qed.

Lemma erases_printing method arguments : erases (printing method arguments) (ret tt).
Proof.
  intros w s j r s' t' [= <- <- <-]. exists [Printed method arguments].
  rewrite calls_app. cbn. now rewrite app_nil_r.
Qed.

(** ** Silent tasks *)

Create HintDb console discriminated.

Lemma silent_ret {A : Type} (a : A) : silent (ret a).
Proof. now intros w s t. Qed.

Lemma silent_throw {A : Type} e : silent (@throw A e).
Proof. now intros w s t. Qed.

Lemma silent_world {A : Type} (f : World -> A) : silent (world f).
Proof. now intros w s t. Qed.

Lemma silent_setAnalyzing b : silent (setAnalyzing b).
Proof. now intros w s t. Qed.

Lemma silent_setResult r : silent (setResult r).
Proof. now intros w s t. Qed.

Lemma silent_setHasLiDAR b : silent (setHasLiDAR b).
Proof. now intros w s t. Qed.

Lemma silent_setArSessionActive b : silent (setArSessionActive b).
Proof. now intros w s t. Qed.

Lemma silent_base64ToUint8Array data : silent (base64ToUint8Array data).
Proof. intros w s t. unfold base64ToUint8Array. now destruct (atob data). Qed.

#[export] Hint Resolve silent_ret silent_throw silent_world silent_setAnalyzing silent_setResult
  silent_setHasLiDAR silent_setArSessionActive silent_base64ToUint8Array : console.

(** One step of a proof that a handler with console statements erases
    to the handler without. *)
Ltac erases_step :=
  match goal with
  | |- erases (if ?b then _ else _) _ => destruct b
  | |- erases (match ?x with Some _ => _ | None => _ end) _ => destruct x
  | |- erases (plain _) _ => apply erases_plain; auto with console
  | |- erases (awaiting _ _) _ => apply erases_awaiting
  | |- erases (reading _ _) _ => apply erases_reading
  | |- erases (doing _) _ => apply erases_doing
  | |- erases (andThen (printing _ _) _) _ => apply erases_printing_first
  | |- erases (andThen _ (fun _ => printing _ _)) _ => apply erases_printing_last
  | |- erases (andThen _ _) _ => apply erases_andThen; [|intros ?]
  | |- erases (tryCatch _ _) _ => apply erases_tryCatch; [|intros ?]
  | |- erases (tryFinally _ _) _ => apply erases_tryFinally
  end.

Section Handlers.

Lemma speakText_erases text : erases (speakText_logged text) (speakText text).
Proof. unfold speakText_logged, speakText, console_log, console_error. repeat erases_step. Qed.

Lemma getARKitDistance_erases rendered :
  erases (getARKitDistance_logged rendered) (getARKitDistance rendered).
Proof.
  unfold getARKitDistance_logged, getARKitDistance, console_log, console_error.
  repeat erases_step.
Qed.

Lemma checkLiDAR_erases : erases checkLiDAR_logged checkLiDAR.
Proof.
  unfold checkLiDAR_logged, checkLiDAR, console_log, console_error. repeat first [erases_step | apply erases_printing].
Qed.

Lemma attempt_erases rendered : erases (attempt_logged rendered) (attempt rendered).
Proof.
  unfold attempt_logged, attempt, console_log, console_error.
  repeat first [erases_step | apply speakText_erases | apply getARKitDistance_erases].
Qed.

Lemma recover_erases error : erases (recover_logged error) (recover error).
Proof.
  unfold recover_logged, recover, console_log, console_error. repeat first [erases_step | apply speakText_erases].
Qed.

Lemma takePicture_erases rendered : erases (takePicture_logged rendered) (takePicture rendered).
Proof.
  unfold takePicture_logged, takePicture, console_log, console_error.
  repeat first [erases_step | apply speakText_erases | apply attempt_erases | apply recover_erases].
Qed.

End Handlers.

(** ** The life of the screen without the console *)

Lemma tap_erases w s j s' j' :
  tap_logged w s j = (s', j') -> tap w s (calls j) = (s', calls j').
Proof.
  unfold tap_logged, tap. destruct (takePicture s w s (calls j)) as [[r s1] t1] eqn:E.
  destruct (takePicture_erases s _ _ _ _ _ _ E) as (j1 & -> & ->). now intros [= <- <-].
Qed.

Lemma session_erases w s j : session_logged w s j -> session w s (calls j).
Proof.
  induction 1 as [r s j E|s j s' j' _ IH E].
  - unfold mount_logged in E.
    destruct (checkLiDAR w initialState []) as [[r0 s0] t0] eqn:E0.
    destruct (checkLiDAR_erases w initialState [] _ _ _ E0) as (j1 & E1 & ->).
    rewrite E in E1. injection E1 as -> -> ->. now apply (session_mount w r0).
  - apply (session_tap w _ _ _ _ IH). now apply tap_erases.
Qed.

(** Every life of the screen is one of the screen with its console. *)
Lemma session_logged_exists w s t :
  session w s t -> exists j, session_logged w s j /\ calls j = t.
Proof.
  induction 1 as [r s t E|s t s' t' _ (j & Hj & <-) E].
  - destruct (checkLiDAR_erases w initialState [] _ _ _ E) as (j1 & E1 & ->).
    exists j1. split; [|reflexivity]. now apply (session_logged_mount w r).
  - unfold tap in E. destruct (takePicture s w s (calls j)) as [[r s1] t1] eqn:E0.
    destruct (takePicture_erases s _ _ _ _ _ _ E0) as (j1 & E1 & ->).
    injection E as <- <-. exists (j ++ j1). split; [|reflexivity].
    apply (session_logged_tap w s j); [assumption|]. unfold tap_logged. now rewrite E1.
Qed.

(** ** What is written before a call *)

Local Open Scope string_scope.

(** The calls that the console announces. *)
Definition unheralded (ev : Event) : bool :=
  match ev with
  | SpeechStop | SpeechSpeak _ _ | AlertAlert _ _ | CameraTakePicture => false
  | _ => true
  end.

(** [heralded j ev]: the journal [j] ends with what the program writes
    before the call [ev]: the text before it is spoken, the error before
    the alert that shows its message, the opening of the camera. *)
Inductive heralded : Journal -> Event -> Prop :=
| heralded_stop j text :
    heralded (j ++ [Printed ConsoleLog [Words "🔊 Attempting to speak:"; Words text]])%list
             SpeechStop
| heralded_speak j text options :
    heralded ((j ++ [Printed ConsoleLog [Words "🔊 Attempting to speak:"; Words text]])
                ++ [Called SpeechStop])%list
             (SpeechSpeak text options)
| heralded_alert j error :
    heralded (j ++ [Printed ConsoleError [Words "❌ TTS Error:"; Caught error]])%list
             (AlertAlert "TTS Error" ("Could not speak: " ++ templateString (message error)))
| heralded_camera j :
    heralded (j ++ [Printed ConsoleLog [Words "📸 Opening native camera..."]])%list
             CameraTakePicture
| heralded_other j ev : unheralded ev = true -> heralded j ev.

Local Close Scope string_scope.

(** A journal in which every call was heralded by what precedes it. *)
Inductive announced : Journal -> Prop :=
| announced_nil : announced []
| announced_print j method arguments :
    announced j -> announced (j ++ [Printed method arguments])
| announced_call j ev : announced j -> heralded j ev -> announced (j ++ [Called ev]).

#[export] Hint Constructors heralded announced : console.

(** The last entry of a list that was split in its middle. *)
Lemma snoc_split {X : Type} (l before after : list X) (x y : X) :
  l ++ [x] = before ++ y :: after ->
  (after = [] /\ l = before /\ x = y) \/
  (exists after', after = after' ++ [x] /\ l = before ++ y :: after').
Proof.
  induction after as [|z after' _] using rev_ind; intros E.
  - apply app_inj_tail in E as [-> ->]. now left.
  - right. exists after'. rewrite app_comm_cons, app_assoc in E.
    apply app_inj_tail in E as [-> ->]. now split.
Qed.

(** What [announced] means: whatever precedes a call heralds it. *)
Lemma announced_spec j before ev after :
  announced j -> j = before ++ Called ev :: after -> heralded before ev.
Proof.
  intros H. revert after. induction H as [|j m a _ IH|j ev' _ IH Hh]; intros after E.
  - now destruct before.
  - apply snoc_split in E as [(_ & _ & [=])|(after' & -> & ->)]. now apply (IH after').
  - apply snoc_split in E as [(_ & -> & [= ->])|(after' & -> & ->)]; [assumption|].
    now apply (IH after').
Qed.

(** A handler that keeps the journal announced. *)
Definition sound {A : Type} (c : Logged A) : Prop :=
  forall w s j, announced j -> announced (snd (c w s j)).

Section Sound.
Context {A B : Type}.

Lemma sound_plain (c : Task A) : sound (plain c).
Proof. intros w s j H. unfold plain. now destruct (c w s (calls j)) as [[r s'] t']. Qed.

Lemma sound_printing method arguments : sound (printing method arguments).
Proof. intros w s j H. cbn. auto with console. Qed.

Lemma sound_awaiting ev (oracle : World -> trace -> outcome A) :
  unheralded ev = true -> sound (awaiting ev oracle).
Proof. intros He w s j H. cbn. auto with console. Qed.

Lemma sound_reading ev (oracle : World -> trace -> A) :
  unheralded ev = true -> sound (reading ev oracle).
Proof. intros He w s j H. cbn. auto with console. Qed.

Lemma sound_andThen (c : Logged A) (k : A -> Logged B) :
  sound c -> (forall a, sound (k a)) -> sound (andThen c k).
Proof.
  intros Hc Hk w s j H. unfold andThen. specialize (Hc w s j H).
  destruct (c w s j) as [[[a|e] s1] j1]; [now apply Hk|exact Hc].
Qed.

Lemma sound_tryCatch (c : Logged A) handler :
  sound c -> (forall e, sound (handler e)) -> sound (tryCatch c handler).
Proof.
  intros Hc Hk w s j H. unfold tryCatch. specialize (Hc w s j H).
  destruct (c w s j) as [[[a|e] s1] j1]; [exact Hc|now apply Hk].
Qed.

Lemma sound_tryFinally (c : Logged A) final :
  sound c -> sound final -> sound (tryFinally c final).
Proof.
  intros Hc Hf w s j H. unfold tryFinally. specialize (Hc w s j H).
  destruct (c w s j) as [[r s1] j1]. specialize (Hf w s1 j1 Hc).
  now destruct (final w s1 j1) as [[[[]|e] s2] j2].
Qed.

(** A call right after the line that heralds it. *)
Lemma sound_heralded method arguments ev (oracle : World -> trace -> outcome A)
    (k : A -> Logged B) :
  (forall j, heralded (j ++ [Printed method arguments]) ev) ->
  (forall a, sound (k a)) ->
  sound (andThen (printing method arguments) (fun _ => andThen (awaiting ev oracle) k)).
Proof.
  intros Hh Hk w s j H. unfold andThen, printing, awaiting.
  assert (announced ((j ++ [Printed method arguments]) ++ [Called ev])) as H'
    by auto with console.
  destruct (oracle w _) as [a|e]; [now apply Hk|exact H'].
Qed.

End Sound.

Lemma sound_speakText text : sound (speakText_logged text).
Proof.
  intros w s j H.
  unfold speakText_logged, tryCatch, andThen, console_log, console_error, printing, awaiting,
    doing.
  destruct (speechStop w _) as [[]|e]; [destruct (speechSpeak w _) as [[]|e]|];
    cbn [snd]; auto 8 with console.
Qed.

#[export] Hint Resolve sound_plain sound_printing sound_awaiting sound_reading
  sound_speakText : console.

(** One step of a proof that a handler is sound. *)
Ltac sound_step :=
  match goal with
  | |- sound (if ?b then _ else _) => destruct b
  | |- sound (match ?x with Some _ => _ | None => _ end) => destruct x
  | |- sound (andThen (printing _ _) (fun _ => andThen (awaiting _ _) _)) =>
      apply sound_heralded; [intros ?; auto with console|intros ?]
  | |- sound (andThen _ _) => apply sound_andThen; [|intros ?]
  | |- sound (tryCatch _ _) => apply sound_tryCatch; [|intros ?]
  | |- sound (tryFinally _ _) => apply sound_tryFinally
  | |- sound _ => solve [auto with console]
  end.

Lemma sound_checkLiDAR : sound checkLiDAR_logged.
Proof. unfold checkLiDAR_logged, console_log. repeat sound_step. Qed.

Lemma sound_getARKitDistance rendered : sound (getARKitDistance_logged rendered).
Proof. unfold getARKitDistance_logged, console_log. repeat sound_step. Qed.

Lemma sound_attempt rendered : sound (attempt_logged rendered).
Proof.
  pose proof (sound_getARKitDistance rendered).
  unfold attempt_logged, console_log. repeat sound_step.
Qed.

Lemma sound_recover error : sound (recover_logged error).
Proof. unfold recover_logged, console_error. repeat sound_step. Qed.

Lemma sound_takePicture rendered : sound (takePicture_logged rendered).
Proof.
  pose proof (sound_attempt rendered). pose proof sound_recover.
  unfold takePicture_logged. repeat sound_step.
Qed.

Lemma session_announced w s j : session_logged w s j -> announced j.
Proof.
  induction 1 as [r s j E|s j s' j' _ IH E].
  - pose proof (sound_checkLiDAR w initialState [] announced_nil) as H.
    unfold mount_logged in E. now rewrite E in H.
  - pose proof (sound_takePicture s w s j IH) as H. unfold tap_logged in E.
    destruct (takePicture_logged s w s j) as [[r s1] j1]. now injection E as <- <-.
Qed.

(** ** Failures *)

Local Open Scope string_scope.

(** Speaking never throws, with the console as without. *)
Lemma speakText_logged_resolves text w s j :
  exists j', speakText_logged text w s j = (Resolved tt, s, (j ++ j')%list).
Proof.
  destruct (speakText_erases text w s j _ _ _ (speakText_run text w s (calls j)))
    as (j' & E & _).
  now exists j'.
Qed.

(** The [catch] and [finally] clauses of [takePicture] around a [try]
    block [c]: a cancellation is written nowhere; any other error is
    written to the console, as it was caught, before the screen shows
    its details and the apology is spoken. *)
Lemma failure_reported (c : Logged unit) w s j :
  exists spoken,
    tryFinally (tryCatch c recover_logged) (plain (setAnalyzing false)) w s j =
    match c w s j with
    | (Resolved _, s1, j1) => (Resolved tt, withAnalyzing false s1, j1)
    | (Rejected e, s1, j1) =>
        if isCancelled e then (Resolved tt, withAnalyzing false (withResult "" s1), j1)
        else (Resolved tt,
              withAnalyzing false (withResult ("Analysis failed: " ++ errorDetails e) s1),
              (j1 ++ Printed ConsoleError [Words "❌ Full error:"; Caught e] :: spoken)%list)
    end.
Proof.
  unfold tryFinally, tryCatch. destruct (c w s j) as [[[[]|e] s1] j1]; [now exists []|].
  unfold recover_logged. destruct (isCancelled e); [now exists []|].
  unfold andThen, console_error, printing, plain, setResult.
  destruct (speakText_logged_resolves "Analysis failed. Please try again." w
              (withResult ("Analysis failed: " ++ errorDetails e) s1)
              (j1 ++ [Printed ConsoleError [Words "❌ Full error:"; Caught e]])%list)
    as (spoken & ->).
  exists spoken. cbn. now rewrite <- app_assoc.
Qed.

Local Close Scope string_scope.

(** ** The screen and the console *)

Local Open Scope string_scope.

(** The line of the console for a failed cycle (line 279). *)
Definition failureLine (error : JsError) : Entry :=
  Printed ConsoleError [Words "❌ Full error:"; Caught error].

(** [diagnosed s j]: if the screen shows a failure, the console holds
    the error whose details are shown. *)
Definition diagnosed (s : ScreenState) (j : Journal) : Prop :=
  forall details,
    result s = "Analysis failed: " ++ details ->
    exists error, In (failureLine error) j /\ details = errorDetails error.

(** No description reads as a failure. *)
Lemma describe_not_failure physical measured details :
  describe physical measured <> "Analysis failed: " ++ details.
Proof.
  destruct physical as [|label physical]; [discriminate|].
  rewrite describe_shape. now destruct measured.
Qed.

(** The [try] block ends with a description on the screen. *)
Lemma attempt_resolved rendered w s t u s' t' :
  attempt rendered w s t = (Resolved u, s', t') ->
  exists physical measured, result s' = describe physical measured.
Proof.
  rewrite attempt_run. unfold attempted, analysed.
  destruct (cameraTakePicture w _) as [photo|e]; [|discriminate].
  destruct (imageData photo) as [data|]; [|discriminate].
  destruct (atob data) as [binaryString|]; [|discriminate].
  destruct (s3Send w _) as [[]|e]; [|discriminate].
  destruct (rekognitionSend w _) as [response|e]; [|discriminate].
  intros [= _ <- _]. cbn [result withResult]. eauto.
Qed.

(** What a tap leaves on the screen, and on the console if it failed. *)
Lemma tap_logged_result w s j s' j' :
  tap_logged w s j = (s', j') ->
  exists added,
    j' = (j ++ added)%list /\
    (result s' = result s \/ result s' = "" \/
     (exists physical measured, result s' = describe physical measured) \/
     (exists error, result s' = "Analysis failed: " ++ errorDetails error /\
                    In (failureLine error) added)).
Proof.
  unfold tap_logged, takePicture_logged, andThen at 1, plain at 1, world.
  destruct (analyzing s || negb (CameraModule w)).
  { intros [= <- <-]. exists []. rewrite app_nil_r. auto. }
  unfold andThen, plain at 1, setAnalyzing at 1.
  destruct (speakText_logged_resolves "Opening camera" w (withAnalyzing true s) j)
    as (j1 & ->).
  destruct (failure_reported (attempt_logged s) w (withAnalyzing true s) (j ++ j1)%list)
    as (spoken & ->).
  destruct (attempt s w (withAnalyzing true s) (calls (j ++ j1)%list)) as [[r s2] t2] eqn:E.
  destruct (attempt_erases s _ _ _ _ _ _ E) as (j2 & -> & _).
  destruct r as [u|e]; [|destruct (isCancelled e)]; intros [= <- <-].
  - exists (j1 ++ j2)%list. rewrite app_assoc. split; [reflexivity|].
    apply attempt_resolved in E. cbn [result withAnalyzing]. auto.
  - exists (j1 ++ j2)%list. rewrite app_assoc. cbn [result withAnalyzing withResult]. auto.
  - exists (j1 ++ j2 ++ failureLine e :: spoken)%list. rewrite !app_assoc.
    split; [reflexivity|]. do 3 right. exists e. split; [reflexivity|].
    apply in_or_app. right. now left.
Qed.

Lemma session_diagnosed w s j : session_logged w s j -> diagnosed s j.
Proof.
  induction 1 as [r s j E|s j s' j' _ IH E]; intros details Hd.
  - unfold mount_logged in E.
    destruct (checkLiDAR w initialState []) as [[r0 s0] t0] eqn:E0.
    destruct (checkLiDAR_erases w initialState [] _ _ _ E0) as (j1 & E1 & _).
    rewrite E in E1. injection E1 as -> -> ->. rewrite checkLiDAR_run in E0.
    destruct (ARKitDepthModule w); [destruct (isLiDARAvailable w _) as [[|]|];
      [destruct (startDepthSession w _)|..]|]; injection E0 as _ <- _; discriminate.
  - destruct (tap_logged_result w s j s' j' E) as (added & -> & [R|[R|[(p & m & R)|(e & R & Hin)]]]);
      rewrite R in Hd.
    + destruct (IH details Hd) as (e & Hin & ->). exists e. split; [|reflexivity].
      apply in_or_app. now left.
    + discriminate.
    + now apply describe_not_failure in Hd.
    + exists e. split; [apply in_or_app; now right|]. cbn in Hd. now injection Hd.
Qed.

Local Close Scope string_scope.

(** ** The whole life of the screen *)

(** C20 (the console).  Over the whole life of the screen, with the
    console statements of the handlers: leaving the console out gives a
    life of the screen of [Lifecycle], with the same state and the same
    calls; in the journal, whatever precedes a call heralds it (the text
    is written before it is spoken, the error before the alert that
    shows its message, the opening of the camera before the camera is
    asked); and whenever the screen shows a failure, the console holds
    the error whose details are shown. *)
Theorem session_logged_spec w s j :
  session_logged w s j ->
  session w s (calls j) /\
  (forall before ev after, j = before ++ Called ev :: after -> heralded before ev) /\
  diagnosed s j.
Proof.
  intros H. split; [now apply session_erases|]. split; [|exact (session_diagnosed w s j H)].
  intros before ev after. apply announced_spec. exact (session_announced w s j H).
Qed.

(** ** Examples *)

(** The mount and a first tap, with the console. *)
Definition firstTapLogged (w : World) : ScreenState * Journal :=
  let '(_, s, j) := mount_logged w initialState [] in tap_logged w s j.

Lemma session_logged_spec_witness :
  session offlineWorld (fst (firstTapLogged offlineWorld))
          (calls (snd (firstTapLogged offlineWorld))) /\
  (forall before ev after,
     snd (firstTapLogged offlineWorld) = before ++ Called ev :: after -> heralded before ev) /\
  diagnosed (fst (firstTapLogged offlineWorld)) (snd (firstTapLogged offlineWorld)).
Proof.
  apply session_logged_spec.
  apply (session_logged_tap offlineWorld initialState []); [|reflexivity].
  now apply (session_logged_mount offlineWorld (Resolved tt)).
Defined.

Local Open Scope string_scope.

(** The console of a first cycle in which everything works. *)
Example console_quietWorld :
  prints (snd (firstTapLogged quietWorld)) =
  [(ConsoleLog, [Words "🔊 Attempting to speak:"; Words "Opening camera"]);
   (ConsoleLog, [Words "✅ Speech command sent"]);
   (ConsoleLog, [Words "📸 Opening native camera..."]);
   (ConsoleLog, [Words "✅ Photo captured, base64 length:"; Count 4]);
   (ConsoleLog, [Words "🔊 Attempting to speak:"; Words "Analyzing"]);
   (ConsoleLog, [Words "✅ Speech command sent"]);
   (ConsoleLog, [Words "🔊 Attempting to speak:";
                 Words "Objects detected. I see a chair about 8 to 10 feet away on your left."]);
   (ConsoleLog, [Words "✅ Speech command sent"])].
Proof. vm_compute. reflexivity. Qed.

(** The console of a cycle whose upload fails: the error is written
    before the apology is spoken. *)
Example console_offlineWorld :
  prints (snd (firstTapLogged offlineWorld)) =
  [(ConsoleLog, [Words "🔊 Attempting to speak:"; Words "Opening camera"]);
   (ConsoleLog, [Words "✅ Speech command sent"]);
   (ConsoleLog, [Words "📸 Opening native camera..."]);
   (ConsoleLog, [Words "✅ Photo captured, base64 length:"; Count 4]);
   (ConsoleLog, [Words "🔊 Attempting to speak:"; Words "Analyzing"]);
   (ConsoleLog, [Words "✅ Speech command sent"]);
   (ConsoleError, [Words "❌ Full error:"; Caught (newError "Network request failed")]);
   (ConsoleLog, [Words "🔊 Attempting to speak:"; Words "Analysis failed. Please try again."]);
   (ConsoleLog, [Words "✅ Speech command sent"])] /\
  result (fst (firstTapLogged offlineWorld)) = "Analysis failed: Network request failed".
Proof. split; vm_compute; reflexivity. Qed.

(** A cancelled capture writes nothing after the opening of the camera. *)
Example console_cancellingWorld :
  prints (snd (firstTapLogged cancellingWorld)) =
  [(ConsoleLog, [Words "🔊 Attempting to speak:"; Words "Opening camera"]);
   (ConsoleLog, [Words "✅ Speech command sent"]);
   (ConsoleLog, [Words "📸 Opening native camera..."])].
Proof. vm_compute. reflexivity. Qed.

(** On a device with the sensor the start of the session is written at
    the mount. *)
Example console_lidarWorld :
  prints (snd (mount_logged lidarWorld initialState [])) =
  [(ConsoleLog, [Words "✅ LiDAR available and session started"])].
Proof. vm_compute. reflexivity. Qed.
