(* ===== verification/Protocol.v ===== *)
(** * Protocol: what the collaborators see over the life of the screen

    Properties of the whole trace of a session, whatever the collaborators
    answer: every utterance follows a stop of the previous one, every
    analysis follows the upload of the object it names, and the depth
    session is never stopped.  Each is a check on adjacent events of the
    trace, kept by every step of a cycle. *)

From Stdlib Require Import Relations RelationClasses.
From S2P Require Import Prelude JsNumber JsString Base64 Configuration Collaborators Cycle Lifecycle.

Local Open Scope list_scope.

(** ** Checks on adjacent events *)

Section Adjacent.
Variable ok : option Event -> Event -> bool.

(** Every event of [t] is accepted after its predecessor; [prev] is the
    event before the first, if any. *)
Fixpoint adjacent (prev : option Event) (t : trace) : bool :=
  match t with
  | [] => true
  | ev :: rest => ok prev ev && adjacent (Some ev) rest
  end.

(** The last event of [t], or [prev] when [t] is empty. *)
Fixpoint lastOf (prev : option Event) (t : trace) : option Event :=
  match t with
  | [] => prev
  | ev :: rest => lastOf (Some ev) rest
  end.

Lemma lastOf_app prev t1 t2 : lastOf prev (t1 ++ t2) = lastOf (lastOf prev t1) t2.
Proof. revert prev. induction t1 as [|ev t1 IH]; intros prev; cbn; auto. Qed.

Lemma lastOf_snoc prev t ev : lastOf prev (t ++ [ev]) = Some ev.
Proof. now rewrite lastOf_app. Qed.

Lemma lastOf_Some prev t ev :
  lastOf prev t = Some ev -> (t = [] /\ prev = Some ev) \/ exists t', t = t' ++ [ev].
Proof.
  destruct t as [|x t] using rev_ind; cbn; [auto|].
  rewrite lastOf_snoc. intros [= ->]. eauto.
Qed.

Lemma adjacent_app prev t1 t2 :
  adjacent prev (t1 ++ t2) = adjacent prev t1 && adjacent (lastOf prev t1) t2.
Proof.
  revert prev. induction t1 as [|ev t1 IH]; intros prev; cbn; [reflexivity|].
  now rewrite IH, andb_assoc.
Qed.

Lemma adjacent_snoc prev t ev :
  adjacent prev (t ++ [ev]) = adjacent prev t && ok (lastOf prev t) ev.
Proof. rewrite adjacent_app. cbn. now rewrite andb_true_r. Qed.

(** An accepted trace accepts each of its events after the one before. *)
Lemma adjacent_at prev pre ev post :
  adjacent prev (pre ++ ev :: post) = true -> ok (lastOf prev pre) ev = true.
Proof. rewrite adjacent_app. cbn. intros H. bool_hyps. assumption. Qed.

End Adjacent.

(** ** Speech *)

(** An utterance is accepted only right after a stop. *)
Definition speechOk (prev : option Event) (ev : Event) : bool :=
  match ev, prev with
  | SpeechSpeak _ _, Some SpeechStop => true
  | SpeechSpeak _ _, _ => false
  | _, _ => true
  end.

Definition disciplined (t : trace) : Prop := adjacent speechOk None t = true.

(** ** Upload before analysis *)

(** An analysis is accepted only right after the upload of the object it
    names: same bucket, same key. *)
Definition uploadOk (prev : option Event) (ev : Event) : bool :=
  match ev, prev with
  | RekognitionSend detect, Some (S3Send put) =>
      (put_Bucket put =? detect_Bucket detect)%string &&
      (put_Key put =? detect_Name detect)%string
  | RekognitionSend _, _ => false
  | _, _ => true
  end.

Definition uploadedFirst (t : trace) : Prop := adjacent uploadOk None t = true.

(** ** The depth session *)

Definition neverStopped (t : trace) : Prop := ~ In StopDepthSession t.

(** ** What a call of [speakText] keeps *)

Section Spoken.
Implicit Types (w : World) (t : trace) (text : string).

(** The events of [speakText]: a stop, then at most the utterance, then at
    most an alert. *)
Lemma spoken_cases w t text :
  exists alerts,
    (spoken w t text = t ++ SpeechStop :: alerts \/
     spoken w t text = t ++ SpeechStop :: SpeechSpeak text speechOptions :: alerts) /\
    (alerts = [] \/ exists title msg, alerts = [AlertAlert title msg]).
Proof.
  destruct (spoken_added w t text) as (added & -> & [-> | [(e & ->) | (e & ->)]]);
    eauto 10.
Qed.

Lemma spoken_disciplined w t text : disciplined t -> disciplined (spoken w t text).
Proof.
  unfold disciplined. intros H.
  destruct (spoken_cases w t text) as (alerts & [-> | ->] & [-> | (title & msg & ->)]);
    rewrite adjacent_app, H; reflexivity.
Qed.

Lemma spoken_uploadedFirst w t text : uploadedFirst t -> uploadedFirst (spoken w t text).
Proof.
  unfold uploadedFirst. intros H.
  destruct (spoken_cases w t text) as (alerts & [-> | ->] & [-> | (title & msg & ->)]);
    rewrite adjacent_app, H; reflexivity.
Qed.

Lemma spoken_neverStopped w t text : neverStopped t -> neverStopped (spoken w t text).
Proof.
  unfold neverStopped. intros H.
  destruct (spoken_cases w t text) as (alerts & [-> | ->] & [-> | (title & msg & ->)]);
    rewrite in_app_iff; cbn; intuition discriminate.
Qed.

End Spoken.

(** ** What a cycle keeps *)

#[export] Instance disciplined_TapFrame : TapFrame (keeps disciplined).
Proof.
  apply keeps_TapFrame; [|apply spoken_disciplined].
  unfold disciplined. intros t ev Hev H. rewrite adjacent_snoc, H.
  destruct ev; try discriminate; reflexivity.
Qed.

#[export] Instance neverStopped_TapFrame : TapFrame (keeps neverStopped).
Proof.
  apply keeps_TapFrame; [|apply spoken_neverStopped].
  unfold neverStopped. intros t ev Hev H. rewrite in_app_iff. cbn.
  destruct ev; try discriminate; intuition discriminate.
Qed.

Section Upload.
Implicit Types (w : World) (s rendered : ScreenState) (t : trace).

Lemma measure_uploadedFirst rendered w t :
  uploadedFirst t -> uploadedFirst (snd (measure rendered w t)).
Proof.
  unfold uploadedFirst, measure. intros H.
  destruct (hasLiDAR rendered && ARKitDepthModule w); [|exact H].
  destruct (getDepthAtCenter w _); cbn [snd]; now rewrite adjacent_snoc, H.
Qed.

(** The analysis is asked right after the upload, of the same object. *)
Lemma analysed_uploadedFirst rendered w s t key binaryString :
  uploadedFirst t -> uploadedFirst (snd (analysed rendered w s t key binaryString)).
Proof.
  intros H. unfold analysed.
  set (put := S3Send _). set (detect := RekognitionSend _).
  assert (uploadedFirst (t ++ [put])) as H4
    by (unfold uploadedFirst; now rewrite adjacent_snoc, H).
  assert (uploadedFirst ((t ++ [put]) ++ [detect])) as H5.
  { unfold uploadedFirst. rewrite adjacent_snoc, H4, lastOf_snoc. cbn.
    now rewrite !String.eqb_refl. }
  destruct (s3Send w _) as [[]|e]; [|exact H4].
  destruct (rekognitionSend w _) as [response|e]; [|exact H5].
  cbn [snd]. now apply spoken_uploadedFirst, measure_uploadedFirst.
Qed.

Lemma attempted_uploadedFirst rendered w s t :
  uploadedFirst t -> uploadedFirst (snd (attempted rendered w s t)).
Proof.
  intros H. unfold attempted.
  assert (uploadedFirst (t ++ [CameraTakePicture])) as H1
    by (unfold uploadedFirst; now rewrite adjacent_snoc, H).
  destruct (cameraTakePicture w _) as [photo|e]; [|exact H1].
  destruct (imageData photo) as [data|]; [|exact H1].
  assert (uploadedFirst (spoken w (t ++ [CameraTakePicture]) "Analyzing" ++ [DateNow])) as H3.
  { unfold uploadedFirst. rewrite adjacent_snoc.
    now rewrite (spoken_uploadedFirst _ _ _ H1). }
  destruct (atob data) as [binaryString|]; [|exact H3].
  now apply analysed_uploadedFirst.
Qed.

Lemma settle_uploadedFirst w o s t :
  uploadedFirst t -> uploadedFirst (snd (settle w (o, s, t))).
Proof.
  intros H. destruct o as [u|e]; cbn [settle]; [exact H|].
  destruct (isCancelled e); cbn [snd]; [exact H|]. now apply spoken_uploadedFirst.
Qed.

Lemma tap_uploadedFirst w s t : uploadedFirst t -> uploadedFirst (snd (tap w s t)).
Proof.
  intros H. rewrite tap_trace. destruct (_ || _); [exact H|].
  pose proof (attempted_uploadedFirst s w (withAnalyzing true s) _
                (spoken_uploadedFirst w t "Opening camera" H)) as Ha.
  destruct (attempted s w _ _) as [[o s2] t2]. now apply settle_uploadedFirst.
Qed.

End Upload.

(** ** What is asked of the cloud *)

(** A request to the cloud as the cycle writes it for the bucket
    [bucket]: an upload of a JPEG under a key made of a timestamp, or an
    analysis of such an object asking for ten labels of confidence 70;
    events that are no request to the cloud pass. *)
Definition wellFormed (bucket : string) (ev : Event) : Prop :=
  match ev with
  | S3Send put =>
      exists timestamp imageBytes, put = uploadCommand bucket (objectKey timestamp) imageBytes
  | RekognitionSend detect =>
      exists timestamp, detect = detectCommand bucket (objectKey timestamp)
  | _ => True
  end.

(** Every request of the trace is well formed for the bucket the
    environment of [w] configures. *)
Definition requests (w : World) (t : trace) : Prop :=
  Forall (wellFormed (S3_BUCKET (env w))) t.

Section Requests.
Implicit Types (w : World) (s rendered : ScreenState) (t : trace).

Lemma requests_snoc w t ev :
  requests w t -> wellFormed (S3_BUCKET (env w)) ev -> requests w (t ++ [ev]).
Proof. intros H Hev. apply Forall_app. split; [exact H|]. now constructor. Qed.

Lemma spoken_requests w t text : requests w t -> requests w (spoken w t text).
Proof.
  intros H.
  destruct (spoken_cases w t text) as (alerts & [-> | ->] & [-> | (title & msg & ->)]);
    apply Forall_app; (split; [exact H|]); repeat constructor.
Qed.

Lemma measure_requests rendered w t : requests w t -> requests w (snd (measure rendered w t)).
Proof.
  unfold measure. intros H.
  destruct (hasLiDAR rendered && ARKitDepthModule w); [|exact H].
  destruct (getDepthAtCenter w _); cbn [snd]; now apply requests_snoc.
Qed.

Lemma analysed_requests rendered w s t timestamp binaryString :
  requests w t ->
  requests w (snd (analysed rendered w s t (objectKey timestamp) binaryString)).
Proof.
  intros H. unfold analysed.
  set (put := S3Send _). set (detect := RekognitionSend _).
  assert (requests w (t ++ [put])) as H4 by (apply requests_snoc; cbn; eauto).
  assert (requests w ((t ++ [put]) ++ [detect])) as H5 by (apply requests_snoc; cbn; eauto).
  destruct (s3Send w _) as [[]|e]; [|exact H4].
  destruct (rekognitionSend w _) as [response|e]; [|exact H5].
  cbn [snd]. now apply spoken_requests, measure_requests.
Qed.

Lemma attempted_requests rendered w s t :
  requests w t -> requests w (snd (attempted rendered w s t)).
Proof.
  intros H. unfold attempted.
  assert (requests w (t ++ [CameraTakePicture])) as H1 by now apply requests_snoc.
  destruct (cameraTakePicture w _) as [photo|e]; [|exact H1].
  destruct (imageData photo) as [data|]; [|exact H1].
  assert (requests w (spoken w (t ++ [CameraTakePicture]) "Analyzing" ++ [DateNow])) as H3
    by now apply requests_snoc; [apply spoken_requests|].
  destruct (atob data) as [binaryString|]; [|exact H3].
  now apply analysed_requests.
Qed.

Lemma settle_requests w o s t : requests w t -> requests w (snd (settle w (o, s, t))).
Proof.
  intros H. destruct o as [u|e]; cbn [settle]; [exact H|].
  destruct (isCancelled e); cbn [snd]; [exact H|]. now apply spoken_requests.
Qed.

Lemma tap_requests w s t : requests w t -> requests w (snd (tap w s t)).
Proof.
  intros H. rewrite tap_trace. destruct (_ || _); [exact H|].
  pose proof (attempted_requests s w (withAnalyzing true s) _
                (spoken_requests w t "Opening camera" H)) as Ha.
  destruct (attempted s w _ _) as [[o s2] t2]. now apply settle_requests.
Qed.

End Requests.

(** ** The whole session *)

Section Sessions.
Implicit Types (w : World) (s : ScreenState) (t : trace).

(** The mount asks about the sensor and, when it is there, starts the
    session; nothing else. *)
Lemma mount_trace w r s t :
  mount w initialState [] = (r, s, t) ->
  t = [] \/ t = [IsLiDARAvailable] \/ t = [IsLiDARAvailable; StartDepthSession].
Proof.
  unfold mount, effect. cbn [fst]. rewrite checkLiDAR_run.
  destruct (ARKitDepthModule w);
    [destruct (isLiDARAvailable w _) as [[|]|e];
     [destruct (startDepthSession w _) as [[]|e]|..]|];
    intros [= <- <- <-]; auto.
Qed.

(** A property of traces that holds after the mount and that every tap
    keeps holds throughout the session. *)
Lemma session_trace (P : trace -> Prop) w s t :
  P [] -> P [IsLiDARAvailable] -> P [IsLiDARAvailable; StartDepthSession] ->
  (forall s t, P t -> P (snd (tap w s t))) ->
  session w s t -> P t.
Proof.
  intros P0 P1 P2 Htap. induction 1 as [r s t Hm | s t s' t' Hs IH Ht].
  - destruct (mount_trace _ _ _ _ Hm) as [-> | [-> | ->]]; assumption.
  - specialize (Htap s t IH). now rewrite Ht in Htap.
Qed.

(** What the checks mean: the event before an utterance is a stop, the
    event before an analysis is the upload of its object. *)
Lemma disciplined_at t pre text options post :
  disciplined t -> t = pre ++ SpeechSpeak text options :: post ->
  exists pre', pre = pre' ++ [SpeechStop].
Proof.
  intros H ->. apply adjacent_at in H. cbn in H.
  destruct (lastOf None pre) as [[]|] eqn:E; try discriminate.
  destruct (lastOf_Some _ _ _ E) as [[_ ?]|[pre' ->]]; [discriminate|eauto].
Qed.

Lemma uploadedFirst_at t pre detect post :
  uploadedFirst t -> t = pre ++ RekognitionSend detect :: post ->
  exists pre' put,
    pre = pre' ++ [S3Send put] /\
    put_Bucket put = detect_Bucket detect /\ put_Key put = detect_Name detect.
Proof.
  intros H ->. apply adjacent_at in H. cbn in H.
  destruct (lastOf None pre) as [[| | | | |put| | | | |]|] eqn:E; try discriminate.
  destruct (lastOf_Some _ _ _ E) as [[_ ?]|[pre' ->]]; [discriminate|].
  bool_hyps. exists pre', put. rewrite !String.eqb_eq in *. auto.
Qed.

(** One utterance at a time.  Over the whole life of the screen,
    whatever the collaborators answer, the trace passes the speech
    check: every request to speak comes right after a request to stop
    the previous utterance. *)
Theorem session_disciplined w s t :
  session w s t ->
  disciplined t /\
  forall pre text options post,
    t = pre ++ SpeechSpeak text options :: post ->
    exists pre', pre = pre' ++ [SpeechStop].
Proof.
  intros Hs.
  assert (disciplined t) as H.
  { apply (session_trace disciplined w s); try reflexivity; [|exact Hs].
    intros s0 t0. apply (tap_preserves (keeps disciplined)). }
  split; [exact H|]. intros pre text options post. now apply disciplined_at.
Qed.

(** Upload before analysis.  Over the whole life of the screen,
    whatever the collaborators answer, the trace passes the upload
    check: every request to analyse comes right after a request to
    upload, and names the bucket and the key of that upload. *)
Theorem session_uploadedFirst w s t :
  session w s t ->
  uploadedFirst t /\
  forall pre detect post,
    t = pre ++ RekognitionSend detect :: post ->
    exists pre' put,
      pre = pre' ++ [S3Send put] /\
      put_Bucket put = detect_Bucket detect /\ put_Key put = detect_Name detect.
Proof.
  intros Hs.
  assert (uploadedFirst t) as H.
  { apply (session_trace uploadedFirst w s); try reflexivity; [|exact Hs].
    intros s0 t0. apply tap_uploadedFirst. }
  split; [exact H|]. intros pre detect post. now apply uploadedFirst_at.
Qed.

(** The depth session is never stopped: over the whole life of the
    screen, unmount included, no request to stop the depth session is
    ever made, and the unmount leaves the state as it is: a session that
    the mount started outlives the screen. *)
Theorem session_neverStopped w s t r s' t' :
  session w s t ->
  unmount w s t = (r, s', t') ->
  neverStopped t' /\ s' = s /\ t' = t.
Proof.
  intros Hs. unfold unmount, effect. cbn [snd].
  rewrite cleanup_inactive by reflexivity. intros [= <- <- <-].
  split; [|auto].
  apply (session_trace neverStopped w s); [| | | |exact Hs].
  1-3: unfold neverStopped; cbn; intuition discriminate.
  intros s0 t0. apply (tap_preserves (keeps neverStopped)).
Qed.

(** What a well-formed request says of the bucket. *)
Lemma requests_bucket w t :
  requests w t ->
  forall ev, In ev t ->
    wellFormed (configured (env w "AWS_S3_BUCKET"%string) "your-bucket-name") ev.
Proof.
  unfold requests, S3_BUCKET. rewrite js_or_configured, Forall_forall. auto.
Qed.

(** C27 (requests to the cloud).  Over the whole life of the screen, whatever
    the collaborators answer, every upload is a JPEG stored in the
    configured bucket under a key [analysis/<timestamp>.jpg], and every
    analysis asks for ten labels of confidence 70 of such an object of
    that bucket.  The bucket is the variable [AWS_S3_BUCKET] when it is
    set and not empty and ['your-bucket-name'] otherwise: it is never the
    empty string. *)
Theorem session_requests w s t :
  session w s t ->
  requests w t /\
  (forall put, In (S3Send put) t ->
     put_Bucket put = configured (env w "AWS_S3_BUCKET"%string) "your-bucket-name" /\
     put_Bucket put <> EmptyString /\ put_ContentType put = "image/jpeg"%string /\
     exists timestamp, put_Key put = objectKey timestamp) /\
  (forall detect, In (RekognitionSend detect) t ->
     detect_Bucket detect = configured (env w "AWS_S3_BUCKET"%string) "your-bucket-name" /\
     MaxLabels detect = 10%float /\ MinConfidence detect = 70%float /\
     exists timestamp, detect_Name detect = objectKey timestamp).
Proof.
  intros Hs.
  assert (requests w t) as H.
  { apply (session_trace (requests w) w s); try (repeat constructor); [|exact Hs].
    intros s0 t0. apply tap_requests. }
  pose proof (requests_bucket w t H) as Hb.
  assert (configured (env w "AWS_S3_BUCKET"%string) "your-bucket-name" <> EmptyString) as Hn
    by now apply configured_nonempty.
  split; [exact H|]. split; intros x Hx; apply Hb in Hx; cbn in Hx.
  - destruct Hx as (timestamp & imageBytes & ->). cbn. eauto 6.
  - destruct Hx as (timestamp & ->). cbn. eauto 6.
Qed.

End Sessions.

(** ** Sample sessions *)

(** The screen after the mount and one tap. *)
Definition firstTap (w : World) : ScreenState * trace :=
  let '(_, s, t) := mount w initialState [] in tap w s t.

Lemma session_firstTap w : session w (fst (firstTap w)) (snd (firstTap w)).
Proof.
  unfold firstTap. destruct (mount w initialState []) as [[r s] t] eqn:E.
  eapply session_tap; [eapply session_mount; exact E | apply surjective_pairing].
Qed.

(** The events of a successful cycle on a device without the sensor. *)
Example firstTap_quietWorld :
  snd (firstTap quietWorld) =
  [SpeechStop; SpeechSpeak "Opening camera" speechOptions; CameraTakePicture;
   SpeechStop; SpeechSpeak "Analyzing" speechOptions; DateNow;
   S3Send (mkPut "bucket" "analysis/1700000000000.jpg" [104; 105]%N "image/jpeg");
   RekognitionSend (mkDetect "bucket" "analysis/1700000000000.jpg" 10 70);
   SpeechStop;
   SpeechSpeak "Objects detected. I see a chair about 8 to 10 feet away on your left."
               speechOptions].
Proof. vm_compute. reflexivity. Qed.

Lemma session_disciplined_witness :
  disciplined (snd (firstTap quietWorld)) /\
  forall pre text options post,
    snd (firstTap quietWorld) = pre ++ SpeechSpeak text options :: post ->
    exists pre', pre = pre' ++ [SpeechStop].
Proof.
  apply (session_disciplined quietWorld (fst (firstTap quietWorld))).
  apply session_firstTap.
Defined.

Lemma session_uploadedFirst_witness :
  uploadedFirst (snd (firstTap quietWorld)) /\
  forall pre detect post,
    snd (firstTap quietWorld) = pre ++ RekognitionSend detect :: post ->
    exists pre' put,
      pre = pre' ++ [S3Send put] /\
      put_Bucket put = detect_Bucket detect /\ put_Key put = detect_Name detect.
Proof.
  apply (session_uploadedFirst quietWorld (fst (firstTap quietWorld))).
  apply session_firstTap.
Defined.

Lemma session_requests_witness :
  requests quietWorld (snd (firstTap quietWorld)) /\
  (forall put, In (S3Send put) (snd (firstTap quietWorld)) ->
     put_Bucket put = configured (env quietWorld "AWS_S3_BUCKET"%string) "your-bucket-name" /\
     put_Bucket put <> EmptyString /\ put_ContentType put = "image/jpeg"%string /\
     exists timestamp, put_Key put = objectKey timestamp) /\
  (forall detect, In (RekognitionSend detect) (snd (firstTap quietWorld)) ->
     detect_Bucket detect = configured (env quietWorld "AWS_S3_BUCKET"%string) "your-bucket-name" /\
     MaxLabels detect = 10%float /\ MinConfidence detect = 70%float /\
     exists timestamp, detect_Name detect = objectKey timestamp).
Proof.
  apply (session_requests quietWorld (fst (firstTap quietWorld))).
  apply session_firstTap.
Defined.

(** Nothing checks the configuration when the screen starts: the first
    cycle takes the picture, sends it to the bucket named by the
    placeholder with the placeholder key, and only then fails. *)
Example firstTap_unconfigured :
  snd (firstTap unconfiguredWorld) =
  [SpeechStop; SpeechSpeak "Opening camera" speechOptions; CameraTakePicture;
   SpeechStop; SpeechSpeak "Analyzing" speechOptions; DateNow;
   S3Send (mkPut "your-bucket-name" "analysis/1700000000000.jpg" [104; 105]%N "image/jpeg");
   SpeechStop; SpeechSpeak "Analysis failed. Please try again." speechOptions] /\
  result (fst (firstTap unconfiguredWorld)) =
    "Analysis failed: The AWS Access Key Id does not exist"%string.
Proof. vm_compute. split; reflexivity. Qed.

Lemma session_neverStopped_witness :
  neverStopped (snd (firstTap lidarWorld)) /\
  fst (firstTap lidarWorld) = fst (firstTap lidarWorld) /\
  snd (firstTap lidarWorld) = snd (firstTap lidarWorld).
Proof.
  apply (session_neverStopped lidarWorld (fst (firstTap lidarWorld)) (snd (firstTap lidarWorld))
           (Resolved tt)); [apply session_firstTap | reflexivity].
Defined.
