(* ===== verification/Async.v ===== *)
(** * Async: the handlers as processes that suspend at every [await]

    A [Task] runs a handler from its call to its settlement in one piece.
    The handlers of [index.tsx] are [async] functions: each [await]
    (lines 42-46, 67-70, 92, 104-105, 109, 117, 130, 143, 150, 265, 281)
    hands control back to the event loop, and whatever else is ready runs
    before the handler goes on.  A [Proc] is the same program with its
    suspension points kept: a tree of collaborator calls, reads of the
    world's constants, writes to the four state cells and pauses.

    - [run] forgets the pauses and gives the task of [Cycle] and
      [Lifecycle] back ([speakText_same] ... [checkLiDAR_same]);
    - [advance] runs a process to its next pause, the step of the machine
      of [Scheduler];
    - [guards] follows an observer of the events and the writes along
      every path of a process, and [neutral] says that a process leaves
      the observer's state alone; with the observer [flag] they follow
      the busy flag ([closes], [quiet]), with the observers of
      [Monitors] the calls of a service;
    - [atMost] bounds the pauses of every path.

    The observers and the bound are what the invariants and the
    termination measure of the machine are made of. *)

From Stdlib Require Import Relations RelationClasses Morphisms.
From S2P Require Import Prelude JsNumber JsString NumberToString Base64 Labels Geometry.
From S2P Require Import Describe Configuration Collaborators Cycle Lifecycle.

(** ** Processes *)

(** A write to one of the four cells of [useState] (lines 25-28). *)
Inductive Write : Set :=
| SetAnalyzing (b : bool)
| SetResult (r : string)
| SetHasLiDAR (b : bool)
| SetArSessionActive (b : bool).

Definition write (wr : Write) (s : ScreenState) : ScreenState :=
  match wr with
  | SetAnalyzing b => withAnalyzing b s
  | SetResult r => withResult r s
  | SetHasLiDAR b => withHasLiDAR b s
  | SetArSessionActive b => withArSessionActive b s
  end.

(** What is left of a handler: it has settled, or it goes on with a call
    of a collaborator (the event is recorded and the world answers at
    once, with a value, or with the outcome of the promise it returns), a
    suspension, a read of the world's constants or a write. *)
Inductive Proc (A : Type) : Type :=
| Settled (r : outcome A)
| Call {B : Type} (ev : Event) (oracle : World -> trace -> B) (k : B -> Proc A)
| Pause (k : Proc A)
| Read {B : Type} (f : World -> B) (k : B -> Proc A)
| Update (wr : Write) (k : Proc A).

Arguments Settled {A} r.
Arguments Call {A B} ev oracle k.
Arguments Pause {A} k.
Arguments Read {A B} f k.
Arguments Update {A} wr k.

(** [p] followed by what [k] makes of its outcome. *)
Fixpoint andThen {A B : Type} (p : Proc A) (k : outcome A -> Proc B) : Proc B :=
  match p with
  | Settled r => k r
  | Call ev oracle h => Call ev oracle (fun v => andThen (h v) k)
  | Pause h => Pause (andThen h k)
  | Read f h => Read f (fun v => andThen (h v) k)
  | Update wr h => Update wr (andThen h k)
  end.

(** The run of a process that nothing interrupts. *)
Fixpoint run {A : Type} (p : Proc A) (w : World) (s : ScreenState) (t : trace) {struct p} :
    outcome A * ScreenState * trace :=
  match p with
  | Settled r => (r, s, t)
  | Call ev oracle k => run (k (oracle w (t ++ [ev]))) w s (t ++ [ev])
  | Pause k => run k w s t
  | Read f k => run (k (f w)) w s t
  | Update wr k => run k w (write wr s) t
  end.

(** Where a turn of the event loop leaves a handler. *)
Inductive Progress (A : Type) : Type :=
| Done (r : outcome A)
| Waiting (rest : Proc A).

Arguments Done {A} r.
Arguments Waiting {A} rest.

(** One turn: the process runs until it settles or suspends. *)
Fixpoint advance {A : Type} (p : Proc A) (w : World) (s : ScreenState) (t : trace) {struct p} :
    Progress A * ScreenState * trace :=
  match p with
  | Settled r => (Done r, s, t)
  | Call ev oracle k => advance (k (oracle w (t ++ [ev]))) w s (t ++ [ev])
  | Pause k => (Waiting k, s, t)
  | Read f k => advance (k (f w)) w s t
  | Update wr k => advance k w (write wr s) t
  end.

(** ** What a process does, seen by an observer *)

(** What a process does to the world and to the cells. *)
Inductive Effect : Set :=
| Emits (ev : Event)
| Writes (wr : Write).

(** The state and the trace after an effect. *)
Definition effected (e : Effect) (s : ScreenState) (t : trace) : ScreenState * trace :=
  match e with
  | Emits ev => (s, t ++ [ev])
  | Writes wr => (write wr s, t)
  end.

Section Observed.
Context {X : Type} (next : Effect -> X -> option X).

(** An observer in state [x] moves to [next e x] on the effect [e], or
    refuses it.  [guards I Q x p]: on every path of [p] from the
    observer's state [x], no effect is refused, [p] suspends only in
    states that satisfy [I] and settles only with an outcome and in a
    state that satisfy [Q]. *)
Fixpoint guards {A : Type} (I : X -> Prop) (Q : outcome A -> X -> Prop)
    (x : X) (p : Proc A) {struct p} : Prop :=
  match p with
  | Settled r => Q r x
  | Call ev _ k =>
      match next (Emits ev) x with
      | Some x' => forall v, guards I Q x' (k v)
      | None => False
      end
  | Pause k => I x /\ guards I Q x k
  | Read _ k => forall v, guards I Q x (k v)
  | Update wr k =>
      match next (Writes wr) x with
      | Some x' => guards I Q x' k
      | None => False
      end
  end.

(** [neutral P p]: no effect of [p] moves the observer, whatever its
    state, and [p] settles with an outcome in [P]. *)
Fixpoint neutral {A : Type} (P : outcome A -> Prop) (p : Proc A) {struct p} : Prop :=
  match p with
  | Settled r => P r
  | Call ev _ k => (forall x, next (Emits ev) x = Some x) /\ forall v, neutral P (k v)
  | Pause k => neutral P k
  | Read _ k => forall v, neutral P (k v)
  | Update wr k => (forall x, next (Writes wr) x = Some x) /\ neutral P k
  end.

End Observed.

(** The observer of the busy flag: its state is the flag. *)
Definition flag (e : Effect) (b : bool) : option bool :=
  match e with
  | Writes (SetAnalyzing b') => Some b'
  | _ => Some b
  end.

(** A cycle: suspended only while the flag is up, settled only with the
    flag down. *)
Definition closes (b : bool) (p : Proc unit) : Prop :=
  guards flag (fun b' => b' = true) (fun _ b' => b' = false) b p.

(** [quiet P p]: [p] never writes the flag, and settles with an outcome
    in [P]. *)
Abbreviation quiet := (neutral flag).

(** The outcomes of a handler that cannot reject, and of any handler. *)
Definition resolved {A : Type} (r : outcome A) : Prop :=
  match r with
  | Resolved _ => True
  | Rejected _ => False
  end.

Definition settled {A : Type} (r : outcome A) : Prop := True.

(** [atMost n p]: no path of [p] has more than [n] suspensions. *)
Fixpoint atMost {A : Type} (n : nat) (p : Proc A) {struct p} : Prop :=
  match p with
  | Settled _ => True
  | Call _ _ k => forall v, atMost n (k v)
  | Pause k =>
      match n with
      | O => False
      | S m => atMost m k
      end
  | Read _ k => forall v, atMost n (k v)
  | Update _ k => atMost n k
  end.

(** ** The handlers *)

Declare Scope proc_scope.
Delimit Scope proc_scope with proc.
Bind Scope proc_scope with Proc.

(** [return a] and [throw e]. *)
Definition resolve {A : Type} (a : A) : Proc A := Settled (Resolved a).

Definition reject {A : Type} (e : JsError) : Proc A := Settled (Rejected e).

(** [const a = p; k a]: what follows a statement runs unless it threw. *)
Definition thenDo {A B : Type} (p : Proc A) (k : A -> Proc B) : Proc B :=
  andThen p (fun r =>
    match r with
    | Resolved a => k a
    | Rejected e => reject e
    end).

(** [try { p } catch (error) { handler error }]. *)
Definition tryCatch {A : Type} (p : Proc A) (handler : JsError -> Proc A) : Proc A :=
  andThen p (fun r =>
    match r with
    | Resolved a => resolve a
    | Rejected e => handler e
    end).

(** [try { p } finally { final }]. *)
Definition tryFinally {A : Type} (p : Proc A) (final : Proc unit) : Proc A :=
  andThen p (fun r =>
    andThen final (fun r' =>
      match r' with
      | Resolved _ => Settled r
      | Rejected e => reject e
      end)).

(** [await collaborator.method()]: the call is made, the handler is
    suspended, and the outcome of the promise is what it resumes with. *)
Definition await {A : Type} (ev : Event) (oracle : World -> trace -> outcome A) : Proc A :=
  Call ev oracle (fun r => Pause (Settled r)).

(** [await f()] for an [async] function [f] of the component: [f] runs
    to its own suspensions, and the caller is suspended once more when
    [f] has settled. *)
Definition awaited {A : Type} (p : Proc A) : Proc A :=
  andThen p (fun r => Pause (Settled r)).

(** A call whose promise is dropped. *)
Definition discard {A : Type} (ev : Event) (oracle : World -> trace -> outcome A) : Proc unit :=
  Call ev oracle (fun _ => resolve tt).

(** A synchronous call that cannot fail, with and without a value. *)
Definition query {A : Type} (ev : Event) (oracle : World -> trace -> A) : Proc A :=
  Call ev oracle resolve.

Definition notify (ev : Event) : Proc unit :=
  Call ev (fun _ _ => tt) resolve.

(** A read of the world's constants, and a call of a setter. *)
Definition constant {A : Type} (f : World -> A) : Proc A := Read f resolve.

Definition assign (wr : Write) : Proc unit := Update wr (resolve tt).

Notation "x <- c ;; k" := (thenDo c (fun x => k))
  (at level 61, c at next level, right associativity) : proc_scope.
Notation "c ;; k" := (thenDo c (fun _ => k))
  (at level 61, right associativity) : proc_scope.

Section Handlers.

Local Open Scope string_scope.
Local Open Scope proc_scope.

(** [speakText] (lines 64-84). *)
Definition speakTextProc (text : string) : Proc unit :=
  tryCatch
    (await SpeechStop speechStop ;;
     await (SpeechSpeak text speechOptions) speechSpeak)
    (fun error =>
       notify (AlertAlert "TTS Error" ("Could not speak: " ++ templateString (message error)))).

(** [getARKitDistance] (lines 86-98). *)
Definition getARKitDistanceProc (rendered : ScreenState) : Proc (option number) :=
  has <- constant ARKitDepthModule ;;
  if negb (hasLiDAR rendered) || negb has then resolve None
  else
    tryCatch
      (depthData <- await GetDepthAtCenter getDepthAtCenter ;;
       resolve (Some (distance depthData)))
      (fun _ => resolve None).

(** [base64ToUint8Array] (lines 55-62), which never suspends. *)
Definition base64ToUint8ArrayProc (data : string) : Proc (list N) :=
  match atob data with
  | Some binaryString => resolve (bytesOfBinaryString binaryString)
  | None => error <- constant decodeFailure ;; reject error
  end.

(** The body of the [try] block (lines 107-268). *)
Definition attemptProc (rendered : ScreenState) : Proc unit :=
  photo <- await CameraTakePicture cameraTakePicture ;;
  match imageData photo with
  | None => reject (newError "No image data")
  | Some data =>
      assign (SetResult "Analyzing image...") ;;
      awaited (speakTextProc "Analyzing") ;;
      timestamp <- query DateNow dateNow ;;
      let key := objectKey timestamp in
      imageBytes <- base64ToUint8ArrayProc data ;;
      bucket <- constant (fun w => S3_BUCKET (env w)) ;;
      await (S3Send (uploadCommand bucket key imageBytes)) s3Send ;;
      rekognitionResult <-
        await (RekognitionSend (detectCommand bucket key)) rekognitionSend ;;
      let physical := physicalObjects (allLabels (Labels rekognitionResult)) in
      realDistance <-
        (if hasLiDAR rendered then awaited (getARKitDistanceProc rendered)
         else resolve None) ;;
      let description := describe physical realDistance in
      assign (SetResult description) ;;
      awaited (speakTextProc description)
  end.

(** The [catch] block (lines 270-281). *)
Definition recoverProc (error : JsError) : Proc unit :=
  if isCancelled error then
    assign (SetResult "") ;;
    assign (SetAnalyzing false)
  else
    assign (SetResult ("Analysis failed: " ++ errorDetails error)%string) ;;
    awaited (speakTextProc "Analysis failed. Please try again.").

(** [takePicture] (lines 100-285). *)
Definition takePictureProc (rendered : ScreenState) : Proc unit :=
  camera <- constant CameraModule ;;
  if analyzing rendered || negb camera then resolve tt
  else
    assign (SetAnalyzing true) ;;
    awaited (speakTextProc "Opening camera") ;;
    tryFinally
      (tryCatch (attemptProc rendered) recoverProc)
      (assign (SetAnalyzing false)).

(** [checkLiDAR] (lines 39-53). *)
Definition checkLiDARProc : Proc unit :=
  has <- constant ARKitDepthModule ;;
  if has then
    tryCatch
      (available <- await IsLiDARAvailable isLiDARAvailable ;;
       assign (SetHasLiDAR available) ;;
       if available then
         await StartDepthSession startDepthSession ;;
         assign (SetArSessionActive true)
       else resolve tt)
      (fun _ => resolve tt)
  else resolve tt.

(** The cleanup of lines 32-36 as created by the render [rendered]. *)
Definition cleanupProc (rendered : ScreenState) : Proc unit :=
  has <- constant ARKitDepthModule ;;
  if arSessionActive rendered && has then discard StopDepthSession stopDepthSession
  else resolve tt.

End Handlers.

(** ** Tasks up to their runs *)

(** Two tasks are the same when they run alike. *)
Definition same {A : Type} (c c' : Task A) : Prop :=
  forall w s t, c w s t = c' w s t.

#[export] Instance same_Equivalence {A : Type} : Equivalence (@same A).
Proof.
  split; [intros c w s t|intros c c' H w s t|intros c1 c2 c3 H1 H2 w s t];
    [reflexivity|symmetry; apply H|etransitivity; [apply H1|apply H2]].
Qed.

#[export] Instance bind_Proper {A B : Type} :
  Proper (same ==> pointwise_relation A same ==> same) (@bind A B).
Proof.
  intros c c' Hc k k' Hk w s t. unfold bind. rewrite Hc.
  destruct (c' w s t) as [[[a|e] s'] t']; [apply Hk|reflexivity].
Qed.

#[export] Instance try_catch_Proper {A : Type} :
  Proper (same ==> pointwise_relation JsError same ==> same) (@try_catch A).
Proof.
  intros c c' Hc h h' Hh w s t. unfold try_catch. rewrite Hc.
  destruct (c' w s t) as [[[a|e] s'] t']; [reflexivity|apply Hh].
Qed.

#[export] Instance try_finally_Proper {A : Type} :
  Proper (same ==> same ==> same) (@try_finally A).
Proof.
  intros c c' Hc f f' Hf w s t. unfold try_finally. rewrite Hc.
  destruct (c' w s t) as [[r s'] t']. now rewrite Hf.
Qed.

(** ** Runs *)

Lemma run_andThen {A B : Type} (p : Proc A) (k : outcome A -> Proc B) w s t :
  run (andThen p k) w s t =
  match run p w s t with
  | (r, s', t') => run (k r) w s' t'
  end.
Proof. revert s t; induction p; intros; cbn; auto. Qed.

Section Runs.
Context {A : Type}.
Implicit Types (p : Proc A) (w : World) (s : ScreenState) (t : trace).

(** A run is a turn followed by the run of what is left. *)
Lemma run_advance p w s t :
  run p w s t =
  match advance p w s t with
  | (Done r, s', t') => (r, s', t')
  | (Waiting rest, s', t') => run rest w s' t'
  end.
Proof. revert s t; induction p; intros; cbn; auto. Qed.

(** A handler reads the state through its closure only: what a turn
    leaves to do, and what it records, do not depend on the state it
    runs in. *)
Lemma advance_closure p w s s0 t :
  fst (fst (advance p w s t)) = fst (fst (advance p w s0 t)) /\
  snd (advance p w s t) = snd (advance p w s0 t).
Proof. revert s s0 t; induction p; intros; cbn; auto. Qed.

(** A turn takes nothing back: the trace grows at its end. *)
Lemma advance_extends p w s t : exists t', snd (advance p w s t) = t ++ t'.
Proof.
  revert s t; induction p as [r|B ev oracle k IH|k IH|B f k IH|wr k IH]; intros s t; cbn;
    try solve [exists []; now rewrite app_nil_r]; auto.
  destruct (IH (oracle w (t ++ [ev])) s (t ++ [ev])) as [t' E].
  exists (ev :: t'). now rewrite E, <- app_assoc.
Qed.

Lemma run_bind {B : Type} p (k : A -> Proc B) :
  same (run (thenDo p k)) (bind (run p) (fun a => run (k a))).
Proof.
  intros w s t. unfold thenDo, bind. rewrite run_andThen.
  now destruct (run p w s t) as [[[a|e] s'] t'].
Qed.

Lemma run_try_catch p handler :
  same (run (tryCatch p handler)) (try_catch (run p) (fun e => run (handler e))).
Proof.
  intros w s t. unfold tryCatch, try_catch. rewrite run_andThen.
  now destruct (run p w s t) as [[[a|e] s'] t'].
Qed.

Lemma run_try_finally p final :
  same (run (tryFinally p final)) (try_finally (run p) (run final)).
Proof.
  intros w s t. unfold tryFinally, try_finally. rewrite run_andThen.
  destruct (run p w s t) as [[r s'] t']. cbn beta. rewrite run_andThen.
  now destruct (run final w s' t') as [[[[]|e] s''] t''].
Qed.

Lemma run_awaited p : same (run (awaited p)) (run p).
Proof.
  intros w s t. unfold awaited. rewrite run_andThen.
  now destruct (run p w s t) as [[r s'] t'].
Qed.

End Runs.

Create HintDb async.

(** One step of a proof that the run of a process is a task: the rule of
    the head combinator, a case split where the program branches, and the
    primitives, which run alike by definition. *)
Ltac same_step :=
  cbv zeta;
  lazymatch goal with
  | |- same (run (thenDo _ _)) _ =>
      etransitivity; [apply run_bind|]; apply bind_Proper; [|intros ?]
  | |- same (run (tryCatch _ _)) _ =>
      etransitivity; [apply run_try_catch|]; apply try_catch_Proper; [|intros ?]
  | |- same (run (tryFinally _ _)) _ =>
      etransitivity; [apply run_try_finally|]; apply try_finally_Proper
  | |- same (run (awaited _)) _ => etransitivity; [apply run_awaited|]
  | |- same (run (if ?b then _ else _)) _ => destruct b
  | |- same (run (match ?x with _ => _ end)) _ => destruct x
  | |- _ => first [solve [auto with async] | intros ? ? ?; reflexivity]
  end.

Section Same.
Implicit Types (rendered : ScreenState) (text : string).

Lemma speakText_same text : same (run (speakTextProc text)) (speakText text).
Proof. unfold speakTextProc, speakText. repeat same_step. Qed.

Lemma getARKitDistance_same rendered :
  same (run (getARKitDistanceProc rendered)) (getARKitDistance rendered).
Proof. unfold getARKitDistanceProc, getARKitDistance. repeat same_step. Qed.

Lemma base64ToUint8Array_same data :
  same (run (base64ToUint8ArrayProc data)) (base64ToUint8Array data).
Proof. unfold base64ToUint8ArrayProc, base64ToUint8Array. repeat same_step. Qed.

#[local] Hint Resolve speakText_same getARKitDistance_same base64ToUint8Array_same : async.

Lemma attempt_same rendered : same (run (attemptProc rendered)) (attempt rendered).
Proof. unfold attemptProc, attempt. repeat same_step. Qed.

Lemma recover_same error : same (run (recoverProc error)) (recover error).
Proof. unfold recoverProc, recover. repeat same_step. Qed.

#[local] Hint Resolve attempt_same recover_same : async.

Lemma takePicture_same rendered :
  same (run (takePictureProc rendered)) (takePicture rendered).
Proof. unfold takePictureProc, takePicture. repeat same_step. Qed.

Lemma checkLiDAR_same : same (run checkLiDARProc) checkLiDAR.
Proof. unfold checkLiDARProc, checkLiDAR. repeat same_step. Qed.

Lemma cleanup_same rendered : same (run (cleanupProc rendered)) (cleanup rendered).
Proof.
  unfold cleanupProc, cleanup. repeat same_step.
  intros w s t. cbn. unfold try_catch, call. now destruct (stopDepthSession w _) as [[]|e].
Qed.

End Same.

(** ** Observers along a process *)

Section Observers.
Context {X : Type} (next : Effect -> X -> option X).

Lemma guards_mono {A : Type} (I I' : X -> Prop) (Q Q' : outcome A -> X -> Prop) x p :
  (forall x, I x -> I' x) -> (forall r x, Q r x -> Q' r x) ->
  guards next I Q x p -> guards next I' Q' x p.
Proof.
  intros HI HQ. revert x; induction p as [r|B ev oracle k IH|k IH|B f k IH|wr k IH];
    intros x; cbn; try destruct (next _ x); try tauto; auto.
  intros [? ?]; auto.
Qed.

(** What [andThen p k] does: what [p] does, then what [k] does. *)
Lemma guards_andThen {A B : Type} I (Q : outcome B -> X -> Prop) x (p : Proc A) k :
  guards next I (fun r x' => guards next I Q x' (k r)) x p ->
  guards next I Q x (andThen p k).
Proof.
  revert x; induction p as [r|C ev oracle h IH|h IH|C f h IH|wr h IH];
    intros x; cbn; try destruct (next _ x); try tauto; auto.
  intros [? ?]; auto.
Qed.

Lemma neutral_mono {A : Type} (P P' : outcome A -> Prop) p :
  (forall r, P r -> P' r) -> neutral next P p -> neutral next P' p.
Proof. intros HP. induction p; cbn; try tauto; auto. intros [? ?]; auto. Qed.

Lemma neutral_andThen {A B : Type} (P : outcome B -> Prop) (p : Proc A) k :
  neutral next (fun r => neutral next P (k r)) p -> neutral next P (andThen p k).
Proof. induction p; cbn; try tauto; auto. intros [? ?]; auto. Qed.

(** A neutral process fits wherever the observer may stay as it is. *)
Lemma neutral_guards {A : Type} P I (Q : outcome A -> X -> Prop) x p :
  neutral next P p -> I x -> (forall r, P r -> Q r x) -> guards next I Q x p.
Proof.
  intros Hp HI HQ. induction p as [r|B ev oracle k IH|k IH|B f k IH|wr k IH]; cbn in *;
    try (destruct Hp as [-> Hp]); auto.
Qed.

(** What the observer's state says of a state and a trace, kept by every
    effect the observer accepts. *)
Context (holds : X -> ScreenState -> trace -> Prop).
Hypothesis holds_next : forall e x x' s t,
  holds x s t -> next e x = Some x' ->
  holds x' (fst (effected e s t)) (snd (effected e s t)).

(** A turn from a state and a trace of which the observer's state
    holds: it still holds where the turn stops, and the rest is guarded
    from there. *)
Lemma guards_advance {A : Type} I Q (p : Proc A) w s t x :
  holds x s t -> guards next I Q x p ->
  match advance p w s t with
  | (Done r, s', t') => exists x', holds x' s' t' /\ Q r x'
  | (Waiting rest, s', t') => exists x', holds x' s' t' /\ I x' /\ guards next I Q x' rest
  end.
Proof.
  revert x s t; induction p as [r|B ev oracle k IH|k IH|B f k IH|wr k IH];
    intros x s t Hx Hg; cbn in *.
  - eauto.
  - destruct (next (Emits ev) x) as [x'|] eqn:E; [|destruct Hg].
    eapply IH; [apply (holds_next (Emits ev) x x' s t Hx E)|apply Hg].
  - destruct Hg. eauto.
  - eapply IH; [eassumption|apply Hg].
  - destruct (next (Writes wr) x) as [x'|] eqn:E; [|destruct Hg].
    eapply IH; [apply (holds_next (Writes wr) x x' s t Hx E)|apply Hg].
Qed.

(** A turn of a neutral process leaves the observer where it was, and a
    neutral rest. *)
Lemma neutral_advance {A : Type} P (p : Proc A) w s t x :
  holds x s t -> neutral next P p ->
  match advance p w s t with
  | (Done r, s', t') => holds x s' t' /\ P r
  | (Waiting rest, s', t') => holds x s' t' /\ neutral next P rest
  end.
Proof.
  revert s t; induction p as [r|B ev oracle k IH|k IH|B f k IH|wr k IH];
    intros s t Hx Hp; cbn in *; auto.
  - destruct Hp as [He Hp].
    eapply IH; [apply (holds_next (Emits ev) x x s t Hx (He x))|apply Hp].
  - eapply IH; [eassumption|apply Hp].
  - destruct Hp as [He Hp].
    eapply IH; [apply (holds_next (Writes wr) x x s t Hx (He x))|apply Hp].
Qed.

End Observers.

(** ** The busy flag *)

Lemma flag_holds e b b' s t :
  analyzing s = b -> flag e b = Some b' -> analyzing (fst (effected e s t)) = b'.
Proof. destruct e as [ev|[]]; cbn; now intros <- [= <-]. Qed.

Section Flag.
Context {A : Type}.
Implicit Types (p : Proc A) (w : World) (s : ScreenState) (t : trace).

(** A turn from a state whose flag the process was followed from: the
    flag where it stops is the one [guards] foresaw. *)
Lemma flag_advance I Q p w s t :
  guards flag I Q (analyzing s) p ->
  match advance p w s t with
  | (Done r, s', _) => Q r (analyzing s')
  | (Waiting rest, s', _) => I (analyzing s') /\ guards flag I Q (analyzing s') rest
  end.
Proof.
  intros Hg.
  pose proof (guards_advance flag (fun b s _ => analyzing s = b) flag_holds
                I Q p w s t (analyzing s) eq_refl Hg) as H.
  destruct (advance p w s t) as [[[r|rest] s'] t']; destruct H as (b & <- & H); exact H.
Qed.

(** A turn of a quiet process leaves the flag alone and a quiet rest. *)
Lemma quiet_advance P p w s t :
  quiet P p ->
  match advance p w s t with
  | (Done r, s', _) => P r /\ analyzing s' = analyzing s
  | (Waiting rest, s', _) => analyzing s' = analyzing s /\ quiet P rest
  end.
Proof.
  intros Hp.
  pose proof (neutral_advance flag (fun b s _ => analyzing s = b) flag_holds
                P p w s t (analyzing s) eq_refl Hp) as H.
  destruct (advance p w s t) as [[[r|rest] s'] t']; destruct H; auto.
Qed.

End Flag.

(** ** The suspensions of a process *)

Lemma atMost_mono {A : Type} n m (p : Proc A) : n <= m -> atMost n p -> atMost m p.
Proof.
  revert n m; induction p as [| |k IH| |]; intros n m Hnm; cbn; eauto.
  destruct n as [|n]; [tauto|]. destruct m as [|m]; [lia|]. apply IH. lia.
Qed.

Section Within.
Context {A : Type}.
Implicit Types (p : Proc A) (n m : nat).

Lemma atMost_andThen {B : Type} n m p (k : outcome A -> Proc B) :
  atMost n p -> (forall r, atMost m (k r)) -> atMost (n + m) (andThen p k).
Proof.
  intros Hp Hk. revert n Hp; induction p as [| |h IH| |]; intros n Hp; cbn in *; eauto.
  - apply (atMost_mono m); [lia|apply Hk].
  - destruct n as [|n]; [tauto|]. cbn. now apply IH.
Qed.

(** A turn that suspends has used one suspension of the budget. *)
Lemma atMost_advance n p w s t :
  atMost n p ->
  match advance p w s t with
  | (Done _, _, _) => True
  | (Waiting rest, _, _) => exists m, n = S m /\ atMost m rest
  end.
Proof.
  revert s t; induction p as [r|B ev oracle k IH|k IH|B f k IH|wr k IH];
    intros s t Hn; cbn in *; try solve [apply IH, Hn]; auto.
  destruct n as [|m]; [destruct Hn|eauto].
Qed.

Lemma atMost_le n m p : atMost n p -> n <= m -> atMost m p.
Proof. intros Hp Hnm. now apply (atMost_mono n). Qed.

Lemma atMost_bind {B : Type} n m p (k : A -> Proc B) :
  atMost n p -> (forall a, atMost m (k a)) -> atMost (n + m) (thenDo p k).
Proof. intros Hp Hk. apply atMost_andThen; [exact Hp|]. intros [a|e]; [apply Hk|exact I]. Qed.

Lemma atMost_try_catch n m p handler :
  atMost n p -> (forall e, atMost m (handler e)) ->
  atMost (n + m) (tryCatch p handler).
Proof. intros Hp Hk. apply atMost_andThen; [exact Hp|]. intros [a|e]; [exact I|apply Hk]. Qed.

Lemma atMost_awaited n p : atMost n p -> atMost (n + 1) (awaited p).
Proof. intros Hp. apply atMost_andThen; [exact Hp|]. intros r. exact I. Qed.

Lemma atMost_if n m (b : bool) p q :
  atMost n p -> atMost m q -> atMost (n + m) (if b then p else q).
Proof. intros Hp Hq. destruct b; [apply (atMost_mono n)|apply (atMost_mono m)]; auto; lia. Qed.

End Within.

Lemma atMost_try_finally {A : Type} n m (p : Proc A) final :
  atMost n p -> atMost m final -> atMost (n + m) (tryFinally p final).
Proof.
  intros Hp Hf. apply atMost_andThen; [exact Hp|]. intros r.
  apply (atMost_mono (m + 0)); [lia|]. apply atMost_andThen; [exact Hf|].
  now intros [[]|e].
Qed.

(** ** The handlers, their flag and their suspensions *)

(** The combinators as the constructors they stand for. *)
Ltac unfold_proc :=
  unfold thenDo, tryCatch, tryFinally, await,
    awaited, discard, query, notify, constant,
    assign, resolve, reject.

(** The observer's answer to an effect, computed. *)
Ltac observe :=
  lazymatch goal with
  | |- match ?n with _ => _ end =>
      let r := eval cbn in n in
      change n with r; rewrite ?String.eqb_refl; cbn [andb]; cbv iota
  end.

(** One step along a process that an observer follows: into the first
    part of a sequence, through a constructor, by cases on a branch, or
    past a handler of which a fact is known (that it is neutral, or that
    it is guarded from any state). *)
Ltac guards_step :=
  cbv zeta; cbv beta;
  lazymatch goal with
  | |- guards _ _ _ _ (andThen _ _) => apply guards_andThen
  | |- guards _ _ _ _ (Settled _) => cbn [guards]
  | |- guards _ _ _ _ (Call _ _ _) => cbn [guards]; observe
  | |- guards _ _ _ _ (Read _ _) => cbn [guards]; intros ?
  | |- guards _ _ _ _ (Pause _) => cbn [guards]
  | |- guards _ _ _ _ (Update _ _) => cbn [guards]; observe
  | |- guards _ _ _ _ (if ?b then _ else _) => destruct b
  | |- guards _ _ _ _ (match ?x with _ => _ end) => destruct x
  | |- guards _ _ _ _ _ =>
      first
      [ eapply neutral_guards;
        [solve [eauto with async]|first [reflexivity | exact I]|intros [?|?] []]
      | eapply guards_mono; [| |solve [eauto with async]];
        [intros ? ?; first [assumption | exact I]|intros [?|?] ? []] ]
  | |- neutral _ _ (andThen _ _) => apply neutral_andThen
  | |- neutral _ _ (Settled _) => cbn [neutral]
  | |- neutral _ _ (Call _ _ _) => cbn [neutral]; split; [intros ?; reflexivity|intros ?]
  | |- neutral _ _ (Read _ _) => cbn [neutral]; intros ?
  | |- neutral _ _ (Pause _) => cbn [neutral]
  | |- neutral _ _ (Update _ _) => cbn [neutral]; split; [intros ?; reflexivity|]
  | |- neutral _ _ (if ?b then _ else _) => destruct b
  | |- neutral _ _ (match ?x with _ => _ end) => destruct x
  | |- neutral _ _ _ =>
      eapply neutral_mono; [|solve [eauto with async]]; intros [?|?] []
  | |- match _ with _ => _ end => observe
  | |- _ /\ _ => split
  | |- forall _, _ => intros ?
  | |- _ => first [reflexivity | exact I]
  end.

(** One step of a count of suspensions: the budget of a sequence is the
    sum of the budgets of its parts. *)
Ltac atMost_step :=
  cbv zeta;
  lazymatch goal with
  | |- atMost _ (thenDo _ _) => eapply atMost_bind; [|intros ?]
  | |- atMost _ (tryCatch _ _) => eapply atMost_try_catch; [|intros ?]
  | |- atMost _ (tryFinally _ _) => eapply atMost_try_finally
  | |- atMost _ (awaited _) => eapply atMost_awaited
  | |- atMost _ (if _ then _ else _) => eapply atMost_if
  | |- atMost _ (match ?x with _ => _ end) => destruct x
  | |- atMost ?n _ =>
      first [ solve [eauto with async]
            | is_evar n; unify n 0; solve [cbn; auto]
            | is_evar n; unify n 1; solve [cbn; auto]
            | solve [cbn; auto] ]
  end.

Ltac atMost_count := eapply atMost_le; [repeat atMost_step|cbn; lia].

Section HandlerFacts.
Implicit Types (rendered : ScreenState) (text data : string) (error : JsError).

(** [speakText] and [getARKitDistance] catch what they await. *)
Lemma speakText_quiet text : quiet resolved (speakTextProc text).
Proof. unfold speakTextProc. unfold_proc. repeat guards_step. Qed.

Lemma getARKitDistance_quiet rendered : quiet resolved (getARKitDistanceProc rendered).
Proof. unfold getARKitDistanceProc. unfold_proc. repeat guards_step. Qed.

Lemma base64ToUint8Array_quiet data : quiet settled (base64ToUint8ArrayProc data).
Proof. unfold base64ToUint8ArrayProc. unfold_proc. repeat guards_step. Qed.

#[local] Hint Resolve speakText_quiet getARKitDistance_quiet base64ToUint8Array_quiet : async.

(** The [try] block never writes the flag. *)
Lemma attempt_quiet rendered : quiet settled (attemptProc rendered).
Proof. unfold attemptProc. unfold_proc. repeat guards_step. Qed.

(** [checkLiDAR] never writes the flag and never rejects. *)
Lemma checkLiDAR_quiet : quiet resolved checkLiDARProc.
Proof. unfold checkLiDARProc. unfold_proc. repeat guards_step. Qed.

#[local] Hint Resolve attempt_quiet : async.

(** A cycle started with the flag down raises it before its first
    suspension and lowers it before it settles. *)
Lemma takePicture_closes rendered : closes false (takePictureProc rendered).
Proof.
  unfold closes, takePictureProc, recoverProc. unfold_proc. repeat guards_step.
Qed.

Lemma speakText_atMost text : atMost 2 (speakTextProc text).
Proof. unfold speakTextProc. atMost_count. Qed.

Lemma getARKitDistance_atMost rendered : atMost 1 (getARKitDistanceProc rendered).
Proof. unfold getARKitDistanceProc. atMost_count. Qed.

Lemma base64ToUint8Array_atMost data : atMost 0 (base64ToUint8ArrayProc data).
Proof. unfold base64ToUint8ArrayProc. now destruct (atob data). Qed.

#[local] Hint Resolve speakText_atMost getARKitDistance_atMost base64ToUint8Array_atMost : async.

Lemma attempt_atMost rendered : atMost 11 (attemptProc rendered).
Proof. unfold attemptProc. atMost_count. Qed.

Lemma recover_atMost error : atMost 3 (recoverProc error).
Proof. unfold recoverProc. atMost_count. Qed.

#[local] Hint Resolve attempt_atMost recover_atMost : async.

(** A cycle suspends at most seventeen times. *)
Lemma takePicture_atMost rendered : atMost 17 (takePictureProc rendered).
Proof. unfold takePictureProc. atMost_count. Qed.

(** [checkLiDAR] suspends at most twice. *)
Lemma checkLiDAR_atMost : atMost 2 checkLiDARProc.
Proof. unfold checkLiDARProc. atMost_count. Qed.

End HandlerFacts.
