(* ===== verification/Screen.v ===== *)
(** * Screen: the element tree and the style sheet

    What [HomeScreen] returns (lines 287-335) as the tree of elements it
    is written as, with the style sheet of lines 338-433 as the data it
    is.  A style object is the list of its properties in the order of the
    source; a [style] attribute is one object or an array whose entries
    may be [false]; a child that is [false] is not shown.

    The tree is tied to the summary [render] of [Lifecycle], on which the
    machine of [Scheduler] presses the button: the one button of the tree
    is disabled exactly when the summary says so, its handler is the
    [takePicture] of the render, and the texts of the tree are those the
    summary stands for. *)

From S2P Require Import Prelude JsNumber JsString Collaborators Cycle Lifecycle Async.

Local Open Scope string_scope.

(** ** Styles *)

(** The value of a style property: a number, a string, or an object
    (the [shadowOffset] of line 414). *)
#[local] Unset Elimination Schemes.

Inductive StyleValue : Set :=
| Num (n : number)
| Str (s : string)
| Obj (fields : list (string * StyleValue)).

Definition Style : Set := list (string * StyleValue).

(** A [style] attribute: an object, or an array of objects and [false]
    entries (line 319). *)
Inductive StyleProp : Set :=
| One (style : Style)
| Many (entries : list (option Style)).

(** [condition && style] inside a style array. *)
Definition andStyle (condition : bool) (style : Style) : option Style :=
  if condition then Some style else None.

(** The style sheet (lines 338-433). *)
Module styles.

Definition container : Style :=
  [("flex", Num 1); ("backgroundColor", Str "#000")].

Definition content : Style :=
  [("flex", Num 1); ("justifyContent", Str "space-between");
   ("paddingTop", Num 60); ("paddingBottom", Num 50)].

Definition header : Style :=
  [("alignItems", Str "center"); ("padding", Num 20)].

Definition title : Style :=
  [("color", Str "white"); ("fontSize", Num 32); ("fontWeight", Str "bold");
   ("marginBottom", Num 10)].

Definition lidarBadge : Style :=
  [("backgroundColor", Str "rgba(0, 255, 0, 0.3)"); ("paddingHorizontal", Num 12);
   ("paddingVertical", Num 6); ("borderRadius", Num 15); ("borderWidth", Num 1);
   ("borderColor", Str "#00ff00")].

Definition lidarText : Style :=
  [("color", Str "#00ff00"); ("fontSize", Num 14); ("fontWeight", Str "bold")].

Definition instructionContainer : Style :=
  [("backgroundColor", Str "rgba(255, 255, 255, 0.1)"); ("padding", Num 20);
   ("margin", Num 20); ("borderRadius", Num 15)].

Definition instructionText : Style :=
  [("color", Str "white"); ("fontSize", Num 18); ("textAlign", Str "center");
   ("lineHeight", Num 26)].

Definition instructionSubtext : Style :=
  [("color", Str "#00ff00"); ("fontSize", Num 14); ("textAlign", Str "center");
   ("marginTop", Num 10)].

Definition resultContainer : Style :=
  [("backgroundColor", Str "rgba(0, 122, 255, 0.2)"); ("padding", Num 25);
   ("margin", Num 20); ("borderRadius", Num 15); ("borderWidth", Num 2);
   ("borderColor", Str "#007AFF")].

Definition resultText : Style :=
  [("color", Str "white"); ("fontSize", Num 20); ("textAlign", Str "center");
   ("lineHeight", Num 30); ("fontWeight", Str "500")].

Definition controlsContainer : Style :=
  [("alignItems", Str "center")].

Definition captureButton : Style :=
  [("width", Num 90); ("height", Num 90); ("borderRadius", Num 45);
   ("backgroundColor", Str "#007AFF"); ("justifyContent", Str "center");
   ("alignItems", Str "center"); ("shadowColor", Str "#007AFF");
   ("shadowOffset", Obj [("width", Num 0); ("height", Num 4)]);
   ("shadowOpacity", Num 0.5); ("shadowRadius", Num 10); ("elevation", Num 8)].

Definition captureButtonDisabled : Style :=
  [("backgroundColor", Str "#666"); ("shadowColor", Str "#000")].

Definition captureButtonText : Style :=
  [("fontSize", Num 45)].

Definition buttonLabel : Style :=
  [("color", Str "white"); ("fontSize", Num 18); ("marginTop", Num 15);
   ("fontWeight", Str "600")].

End styles.

(** ** Elements *)

(** The elements [HomeScreen] is made of, with the attributes it gives
    them.  A child is an element or [false]. *)
Inductive Element : Type :=
| View (style : StyleProp) (children : list (option Element))
| Text (style : StyleProp) (children : string)
| TouchableOpacity (style : StyleProp) (onPress : Proc unit) (disabled : bool)
    (accessibilityLabel : string) (children : list (option Element))
| ActivityIndicator (size color : string).

(** [condition && element] among the children of an element. *)
Definition andElement (condition : bool) (element : Element) : option Element :=
  if condition then Some element else None.

(** The [return] of [HomeScreen] (lines 287-335) for a render that sees
    the cells [s]. *)
Definition HomeScreen (s : ScreenState) : Element :=
  View (One styles.container)
    [Some (View (One styles.content)
       [Some (View (One styles.header)
          [Some (Text (One styles.title) "SeeWithYou");
           andElement (hasLiDAR s)
             (View (One styles.lidarBadge)
                [Some (Text (One styles.lidarText) "📡 LiDAR Active")])]);
        Some (if to_boolean (result s) then
                View (One styles.resultContainer)
                  [Some (Text (One styles.resultText) (result s))]
              else
                View (One styles.instructionContainer)
                  [Some (Text (One styles.instructionText)
                     "Tap the button to take a picture and analyze your surroundings");
                   andElement (hasLiDAR s)
                     (Text (One styles.instructionSubtext)
                        "Using LiDAR for accurate distance measurement")]);
        Some (View (One styles.controlsContainer)
          [Some (TouchableOpacity
             (Many [Some styles.captureButton;
                    andStyle (analyzing s) styles.captureButtonDisabled])
             (takePictureProc s)
             (analyzing s)
             "Take picture and analyze"
             [Some (if analyzing s then ActivityIndicator "large" "white"
                    else Text (One styles.captureButtonText) "📸")]);
           Some (Text (One styles.buttonLabel)
                   (if analyzing s then "Analyzing..." else "Tap to Analyze"))])])].

(** ** Reading a tree *)

(** The elements of a tree, parents first, in the order of the source. *)
Fixpoint elements (e : Element) : list Element :=
  e ::
  match e with
  | View _ children | TouchableOpacity _ _ _ _ children =>
      (fix each (l : list (option Element)) : list Element :=
         match l with
         | [] => []
         | Some child :: l' => (elements child ++ each l')%list
         | None :: l' => each l'
         end) children
  | Text _ _ | ActivityIndicator _ _ => []
  end.

(** The texts a tree shows. *)
Definition textOf (e : Element) : option string :=
  match e with
  | Text _ children => Some children
  | _ => None
  end.

Fixpoint choose {A B : Type} (f : A -> option B) (l : list A) : list B :=
  match l with
  | [] => []
  | a :: l' =>
      match f a with
      | Some b => b :: choose f l'
      | None => choose f l'
      end
  end.

Definition shownTexts (e : Element) : list string := choose textOf (elements e).

(** The buttons of a tree: whether each is disabled, and its handler. *)
Definition buttonOf (e : Element) : option (bool * Proc unit) :=
  match e with
  | TouchableOpacity _ onPress disabled _ _ => Some (disabled, onPress)
  | _ => None
  end.

Definition buttons (e : Element) : list (bool * Proc unit) := choose buttonOf (elements e).

Definition isSpinner (e : Element) : bool :=
  match e with
  | ActivityIndicator _ _ => true
  | _ => false
  end.

(** The value of a property in the style that an attribute comes to: in
    an array a later entry overrides an earlier one and [false] counts
    for nothing. *)
Fixpoint property (name : string) (style : Style) : option StyleValue :=
  match style with
  | [] => None
  | (key, value) :: rest => if (key =? name)%string then Some value else property name rest
  end.

Fixpoint propertyOfEntries (name : string) (entries : list (option Style)) : option StyleValue :=
  match entries with
  | [] => None
  | entry :: rest =>
      match propertyOfEntries name rest with
      | Some value => Some value
      | None =>
          match entry with
          | Some style => property name style
          | None => None
          end
      end
  end.

Definition styled (name : string) (p : StyleProp) : option StyleValue :=
  match p with
  | One style => property name style
  | Many entries => propertyOfEntries name entries
  end.

Definition styleOf (e : Element) : option StyleProp :=
  match e with
  | View style _ | Text style _ | TouchableOpacity style _ _ _ _ => Some style
  | ActivityIndicator _ _ => None
  end.

(** ** The tree and the summary *)

Section Tree.
Implicit Types (s : ScreenState).

(** The texts on the screen: the title, the badge when the sensor is
    known, the result or the instructions, the camera sign unless busy,
    and the label under the button. *)
Lemma HomeScreen_texts s :
  shownTexts (HomeScreen s) =
  (["SeeWithYou"] ++ (if lidarBadge (render s) then ["📡 LiDAR Active"] else []) ++
   match body (render s) with
   | ResultText text => [text]
   | Instructions lidarSubtext =>
       "Tap the button to take a picture and analyze your surroundings" ::
       (if lidarSubtext then ["Using LiDAR for accurate distance measurement"] else [])
   end ++
   (if buttonSpinner (render s) then [] else ["📸"]) ++ [buttonLabel (render s)])%list.
Proof.
  unfold HomeScreen, render, shownTexts. cbn [lidarBadge body buttonSpinner buttonLabel].
  destruct (hasLiDAR s), (to_boolean (result s)), (analyzing s); reflexivity.
Qed.

(** The screen has one button: it is disabled exactly when the summary
    says so, and pressing it calls the [takePicture] of this render. *)
Lemma HomeScreen_buttons s :
  buttons (HomeScreen s) = [(buttonDisabled (render s), takePictureProc s)].
Proof.
  unfold HomeScreen, render, buttons. cbn [buttonDisabled].
  destruct (hasLiDAR s), (to_boolean (result s)), (analyzing s); reflexivity.
Qed.

(** The spinner is shown exactly while the summary says so. *)
Lemma HomeScreen_spinner s :
  existsb isSpinner (elements (HomeScreen s)) = buttonSpinner (render s).
Proof.
  unfold HomeScreen, render. cbn [buttonSpinner].
  destruct (hasLiDAR s), (to_boolean (result s)), (analyzing s); reflexivity.
Qed.

(** The colour of the button: grey while busy, blue otherwise; its size
    does not change. *)
Lemma HomeScreen_button_style s :
  forall e, In e (elements (HomeScreen s)) -> buttonOf e <> None ->
  exists style,
    styleOf e = Some style /\
    styled "backgroundColor" style = Some (Str (if analyzing s then "#666" else "#007AFF")) /\
    styled "width" style = Some (Num 90) /\ styled "height" style = Some (Num 90).
Proof.
  intros e He Hb. unfold HomeScreen in He.
  destruct (hasLiDAR s), (to_boolean (result s)), (analyzing s); cbn in He;
    repeat (destruct He as [<-|He]; [try (now contradiction Hb); eexists; repeat split|]);
    try contradiction.
Qed.

End Tree.
