(* ===== verification/Scheduler.v ===== *)
(** * Scheduler: the screen between events

    [HomeScreen] lives on an event loop.  The mount effect calls
    [checkLiDAR] (line 31), a press of the button calls the [takePicture]
    of the last render (line 320), and each of them runs until its next
    [await]; the promise it waits for settles later, in a turn of its own,
    and in between anything else may happen: another press, the turn of
    another handler, a render.  A configuration holds the four cells of
    [useState], the values the last render closed over, the trace, and
    the handlers that are suspended.

    The handlers are the processes of [Async]; one turn is [advance].
    The theorems: the configurations reached when every turn is followed
    by a render are well formed (at most one cycle in flight, the busy
    flag up exactly while it is); a cycle that nothing interrupts is the
    [tap] of [Cycle]; every schedule without presses ends, within a
    bound, with nothing in flight and the button enabled; and two presses
    of one render start two cycles. *)

From Stdlib Require Import Relations RelationClasses.
From S2P Require Import Prelude JsNumber JsString Collaborators Cycle Lifecycle Async Screen.

(** ** Configurations *)

(** Which handler a suspended process is the rest of. *)
Inductive Handler : Set :=
| CheckLiDAR
| TakePicture.

Definition sameHandler (h h' : Handler) : bool :=
  match h, h' with
  | CheckLiDAR, CheckLiDAR => true
  | TakePicture, TakePicture => true
  | _, _ => false
  end.

Definition Suspended : Type := Handler * Proc unit.

(** A list without its [i]-th element. *)
Definition without {A : Type} (i : nat) (q : list A) : list A :=
  firstn i q ++ skipn (S i) q.

Record Config : Type := mkConfig {
  screen : ScreenState;
  rendered : ScreenState;
  events : trace;
  waiting : list Suspended
}.

(** A handler is called, or resumed: it runs to its next suspension and,
    unless it has settled, joins the suspended handlers. *)
Definition launch (w : World) (h : Handler) (p : Proc unit) (c : Config) : Config :=
  match advance p w (screen c) (events c) with
  | (Done _, s, t) => mkConfig s (rendered c) t (waiting c)
  | (Waiting rest, s, t) => mkConfig s (rendered c) t (waiting c ++ [(h, rest)])
  end.

(** [HomeScreen] runs again: the handlers and the view it creates close
    over the current values of the cells (lines 25-28). *)
Definition rerender (c : Config) : Config :=
  mkConfig (screen c) (screen c) (events c) (waiting c).

(** After the first render the effect of lines 30-37 calls [checkLiDAR]. *)
Definition mounted (w : World) : Config :=
  launch w CheckLiDAR checkLiDARProc (mkConfig initialState initialState [] []).

(** A press of the button of the current view (lines 318-322): nothing
    when the view shows it disabled, a call of its [onPress] otherwise. *)
Definition press (w : World) (c : Config) : Config :=
  match buttons (HomeScreen (rendered c)) with
  | (disabled, onPress) :: _ => if disabled then c else launch w TakePicture onPress c
  | [] => c
  end.

(** The promise that the [i]-th suspended handler awaits has settled:
    the handler takes its turn. *)
Definition resume (w : World) (i : nat) (c : Config) : option Config :=
  match nth_error (waiting c) i with
  | None => None
  | Some (h, p) =>
      Some (launch w h p
              (mkConfig (screen c) (rendered c) (events c) (without i (waiting c))))
  end.

(** What happens next: the user presses the button, the promise that the
    [i]-th suspended handler awaits settles, or the screen renders. *)
Inductive Action : Set :=
| Tap
| Resume (i : nat)
| Render.

Definition step (w : World) (l : Action) (c : Config) : option Config :=
  match l with
  | Tap => Some (press w c)
  | Resume i => resume w i c
  | Render => Some (rerender c)
  end.

Fixpoint steps (w : World) (ls : list Action) (c : Config) : option Config :=
  match ls with
  | [] => Some c
  | l :: ls' =>
      match step w l c with
      | Some c' => steps w ls' c'
      | None => None
      end
  end.

(** The configurations of a screen that renders after every turn. *)
Inductive reachable (w : World) : Config -> Prop :=
| reachable_mounted : reachable w (mounted w)
| reachable_step c l c' :
    reachable w c -> step w l c = Some c' -> reachable w (rerender c').

(** The first suspended handler is resumed, [fuel] times at most. *)
Fixpoint drain (fuel : nat) (w : World) (c : Config) : Config :=
  match fuel with
  | O => c
  | S fuel' =>
      match resume w 0 c with
      | Some c' => drain fuel' w c'
      | None => c
      end
  end.

(** The screen after the mount and the actions [ls], each followed by a
    render; an action that cannot happen is skipped. *)
Fixpoint played (w : World) (ls : list Action) (c : Config) : Config :=
  match ls with
  | [] => c
  | l :: ls' =>
      match step w l c with
      | Some c' => played w ls' (rerender c')
      | None => played w ls' c
      end
  end.

(** ** Well-formed configurations *)

(** How many handlers of a kind are suspended. *)
Definition inFlight (h : Handler) (q : list Suspended) : nat :=
  length (filter (fun e => sameHandler h (fst e)) q).

(** What is known of a suspended handler: the rest of a cycle keeps the
    flag up until it settles, the rest of [checkLiDAR] never writes it;
    neither suspends more often than the whole handler can. *)
Definition budget (h : Handler) : nat :=
  match h with
  | CheckLiDAR => 2
  | TakePicture => 17
  end.

Definition expected (e : Suspended) : Prop :=
  atMost (budget (fst e)) (snd e) /\
  match fst e with
  | CheckLiDAR => quiet resolved (snd e)
  | TakePicture => closes true (snd e)
  end.

Record wf (c : Config) : Prop := mkWf {
  wf_cycles : inFlight TakePicture (waiting c) = if analyzing (screen c) then 1 else 0;
  wf_checks : inFlight CheckLiDAR (waiting c) <= 1;
  wf_waiting : Forall expected (waiting c)
}.

(** The view is the one of the current cells. *)
Definition fresh (c : Config) : Prop := rendered c = screen c.

(** ** Schedules *)

Definition isTap (l : Action) : bool :=
  match l with
  | Tap => true
  | _ => false
  end.

Definition isResume (l : Action) : bool :=
  match l with
  | Resume _ => true
  | _ => false
  end.

Definition tapFree (ls : list Action) : bool := forallb (fun l => negb (isTap l)) ls.

Definition resumptions (ls : list Action) : nat := length (filter isResume ls).

(** What the suspended handlers can still do: one turn each, and one
    more for every suspension left. *)
Inductive owes : nat -> list Suspended -> Prop :=
| owes_nil : owes 0 []
| owes_cons m n h p q : atMost m p -> owes n q -> owes (S m + n) ((h, p) :: q).

(** ** The suspended handlers *)

Section Queue.
Implicit Types (h : Handler) (q : list Suspended) (e : Suspended) (i : nat).

Lemma nth_error_parts {A : Type} (l : list A) i a :
  nth_error l i = Some a -> l = firstn i l ++ a :: skipn (S i) l.
Proof.
  revert i; induction l as [|b l IH]; intros [|i] H; cbn in *; try discriminate.
  - now injection H as ->.
  - f_equal. now apply IH.
Qed.

Lemma inFlight_app h q q' : inFlight h (q ++ q') = inFlight h q + inFlight h q'.
Proof. unfold inFlight. now rewrite filter_app, length_app. Qed.

Lemma inFlight_nth h q i e :
  nth_error q i = Some e ->
  inFlight h q = (if sameHandler h (fst e) then 1 else 0) + inFlight h (without i q).
Proof.
  intros H. rewrite (nth_error_parts q i e H) at 1. unfold without.
  rewrite !inFlight_app. unfold inFlight at 2. cbn [filter].
  destruct (sameHandler h (fst e)); cbn [length]; fold (inFlight h (skipn (S i) q)); lia.
Qed.

Lemma Forall_without (P : Suspended -> Prop) q i e :
  nth_error q i = Some e -> Forall P q -> P e /\ Forall P (without i q).
Proof.
  intros H Hq. rewrite (nth_error_parts q i e H) in Hq. unfold without.
  apply Forall_app in Hq as [H1 H2]. inversion H2; subst. split; [assumption|].
  now apply Forall_app.
Qed.

End Queue.

(** ** Every turn keeps the configuration well formed *)

Section WellFormed.
Implicit Types (w : World) (c : Config) (p : Proc unit).

(** A turn of a cycle, called with the flag down or resumed with the
    flag up, while no other cycle is suspended. *)
Lemma launch_cycle w p c :
  inFlight TakePicture (waiting c) = 0 -> inFlight CheckLiDAR (waiting c) <= 1 ->
  Forall expected (waiting c) ->
  closes (analyzing (screen c)) p -> atMost 17 p ->
  wf (launch w TakePicture p c).
Proof.
  intros Hc Hl Hq Hp Hn. unfold launch.
  pose proof (flag_advance _ _ p w (screen c) (events c) Hp) as G.
  pose proof (atMost_advance 17 p w (screen c) (events c) Hn) as W.
  destruct (advance p w (screen c) (events c)) as [[[r|rest] s] t]; cbn beta iota in G.
  - split; cbn [screen waiting]; rewrite ?G; auto.
  - destruct G as [G1 G2], W as (m & Hm & W). rewrite G1 in G2.
    split; cbn [screen waiting]; rewrite ?G1, ?inFlight_app; cbn; try lia.
    apply Forall_app. split; [assumption|]. repeat constructor; cbn; [|assumption].
    apply (atMost_mono m); [lia|assumption].
Qed.

(** A turn of [checkLiDAR] while no other one is suspended. *)
Lemma launch_check w p c :
  inFlight TakePicture (waiting c) = (if analyzing (screen c) then 1 else 0) ->
  inFlight CheckLiDAR (waiting c) = 0 ->
  Forall expected (waiting c) ->
  quiet resolved p -> atMost 2 p ->
  wf (launch w CheckLiDAR p c).
Proof.
  intros Hc Hl Hq Hp Hn. unfold launch.
  pose proof (quiet_advance _ p w (screen c) (events c) Hp) as G.
  pose proof (atMost_advance 2 p w (screen c) (events c) Hn) as W.
  destruct (advance p w (screen c) (events c)) as [[[r|rest] s] t].
  - destruct G as [_ G]. split; cbn [screen waiting]; rewrite ?G; auto. lia.
  - destruct G as [G1 G2], W as (m & Hm & W).
    split; cbn [screen waiting]; rewrite ?G1, ?inFlight_app; cbn; try lia.
    apply Forall_app. split; [assumption|]. repeat constructor; cbn; [|assumption].
    apply (atMost_mono m); [lia|assumption].
Qed.

Lemma mounted_wf w : wf (mounted w) /\ fresh (mounted w).
Proof.
  split.
  - apply launch_check; cbn; auto using checkLiDAR_quiet, checkLiDAR_atMost.
  - unfold fresh, mounted, launch. cbn. now destruct (ARKitDepthModule w).
Qed.

(** At most one cycle is in flight. *)
Lemma wf_single c : wf c -> inFlight TakePicture (waiting c) <= 1.
Proof. intros [Hc _ _]. rewrite Hc. destruct (analyzing (screen c)); lia. Qed.

(** A turn adds no handler of any kind. *)
Lemma resume_inFlight w h i c c' :
  resume w i c = Some c' -> inFlight h (waiting c') <= inFlight h (waiting c).
Proof.
  unfold resume. destruct (nth_error (waiting c) i) as [[h' p]|] eqn:E; [|discriminate].
  intros [= <-]. rewrite (inFlight_nth h _ _ _ E). unfold launch. cbn [screen events waiting].
  destruct (advance p w (screen c) (events c)) as [[[r|rest] s] t]; cbn [waiting fst].
  - lia.
  - rewrite inFlight_app. unfold inFlight at 2. cbn. destruct (sameHandler h h'); cbn; lia.
Qed.

Lemma rerender_wf c : wf c -> wf (rerender c).
Proof. intros [? ? ?]. split; assumption. Qed.

(** The button of the view is the one of the summary, and its handler
    the [takePicture] of the render. *)
Lemma press_button w c :
  press w c =
  if analyzing (rendered c) then c
  else launch w TakePicture (takePictureProc (rendered c)) c.
Proof. unfold press. now rewrite HomeScreen_buttons. Qed.

Lemma press_wf w c : wf c -> fresh c -> wf (press w c).
Proof.
  intros [Hc Hl Hq] Hf. rewrite press_button, Hf.
  destruct (analyzing (screen c)) eqn:Ha; [now split; rewrite ?Ha|].
  apply launch_cycle; rewrite ?Ha; auto using takePicture_closes, takePicture_atMost.
Qed.

Lemma resume_wf w i c c' : wf c -> resume w i c = Some c' -> wf c'.
Proof.
  intros [Hc Hl Hq]. unfold resume.
  destruct (nth_error (waiting c) i) as [[h p]|] eqn:E; [|discriminate].
  intros [= <-]. destruct (Forall_without _ _ _ _ E Hq) as [[Hn Hp] Hq'].
  rewrite (inFlight_nth TakePicture _ _ _ E) in Hc.
  rewrite (inFlight_nth CheckLiDAR _ _ _ E) in Hl.
  destruct h; cbn in Hc, Hl, Hn, Hp.
  - apply launch_check; cbn [waiting screen]; auto. lia.
  - destruct (analyzing (screen c)) eqn:Ha; [|discriminate].
    apply launch_cycle; cbn [waiting screen]; rewrite ?Ha; auto; lia.
Qed.

Lemma step_wf w l c c' : wf c -> fresh c -> step w l c = Some c' -> wf c'.
Proof.
  intros Hc Hf. destruct l as [|i|]; cbn [step].
  - intros [= <-]. now apply press_wf.
  - now apply resume_wf.
  - intros [= <-]. now apply rerender_wf.
Qed.

(** C37 (well-formed configurations).  While every turn is followed by
    a render, whatever the collaborators answer and however presses and
    turns interleave: the view is the one of the current cells, at most
    one cycle and at most one [checkLiDAR] are in flight, the busy flag
    is up exactly while a cycle is in flight, and a press while it is up
    changes nothing. *)
Theorem reachable_wf w c :
  reachable w c ->
  rendered c = screen c /\
  inFlight TakePicture (waiting c) = (if analyzing (screen c) then 1 else 0) /\
  inFlight CheckLiDAR (waiting c) <= 1 /\
  (analyzing (screen c) = true -> press w c = c).
Proof.
  intros H. assert (wf c /\ fresh c) as [[Hc Hl _] Hf].
  { induction H as [|c l c' _ [Hc Hf] Hstep]; [apply mounted_wf|].
    split; [apply rerender_wf; now apply (step_wf w l c)|reflexivity]. }
  repeat split; try assumption.
  intros Ha. now rewrite press_button, Hf, Ha.
Qed.

(** The invariant, for the theorems on schedules. *)
Lemma reachable_invariant w c : reachable w c -> wf c /\ fresh c.
Proof.
  induction 1 as [|c l c' _ [Hc Hf] Hstep]; [apply mounted_wf|].
  split; [apply rerender_wf; now apply (step_wf w l c)|reflexivity].
Qed.

Lemma played_reachable w ls c : reachable w c -> reachable w (played w ls c).
Proof.
  revert c; induction ls as [|l ls IH]; intros c Hc; cbn [played]; [assumption|].
  destruct (step w l c) as [c'|] eqn:E; apply IH; [|assumption].
  now apply (reachable_step w c l).
Qed.

End WellFormed.

(** ** Schedules end *)

Section Termination.
Implicit Types (w : World) (c : Config) (q : list Suspended) (n m k : nat).

Lemma owes_app n m q q' : owes n q -> owes m q' -> owes (n + m) (q ++ q').
Proof.
  induction 1 as [|m0 n0 h p q Hp _ IH]; intros Hq'; [assumption|].
  cbn [app]. replace (S m0 + n0 + m) with (S m0 + (n0 + m)) by lia.
  constructor; auto.
Qed.

Lemma owes_nth n q i h p :
  owes n q -> nth_error q i = Some (h, p) ->
  exists m k, atMost m p /\ owes k (without i q) /\ n = S m + k.
Proof.
  intros Hq; revert i; induction Hq as [|m0 n0 h0 p0 q Hp Hq IH]; intros [|i] E;
    cbn in E; try discriminate.
  - injection E as -> ->. exists m0, n0. auto.
  - destruct (IH i E) as (m & k & Hm & Hk & ->).
    exists m, (S m0 + k). repeat split; [assumption| |lia].
    unfold without in *. cbn [firstn skipn app]. now constructor.
Qed.

Lemma owes_nil_inv q : owes 0 q -> q = [].
Proof. now inversion 1. Qed.

(** A turn of a handler owes no more than the handler did. *)
Lemma launch_owes w h p c m k :
  atMost m p -> owes k (waiting c) ->
  exists n, owes n (waiting (launch w h p c)) /\ n <= m + k.
Proof.
  intros Hp Hq. unfold launch.
  pose proof (atMost_advance m p w (screen c) (events c) Hp) as W.
  destruct (advance p w (screen c) (events c)) as [[[r|rest] s] t]; cbn [waiting].
  - exists k. split; [assumption|lia].
  - destruct W as (m' & -> & W). exists (k + (S m' + 0)). split; [|lia].
    apply owes_app; [assumption|]. now repeat constructor.
Qed.

(** A resumption pays one turn of the debt. *)
Lemma resume_owes w i c c' n :
  owes n (waiting c) -> resume w i c = Some c' ->
  exists n', owes n' (waiting c') /\ S n' <= n.
Proof.
  intros Hq. unfold resume.
  destruct (nth_error (waiting c) i) as [[h p]|] eqn:E; [|discriminate].
  intros [= <-]. destruct (owes_nth _ _ _ _ _ Hq E) as (m & k & Hm & Hk & ->).
  destruct (launch_owes w h p (mkConfig (screen c) (rendered c) (events c)
                                        (without i (waiting c))) m k Hm Hk) as (n' & ? & ?).
  exists n'. split; [assumption|lia].
Qed.

Lemma steps_owes w ls c c' n :
  tapFree ls = true -> owes n (waiting c) -> steps w ls c = Some c' ->
  exists n', owes n' (waiting c') /\ resumptions ls + n' <= n.
Proof.
  revert c n; induction ls as [|[|i|] ls IH]; intros c n Hls Hq; cbn in *;
    try discriminate.
  - intros [= <-]. exists n. split; [assumption|lia].
  - destruct (resume w i c) as [c1|] eqn:E; [|discriminate]. intros Hs.
    destruct (resume_owes _ _ _ _ _ Hq E) as (n1 & Hq1 & ?).
    destruct (IH c1 n1 Hls Hq1 Hs) as (n' & ? & ?).
    exists n'. unfold resumptions in *. split; [assumption|lia].
  - apply (IH (rerender c) n Hls Hq).
Qed.

Lemma steps_wf w ls c c' : tapFree ls = true -> wf c -> steps w ls c = Some c' -> wf c'.
Proof.
  revert c; induction ls as [|[|i|] ls IH]; intros c Hls Hc; cbn in *; try discriminate.
  - now intros [= <-].
  - destruct (resume w i c) as [c1|] eqn:E; [|discriminate].
    apply IH; [assumption|]. now apply (resume_wf w i c).
  - apply IH; [assumption|]. now apply rerender_wf.
Qed.

(** What well-formed suspended handlers owe. *)
Lemma expected_owes q :
  Forall expected q ->
  exists n, owes n q /\ n <= 18 * inFlight TakePicture q + 3 * inFlight CheckLiDAR q.
Proof.
  induction 1 as [|[h p] q [Hn _] _ (n & Hq & Hle)]; [exists 0; split; [constructor|lia]|].
  exists (S (budget h) + n). split; [now constructor|].
  change ((h, p) :: q) with ([(h, p)] ++ q). rewrite !inFlight_app.
  destruct h; cbn in *; lia.
Qed.

Lemma wf_owes c : wf c -> exists n, owes n (waiting c) /\ n <= 21.
Proof.
  intros [Hc Hl Hq]. destruct (expected_owes _ Hq) as (n & Hn & Hle).
  exists n. split; [assumption|]. destruct (analyzing (screen c)); lia.
Qed.

Lemma drain_wf fuel w c : wf c -> wf (drain fuel w c).
Proof.
  revert c; induction fuel as [|fuel IH]; intros c Hc; cbn [drain]; [assumption|].
  destruct (resume w 0 c) as [c'|] eqn:E; [|assumption].
  apply IH. now apply (resume_wf w 0 c).
Qed.

(** Fuel for the debt empties the list of suspended handlers. *)
Lemma drain_idle fuel w c n :
  owes n (waiting c) -> n <= fuel -> waiting (drain fuel w c) = [].
Proof.
  revert c n; induction fuel as [|fuel IH]; intros c n Hq Hle; cbn [drain].
  - apply owes_nil_inv. now replace 0 with n by lia.
  - destruct (resume w 0 c) as [c'|] eqn:E.
    + destruct (resume_owes _ _ _ _ _ Hq E) as (n' & Hq' & ?). apply (IH c' n'); [assumption|lia].
    + unfold resume in E. destruct (waiting c) as [|[h p] q]; [reflexivity|discriminate].
Qed.

(** C39 (every cycle ends).  From a configuration of a screen that
    renders after every turn, and as long as the button is not pressed
    again: no schedule resumes suspended handlers more than 21 times,
    and resuming them in turn, 21 times at most, leaves nothing in
    flight, the busy flag down and the button enabled. *)
Theorem schedule_finishes w c :
  reachable w c ->
  (forall ls c', tapFree ls = true -> steps w ls c = Some c' -> resumptions ls <= 21) /\
  waiting (drain 21 w c) = [] /\
  analyzing (screen (drain 21 w c)) = false /\
  buttonDisabled (render (screen (drain 21 w c))) = false.
Proof.
  intros H. destruct (reachable_invariant w c H) as [Hc _].
  destruct (wf_owes c Hc) as (n & Hq & Hle).
  assert (waiting (drain 21 w c) = []) as Hidle by now apply (drain_idle 21 w c n).
  assert (analyzing (screen (drain 21 w c)) = false) as Hflag.
  { destruct (drain_wf 21 w c Hc) as [Hc' _ _]. rewrite Hidle in Hc'.
    now destruct (analyzing (screen (drain 21 w c))). }
  repeat split; try assumption.
  intros ls c' Hls Hs. destruct (steps_owes w ls c c' n Hls Hq Hs) as (n' & _ & ?). lia.
Qed.

End Termination.

(** ** A cycle that nothing interrupts *)

Section Uninterrupted.
Implicit Types (w : World) (c : Config) (p : Proc unit) (s rd : ScreenState) (t : trace).

(** The state and the trace in which a process ends when its turns
    follow one another. *)
Definition finished (w : World) (p : Proc unit) (s rd : ScreenState) (t : trace) : Config :=
  match run p w s t with
  | (_, s', t') => mkConfig s' rd t' []
  end.

Lemma drain_nil fuel w c : waiting c = [] -> drain fuel w c = c.
Proof. intros H. destruct fuel; cbn [drain]; [reflexivity|]. unfold resume. now rewrite H. Qed.

(** A handler suspended alone, with fuel for its suspensions. *)
Lemma drain_run fuel w h p s rd t n :
  atMost n p -> n < fuel ->
  drain fuel w (mkConfig s rd t [(h, p)]) = finished w p s rd t.
Proof.
  revert p s t n; induction fuel as [|fuel IH]; intros p s t n Hp Hn; [lia|].
  unfold finished. rewrite run_advance. cbn [drain]. unfold resume, launch, without. cbn.
  pose proof (atMost_advance n p w s t Hp) as W.
  destruct (advance p w s t) as [[[r|rest] s'] t'].
  - now apply drain_nil.
  - destruct W as (m & -> & W). apply (IH rest s' t' m); [assumption|lia].
Qed.

(** A handler called while nothing is suspended. *)
Lemma launch_run w h p c :
  waiting c = [] -> atMost 17 p ->
  drain 18 w (launch w h p c) = finished w p (screen c) (rendered c) (events c).
Proof.
  intros Hq Hp. unfold launch, finished at 1. rewrite run_advance, Hq.
  pose proof (atMost_advance 17 p w (screen c) (events c) Hp) as W.
  destruct (advance p w (screen c) (events c)) as [[[r|rest] s'] t'].
  - now apply drain_nil.
  - destruct W as (m & [= <-] & W).
    apply (drain_run 18 w h rest s' (rendered c) t' 16); [assumption|lia].
Qed.

(** C38 (the machine refines the cycle).  A press while nothing is in
    flight and the view is current, followed by the turns of the cycle it
    starts and by nothing else, leaves the cells and the trace of [tap]:
    what is proved of [tap] holds of the cycles of the machine that
    nothing interrupts. *)
Theorem press_refines_tap w c :
  waiting c = [] -> rendered c = screen c ->
  (screen (drain 18 w (press w c)), events (drain 18 w (press w c))) =
    tap w (screen c) (events c) /\
  waiting (drain 18 w (press w c)) = [].
Proof.
  intros Hq Hf. rewrite press_button, Hf. unfold tap.
  destruct (analyzing (screen c)) eqn:Ha.
  - rewrite drain_nil, takePicture_guard by auto. auto.
  - rewrite launch_run by auto using takePicture_atMost. unfold finished.
    rewrite Hf, (takePicture_same (screen c) w).
    now destruct (takePicture (screen c) w (screen c) (events c)) as [[r s'] t'].
Qed.

End Uninterrupted.

(** ** A view that lags *)

Section Stale.
Implicit Types (w : World) (c : Config).

(** A cycle that passes the guard suspends with the flag up, having
    asked the speech service to stop. *)
Lemma takePicture_suspends w c :
  CameraModule w = true -> analyzing (rendered c) = false ->
  exists rest,
    launch w TakePicture (takePictureProc (rendered c)) c =
    mkConfig (withAnalyzing true (screen c)) (rendered c) (events c ++ [SpeechStop])
             (waiting c ++ [(TakePicture, rest)]).
Proof.
  intros Hw Ha. unfold launch, takePictureProc. cbn. rewrite Hw, Ha. cbn. eauto.
Qed.

(** C40 (what the guard does not prevent).  The guard of line 101 and
    the [disabled] of line 321 read the flag of the render that created
    them.  If the button is pressed twice before the screen renders
    again, both presses pass: two cycles are in flight, which no screen
    that renders after every turn can reach. *)
Theorem stale_view_two_cycles w c :
  CameraModule w = true -> analyzing (rendered c) = false ->
  inFlight TakePicture (waiting (press w (press w c))) =
    inFlight TakePicture (waiting c) + 2 /\
  ~ reachable w (press w (press w c)).
Proof.
  intros Hw Ha.
  assert (forall c0, analyzing (rendered c0) = false ->
            rendered (press w c0) = rendered c0 /\
            inFlight TakePicture (waiting (press w c0)) =
              inFlight TakePicture (waiting c0) + 1) as Hpress.
  { intros c0 Ha0. rewrite press_button, Ha0.
    destruct (takePicture_suspends w c0 Hw Ha0) as [rest ->]. cbn [rendered waiting].
    now rewrite inFlight_app. }
  destruct (Hpress c Ha) as [Hr H1]. rewrite <- Hr in Ha.
  destruct (Hpress (press w c) Ha) as [_ H2].
  split; [lia|]. intros Hreach.
  destruct (reachable_invariant w _ Hreach) as [[Hc _ _] _].
  destruct (analyzing (screen (press w (press w c)))); lia.
Qed.

End Stale.

(** ** Witnesses *)

(** The screen of [quietWorld] after a press and a render. *)
Definition pressedOnce : Config := rerender (press quietWorld (mounted quietWorld)).

Lemma pressedOnce_reachable : reachable quietWorld pressedOnce.
Proof.
  apply (reachable_step quietWorld (mounted quietWorld) Tap); [apply reachable_mounted|].
  reflexivity.
Defined.

Lemma reachable_wf_witness :
  rendered pressedOnce = screen pressedOnce /\
  inFlight TakePicture (waiting pressedOnce) =
    (if analyzing (screen pressedOnce) then 1 else 0) /\
  inFlight CheckLiDAR (waiting pressedOnce) <= 1 /\
  (analyzing (screen pressedOnce) = true -> press quietWorld pressedOnce = pressedOnce).
Proof. apply reachable_wf. apply pressedOnce_reachable. Defined.

Lemma schedule_finishes_witness :
  (forall ls c', tapFree ls = true -> steps quietWorld ls pressedOnce = Some c' ->
                 resumptions ls <= 21) /\
  waiting (drain 21 quietWorld pressedOnce) = [] /\
  analyzing (screen (drain 21 quietWorld pressedOnce)) = false /\
  buttonDisabled (render (screen (drain 21 quietWorld pressedOnce))) = false.
Proof. apply schedule_finishes. apply pressedOnce_reachable. Defined.

(** A screen on which nothing is in flight. *)
Definition idle : Config := mkConfig initialState initialState [] [].

Lemma press_refines_tap_witness :
  (screen (drain 18 quietWorld (press quietWorld idle)),
   events (drain 18 quietWorld (press quietWorld idle))) =
    tap quietWorld (screen idle) (events idle) /\
  waiting (drain 18 quietWorld (press quietWorld idle)) = [].
Proof. apply press_refines_tap; reflexivity. Defined.

Lemma stale_view_two_cycles_witness :
  inFlight TakePicture (waiting (press quietWorld (press quietWorld idle))) =
    inFlight TakePicture (waiting idle) + 2 /\
  ~ reachable quietWorld (press quietWorld (press quietWorld idle)).
Proof. apply stale_view_two_cycles; reflexivity. Defined.

(** The cycle of [quietWorld] on the machine, turn by turn: the trace
    after the press and after each of the first resumptions. *)
Example machine_quietWorld :
  events (press quietWorld idle) = [SpeechStop] /\
  events (drain 1 quietWorld (press quietWorld idle)) =
    [SpeechStop; SpeechSpeak "Opening camera" speechOptions] /\
  events (drain 3 quietWorld (press quietWorld idle)) =
    [SpeechStop; SpeechSpeak "Opening camera" speechOptions; CameraTakePicture] /\
  analyzing (screen (drain 3 quietWorld (press quietWorld idle))) = true /\
  length (waiting (drain 3 quietWorld (press quietWorld idle))) = 1 /\
  analyzing (screen (drain 11 quietWorld (press quietWorld idle))) = true /\
  length (waiting (drain 11 quietWorld (press quietWorld idle))) = 1 /\
  analyzing (screen (drain 12 quietWorld (press quietWorld idle))) = false /\
  length (waiting (drain 12 quietWorld (press quietWorld idle))) = 0.
Proof. vm_compute. repeat split. Qed.

(** Two presses of the first render: the camera is opened twice. *)
Example double_press_quietWorld :
  let c := drain 6 quietWorld (press quietWorld (press quietWorld idle)) in
  filter (fun ev => match ev with CameraTakePicture => true | _ => false end) (events c) =
    [CameraTakePicture; CameraTakePicture].
Proof. vm_compute. reflexivity. Qed.
