(* ===== verification/Monitors.v ===== *)
(** * Monitors: the protocols of the trace under interleaving

    [Protocol] checks the trace of a session in which every handler runs
    in one piece.  On the machine of [Scheduler] the turns of [checkLiDAR]
    come between the turns of a cycle, so an event of the one may stand
    between two events of the other, and a check on adjacent events is
    a check on the events it is about: the calls of the speech service
    for [speechOk], the calls of the two cloud services for [uploadOk].

    A check becomes an observer of the processes of [Async]: its state is
    the last event it is about.  A cycle is guarded from any state of the
    observer, [checkLiDAR] is neutral to it, and since at most one cycle
    is in flight on a screen that renders after every turn, the observer
    never refuses an event of a reachable configuration. *)

From Stdlib Require Import Relations RelationClasses.
From S2P Require Import Prelude JsNumber JsString Base64 Labels Describe Collaborators.
From S2P Require Import Cycle Lifecycle Protocol Async Screen Scheduler.

Local Open Scope list_scope.

(** ** The observer of a check *)

(** A check [ok] on the events that [relevant] picks, as an observer:
    an event of the others and a write are let through, an event it is
    about is checked against the last one. *)
Definition watch (relevant : Event -> bool) (ok : option Event -> Event -> bool)
    (e : Effect) (x : option Event) : option (option Event) :=
  match e with
  | Emits ev =>
      if relevant ev then if ok x ev then Some (Some ev) else None
      else Some x
  | Writes _ => Some x
  end.

(** The trace passes the check, and [x] is the last event it is about. *)
Definition watched (relevant : Event -> bool) (ok : option Event -> Event -> bool)
    (x : option Event) (s : ScreenState) (t : trace) : Prop :=
  adjacent ok None (filter relevant t) = true /\ lastOf None (filter relevant t) = x.

(** The calls of the speech service, and of the two cloud services. *)
Definition isSpeech (ev : Event) : bool :=
  match ev with
  | SpeechStop | SpeechSpeak _ _ => true
  | _ => false
  end.

Definition isCloud (ev : Event) : bool :=
  match ev with
  | S3Send _ | RekognitionSend _ => true
  | _ => false
  end.

Section Monitored.
Context (relevant : Event -> bool) (ok : option Event -> Event -> bool).

(** What the observer knows of a suspended handler: the rest of a cycle
    is guarded from the observer's state, the rest of [checkLiDAR] is
    neutral. *)
Definition observed (x : option Event) (e : Suspended) : Prop :=
  match fst e with
  | TakePicture =>
      guards (watch relevant ok) (fun _ => True) (fun _ _ => True) x (snd e)
  | CheckLiDAR => neutral (watch relevant ok) resolved (snd e)
  end.

Definition monitored (c : Config) : Prop :=
  exists x, watched relevant ok x (screen c) (events c) /\ Forall (observed x) (waiting c).

End Monitored.

(** ** The observer on the machine *)

Section Machine.
Context (relevant : Event -> bool) (ok : option Event -> Event -> bool).
Implicit Types (w : World) (c : Config) (p : Proc unit) (x : option Event).

Lemma watched_next e x x' s t :
  watched relevant ok x s t -> watch relevant ok e x = Some x' ->
  watched relevant ok x' (fst (effected e s t)) (snd (effected e s t)).
Proof.
  unfold watched. intros [Ha Hl]. destruct e as [ev|wr]; cbn; [|now intros [= <-]].
  rewrite filter_app. cbn [filter]. destruct (relevant ev).
  - rewrite adjacent_snoc, lastOf_snoc, Ha, Hl. now destruct (ok x ev); intros [= <-].
  - rewrite app_nil_r. now intros [= <-].
Qed.

(** While no cycle is suspended, what is known of the suspended handlers
    does not depend on the observer's state. *)
Lemma observed_any x x' (q : list Suspended) :
  inFlight TakePicture q = 0 -> Forall (observed relevant ok x) q ->
  Forall (observed relevant ok x') q.
Proof.
  induction q as [|[h p] q IH]; intros Hc Hq; [constructor|].
  inversion Hq as [|e q' Hp Hq']; subst. destruct h; [|discriminate Hc].
  constructor; [exact Hp|apply IH; [exact Hc|exact Hq']].
Qed.

(** The handlers are what the observer needs them to be. *)
Hypothesis cycle_guarded : forall rendered x,
  guards (watch relevant ok) (fun _ => True) (fun _ _ => True) x (takePictureProc rendered).
Hypothesis check_neutral : neutral (watch relevant ok) resolved checkLiDARProc.

Lemma launch_cycle_monitored w p c x :
  watched relevant ok x (screen c) (events c) ->
  guards (watch relevant ok) (fun _ => True) (fun _ _ => True) x p ->
  inFlight TakePicture (waiting c) = 0 -> Forall (observed relevant ok x) (waiting c) ->
  monitored relevant ok (launch w TakePicture p c).
Proof.
  intros Hx Hp Hc Hq. unfold launch.
  pose proof (guards_advance _ _ watched_next _ _ p w (screen c) (events c) x Hx Hp) as G.
  destruct (advance p w (screen c) (events c)) as [[[r|rest] s] t];
    destruct G as (x' & Hx' & G); exists x'; (split; [exact Hx'|]); cbn [waiting].
  - now apply (observed_any x).
  - apply Forall_app. split; [now apply (observed_any x)|]. repeat constructor. apply G.
Qed.

Lemma launch_check_monitored w p c x :
  watched relevant ok x (screen c) (events c) ->
  neutral (watch relevant ok) resolved p -> Forall (observed relevant ok x) (waiting c) ->
  monitored relevant ok (launch w CheckLiDAR p c).
Proof.
  intros Hx Hp Hq. unfold launch.
  pose proof (neutral_advance _ _ watched_next _ p w (screen c) (events c) x Hx Hp) as G.
  destruct (advance p w (screen c) (events c)) as [[[r|rest] s] t];
    destruct G as [Hx' G]; exists x; (split; [exact Hx'|]); cbn [waiting]; [assumption|].
  apply Forall_app. split; [assumption|]. repeat constructor. apply G.
Qed.

Lemma mounted_monitored w : monitored relevant ok (mounted w).
Proof. apply (launch_check_monitored w _ _ None); [split| |constructor]; auto. Qed.

Lemma press_monitored w c :
  wf c -> fresh c -> monitored relevant ok c -> monitored relevant ok (press w c).
Proof.
  intros [Hc _ _] Hf (x & Hx & Hq). rewrite press_button, Hf.
  destruct (analyzing (screen c)) eqn:Ha; [now exists x|].
  now apply (launch_cycle_monitored w _ c x).
Qed.

Lemma resume_monitored w i c c' :
  inFlight TakePicture (waiting c) <= 1 -> monitored relevant ok c ->
  resume w i c = Some c' -> monitored relevant ok c'.
Proof.
  intros Hc (x & Hx & Hq). unfold resume.
  destruct (nth_error (waiting c) i) as [[h p]|] eqn:E; [|discriminate].
  intros [= <-]. destruct (Forall_without _ _ _ _ E Hq) as [Hp Hq'].
  rewrite (inFlight_nth TakePicture _ _ _ E) in Hc.
  destruct h; cbn in Hc, Hp.
  - now apply (launch_check_monitored w p _ x).
  - apply (launch_cycle_monitored w p _ x); auto. cbn [waiting]. lia.
Qed.

Lemma reachable_monitored w c : reachable w c -> monitored relevant ok c.
Proof.
  induction 1 as [|c l c' Hreach IH Hstep]; [apply mounted_monitored|].
  destruct (reachable_invariant w c Hreach) as [Hc Hf].
  assert (monitored relevant ok c') as (x & Hx & Hq); [|now exists x].
  destruct l as [|i|]; cbn [step] in Hstep.
  - injection Hstep as <-. now apply press_monitored.
  - apply (resume_monitored w i c); [now apply wf_single|exact IH|exact Hstep].
  - injection Hstep as <-. exact IH.
Qed.

(** On a screen that renders after every turn, the trace passes the
    check on the events it is about. *)
Lemma reachable_adjacent w c :
  reachable w c -> adjacent ok None (filter relevant (events c)) = true.
Proof. intros H. destruct (reachable_monitored w c H) as (x & [Ha _] & _). exact Ha. Qed.

End Machine.

(** ** Speech *)

(** The observer of the speech check. *)
Definition speech : Effect -> option Event -> option (option Event) :=
  watch isSpeech speechOk.

Section Speech.
Implicit Types (rendered : ScreenState) (text data : string) (x : option Event).

(** [speakText] stops before it speaks, whatever the speech service did
    last. *)
Lemma speakText_speech text x :
  guards speech (fun _ => True) (fun r _ => resolved r) x (speakTextProc text).
Proof. unfold speakTextProc. unfold_proc. repeat guards_step. Qed.

Lemma getARKitDistance_speech rendered : neutral speech resolved (getARKitDistanceProc rendered).
Proof. unfold getARKitDistanceProc. unfold_proc. repeat guards_step. Qed.

Lemma base64ToUint8Array_speech data : neutral speech settled (base64ToUint8ArrayProc data).
Proof. unfold base64ToUint8ArrayProc. unfold_proc. repeat guards_step. Qed.

#[local] Hint Resolve speakText_speech getARKitDistance_speech base64ToUint8Array_speech : async.

Lemma attempt_speech rendered x :
  guards speech (fun _ => True) (fun r _ => settled r) x (attemptProc rendered).
Proof. unfold attemptProc. unfold_proc. repeat guards_step. Qed.

#[local] Hint Resolve attempt_speech : async.

Lemma takePicture_speech rendered x :
  guards speech (fun _ => True) (fun _ _ => True) x (takePictureProc rendered).
Proof. unfold takePictureProc, recoverProc. unfold_proc. repeat guards_step. Qed.

Lemma checkLiDAR_speech : neutral speech resolved checkLiDARProc.
Proof. unfold checkLiDARProc. unfold_proc. repeat guards_step. Qed.

End Speech.

(** ** Upload before analysis *)

(** The observer of the upload check. *)
Definition cloud : Effect -> option Event -> option (option Event) :=
  watch isCloud uploadOk.

Section Cloud.
Implicit Types (rendered : ScreenState) (text data : string) (x : option Event).

Lemma speakText_cloud text : neutral cloud resolved (speakTextProc text).
Proof. unfold speakTextProc. unfold_proc. repeat guards_step. Qed.

Lemma getARKitDistance_cloud rendered : neutral cloud resolved (getARKitDistanceProc rendered).
Proof. unfold getARKitDistanceProc. unfold_proc. repeat guards_step. Qed.

Lemma base64ToUint8Array_cloud data : neutral cloud settled (base64ToUint8ArrayProc data).
Proof. unfold base64ToUint8ArrayProc. unfold_proc. repeat guards_step. Qed.

#[local] Hint Resolve speakText_cloud getARKitDistance_cloud base64ToUint8Array_cloud : async.

(** The [try] block asks for the analysis of the object it has just
    uploaded, whatever the cloud services did last. *)
Lemma attempt_cloud rendered x :
  guards cloud (fun _ => True) (fun r _ => settled r) x (attemptProc rendered).
Proof. unfold attemptProc. unfold_proc. repeat guards_step. Qed.

#[local] Hint Resolve attempt_cloud : async.

Lemma takePicture_cloud rendered x :
  guards cloud (fun _ => True) (fun _ _ => True) x (takePictureProc rendered).
Proof. unfold takePictureProc, recoverProc. unfold_proc. repeat guards_step. Qed.

Lemma checkLiDAR_cloud : neutral cloud resolved checkLiDARProc.
Proof. unfold checkLiDARProc. unfold_proc. repeat guards_step. Qed.

End Cloud.

(** ** The protocols on the machine *)

Section Protocols.
Implicit Types (w : World) (c : Config).

(** C25 (one utterance at a time, under interleaving).  On a screen
    that renders after every turn, however the turns of [checkLiDAR] and
    of the cycles interleave and whatever the collaborators answer: the
    calls of the speech service pass the speech check, so the call of
    the speech service before a request to speak is a request to stop. *)
Theorem machine_disciplined w c :
  reachable w c ->
  disciplined (filter isSpeech (events c)) /\
  forall pre text options post,
    events c = pre ++ SpeechSpeak text options :: post ->
    exists pre', filter isSpeech pre = pre' ++ [SpeechStop].
Proof.
  intros H.
  pose proof (reachable_adjacent isSpeech speechOk takePicture_speech checkLiDAR_speech
                w c H) as Hd.
  split; [exact Hd|]. intros pre text options post E.
  apply (disciplined_at _ _ text options (filter isSpeech post) Hd).
  now rewrite E, filter_app.
Qed.

(** C28 (upload before analysis, under interleaving).  On a screen that
    renders after every turn: the calls of the cloud services pass the
    upload check, so the call before a request for analysis is the
    upload of the object it names, bucket and key. *)
Theorem machine_uploadedFirst w c :
  reachable w c ->
  uploadedFirst (filter isCloud (events c)) /\
  forall pre detect post,
    events c = pre ++ RekognitionSend detect :: post ->
    exists pre' put,
      filter isCloud pre = pre' ++ [S3Send put] /\
      put_Bucket put = detect_Bucket detect /\ put_Key put = detect_Name detect.
Proof.
  intros H.
  pose proof (reachable_adjacent isCloud uploadOk takePicture_cloud checkLiDAR_cloud
                w c H) as Hd.
  split; [exact Hd|]. intros pre detect post E.
  apply (uploadedFirst_at _ _ detect (filter isCloud post) Hd).
  now rewrite E, filter_app.
Qed.

End Protocols.

(** ** Witnesses *)

(** On a device with the sensor the button is pressed while
    [checkLiDAR] waits for its first answer; [checkLiDAR] takes its
    second turn between the first two turns of the cycle, and then the
    handlers take their turns until none is left. *)
Definition interleaved : Config :=
  played lidarWorld (Tap :: repeat (Resume 0) 20) (mounted lidarWorld).

Lemma interleaved_reachable : reachable lidarWorld interleaved.
Proof. apply played_reachable, reachable_mounted. Defined.

Lemma machine_disciplined_witness :
  disciplined (filter isSpeech (events interleaved)) /\
  forall pre text options post,
    events interleaved = pre ++ SpeechSpeak text options :: post ->
    exists pre', filter isSpeech pre = pre' ++ [SpeechStop].
Proof. exact (machine_disciplined lidarWorld interleaved interleaved_reachable). Defined.

Lemma machine_uploadedFirst_witness :
  uploadedFirst (filter isCloud (events interleaved)) /\
  forall pre detect post,
    events interleaved = pre ++ RekognitionSend detect :: post ->
    exists pre' put,
      filter isCloud pre = pre' ++ [S3Send put] /\
      put_Bucket put = detect_Bucket detect /\ put_Key put = detect_Name detect.
Proof. exact (machine_uploadedFirst lidarWorld interleaved interleaved_reachable). Defined.

(** The trace of that screen: the start of the depth session stands
    between the stop and the first utterance, so the whole trace does
    not pass the speech check of [Protocol], while its speech calls
    do. *)
Example interleaved_trace :
  firstn 5 (events interleaved) =
    [IsLiDARAvailable; SpeechStop; StartDepthSession;
     SpeechSpeak "Opening camera" speechOptions; CameraTakePicture] /\
  adjacent speechOk None (events interleaved) = false /\
  adjacent speechOk None (filter isSpeech (events interleaved)) = true /\
  waiting interleaved = [] /\
  screen interleaved =
    mkState false
      "Objects detected. I see a chair about 8 to 10 feet away on your left, a bottle about more than 15 feet away below and on your right."
      true true.
Proof. vm_compute. repeat split. Qed.
