(* ===== verification/Teardown.v ===== *)
(** * Teardown: the screen goes away while handlers are in flight

    The mount effect returns a cleanup (lines 32-36) that the runtime
    calls when the screen is unmounted.  The effect has an empty
    dependency list, so the cleanup the runtime holds is the one the
    first render created, with the cells as that render saw them.  The
    unmount cancels nothing: a handler that awaits a promise is resumed
    when the promise settles, its calls of the collaborators are made,
    and only its writes are lost, the cells being gone.

    [teardown] is the unmount on the machine of [Scheduler], [late] a
    turn of a handler after it, [gone] the configurations after the
    unmount of a screen that rendered after every turn.  The theorems:
    no request to stop the depth session is ever made, before the
    unmount, by it, or after it; and the handlers in flight at the
    unmount come to their end within the bound of [Scheduler], the trace
    growing and the cells untouched. *)

From Stdlib Require Import Relations RelationClasses.
From S2P Require Import Prelude JsNumber JsString Base64 Labels Describe Collaborators.
From S2P Require Import Cycle Lifecycle Protocol Async Screen Scheduler Monitors.

Local Open Scope list_scope.

(** ** The unmount on the machine *)

(** The runtime calls the cleanup of the first render.  The cleanup awaits
    nothing, so its one turn is the whole of it. *)
Definition teardown (w : World) (c : Config) : Config :=
  match advance (cleanupProc initialState) w (screen c) (events c) with
  | (_, s, t) => mkConfig s (rendered c) t (waiting c)
  end.

(** After the unmount the promise that the [i]-th suspended handler
    awaits settles: the handler takes its turn, and what it writes to
    the cells is lost. *)
Definition late (w : World) (i : nat) (c : Config) : option Config :=
  match resume w i c with
  | Some c' => Some (mkConfig (screen c) (rendered c) (events c') (waiting c'))
  | None => None
  end.

(** The configurations after the unmount of a screen that rendered after
    every turn. *)
Inductive gone (w : World) : Config -> Prop :=
| gone_teardown c : reachable w c -> gone w (teardown w c)
| gone_late c i c' : gone w c -> late w i c = Some c' -> gone w c'.

(** The first suspended handler is resumed after the unmount, [fuel]
    times at most. *)
Fixpoint outlive (fuel : nat) (w : World) (c : Config) : Config :=
  match fuel with
  | O => c
  | S fuel' =>
      match late w 0 c with
      | Some c' => outlive fuel' w c'
      | None => c
      end
  end.

(** ** The observer of the depth session *)

(** The requests to stop the depth session, none of which is allowed. *)
Definition isStop (ev : Event) : bool :=
  match ev with
  | StopDepthSession => true
  | _ => false
  end.

Definition never (prev : option Event) (ev : Event) : bool := false.

Definition depth : Effect -> option Event -> option (option Event) :=
  watch isStop never.

(** ** Turns after the unmount *)

Section Late.
Implicit Types (w : World) (c : Config) (i : nat).

Lemma late_resume w i c c' :
  late w i c = Some c' ->
  exists c1, resume w i c = Some c1 /\ screen c' = screen c /\ rendered c' = rendered c /\
             events c' = events c1 /\ waiting c' = waiting c1.
Proof.
  unfold late. destruct (resume w i c) as [c1|]; [|discriminate].
  intros [= <-]. now exists c1.
Qed.

Lemma late_inFlight w h i c c' :
  late w i c = Some c' -> inFlight h (waiting c') <= inFlight h (waiting c).
Proof.
  intros H. destruct (late_resume w i c c' H) as (c1 & E & _ & _ & _ & ->).
  now apply (resume_inFlight w h i c).
Qed.

Lemma late_owes w i c c' n :
  owes n (waiting c) -> late w i c = Some c' -> exists n', owes n' (waiting c') /\ S n' <= n.
Proof.
  intros Hq H. destruct (late_resume w i c c' H) as (c1 & E & _ & _ & _ & ->).
  now apply (resume_owes w i c).
Qed.

Lemma resume_extends w i c c' : resume w i c = Some c' -> exists t, events c' = events c ++ t.
Proof.
  unfold resume. destruct (nth_error (waiting c) i) as [[h p]|]; [|discriminate].
  intros [= <-]. unfold launch. cbn [screen events].
  destruct (advance_extends p w (screen c) (events c)) as [t E].
  destruct (advance p w (screen c) (events c)) as [[[r|rest] s] t']; now exists t.
Qed.

Lemma late_extends w i c c' : late w i c = Some c' -> exists t, events c' = events c ++ t.
Proof.
  intros H. destruct (late_resume w i c c' H) as (c1 & E & _ & _ & -> & _).
  now apply (resume_extends w i c).
Qed.

(** Fuel for the debt empties the list of suspended handlers; the cells
    stay, the trace grows. *)
Lemma outlive_idle fuel w c n :
  owes n (waiting c) -> n <= fuel ->
  waiting (outlive fuel w c) = [] /\ screen (outlive fuel w c) = screen c /\
  exists t, events (outlive fuel w c) = events c ++ t.
Proof.
  revert c n; induction fuel as [|fuel IH]; intros c n Hq Hle; cbn [outlive].
  - split; [apply owes_nil_inv; now replace 0 with n by lia|].
    split; [reflexivity|exists []; now rewrite app_nil_r].
  - destruct (late w 0 c) as [c'|] eqn:E.
    + destruct (late_owes _ _ _ _ _ Hq E) as (n' & Hq' & ?).
      destruct (IH c' n' Hq') as (Hw & Hs & t & Ht); [lia|].
      destruct (late_resume _ _ _ _ E) as (_ & _ & Hs' & _).
      destruct (late_extends _ _ _ _ E) as [t' Ht'].
      split; [exact Hw|]. split; [congruence|].
      exists (t' ++ t). now rewrite Ht, Ht', app_assoc.
    + split; [|split; [reflexivity|exists []; now rewrite app_nil_r]].
      unfold late, resume in E. destruct (waiting c) as [|[h p] q]; [reflexivity|discriminate].
Qed.

Lemma outlive_gone fuel w c : gone w c -> gone w (outlive fuel w c).
Proof.
  revert c; induction fuel as [|fuel IH]; intros c Hc; cbn [outlive]; [assumption|].
  destruct (late w 0 c) as [c'|] eqn:E; [|assumption].
  apply IH. now apply (gone_late w c 0).
Qed.

End Late.

(** The turns of the handlers [turns] after the unmount, in this order. *)
Fixpoint lates (w : World) (turns : list nat) (c : Config) : option Config :=
  match turns with
  | [] => Some c
  | i :: rest =>
      match late w i c with
      | Some c' => lates w rest c'
      | None => None
      end
  end.

Lemma lates_owes w turns c c' n :
  owes n (waiting c) -> lates w turns c = Some c' -> length turns <= n.
Proof.
  revert c n; induction turns as [|i turns IH]; intros c n Hq; cbn [lates length]; [lia|].
  destruct (late w i c) as [c1|] eqn:E; [|discriminate]. intros Hs.
  destruct (late_owes _ _ _ _ _ Hq E) as (n1 & Hq1 & ?).
  pose proof (IH c1 n1 Hq1 Hs). lia.
Qed.

(** ** No handler stops the depth session *)

Section Depth.
Implicit Types (rendered : ScreenState) (text data : string) (x : option Event).

Lemma speakText_depth text : neutral depth resolved (speakTextProc text).
Proof. unfold speakTextProc. unfold_proc. repeat guards_step. Qed.

Lemma getARKitDistance_depth rendered : neutral depth resolved (getARKitDistanceProc rendered).
Proof. unfold getARKitDistanceProc. unfold_proc. repeat guards_step. Qed.

Lemma base64ToUint8Array_depth data : neutral depth settled (base64ToUint8ArrayProc data).
Proof. unfold base64ToUint8ArrayProc. unfold_proc. repeat guards_step. Qed.

#[local] Hint Resolve speakText_depth getARKitDistance_depth base64ToUint8Array_depth : async.

Lemma attempt_depth rendered : neutral depth settled (attemptProc rendered).
Proof. unfold attemptProc. unfold_proc. repeat guards_step. Qed.

#[local] Hint Resolve attempt_depth : async.

Lemma takePicture_depth rendered : neutral depth settled (takePictureProc rendered).
Proof. unfold takePictureProc, recoverProc. unfold_proc. repeat guards_step. Qed.

Lemma checkLiDAR_depth : neutral depth resolved checkLiDARProc.
Proof. unfold checkLiDARProc. unfold_proc. repeat guards_step. Qed.

Lemma takePicture_stopless rendered x :
  guards depth (fun _ => True) (fun _ _ => True) x (takePictureProc rendered).
Proof. apply (neutral_guards depth settled); [apply takePicture_depth|exact I|now intros]. Qed.

(** A trace that the observer lets through has no request to stop. *)
Lemma stopless t : adjacent never None (filter isStop t) = true -> neverStopped t.
Proof.
  unfold neverStopped. intros H Hin.
  assert (In StopDepthSession (filter isStop t)) as Hf by now apply filter_In.
  destruct (filter isStop t); [contradiction|discriminate H].
Qed.

End Depth.

(** ** The unmount *)

Section Unmount.
Implicit Types (w : World) (c : Config).

(** A turn after the unmount keeps what the observer knows. *)
Lemma late_monitored relevant ok w i c c' :
  inFlight TakePicture (waiting c) <= 1 -> monitored relevant ok c ->
  late w i c = Some c' -> monitored relevant ok c'.
Proof.
  intros Hc Hm E. destruct (late_resume w i c c' E) as (c1 & E1 & _ & _ & He & Hw).
  destruct (resume_monitored relevant ok w i c c1 Hc Hm E1) as (x & Hx & Hq).
  exists x. unfold watched in *. now rewrite He, Hw.
Qed.

(** C17 (the depth session is never stopped).  On the event loop,
    through every interleaving of presses, turns and renders, through
    the unmount and every turn after it, whatever the collaborators
    answer: [stopDepthSession] is never called.  The cleanup of line 32
    is the one of the first render, which saw no session, so a session
    started at mount outlives the screen. *)
Theorem machine_neverStopped w c : gone w c -> neverStopped (events c).
Proof.
  intros H. apply stopless.
  assert (monitored isStop never c /\ inFlight TakePicture (waiting c) <= 1)
    as [(x & [Ha _] & _) _]; [|exact Ha].
  induction H as [c Hc|c i c' _ [Hm Hc] E].
  - unfold teardown. cbn. split.
    + exact (reachable_monitored isStop never takePicture_stopless checkLiDAR_depth w c Hc).
    + apply wf_single, (reachable_invariant w c Hc).
  - split; [now apply (late_monitored isStop never w i c)|].
    pose proof (late_inFlight w TakePicture i c c' E). lia.
Qed.

(** C32 (the handlers outlive the screen).  The unmount cancels nothing
    and changes nothing.  The handlers in flight take their turns after
    it, 21 at most in any order; when they have taken them nothing is
    left in flight, the cells are as the unmount found them, and the
    trace is the trace at the unmount with the calls made since. *)
Theorem teardown_finishes w c :
  reachable w c ->
  teardown w c = c /\
  (forall turns c', lates w turns (teardown w c) = Some c' -> length turns <= 21) /\
  waiting (outlive 21 w (teardown w c)) = [] /\
  screen (outlive 21 w (teardown w c)) = screen c /\
  exists t, events (outlive 21 w (teardown w c)) = events c ++ t.
Proof.
  intros H. destruct (reachable_invariant w c H) as [Hc _].
  destruct (wf_owes c Hc) as (n & Hq & Hle).
  assert (teardown w c = c) as -> by now destruct c.
  split; [reflexivity|]. split; [|now apply (outlive_idle 21 w c n)].
  intros turns c' Hs. pose proof (lates_owes w turns c c' n Hq Hs). lia.
Qed.

End Unmount.

(** ** Witnesses *)

(** The screen of [interleaved] is unmounted after the second turn of
    the cycle, while the photo is being taken. *)
Definition leaving : Config :=
  played lidarWorld [Tap; Resume 0; Resume 0; Resume 0] (mounted lidarWorld).

Definition left : Config := outlive 21 lidarWorld (teardown lidarWorld leaving).

Lemma leaving_reachable : reachable lidarWorld leaving.
Proof. apply played_reachable, reachable_mounted. Defined.

Lemma machine_neverStopped_witness : neverStopped (events left).
Proof.
  apply (machine_neverStopped lidarWorld left), outlive_gone, gone_teardown, leaving_reachable.
Defined.

Lemma teardown_finishes_witness :
  teardown lidarWorld leaving = leaving /\
  (forall turns c',
     lates lidarWorld turns (teardown lidarWorld leaving) = Some c' -> length turns <= 21) /\
  waiting left = [] /\
  screen left = screen leaving /\
  exists t, events left = events leaving ++ t.
Proof. exact (teardown_finishes lidarWorld leaving leaving_reachable). Defined.

(** What that screen leaves behind: the depth session that [checkLiDAR]
    started is active at the unmount and is not stopped, and the cycle
    goes on to upload, to analyse and to speak a description that no
    screen shows. *)
Example left_trace :
  arSessionActive (screen leaving) = true /\
  In StartDepthSession (events leaving) /\
  filter isSpeech (skipn (length (events leaving)) (events left)) =
    [SpeechStop; SpeechSpeak "Analyzing" speechOptions; SpeechStop;
     SpeechSpeak
       "Objects detected. I see a chair about 8 to 10 feet away on your left, a bottle about more than 15 feet away below and on your right."
       speechOptions] /\
  filter isStop (events left) = [] /\
  result (screen left) = EmptyString.
Proof. vm_compute. intuition. Qed.
